(** * DHT20 sensor acquisition pipeline (components/dht20_api)

    A shallow embedding of [dht20_api.c]: the frame codec (CRC-8 and
    bit unpacking), the raw-to-physical conversion, the poll-with-timeout
    read, the calibration offset and the exponential smoothing filter.

    Integers are [Z] with the C wrap-around written out, [float] is IEEE
    binary32 (SpecFloat with 24 bits of precision), pointers that may be
    NULL are [option]s holding the pointee, and the I2C driver, the
    microsecond timer and the FreeRTOS delay are operations on an explicit
    world that the driver functions thread through their calls. *)

From Stdlib Require Import ZArith List Bool Lia.
From Stdlib Require Import Floats.SpecFloat.
From Stdlib Require Ascii.
Import ListNotations.
Local Open Scope Z_scope.

(** ** Fixed-width unsigned integers *)

Definition u8 (x : Z) : Z := x mod 2 ^ 8.
Definition u32 (x : Z) : Z := x mod 2 ^ 32.
Definition u64 (x : Z) : Z := x mod 2 ^ 64.

Definition is_byte (b : Z) : bool := (0 <=? b) && (b <? 256).

(** ** esp_err.h: the status codes of ESP-IDF used by the driver *)

Definition esp_err_t := Z.

Definition ESP_OK : esp_err_t := 0.
Definition ESP_FAIL : esp_err_t := -1.
Definition ESP_ERR_INVALID_ARG : esp_err_t := 0x102.
Definition ESP_ERR_INVALID_STATE : esp_err_t := 0x103.
Definition ESP_ERR_TIMEOUT : esp_err_t := 0x107.
Definition ESP_ERR_INVALID_CRC : esp_err_t := 0x109.

(** ** IEEE binary32, the C type [float] *)

Module F32.

Definition prec : Z := 24.
Definition emax : Z := 128.

Definition float := spec_float.

Definition add : float -> float -> float := SFadd prec emax.
Definition sub : float -> float -> float := SFsub prec emax.
Definition mul : float -> float -> float := SFmul prec emax.
Definition div : float -> float -> float := SFdiv prec emax.

(** [x < y] and [x <= y]; both are false as soon as one side is a NaN. *)
Definition ltb : float -> float -> bool := SFltb.
Definition leb : float -> float -> bool := SFleb.

(** Conversion of an integer, rounding to nearest even: [(float)n]. *)
Definition of_Z (z : Z) : float := binary_normalize prec emax z 0 false.

Definition valid (x : float) : bool := valid_binary prec emax x.

Definition is_nan (x : float) : bool :=
  match x with S754_nan => true | _ => false end.

(** [isfinite] of math.h. *)
Definition isfinite (x : float) : bool :=
  match x with
  | S754_zero _ | S754_finite _ _ _ => true
  | S754_infinity _ | S754_nan => false
  end.

(** The literals of the source. *)
Definition zero : float := S754_zero false.
Definition one : float := Eval vm_compute in of_Z 1.
Definition c50 : float := Eval vm_compute in of_Z 50.
Definition c100 : float := Eval vm_compute in of_Z 100.
Definition c200 : float := Eval vm_compute in of_Z 200.
Definition c1048576 : float := Eval vm_compute in of_Z 1048576.

End F32.

(** ** dht20_api.h *)

(** DHT20 device descriptor. *)
Record dht20_t := {
  i2c_port : Z;
  i2c_addr : Z;
  i2c_timeout_ms : Z
}.

(** One decoded DHT20 sample. *)
Record dht20_sample_t := {
  timestamp_us : Z;
  humidity_raw : Z;
  temperature_raw : Z;
  humidity_rh : F32.float;
  temperature_c : F32.float
}.

(** Exponential moving average state for signal smoothing. *)
Record dht20_filter_t := {
  initialized : bool;
  alpha : F32.float;
  f_humidity_rh : F32.float;
  f_temperature_c : F32.float
}.

(** ** dht20_api.c: constants *)

Definition DHT20_STATUS_BUSY_MASK : Z := Z.shiftl 1 7.
Definition DHT20_STATUS_CAL_MASK : Z := Z.shiftl 1 3.
Definition DHT20_DATA_LEN : nat := 7.

(** [raw[i]] for an array held as a list. *)
Definition at_ (raw : list Z) (i : nat) : Z := nth i raw 0.

(** A frame as the bus delivers it: [DHT20_DATA_LEN] bytes. *)
Definition is_frame (raw : list Z) : bool :=
  (length raw =? DHT20_DATA_LEN)%nat && forallb is_byte raw.

(** ** dht20_crc8 *)

(** One pass of the inner loop: [crc] is a [uint8_t], the shift is done on
    the promoted [int] and the result is cast back. *)
Definition crc8_shift (crc : Z) : Z :=
  if negb (Z.land crc 0x80 =? 0)
  then u8 (Z.lxor (Z.shiftl crc 1) 0x31)
  else u8 (Z.shiftl crc 1).

(** [for (bit = 0; bit < 8; bit++)], counted down. *)
Fixpoint crc8_bits (n : nat) (crc : Z) : Z :=
  match n with
  | O => crc
  | S n' => crc8_bits n' (crc8_shift crc)
  end.

(** [for (i = ...; i < len; i++)] with [n] iterations left. *)
Fixpoint crc8_bytes (data : list Z) (i n : nat) (crc : Z) : Z :=
  match n with
  | O => crc
  | S n' => crc8_bytes data (S i) n' (crc8_bits 8 (u8 (Z.lxor crc (at_ data i))))
  end.

Definition dht20_crc8 (data : list Z) (len : nat) : Z :=
  crc8_bytes data 0 len 0xFF.

(** ** The checksum as the specification words it

    An 8-bit CRC, polynomial 0x31, initial value 0xFF, message bits taken
    most significant first, no final XOR: the register is shifted left once
    per message bit, and the polynomial is added whenever the bit leaving
    the register differs from the incoming message bit. *)

Definition msb_first (b : Z) : list bool :=
  map (Z.testbit b) [7; 6; 5; 4; 3; 2; 1; 0].

Definition crc_feed (poly : Z) (reg : Z) (inbit : bool) : Z :=
  let shifted := (2 * reg) mod 256 in
  if xorb (Z.testbit reg 7) inbit then Z.lxor shifted poly else shifted.

Definition spec_crc8 (msg : list Z) : Z :=
  fold_left (crc_feed 0x31) (flat_map msb_first msg) 0xFF.

(** ** dht20_clampf *)

Definition dht20_clampf (value min_v max_v : F32.float) : F32.float :=
  if F32.ltb value min_v then min_v
  else if F32.ltb max_v value then max_v
  else value.

(** ** The driver functions that talk to the outside

    [World] is the state of everything outside the driver: the I2C bus with
    the sensor behind it, the microsecond timer and the scheduler.  The four
    operations are those of ESP-IDF and FreeRTOS that the source calls;
    [i2c_master_read_from_device] receives the buffer and hands back its
    contents after the transfer. *)

Section Driver.

Variable World : Type.
Variable i2c_master_read_from_device :
  Z -> Z -> list Z -> nat -> Z -> World -> esp_err_t * list Z * World.
Variable esp_timer_get_time : World -> Z * World.
Variable vTaskDelay : Z -> World -> World.
Variable pdMS_TO_TICKS : Z -> Z.

Definition dht20_read_raw (dev : dht20_t) (rx : list Z) (rx_len : nat)
    (w : World) : esp_err_t * list Z * World :=
  let timeout_ticks := pdMS_TO_TICKS (i2c_timeout_ms dev) in
  i2c_master_read_from_device (i2c_port dev) (i2c_addr dev) rx rx_len
    timeout_ticks w.

Definition dht20_parse_sample (raw : list Z) (sample : dht20_sample_t)
    (w : World) : esp_err_t * dht20_sample_t * World :=
  if negb (Z.land (at_ raw 0) DHT20_STATUS_BUSY_MASK =? 0) then
    (ESP_ERR_INVALID_STATE, sample, w)
  else if negb (dht20_crc8 raw (DHT20_DATA_LEN - 1)
                =? at_ raw (DHT20_DATA_LEN - 1)) then
    (ESP_ERR_INVALID_CRC, sample, w)
  else
    let humidity_raw :=
      Z.lor (Z.lor (u32 (Z.shiftl (at_ raw 1) 12))
                   (u32 (Z.shiftl (at_ raw 2) 4)))
            (Z.shiftr (at_ raw 3) 4) in
    let temperature_raw :=
      Z.lor (Z.lor (u32 (Z.shiftl (Z.land (at_ raw 3) 0x0F) 16))
                   (u32 (Z.shiftl (at_ raw 4) 8)))
            (at_ raw 5) in
    let '(now, w') := esp_timer_get_time w in
    (ESP_OK,
     {| timestamp_us := u64 now;
        humidity_raw := humidity_raw;
        temperature_raw := temperature_raw;
        humidity_rh :=
          F32.div (F32.mul (F32.of_Z humidity_raw) F32.c100) F32.c1048576;
        temperature_c :=
          F32.sub
            (F32.div (F32.mul (F32.of_Z temperature_raw) F32.c200)
                     F32.c1048576)
            F32.c50 |},
     w').

(** [dev] and [sample] are pointers: [None] is NULL, and the sample that
    comes back is what the caller's structure holds afterwards. *)
Definition dht20_read_measurement (dev : option dht20_t)
    (sample : option dht20_sample_t) (w : World)
    : esp_err_t * option dht20_sample_t * World :=
  match dev, sample with
  | None, _ => (ESP_ERR_INVALID_ARG, sample, w)
  | Some _, None => (ESP_ERR_INVALID_ARG, sample, w)
  | Some d, Some s =>
    let raw := repeat 0 DHT20_DATA_LEN in
    let '(ret, raw, w1) := dht20_read_raw d raw DHT20_DATA_LEN w in
    if negb (ret =? ESP_OK) then (ret, sample, w1)
    else
      let '(err, s', w2) := dht20_parse_sample raw s w1 in
      (err, Some s', w2)
  end.

(** The body of [while (true)]; [fuel] bounds the number of attempts, and
    [None] means that the bound was reached with the loop still running.
    The clock values are [int64_t] microseconds since boot, far from the
    ends of their range, so that [-] is the subtraction of the integers. *)
Fixpoint poll_loop (fuel : nat) (dev : option dht20_t)
    (sample : option dht20_sample_t) (start_us timeout_us : Z)
    (poll_ticks : Z) (w : World)
    : option (esp_err_t * option dht20_sample_t * World) :=
  match fuel with
  | O => None
  | S fuel' =>
    let '(err, sample1, w1) := dht20_read_measurement dev sample w in
    if err =? ESP_OK then Some (ESP_OK, sample1, w1)
    else if negb (err =? ESP_ERR_INVALID_STATE) then Some (err, sample1, w1)
    else
      let '(now, w2) := esp_timer_get_time w1 in
      let elapsed_us := now - start_us in
      if elapsed_us >=? timeout_us then Some (ESP_ERR_TIMEOUT, sample1, w2)
      else
        poll_loop fuel' dev sample1 start_us timeout_us poll_ticks
          (vTaskDelay poll_ticks w2)
  end.

(** The executions of the loop as a relation: [polled ... n sample w r]
    holds when the loop entered with [sample] in world [w] leaves with
    [r] after exactly [n] calls of [dht20_read_measurement]. *)
Inductive polled (dev : option dht20_t) (start_us timeout_us poll_ticks : Z)
  : nat -> option dht20_sample_t -> World
    -> esp_err_t * option dht20_sample_t * World -> Prop :=
| polled_return sample w err sample1 w1 :
    dht20_read_measurement dev sample w = (err, sample1, w1) ->
    err <> ESP_ERR_INVALID_STATE ->
    polled dev start_us timeout_us poll_ticks 1 sample w (err, sample1, w1)
| polled_deadline sample w sample1 w1 now w2 :
    dht20_read_measurement dev sample w
    = (ESP_ERR_INVALID_STATE, sample1, w1) ->
    esp_timer_get_time w1 = (now, w2) ->
    timeout_us <= now - start_us ->
    polled dev start_us timeout_us poll_ticks 1 sample w
      (ESP_ERR_TIMEOUT, sample1, w2)
| polled_again n sample w sample1 w1 now w2 r :
    dht20_read_measurement dev sample w
    = (ESP_ERR_INVALID_STATE, sample1, w1) ->
    esp_timer_get_time w1 = (now, w2) ->
    now - start_us < timeout_us ->
    polled dev start_us timeout_us poll_ticks n sample1
      (vTaskDelay poll_ticks w2) r ->
    polled dev start_us timeout_us poll_ticks (S n) sample w r.

Definition dht20_read_measurement_wait (fuel : nat) (dev : option dht20_t)
    (sample : option dht20_sample_t) (timeout_ms poll_interval_ms : Z)
    (w : World) : option (esp_err_t * option dht20_sample_t * World) :=
  match dev, sample with
  | None, _ => Some (ESP_ERR_INVALID_ARG, sample, w)
  | Some _, None => Some (ESP_ERR_INVALID_ARG, sample, w)
  | Some _, Some _ =>
    let '(start_us, w0) := esp_timer_get_time w in
    let timeout_us := timeout_ms * 1000 in
    let poll_ticks :=
      pdMS_TO_TICKS (if poll_interval_ms =? 0 then 1 else poll_interval_ms) in
    poll_loop fuel dev sample start_us timeout_us poll_ticks w0
  end.

End Driver.

(** ** dht20_sample_apply_offset *)

Definition dht20_sample_apply_offset (sample : option dht20_sample_t)
    (temperature_offset_c humidity_offset_rh : F32.float)
    : esp_err_t * option dht20_sample_t :=
  match sample with
  | None => (ESP_ERR_INVALID_ARG, None)
  | Some s =>
    let temperature_c' := F32.add (temperature_c s) temperature_offset_c in
    let humidity_rh' :=
      dht20_clampf (F32.add (humidity_rh s) humidity_offset_rh)
        F32.zero F32.c100 in
    (ESP_OK,
     Some {| timestamp_us := timestamp_us s;
             humidity_raw := humidity_raw s;
             temperature_raw := temperature_raw s;
             humidity_rh := humidity_rh';
             temperature_c := temperature_c' |})
  end.

(** ** The smoothing filter *)

Definition alpha_in_range (a : F32.float) : bool :=
  F32.ltb F32.zero a && F32.leb a F32.one.

Definition dht20_filter_init (filter : option dht20_filter_t) (a : F32.float)
    : esp_err_t * option dht20_filter_t :=
  match filter with
  | None => (ESP_ERR_INVALID_ARG, None)
  | Some _ =>
    if negb (F32.isfinite a) then (ESP_ERR_INVALID_ARG, filter)
    else if negb (alpha_in_range a) then (ESP_ERR_INVALID_ARG, filter)
    else
      (ESP_OK,
       Some {| initialized := false;
               alpha := a;
               f_humidity_rh := F32.zero;
               f_temperature_c := F32.zero |})
  end.

Definition dht20_filter_reset (filter : option dht20_filter_t)
    : option dht20_filter_t :=
  match filter with
  | None => None
  | Some f =>
    Some {| initialized := false;
            alpha := alpha f;
            f_humidity_rh := f_humidity_rh f;
            f_temperature_c := f_temperature_c f |}
  end.

(** [input] is read-only; the result holds the filter and the output
    structure as the call leaves them. *)
Definition dht20_filter_apply (filter : option dht20_filter_t)
    (input : option dht20_sample_t) (output : option dht20_sample_t)
    : esp_err_t * option dht20_filter_t * option dht20_sample_t :=
  match filter, input, output with
  | None, _, _ => (ESP_ERR_INVALID_ARG, filter, output)
  | Some _, None, _ => (ESP_ERR_INVALID_ARG, filter, output)
  | Some _, Some _, None => (ESP_ERR_INVALID_ARG, filter, output)
  | Some f, Some i, Some _ =>
    if negb (alpha_in_range (alpha f)) then
      (ESP_ERR_INVALID_STATE, filter, output)
    else
      let f' :=
        if negb (initialized f) then
          {| initialized := true;
             alpha := alpha f;
             f_humidity_rh := humidity_rh i;
             f_temperature_c := temperature_c i |}
        else
          let one_minus_alpha := F32.sub F32.one (alpha f) in
          {| initialized := initialized f;
             alpha := alpha f;
             f_humidity_rh :=
               F32.add (F32.mul (alpha f) (humidity_rh i))
                       (F32.mul one_minus_alpha (f_humidity_rh f));
             f_temperature_c :=
               F32.add (F32.mul (alpha f) (temperature_c i))
                       (F32.mul one_minus_alpha (f_temperature_c f)) |} in
      (ESP_OK, Some f',
       Some {| timestamp_us := timestamp_us i;
               humidity_raw := humidity_raw i;
               temperature_raw := temperature_raw i;
               humidity_rh :=
                 dht20_clampf (f_humidity_rh f') F32.zero F32.c100;
               temperature_c := f_temperature_c f' |})
  end.

(** ** The formulas of the specification, on their own *)

(** Raw counts as the data sheet packs them, over unbounded integers. *)
Definition spec_humidity_raw (b1 b2 b3 : Z) : Z :=
  Z.lor (Z.lor (Z.shiftl b1 12) (Z.shiftl b2 4)) (Z.shiftr b3 4).

Definition spec_temperature_raw (b3 b4 b5 : Z) : Z :=
  Z.lor (Z.lor (Z.shiftl (Z.land b3 0x0F) 16) (Z.shiftl b4 8)) b5.

(** The transfer functions, evaluated in binary32 from left to right. *)
Definition spec_humidity_rh (raw : Z) : F32.float :=
  F32.div (F32.mul (F32.of_Z raw) F32.c100) F32.c1048576.

Definition spec_temperature_c (raw : Z) : F32.float :=
  F32.sub (F32.div (F32.mul (F32.of_Z raw) F32.c200) F32.c1048576) F32.c50.

(** One step of the moving average. *)
Definition spec_ema (a input smoothed : F32.float) : F32.float :=
  F32.add (F32.mul a input) (F32.mul (F32.sub F32.one a) smoothed).

(** [0 <= x <= 100] and [0 <= x < 100] on floats. *)
Definition in_0_100 (x : F32.float) : bool :=
  F32.leb F32.zero x && F32.leb x F32.c100.

Definition in_0_100_open (x : F32.float) : bool :=
  F32.leb F32.zero x && F32.ltb x F32.c100.

(** ** A scripted world, to run the driver on concrete inputs

    The bus answers each read with the next entry of a script (and with
    [ESP_FAIL] once the script is used up); a transfer takes 700 us, the
    tick rate is 100 Hz. *)

Module Sim.

Record world := {
  now_us : Z;
  bus : list (esp_err_t * list Z)
}.

Definition transfer_us : Z := 700.
Definition tick_us : Z := 10000.

Definition i2c_read (port addr : Z) (rx : list Z) (rx_len : nat)
    (ticks : Z) (w : world) : esp_err_t * list Z * world :=
  match bus w with
  | [] => (ESP_FAIL, rx, {| now_us := now_us w + transfer_us; bus := [] |})
  | (ret, data) :: rest =>
    (ret, data, {| now_us := now_us w + transfer_us; bus := rest |})
  end.

Definition timer (w : world) : Z * world := (now_us w, w).

Definition delay (ticks : Z) (w : world) : world :=
  {| now_us := now_us w + Z.max 0 ticks * tick_us; bus := bus w |}.

Definition ms_to_ticks (ms : Z) : Z := ms * 100 / 1000.

Definition parse_sample := dht20_parse_sample world timer.
Definition read_measurement :=
  dht20_read_measurement world i2c_read timer ms_to_ticks.
Definition read_measurement_wait :=
  dht20_read_measurement_wait world i2c_read timer delay ms_to_ticks.

Definition dev0 : dht20_t :=
  {| i2c_port := 0; i2c_addr := 0x38; i2c_timeout_ms := 100 |}.

Definition sample0 : dht20_sample_t :=
  {| timestamp_us := 0; humidity_raw := 0; temperature_raw := 0;
     humidity_rh := F32.zero; temperature_c := F32.zero |}.

(** The frame of the specification's example, with its checksum, the same
    frame with the busy bit set, and with a wrong checksum. *)
Definition frame_ok : list Z := [0x00; 0x66; 0x66; 0x66; 0x33; 0x33; 0x65].
Definition frame_busy : list Z := [0x80; 0x66; 0x66; 0x66; 0x33; 0x33; 0x65].
Definition frame_bad : list Z := [0x00; 0x66; 0x66; 0x66; 0x33; 0x33; 0x00].

(** The busy frame with the checksum that fits it. *)
Definition frame_busy_crc : list Z :=
  [0x80; 0x66; 0x66; 0x66; 0x33; 0x33; 0x89].

Definition boot (script : list (esp_err_t * list Z)) : world :=
  {| now_us := 1000000; bus := script |}.

(** A sample with the given physical values, a filter with the given
    fields, and a filter structure before [dht20_filter_init]. *)
Definition sample_of (h t : F32.float) : dht20_sample_t :=
  {| timestamp_us := 0; humidity_raw := 0; temperature_raw := 0;
     humidity_rh := h; temperature_c := t |}.

Definition filter_of (init : bool) (a h t : F32.float) : dht20_filter_t :=
  {| initialized := init; alpha := a;
     f_humidity_rh := h; f_temperature_c := t |}.

Definition filter0 : dht20_filter_t :=
  filter_of false F32.zero F32.zero F32.zero.

Definition half : F32.float := Eval vm_compute in F32.div F32.one (F32.of_Z 2).

End Sim.

(** ** Checks by enumeration *)

Definition all_bytes : list Z := map Z.of_nat (seq 0 256).

(** Feeding one byte: the loop of the source against the bit-serial
    register of the specification. *)
Definition feed_agrees (crc b : Z) : bool :=
  crc8_bits 8 (u8 (Z.lxor crc b)) =? fold_left (crc_feed 0x31) (msb_first b) crc.

Definition feed_agrees_on (crcs bytes : list Z) : bool :=
  forallb (fun crc => forallb (feed_agrees crc) bytes) crcs.

(** ** Corrupted frames

    The bits of a frame are numbered in the order of transmission: bit [k]
    is bit [7 - k mod 8] of byte [k / 8]. *)

Fixpoint xor_at (raw : list Z) (i : nat) (mask : Z) : list Z :=
  match raw, i with
  | [], _ => []
  | b :: rest, O => Z.lxor b mask :: rest
  | b :: rest, S i' => b :: xor_at rest i' mask
  end.

Definition flip_bit (raw : list Z) (k : nat) : list Z :=
  xor_at raw (k / 8) (2 ^ (7 - Z.of_nat (k mod 8))).

(** A burst: the bits of [pattern], most significant first, are added to
    the eight bits that start at bit [k]. *)
Fixpoint burst_from (raw : list Z) (k : nat) (pattern : Z) (n : nat) : list Z :=
  match n with
  | O => raw
  | S n' =>
    burst_from (if Z.testbit pattern (Z.of_nat n') then flip_bit raw k else raw)
      (S k) pattern n'
  end.

Definition burst (raw : list Z) (k : nat) (pattern : Z) : list Z :=
  burst_from raw k pattern 8.

Definition xor_bytes (a b : list Z) : list Z :=
  map (fun p => Z.lxor (fst p) (snd p)) (combine a b).

Definition zero_frame : list Z := repeat 0 DHT20_DATA_LEN.

(** What an error pattern adds to the difference between the computed and
    the received checksum. *)
Definition syndrome (e : list Z) : Z :=
  Z.lxor (crc8_bytes e 0 6 0) (at_ e 6).

Definition shift_linear_at (a b : Z) : bool :=
  crc8_shift (Z.lxor a b) =? Z.lxor (crc8_shift a) (crc8_shift b).

Definition shift_linear_on (xs ys : list Z) : bool :=
  forallb (fun a => forallb (shift_linear_at a) ys) xs.

Definition all_pairs {A B : Type} (f : A -> B -> bool) (xs : list A)
    (ys : list B) : bool :=
  forallb (fun x => forallb (f x) ys) xs.

(** A bus whose answers always fit the buffer: an entry of the script that
    is not seven bytes leaves the buffer as it was. *)
Definition sim_i2c_read_typed (port addr : Z) (rx : list Z) (rx_len : nat)
    (ticks : Z) (w : Sim.world) : esp_err_t * list Z * Sim.world :=
  let '(ret, data, w') := Sim.i2c_read port addr rx rx_len ticks w in
  (ret, if is_frame data then data else rx, w').

(** ** The life of a filter

    The filter structures a program can hold once dht20_filter_init has
    succeeded with [a]: what the init left, and what dht20_filter_apply
    (with any arguments, NULL included) and dht20_filter_reset make of
    such a structure. *)
Inductive filter_reachable (a : F32.float) : dht20_filter_t -> Prop :=
| reach_init f0 f :
    dht20_filter_init (Some f0) a = (ESP_OK, Some f) ->
    filter_reachable a f
| reach_apply f i o e f' o' :
    filter_reachable a f ->
    dht20_filter_apply (Some f) i o = (e, Some f', o') ->
    filter_reachable a f'
| reach_reset f f' :
    filter_reachable a f ->
    dht20_filter_reset (Some f) = Some f' ->
    filter_reachable a f'.

(** ** The commands of the driver

    The functions that write to the sensor: reset, initialisation, the
    trigger of a conversion, and the two calls that trigger and read. *)

Definition DHT20_CMD_SOFT_RESET : Z := 0xBA.
Definition DHT20_CMD_STATUS : Z := 0x71.
Definition DHT20_CMD_TRIGGER : Z := 0xAC.
Definition DHT20_ARG_TRIGGER_1 : Z := 0x33.
Definition DHT20_ARG_TRIGGER_2 : Z := 0x00.
Definition DHT20_CMD_INIT : Z := 0xBE.
Definition DHT20_ARG_INIT_1 : Z := 0x08.
Definition DHT20_ARG_INIT_2 : Z := 0x00.
Definition DHT20_STATUS_READY_DELAY_MS : Z := 10.
Definition DHT20_SOFT_RESET_DELAY_MS : Z := 20.
Definition DHT20_POWER_ON_DELAY_MS : Z := 100.

Section Commands.

Variable World : Type.
Variable i2c_master_write_to_device :
  Z -> Z -> list Z -> nat -> Z -> World -> esp_err_t * World.
Variable i2c_master_read_from_device :
  Z -> Z -> list Z -> nat -> Z -> World -> esp_err_t * list Z * World.
Variable esp_timer_get_time : World -> Z * World.
Variable vTaskDelay : Z -> World -> World.
Variable pdMS_TO_TICKS : Z -> Z.

Definition dht20_write (dev : dht20_t) (tx : list Z) (tx_len : nat)
    (w : World) : esp_err_t * World :=
  let timeout_ticks := pdMS_TO_TICKS (i2c_timeout_ms dev) in
  i2c_master_write_to_device (i2c_port dev) (i2c_addr dev) tx tx_len
    timeout_ticks w.

(** [status] is the byte the caller's variable holds; the result carries
    what it holds afterwards. *)
Definition dht20_read_status (dev : dht20_t) (status : Z) (w : World)
    : esp_err_t * Z * World :=
  let '(ret, w1) := dht20_write dev [DHT20_CMD_STATUS] 1 w in
  if negb (ret =? ESP_OK) then (ret, status, w1)
  else
    let '(ret, rx, w2) :=
      dht20_read_raw World i2c_master_read_from_device pdMS_TO_TICKS dev
        [status] 1 w1 in
    (ret, at_ rx 0, w2).

Definition dht20_soft_reset (dev : option dht20_t) (w : World)
    : esp_err_t * World :=
  match dev with
  | None => (ESP_ERR_INVALID_ARG, w)
  | Some d =>
    let '(ret, w1) := dht20_write d [DHT20_CMD_SOFT_RESET] 1 w in
    if negb (ret =? ESP_OK) then (ret, w1)
    else (ESP_OK, vTaskDelay (pdMS_TO_TICKS DHT20_SOFT_RESET_DELAY_MS) w1)
  end.

(** The result carries the device structure as the call leaves it. *)
Definition dht20_init (dev : option dht20_t) (i2c_port i2c_addr : Z)
    (i2c_timeout_ms : Z) (w : World) : esp_err_t * option dht20_t * World :=
  match dev with
  | None => (ESP_ERR_INVALID_ARG, None, w)
  | Some _ =>
    let d := {| i2c_port := i2c_port; i2c_addr := i2c_addr;
                i2c_timeout_ms := i2c_timeout_ms |} in
    let w := vTaskDelay (pdMS_TO_TICKS DHT20_POWER_ON_DELAY_MS) w in
    let '(ret, w) := dht20_soft_reset (Some d) w in
    if negb (ret =? ESP_OK) then (ret, Some d, w)
    else
      let status := 0 in
      let '(ret, status, w) := dht20_read_status d status w in
      if negb (ret =? ESP_OK) then (ret, Some d, w)
      else if Z.land status DHT20_STATUS_CAL_MASK =? 0 then
        let init_cmd := [DHT20_CMD_INIT; DHT20_ARG_INIT_1; DHT20_ARG_INIT_2] in
        let '(ret, w) := dht20_write d init_cmd 3 w in
        if negb (ret =? ESP_OK) then (ret, Some d, w)
        else
          (ESP_OK, Some d,
           vTaskDelay (pdMS_TO_TICKS DHT20_STATUS_READY_DELAY_MS) w)
      else (ESP_OK, Some d, w)
  end.

Definition dht20_start_measurement (dev : option dht20_t) (w : World)
    : esp_err_t * World :=
  match dev with
  | None => (ESP_ERR_INVALID_ARG, w)
  | Some d =>
    let trigger_cmd :=
      [DHT20_CMD_TRIGGER; DHT20_ARG_TRIGGER_1; DHT20_ARG_TRIGGER_2] in
    dht20_write d trigger_cmd 3 w
  end.

Definition dht20_read_oneshot (fuel : nat) (dev : option dht20_t)
    (sample : option dht20_sample_t) (timeout_ms poll_interval_ms : Z)
    (w : World) : option (esp_err_t * option dht20_sample_t * World) :=
  let '(err_rc, w1) := dht20_start_measurement dev w in
  if negb (err_rc =? ESP_OK) then Some (err_rc, sample, w1)
  else
    dht20_read_measurement_wait World i2c_master_read_from_device
      esp_timer_get_time vTaskDelay pdMS_TO_TICKS fuel dev sample timeout_ms
      poll_interval_ms w1.

Definition dht20_read (dev : option dht20_t) (sample : option dht20_sample_t)
    (conversion_wait_ms : Z) (w : World)
    : esp_err_t * option dht20_sample_t * World :=
  let '(err_rc, w1) := dht20_start_measurement dev w in
  if negb (err_rc =? ESP_OK) then (err_rc, sample, w1)
  else
    let w2 :=
      if conversion_wait_ms >? 0
      then vTaskDelay (pdMS_TO_TICKS conversion_wait_ms) w1
      else w1 in
    dht20_read_measurement World i2c_master_read_from_device
      esp_timer_get_time pdMS_TO_TICKS dev sample w2.

End Commands.

(** ** What goes over the bus

    A platform that keeps, next to the state of any given platform, the
    list of the bus transfers and sleeps made so far, the latest last. *)

Inductive bus_event : Type :=
| Wrote (port addr : Z) (tx : list Z) (tx_len : nat) (ticks : Z)
    (ret : esp_err_t)
| Fetched (port addr : Z) (rx_len : nat) (ticks : Z) (ret : esp_err_t)
    (data : list Z)
| Slept (ticks : Z).

Section Traced.

Variable World : Type.
Variable i2c_master_write_to_device :
  Z -> Z -> list Z -> nat -> Z -> World -> esp_err_t * World.
Variable i2c_master_read_from_device :
  Z -> Z -> list Z -> nat -> Z -> World -> esp_err_t * list Z * World.
Variable esp_timer_get_time : World -> Z * World.
Variable vTaskDelay : Z -> World -> World.

Definition traced : Type := (World * list bus_event)%type.

Definition traced_write (port addr : Z) (tx : list Z) (tx_len : nat)
    (ticks : Z) (t : traced) : esp_err_t * traced :=
  let '(ret, w) :=
    i2c_master_write_to_device port addr tx tx_len ticks (fst t) in
  (ret, (w, snd t ++ [Wrote port addr tx tx_len ticks ret])).

Definition traced_read (port addr : Z) (rx : list Z) (rx_len : nat)
    (ticks : Z) (t : traced) : esp_err_t * list Z * traced :=
  let '(ret, data, w) :=
    i2c_master_read_from_device port addr rx rx_len ticks (fst t) in
  (ret, data, (w, snd t ++ [Fetched port addr rx_len ticks ret data])).

Definition traced_timer (t : traced) : Z * traced :=
  let '(now, w) := esp_timer_get_time (fst t) in (now, (w, snd t)).

Definition traced_delay (ticks : Z) (t : traced) : traced :=
  (vTaskDelay ticks (fst t), snd t ++ [Slept ticks]).

End Traced.


(** The result code of a transfer; a sleep has none. *)
Definition event_code (e : bus_event) : option esp_err_t :=
  match e with
  | Wrote _ _ _ _ _ ret => Some ret
  | Fetched _ _ _ _ ret _ => Some ret
  | Slept _ => None
  end.

(** A write on the scripted bus takes the next entry of the script for
    its result. *)
Definition sim_i2c_write (port addr : Z) (tx : list Z) (tx_len : nat)
    (ticks : Z) (w : Sim.world) : esp_err_t * Sim.world :=
  match Sim.bus w with
  | [] =>
    (ESP_FAIL,
     {| Sim.now_us := Sim.now_us w + Sim.transfer_us; Sim.bus := [] |})
  | (ret, _) :: rest =>
    (ret, {| Sim.now_us := Sim.now_us w + Sim.transfer_us; Sim.bus := rest |})
  end.

(** The traces dht20_init can leave, with the code it returns: [ticks] is
    the transfer timeout of the device in ticks, and [t100], [t20] and
    [t10] are the three delays in ticks. *)
Inductive init_run (port addr ticks t100 t20 t10 : Z)
  : esp_err_t -> list bus_event -> Prop :=
| init_reset_failed r :
    r <> ESP_OK ->
    init_run port addr ticks t100 t20 t10 r
      [Slept t100; Wrote port addr [DHT20_CMD_SOFT_RESET] 1 ticks r]
| init_status_command_failed r :
    r <> ESP_OK ->
    init_run port addr ticks t100 t20 t10 r
      [Slept t100; Wrote port addr [DHT20_CMD_SOFT_RESET] 1 ticks ESP_OK;
       Slept t20; Wrote port addr [DHT20_CMD_STATUS] 1 ticks r]
| init_status_read_failed r data :
    r <> ESP_OK ->
    init_run port addr ticks t100 t20 t10 r
      [Slept t100; Wrote port addr [DHT20_CMD_SOFT_RESET] 1 ticks ESP_OK;
       Slept t20; Wrote port addr [DHT20_CMD_STATUS] 1 ticks ESP_OK;
       Fetched port addr 1 ticks r data]
| init_calibrated data :
    Z.testbit (at_ data 0) 3 = true ->
    init_run port addr ticks t100 t20 t10 ESP_OK
      [Slept t100; Wrote port addr [DHT20_CMD_SOFT_RESET] 1 ticks ESP_OK;
       Slept t20; Wrote port addr [DHT20_CMD_STATUS] 1 ticks ESP_OK;
       Fetched port addr 1 ticks ESP_OK data]
| init_calibration_failed data r :
    Z.testbit (at_ data 0) 3 = false ->
    r <> ESP_OK ->
    init_run port addr ticks t100 t20 t10 r
      [Slept t100; Wrote port addr [DHT20_CMD_SOFT_RESET] 1 ticks ESP_OK;
       Slept t20; Wrote port addr [DHT20_CMD_STATUS] 1 ticks ESP_OK;
       Fetched port addr 1 ticks ESP_OK data;
       Wrote port addr [DHT20_CMD_INIT; DHT20_ARG_INIT_1; DHT20_ARG_INIT_2] 3
         ticks r]
| init_calibration_sent data :
    Z.testbit (at_ data 0) 3 = false ->
    init_run port addr ticks t100 t20 t10 ESP_OK
      [Slept t100; Wrote port addr [DHT20_CMD_SOFT_RESET] 1 ticks ESP_OK;
       Slept t20; Wrote port addr [DHT20_CMD_STATUS] 1 ticks ESP_OK;
       Fetched port addr 1 ticks ESP_OK data;
       Wrote port addr [DHT20_CMD_INIT; DHT20_ARG_INIT_1; DHT20_ARG_INIT_2] 3
         ticks ESP_OK;
       Slept t10].

(** An answer that makes the polling loop try again. *)
Definition busy_answer (ret : esp_err_t) (data : list Z) : Prop :=
  ret = ESP_ERR_INVALID_STATE \/
  (ret = ESP_OK /\ Z.testbit (at_ data 0) 7 = true).


(** The transfer succeeded, or the event is a sleep. *)
Definition event_ok (e : bus_event) : Prop :=
  match event_code e with
  | Some ret => ret = ESP_OK
  | None => True
  end.

(** The transfer went to this port and address with this timeout. *)
Definition addressed (port addr ticks : Z) (e : bus_event) : Prop :=
  match e with
  | Wrote p a _ _ t _ => p = port /\ a = addr /\ t = ticks
  | Fetched p a _ t _ _ => p = port /\ a = addr /\ t = ticks
  | Slept _ => True
  end.

(** * knob_api.c: the rotary encoder

    The encoder is polled: every call of knob_poll reads the two
    quadrature lines and the switch, follows the Gray code of the lines
    through a table of transitions and debounces the switch. *)

(** [int8_t] of a value as the compiler converts it. *)
Definition i8 (x : Z) : Z := (x + 2 ^ 7) mod 2 ^ 8 - 2 ^ 7.

Definition INT32_MIN : Z := - 2 ^ 31.
Definition INT32_MAX : Z := 2 ^ 31 - 1.

Module Knob.

Record knob_pins_t := {
  clk : Z;
  dt : Z;
  sw : Z
}.

Record knob_cfg_t := {
  enable_pullup : bool;
  button_active_low : bool;
  button_debounce_ms : Z
}.

(** The field [position] of the event is [event_position] here. *)
Record knob_event_t := {
  delta : Z;
  pressed : bool;
  released : bool;
  clicked : bool;
  event_position : Z
}.

Record knob_t := {
  pins : knob_pins_t;
  cfg : knob_cfg_t;
  position : Z;
  step_acc : Z;
  last_ab : Z;
  last_sw_level : Z;
  last_sw_change_ms : Z;
  pressed_latched : bool;
  initialized : bool
}.

(** The part of [gpio_config_t] that the driver fills in. *)
Record gpio_config_t := {
  pin_bit_mask : Z;
  mode : Z;
  pull_up_en : Z;
  pull_down_en : Z;
  intr_type : Z
}.

Definition GPIO_MODE_INPUT : Z := 1.
Definition GPIO_PULLUP_DISABLE : Z := 0.
Definition GPIO_PULLUP_ENABLE : Z := 1.
Definition GPIO_PULLDOWN_DISABLE : Z := 0.
Definition GPIO_INTR_DISABLE : Z := 0.

Definition KNOB_DEFAULT_DEBOUNCE_MS : Z := 30.

(** What [memset] to zero leaves in a structure. *)
Definition knob_zero : knob_t :=
  {| pins := {| clk := 0; dt := 0; sw := 0 |};
     cfg := {| enable_pullup := false; button_active_low := false;
               button_debounce_ms := 0 |};
     position := 0; step_acc := 0; last_ab := 0; last_sw_level := 0;
     last_sw_change_ms := 0; pressed_latched := false;
     initialized := false |}.

Definition event_zero : knob_event_t :=
  {| delta := 0; pressed := false; released := false; clicked := false;
     event_position := 0 |}.

Definition transition_table : list Z :=
  [ 0; -1;  1;  0;
    1;  0;  0; -1;
   -1;  0;  0;  1;
    0;  1; -1;  0].

(** Assignments to one field. *)
Definition with_position (k : knob_t) (v : Z) : knob_t :=
  {| pins := pins k; cfg := cfg k; position := v; step_acc := step_acc k;
     last_ab := last_ab k; last_sw_level := last_sw_level k;
     last_sw_change_ms := last_sw_change_ms k;
     pressed_latched := pressed_latched k; initialized := initialized k |}.

Definition with_step_acc (k : knob_t) (v : Z) : knob_t :=
  {| pins := pins k; cfg := cfg k; position := position k; step_acc := v;
     last_ab := last_ab k; last_sw_level := last_sw_level k;
     last_sw_change_ms := last_sw_change_ms k;
     pressed_latched := pressed_latched k; initialized := initialized k |}.

Definition with_last_ab (k : knob_t) (v : Z) : knob_t :=
  {| pins := pins k; cfg := cfg k; position := position k;
     step_acc := step_acc k; last_ab := v; last_sw_level := last_sw_level k;
     last_sw_change_ms := last_sw_change_ms k;
     pressed_latched := pressed_latched k; initialized := initialized k |}.

Definition with_switch (k : knob_t) (level now_ms : Z) (latched : bool)
    : knob_t :=
  {| pins := pins k; cfg := cfg k; position := position k;
     step_acc := step_acc k; last_ab := last_ab k; last_sw_level := level;
     last_sw_change_ms := now_ms; pressed_latched := latched;
     initialized := initialized k |}.

Definition with_delta (e : knob_event_t) (v : Z) : knob_event_t :=
  {| delta := v; pressed := pressed e; released := released e;
     clicked := clicked e; event_position := event_position e |}.

Definition with_event_position (e : knob_event_t) (v : Z) : knob_event_t :=
  {| delta := delta e; pressed := pressed e; released := released e;
     clicked := clicked e; event_position := v |}.

Section Driver.

(** The GPIO matrix and the tick counter of FreeRTOS. *)
Variable World : Type.
Variable gpio_config : gpio_config_t -> World -> esp_err_t * World.
Variable gpio_get_level : Z -> World -> Z * World.
Variable xTaskGetTickCount : World -> Z * World.
Variable portTICK_PERIOD_MS : Z.

Definition knob_now_ms (w : World) : Z * World :=
  let '(ticks, w) := xTaskGetTickCount w in
  (u32 (ticks * portTICK_PERIOD_MS), w).

Definition knob_read_ab (knob : knob_t) (w : World) : Z * World :=
  let '(level, w) := gpio_get_level (clk (pins knob)) w in
  let clk := Z.land (u8 level) 0x01 in
  let '(level, w) := gpio_get_level (dt (pins knob)) w in
  let dt := Z.land (u8 level) 0x01 in
  (u8 (Z.lor (Z.shiftl clk 1) dt), w).

Definition knob_read_sw (knob : knob_t) (w : World) : Z * World :=
  let '(level, w) := gpio_get_level (sw (pins knob)) w in
  (u8 (Z.land level 0x01), w).

(** [1ULL << pin] for a pin that is not negative: the shift of a 64-bit
    number by 64 or more has no meaning in C, and the result is [None]. *)
Definition pin_bit (pin : Z) : option Z :=
  if pin <? 64 then Some (Z.shiftl 1 pin) else None.

(** [None] where one of the three shifts of the mask has no meaning. *)
Definition knob_init (knob : option knob_t) (pins_in : option knob_pins_t)
    (cfg_in : option knob_cfg_t) (w : World)
    : option (esp_err_t * option knob_t * World) :=
  match knob, pins_in with
  | None, _ => Some (ESP_ERR_INVALID_ARG, knob, w)
  | Some _, None => Some (ESP_ERR_INVALID_ARG, knob, w)
  | Some _, Some p =>
    if negb (clk p >=? 0) then Some (ESP_ERR_INVALID_ARG, knob, w)
    else if negb (dt p >=? 0) then Some (ESP_ERR_INVALID_ARG, knob, w)
    else if negb (sw p >=? 0) then Some (ESP_ERR_INVALID_ARG, knob, w)
    else
      let local_cfg :=
        match cfg_in with
        | None =>
          {| enable_pullup := true; button_active_low := true;
             button_debounce_ms := KNOB_DEFAULT_DEBOUNCE_MS |}
        | Some c =>
          if button_debounce_ms c =? 0 then
            {| enable_pullup := enable_pullup c;
               button_active_low := button_active_low c;
               button_debounce_ms := KNOB_DEFAULT_DEBOUNCE_MS |}
          else c
        end in
      let k :=
        {| pins := p; cfg := local_cfg;
           position := 0; step_acc := 0; last_ab := 0; last_sw_level := 0;
           last_sw_change_ms := 0; pressed_latched := false;
           initialized := false |} in
      let pullup :=
        if enable_pullup local_cfg then GPIO_PULLUP_ENABLE
        else GPIO_PULLUP_DISABLE in
      match pin_bit (clk p), pin_bit (dt p), pin_bit (sw p) with
      | Some clk_bit, Some dt_bit, Some sw_bit =>
        let io_cfg :=
          {| pin_bit_mask := Z.lor (Z.lor clk_bit dt_bit) sw_bit;
             mode := GPIO_MODE_INPUT;
             pull_up_en := pullup;
             pull_down_en := GPIO_PULLDOWN_DISABLE;
             intr_type := GPIO_INTR_DISABLE |} in
        let '(err_rc, w) := gpio_config io_cfg w in
        if negb (err_rc =? ESP_OK) then Some (err_rc, Some k, w)
        else
          let '(ab, w) := knob_read_ab k w in
          let '(level, w) := knob_read_sw k w in
          let '(now_ms, w) := knob_now_ms w in
          Some (ESP_OK,
                Some {| pins := p; cfg := local_cfg;
                        position := 0; step_acc := 0; last_ab := ab;
                        last_sw_level := level; last_sw_change_ms := now_ms;
                        pressed_latched := false; initialized := true |},
                w)
      | _, _, _ => None
      end
  end.

(** The table is read at [idx], which is outside of it when [last_ab] is
    above 3, and the position is a signed counter that must not leave its
    range: in both cases C gives the program no meaning, and the result is
    [None]. The difference of the two times is that of [uint32_t]. *)
Definition knob_poll (knob : option knob_t) (event_out : option knob_event_t)
    (w : World)
    : option (esp_err_t * option knob_t * option knob_event_t * World) :=
  match knob, event_out with
  | None, _ => Some (ESP_ERR_INVALID_ARG, knob, event_out, w)
  | Some _, None => Some (ESP_ERR_INVALID_ARG, knob, event_out, w)
  | Some k, Some _ =>
    if negb (initialized k) then
      Some (ESP_ERR_INVALID_STATE, knob, event_out, w)
    else
      let e := event_zero in
      let '(ab, w) := knob_read_ab k w in
      let idx := u8 (Z.lor (Z.shiftl (last_ab k) 2) ab) in
      match nth_error transition_table (Z.to_nat idx) with
      | None => None
      | Some t =>
        let k := with_step_acc k (i8 (step_acc k + t)) in
        let k := with_last_ab k ab in
        match
          (if step_acc k >=? 4 then
             if position k <? INT32_MAX then
               Some (with_step_acc (with_position k (position k + 1)) 0,
                     with_delta e 1)
             else None
           else if step_acc k <=? -4 then
             if INT32_MIN <? position k then
               Some (with_step_acc (with_position k (position k - 1)) 0,
                     with_delta e (-1))
             else None
           else Some (k, e))
        with
        | None => None
        | Some (k, e) =>
          let '(raw_sw, w) := knob_read_sw k w in
          let '(now_ms, w) := knob_now_ms w in
          let '(k, e) :=
            if negb (raw_sw =? last_sw_level k) then
              if u32 (now_ms - last_sw_change_ms k)
                 >=? button_debounce_ms (cfg k) then
                let is_pressed :=
                  if button_active_low (cfg k) then raw_sw =? 0
                  else negb (raw_sw =? 0) in
                if is_pressed then
                  (with_switch k raw_sw now_ms true,
                   {| delta := delta e; pressed := true;
                      released := released e; clicked := clicked e;
                      event_position := event_position e |})
                else
                  (with_switch k raw_sw now_ms false,
                   {| delta := delta e; pressed := pressed e;
                      released := true; clicked := pressed_latched k;
                      event_position := event_position e |})
              else (k, e)
            else (k, e) in
          Some (ESP_OK, Some k, Some (with_event_position e (position k)), w)
        end
      end
  end.

End Driver.

Definition knob_get_position (knob : option knob_t) : Z :=
  match knob with
  | None => 0
  | Some k => if negb (initialized k) then 0 else position k
  end.

Definition knob_set_position (knob : option knob_t) (pos : Z)
    : esp_err_t * option knob_t :=
  match knob with
  | None => (ESP_ERR_INVALID_ARG, None)
  | Some k =>
    if negb (initialized k) then (ESP_ERR_INVALID_STATE, knob)
    else (ESP_OK, Some (with_position k pos))
  end.

(** The two halves of the body of knob_poll as functions of what was read:
    the step of the encoder on the lines [ab], and the switch on its level
    [raw_sw] at the time [now_ms]. *)
Definition knob_turn (k : knob_t) (e : knob_event_t) (ab : Z)
    : option (knob_t * knob_event_t) :=
  let idx := u8 (Z.lor (Z.shiftl (last_ab k) 2) ab) in
  match nth_error transition_table (Z.to_nat idx) with
  | None => None
  | Some t =>
    let k := with_step_acc k (i8 (step_acc k + t)) in
    let k := with_last_ab k ab in
    if step_acc k >=? 4 then
      if position k <? INT32_MAX then
        Some (with_step_acc (with_position k (position k + 1)) 0,
              with_delta e 1)
      else None
    else if step_acc k <=? -4 then
      if INT32_MIN <? position k then
        Some (with_step_acc (with_position k (position k - 1)) 0,
              with_delta e (-1))
      else None
    else Some (k, e)
  end.

Definition knob_switch (k : knob_t) (e : knob_event_t) (raw_sw now_ms : Z)
    : knob_t * knob_event_t :=
  if negb (raw_sw =? last_sw_level k) then
    if u32 (now_ms - last_sw_change_ms k) >=? button_debounce_ms (cfg k) then
      let is_pressed :=
        if button_active_low (cfg k) then raw_sw =? 0
        else negb (raw_sw =? 0) in
      if is_pressed then
        (with_switch k raw_sw now_ms true,
         {| delta := delta e; pressed := true; released := released e;
            clicked := clicked e; event_position := event_position e |})
      else
        (with_switch k raw_sw now_ms false,
         {| delta := delta e; pressed := pressed e; released := true;
            clicked := pressed_latched k;
            event_position := event_position e |})
    else (k, e)
  else (k, e).

(** The switch is held down, as far as the structure knows. *)
Definition button_down (k : knob_t) : bool :=
  if button_active_low (cfg k) then last_sw_level k =? 0
  else negb (last_sw_level k =? 0).

(** What knob_init and knob_poll keep true of the structure. *)
Definition knob_ok (k : knob_t) : Prop :=
  initialized k = true /\
  0 <= last_ab k < 4 /\
  -3 <= step_acc k <= 3 /\
  0 <= last_sw_level k <= 1 /\
  0 <= last_sw_change_ms k < 2 ^ 32 /\
  button_debounce_ms (cfg k) <> 0 /\
  (pressed_latched k = true -> button_down k = true).

(** The Gray code of the two lines: the state that follows [ab] when the
    shaft turns in the direction that counts up, and the one that follows
    when it turns in the other. *)
Definition forward (ab : Z) : Z := nth (Z.to_nat ab) [2; 0; 3; 1] 0.
Definition backward (ab : Z) : Z := nth (Z.to_nat ab) [1; 3; 0; 2] 0.

(** What a change of the lines from [last] to [ab] is worth, in quarters
    of a detent: nothing when the lines did not change or both did. *)
Definition quarter_step (last ab : Z) : Z :=
  if ab =? forward last then 1
  else if ab =? backward last then -1
  else 0.

Fixpoint quarter_steps (last : Z) (readings : list Z) : Z :=
  match readings with
  | [] => 0
  | ab :: rest => quarter_step last ab + quarter_steps ab rest
  end.

Section Runs.

Variable World : Type.
Variable gpio_get_level : Z -> World -> Z * World.
Variable xTaskGetTickCount : World -> Z * World.
Variable portTICK_PERIOD_MS : Z.

(** A program that calls knob_poll again and again: the list holds, for
    every call, what the two lines read and the event that came back. *)
Inductive knob_polls
  : knob_t -> World -> list (Z * knob_event_t) -> knob_t -> World -> Prop :=
| knob_polls_done k w : knob_polls k w [] k w
| knob_polls_more k w e0 k1 e1 w1 l k2 w2 :
    knob_poll World gpio_get_level xTaskGetTickCount portTICK_PERIOD_MS
      (Some k) (Some e0) w = Some (ESP_OK, Some k1, Some e1, w1) ->
    knob_polls k1 w1 l k2 w2 ->
    knob_polls k w
      ((fst (knob_read_ab World gpio_get_level k w), e1) :: l) k2 w2.

End Runs.

End Knob.

(** A scripted encoder: every reading of a pin takes the next level of
    the script, and the tick counter advances by five ticks of ten
    milliseconds with every reading. *)
Module KnobSim.

Record world := {
  levels : list Z;
  ticks : Z;
  config_result : esp_err_t
}.

Definition gpio_config (c : Knob.gpio_config_t) (w : world)
    : esp_err_t * world :=
  (config_result w, w).

Definition gpio_get_level (pin : Z) (w : world) : Z * world :=
  match levels w with
  | [] => (1, w)
  | l :: rest =>
    (l, {| levels := rest; ticks := ticks w;
           config_result := config_result w |})
  end.

Definition xTaskGetTickCount (w : world) : Z * world :=
  (ticks w,
   {| levels := levels w; ticks := ticks w + 5;
      config_result := config_result w |}).

Definition portTICK_PERIOD_MS : Z := 10.

Definition knob_init :=
  Knob.knob_init world gpio_config gpio_get_level xTaskGetTickCount
    portTICK_PERIOD_MS.
Definition knob_poll :=
  Knob.knob_poll world gpio_get_level xTaskGetTickCount portTICK_PERIOD_MS.
Definition knob_polls :=
  Knob.knob_polls world gpio_get_level xTaskGetTickCount portTICK_PERIOD_MS.

Definition boot (script : list Z) (result : esp_err_t) : world :=
  {| levels := script; ticks := 100; config_result := result |}.

(** The pins of main.c. *)
Definition pins0 : Knob.knob_pins_t :=
  {| Knob.clk := 21; Knob.dt := 9; Knob.sw := 20 |}.

(** The structure after knob_init with the lines at rest and the switch
    up. *)
Definition knob0 : Knob.knob_t :=
  {| Knob.pins := pins0;
     Knob.cfg := {| Knob.enable_pullup := true;
                    Knob.button_active_low := true;
                    Knob.button_debounce_ms := 30 |};
     Knob.position := 0; Knob.step_acc := 0; Knob.last_ab := 0;
     Knob.last_sw_level := 1; Knob.last_sw_change_ms := 1000;
     Knob.pressed_latched := false; Knob.initialized := true |}.

Definition knob_at (pos step ab level change : Z) (latched : bool)
    : Knob.knob_t :=
  {| Knob.pins := pins0;
     Knob.cfg := {| Knob.enable_pullup := true;
                    Knob.button_active_low := true;
                    Knob.button_debounce_ms := 30 |};
     Knob.position := pos; Knob.step_acc := step; Knob.last_ab := ab;
     Knob.last_sw_level := level; Knob.last_sw_change_ms := change;
     Knob.pressed_latched := latched; Knob.initialized := true |}.

Definition world_at (script : list Z) (t : Z) : world :=
  {| levels := script; ticks := t; config_result := ESP_OK |}.

(** An event with this delta and position and no news of the switch. *)
Definition turned (d pos : Z) : Knob.knob_event_t :=
  {| Knob.delta := d; Knob.pressed := false; Knob.released := false;
     Knob.clicked := false; Knob.event_position := pos |}.

End KnobSim.

(** * main.c: the knob sets the colour of the LED *)

Module App.

Import Knob.

(** [channel] and [encoder] are handles of the RMT driver, [None] for
    NULL; [rgb] is the array of three bytes. *)
Record rgb_ctrl_t := {
  channel : option Z;
  encoder : option Z;
  rgb : list Z;
  selected_channel : Z;
  last_log_tick : Z
}.

Record rmt_transmit_config_t := {
  loop_count : Z;
  eot_level : Z
}.

Definition KNOB_DELTA_POS_STEP : Z := 5.
Definition RGB_LOG_THROTTLE_MS : Z := 100.

(** [a[i] = v] on an array. *)
Fixpoint store (a : list Z) (i : nat) (v : Z) : list Z :=
  match a, i with
  | [], _ => []
  | _ :: rest, O => v :: rest
  | x :: rest, S i' => x :: store rest i' v
  end.

Definition with_rgb (c : rgb_ctrl_t) (a : list Z) : rgb_ctrl_t :=
  {| channel := channel c; encoder := encoder c; rgb := a;
     selected_channel := selected_channel c;
     last_log_tick := last_log_tick c |}.

Definition with_selected_channel (c : rgb_ctrl_t) (v : Z) : rgb_ctrl_t :=
  {| channel := channel c; encoder := encoder c; rgb := rgb c;
     selected_channel := v; last_log_tick := last_log_tick c |}.

Definition with_last_log_tick (c : rgb_ctrl_t) (v : Z) : rgb_ctrl_t :=
  {| channel := channel c; encoder := encoder c; rgb := rgb c;
     selected_channel := selected_channel c; last_log_tick := v |}.

(** The characters 'R', 'G', 'B' and '?'. *)
Definition rgb_channel_name (channel : Z) : Z :=
  if channel <? 3 then nth (Z.to_nat channel) [82; 71; 66] 0 else 63.

Section Main.

Variable World : Type.
Variable gpio_get_level : Z -> World -> Z * World.
Variable xTaskGetTickCount : World -> Z * World.
Variable portTICK_PERIOD_MS : Z.
Variable pdMS_TO_TICKS : Z -> Z.
Variable rmt_transmit :
  Z -> Z -> list Z -> nat -> rmt_transmit_config_t -> World
  -> esp_err_t * World.
(** [UART_PRINT_INFO] with the values it formats. *)
Variable UART_PRINT_INFO : list Z -> World -> World.

Definition rgb_ctrl_apply (ctrl : option rgb_ctrl_t) (w : World)
    : esp_err_t * World :=
  match ctrl with
  | None => (ESP_ERR_INVALID_ARG, w)
  | Some c =>
    match channel c, encoder c with
    | None, _ => (ESP_ERR_INVALID_STATE, w)
    | Some _, None => (ESP_ERR_INVALID_STATE, w)
    | Some ch, Some en =>
      let grb := [nth 1 (rgb c) 0; nth 0 (rgb c) 0; nth 2 (rgb c) 0] in
      let tx_cfg := {| loop_count := 0; eot_level := 0 |} in
      let '(err, w) := rmt_transmit ch en grb 3 tx_cfg w in
      if (err =? ESP_ERR_TIMEOUT) || (err =? ESP_ERR_INVALID_STATE) then
        (ESP_OK, w)
      else if negb (err =? ESP_OK) then (err, w)
      else (ESP_OK, w)
    end
  end.

(** The result is [None] where C gives the call no meaning: in knob_poll,
    or when [rgb] is read at a [selected_channel] above 2. *)
Definition knob_process (knob : option knob_t) (rgb_ctrl : option rgb_ctrl_t)
    (w : World) : option (option knob_t * option rgb_ctrl_t * World) :=
  let event := event_zero in
  match
    knob_poll World gpio_get_level xTaskGetTickCount portTICK_PERIOD_MS
      knob (Some event) w
  with
  | None => None
  | Some (err, knob, event, w) =>
    if negb (err =? ESP_OK) then Some (knob, rgb_ctrl, w)
    else
      match event with
      | None => None
      | Some event =>
        let turned :=
          match rgb_ctrl with
          | Some c =>
            if negb (delta event =? 0)
               && match channel c with Some _ => true | None => false end
            then
              match nth_error (rgb c) (Z.to_nat (selected_channel c)) with
              | None => None
              | Some cur =>
                let value := cur + delta event * KNOB_DELTA_POS_STEP in
                let value :=
                  if value <? 0 then 0
                  else if value >? 255 then 255
                  else value in
                if negb (u8 value =? cur) then
                  let c :=
                    with_rgb c
                      (store (rgb c) (Z.to_nat (selected_channel c))
                         (u8 value)) in
                  let knob := snd (knob_set_position knob value) in
                  let '(_, w) := rgb_ctrl_apply (Some c) w in
                  let '(now_tick, w) := xTaskGetTickCount w in
                  if u32 (now_tick - last_log_tick c)
                     >=? pdMS_TO_TICKS RGB_LOG_THROTTLE_MS then
                    let w :=
                      UART_PRINT_INFO
                        [rgb_channel_name (selected_channel c);
                         nth (Z.to_nat (selected_channel c)) (rgb c) 0;
                         nth 0 (rgb c) 0; nth 1 (rgb c) 0; nth 2 (rgb c) 0]
                        w in
                    Some (knob, Some (with_last_log_tick c now_tick), w)
                  else Some (knob, Some c, w)
                else Some (knob, rgb_ctrl, w)
              end
            else Some (knob, rgb_ctrl, w)
          | None => Some (knob, rgb_ctrl, w)
          end in
        match turned with
        | None => None
        | Some (knob, rgb_ctrl, w) =>
          match rgb_ctrl with
          | Some c =>
            if clicked event then
              let c :=
                with_selected_channel c
                  (u8 ((selected_channel c + 1) mod 3)) in
              let knob :=
                snd (knob_set_position knob
                       (nth (Z.to_nat (selected_channel c)) (rgb c) 0)) in
              let w :=
                UART_PRINT_INFO [rgb_channel_name (selected_channel c)] w in
              Some (knob, Some c, w)
            else Some (knob, rgb_ctrl, w)
          | None => Some (knob, rgb_ctrl, w)
          end
        end
      end
  end.

End Main.

(** The LED state is in order: three bytes and a channel that exists. *)
Definition rgb_ok (c : rgb_ctrl_t) : Prop :=
  length (rgb c) = 3%nat /\
  (forall i, 0 <= nth i (rgb c) 0 < 256) /\
  0 <= selected_channel c < 3.

Definition clamp_byte (v : Z) : Z :=
  if v <? 0 then 0 else if v >? 255 then 255 else v.

(** The LED of main.c after start-up, all channels dark and red
    selected. *)
Definition led0 : rgb_ctrl_t :=
  {| channel := Some 1; encoder := Some 2; rgb := [0; 0; 0];
     selected_channel := 0; last_log_tick := 0 |}.

End App.

(** * display_image.c: bitmaps on the panel

    [size_t] has 32 bits on the target, [int] is [int32_t]. A pointer to
    pixels is the list of the pixels behind it, [None] for NULL; a cell of
    a buffer from the heap holds [None] until it is written. *)

Definition size_t (x : Z) : Z := x mod 2 ^ 32.

Definition ESP_ERR_NO_MEM : esp_err_t := 0x101.

Module Image.

Record display_image_t := {
  panel : option Z;
  width : Z;
  height : Z
}.

Definition s_color_bars : list Z :=
  [0x0000; 0xFFFF; 0xF800; 0x07E0; 0x001F; 0xFFE0; 0x07FF; 0xF81F].

Definition display_image_ctx_valid (ctx : option display_image_t) : bool :=
  match ctx with
  | None => false
  | Some c =>
    match panel c with
    | None => false
    | Some _ => (width c >? 0) && (height c >? 0)
    end
  end.

Definition display_image_init (ctx : option display_image_t)
    (panel_in : option Z) (w h : Z) : option display_image_t :=
  match ctx with
  | None => None
  | Some _ => Some {| panel := panel_in; width := w; height := h |}
  end.

(** [buf[i] = v], [None] when [i] is outside of the buffer. *)
Fixpoint poke {A : Type} (buf : list A) (i : nat) (v : A) : option (list A) :=
  match buf, i with
  | [], _ => None
  | _ :: rest, O => Some (v :: rest)
  | x :: rest, S i' =>
    match poke rest i' v with
    | Some rest' => Some (x :: rest')
    | None => None
    end
  end.

Section Driver.

Variable World : Type.
(** The panel, the corners of the window and the pixels. *)
Variable esp_lcd_panel_draw_bitmap :
  Z -> Z -> Z -> Z -> Z -> list (option Z) -> World -> esp_err_t * World.
(** The number of bytes asked for; [false] is NULL. *)
Variable heap_caps_malloc : Z -> World -> bool * World.
Variable free : World -> World.

Definition display_image_draw_full_rgb565 (ctx : option display_image_t)
    (img_rgb565 : option (list (option Z))) (pixels : Z) (w : World)
    : esp_err_t * World :=
  match ctx, img_rgb565 with
  | Some c, Some img =>
    match panel c with
    | Some p =>
      if negb (display_image_ctx_valid ctx) then (ESP_ERR_INVALID_ARG, w)
      else
        let expected_pixels := size_t (size_t (width c) * size_t (height c)) in
        if pixels <? expected_pixels then (ESP_ERR_INVALID_ARG, w)
        else esp_lcd_panel_draw_bitmap p 0 0 (width c) (height c) img w
    | None => (ESP_ERR_INVALID_ARG, w)
    end
  | _, _ => (ESP_ERR_INVALID_ARG, w)
  end.

(** [None] where a sum of two [int] leaves the range of [int]. *)
Definition display_image_draw_rect_rgb565 (ctx : option display_image_t)
    (x y w h : Z) (img_rgb565 : option (list (option Z))) (pixels : Z)
    (world : World) : option (esp_err_t * World) :=
  match ctx, img_rgb565 with
  | Some c, Some img =>
    match panel c with
    | Some p =>
      if negb (display_image_ctx_valid ctx) || (w <=? 0) || (h <=? 0)
         || (x <? 0) || (y <? 0)
      then Some (ESP_ERR_INVALID_ARG, world)
      else if x + w >? INT32_MAX then None
      else if x + w >? width c then Some (ESP_ERR_INVALID_ARG, world)
      else if y + h >? INT32_MAX then None
      else if y + h >? height c then Some (ESP_ERR_INVALID_ARG, world)
      else
        let expected_pixels := size_t (size_t w * size_t h) in
        if pixels <? expected_pixels then Some (ESP_ERR_INVALID_ARG, world)
        else Some (esp_lcd_panel_draw_bitmap p x y (x + w) (y + h) img world)
    | None => Some (ESP_ERR_INVALID_ARG, world)
    end
  | _, _ => Some (ESP_ERR_INVALID_ARG, world)
  end.

(** [for (int x = ...; x < width; x++)] with [count] rounds to go. *)
Fixpoint pattern_columns (count : nat) (c : display_image_t) (x r : Z)
    (block_buf : list (option Z)) : option (list (option Z)) :=
  match count with
  | O => Some block_buf
  | S count' =>
    let bar := Z.quot (x * 8) (width c) in
    let idx := if bar <? 0 then 0 else if bar >? 7 then 7 else bar in
    match
      poke block_buf
        (Z.to_nat (size_t (size_t r * size_t (width c) + size_t x)))
        (Some (nth (Z.to_nat idx) s_color_bars 0))
    with
    | None => None
    | Some block_buf' => pattern_columns count' c (x + 1) r block_buf'
    end
  end.

(** [for (int r = ...; r < cur_rows; r++)]. *)
Fixpoint pattern_rows (count : nat) (c : display_image_t) (r : Z)
    (block_buf : list (option Z)) : option (list (option Z)) :=
  match count with
  | O => Some block_buf
  | S count' =>
    match pattern_columns (Z.to_nat (width c)) c 0 r block_buf with
    | None => None
    | Some block_buf' => pattern_rows count' c (r + 1) block_buf'
    end
  end.

(** [for (int y = ...; y < height; y += block_rows)]; [fuel] bounds the
    number of blocks, and the result is [None] when a write leaves the
    buffer, when [y + block_rows] leaves the range of [int], or when the
    fuel runs out. *)
Fixpoint pattern_blocks (fuel : nat) (c : display_image_t) (p : Z)
    (block_rows y : Z) (block_buf : list (option Z)) (w : World)
    : option (esp_err_t * World) :=
  match fuel with
  | O => None
  | S fuel' =>
    if y <? height c then
      let cur_rows :=
        if height c - y <? block_rows then height c - y else block_rows in
      match pattern_rows (Z.to_nat cur_rows) c 0 block_buf with
      | None => None
      | Some block_buf' =>
        let '(err, w) :=
          esp_lcd_panel_draw_bitmap p 0 y (width c) (y + cur_rows)
            block_buf' w in
        if negb (err =? ESP_OK) then Some (err, free w)
        else if y + block_rows >? INT32_MAX then None
        else pattern_blocks fuel' c p block_rows (y + block_rows) block_buf' w
      end
    else Some (ESP_OK, free w)
  end.

Definition display_image_draw_test_pattern_streaming
    (ctx : option display_image_t) (block_rows : Z) (w : World)
    : option (esp_err_t * World) :=
  match ctx with
  | Some c =>
    match panel c with
    | Some p =>
      if negb (display_image_ctx_valid ctx) || (block_rows <=? 0) then
        Some (ESP_ERR_INVALID_ARG, w)
      else
        let rows := size_t block_rows in
        let width_px := size_t (width c) in
        let alloc_pixels := size_t (width_px * rows) in
        let '(block_buf, w) := heap_caps_malloc (size_t (alloc_pixels * 2)) w in
        if negb block_buf then Some (ESP_ERR_NO_MEM, w)
        else
          pattern_blocks (S (Z.to_nat (height c))) c p block_rows 0
            (repeat None (Z.to_nat (size_t (alloc_pixels * 2) / 2))) w
    | None => Some (ESP_ERR_INVALID_ARG, w)
    end
  | None => Some (ESP_ERR_INVALID_ARG, w)
  end.

End Driver.

(** The colour the test pattern gives column [x], as a cell of a buffer,
    and what happens on the panel: a window drawn with the pixels handed
    over and the result, and the release of the block buffer. *)
Definition bar_color (c : display_image_t) (x : nat) : option Z :=
  Some (nth (Z.to_nat (Z.of_nat x * 8 / width c)) s_color_bars 0).

Inductive panel_event : Type :=
| Drew (p x0 y0 x1 y1 : Z) (data : list (option Z)) (ret : esp_err_t)
| Released.

Section Traced.

Variable World : Type.
Variable esp_lcd_panel_draw_bitmap :
  Z -> Z -> Z -> Z -> Z -> list (option Z) -> World -> esp_err_t * World.
Variable free : World -> World.

Definition traced_draw_bitmap (p x0 y0 x1 y1 : Z) (data : list (option Z))
    (t : World * list panel_event) : esp_err_t * (World * list panel_event) :=
  let '(ret, w) := esp_lcd_panel_draw_bitmap p x0 y0 x1 y1 data (fst t) in
  (ret, (w, snd t ++ [Drew p x0 y0 x1 y1 data ret])).

Definition traced_free (t : World * list panel_event)
    : World * list panel_event :=
  (free (fst t), snd t ++ [Released]).

Variable heap_caps_malloc : Z -> World -> bool * World.

Definition traced_malloc (bytes : Z) (t : World * list panel_event)
    : bool * (World * list panel_event) :=
  let '(block, w) := heap_caps_malloc bytes (fst t) in (block, (w, snd t)).

End Traced.

(** The first [rows] rows of a block hold the colour bars. *)
Definition block_holds (c : display_image_t) (rows : Z)
    (data : list (option Z)) : Prop :=
  forall r x : nat,
    Z.of_nat r < rows -> Z.of_nat x < width c ->
    nth_error data (r * Z.to_nat (width c) + x) = Some (bar_color c x).

(** The traces of the test pattern from row [y] on: blocks of
    [block_rows] rows, the last one as high as what is left, each holding
    the colour bars, up to the first one that the panel refuses; then the
    buffer is released. *)
Inductive pattern_trace (c : display_image_t) (p block_rows : Z)
  : Z -> list panel_event -> esp_err_t -> Prop :=
| pattern_done y :
    height c <= y ->
    pattern_trace c p block_rows y [Released] ESP_OK
| pattern_refused y data err :
    y < height c -> err <> ESP_OK ->
    block_holds c (Z.min (height c - y) block_rows) data ->
    pattern_trace c p block_rows y
      [Drew p 0 y (width c) (y + Z.min (height c - y) block_rows) data err;
       Released] err
| pattern_more y data rest err :
    y < height c ->
    block_holds c (Z.min (height c - y) block_rows) data ->
    pattern_trace c p block_rows (y + block_rows) rest err ->
    pattern_trace c p block_rows y
      (Drew p 0 y (width c) (y + Z.min (height c - y) block_rows) data ESP_OK
       :: rest) err.

(** A scripted panel: every window drawn takes the next result of the
    script, ESP_OK when the script is used up; the heap has room when
    [heap] says so. *)
Module PanelSim.

Record world := {
  results : list esp_err_t;
  heap : bool
}.

Definition draw_bitmap (p x0 y0 x1 y1 : Z) (data : list (option Z))
    (w : world) : esp_err_t * world :=
  match results w with
  | [] => (ESP_OK, w)
  | r :: rest => (r, {| results := rest; heap := heap w |})
  end.

Definition malloc (bytes : Z) (w : world) : bool * world := (heap w, w).

Definition free (w : world) : world := w.

(** A panel of eight columns and five rows. *)
Definition image0 : display_image_t :=
  {| panel := Some 1; width := 8; height := 5 |}.

(** The panel of main.c. *)
Definition image1 : display_image_t :=
  {| panel := Some 1; width := 320; height := 170 |}.

End PanelSim.

End Image.

(** * display_api.c: the ST7789 panel

    The state of the module is the structure [g_disp] and the line buffer
    [s_line_buf] of 320 pixels; [line_buf] says whether the pointer of the
    structure is set to that buffer or NULL. What the module asks of SPI,
    the panel driver and the LEDC timer is a value of [lcd_call]; a handle
    is [None] for NULL. *)

Module Display.

Record display_pins_t := {
  sck : Z;
  mosi : Z;
  cs : Z;
  dc : Z;
  reset : Z;
  backlight : Z
}.

Record display_cfg_t := {
  width : Z;
  height : Z;
  x_offset : Z;
  y_offset : Z;
  spi_clock_hz : Z
}.

Record display_ctx_t := {
  initialized : bool;
  pins : display_pins_t;
  cfg : display_cfg_t;
  rotation : Z;
  active_width : Z;
  active_height : Z;
  active_x_offset : Z;
  active_y_offset : Z;
  io : option Z;
  panel : option Z;
  line_buf : bool;
  s_line_buf : list Z
}.

Definition DISPLAY_LINE_BUF_PIXELS_MAX : Z := 320.
Definition DISPLAY_BL_LEDC_DUTY_RES : Z := 13.
Definition DISPLAY_BL_MAX_DUTY : Z := Z.shiftl 1 DISPLAY_BL_LEDC_DUTY_RES - 1.
Definition DISPLAY_ROTATION_90 : Z := 1.
Definition DISPLAY_ROTATION_270 : Z := 3.

Inductive lcd_call : Type :=
| spi_bus_initialize (sclk_io_num mosi_io_num max_transfer_sz : Z)
| esp_lcd_new_panel_io_spi (dc_gpio_num cs_gpio_num pclk_hz : Z)
| esp_lcd_new_panel_st7789 (io_handle : option Z) (reset_gpio_num : Z)
| esp_lcd_panel_reset (p : option Z)
| esp_lcd_panel_init (p : option Z)
| esp_lcd_panel_set_gap (p : option Z) (x_gap y_gap : Z)
| esp_lcd_panel_invert_color (p : option Z) (invert : bool)
| esp_lcd_panel_disp_on_off (p : option Z) (on : bool)
| esp_lcd_panel_swap_xy (p : option Z) (swap : bool)
| esp_lcd_panel_mirror (p : option Z) (mirror_x mirror_y : bool)
| esp_lcd_panel_draw_bitmap (p : option Z) (x0 y0 x1 y1 : Z) (data : list Z)
| esp_lcd_panel_del (p : Z)
| esp_lcd_panel_io_del (io_handle : Z)
| spi_bus_free
| ledc_timer_config (duty_resolution freq_hz : Z)
| ledc_channel_config (gpio_num : Z)
| ledc_set_duty (duty : Z)
| ledc_update_duty.

Definition max_i32 (a b : Z) : Z := if a >? b then a else b.

Definition clamp_percent (percent : Z) : Z :=
  if percent >? 100 then 100 else percent.

Definition clampi (value lo hi : Z) : Z :=
  if value <? lo then lo
  else if value >? hi then hi
  else value.

(** Assignments to the fields of [g_disp]. *)
Definition with_initialized (g : display_ctx_t) (v : bool) : display_ctx_t :=
  {| initialized := v; pins := pins g; cfg := cfg g; rotation := rotation g;
     active_width := active_width g; active_height := active_height g;
     active_x_offset := active_x_offset g;
     active_y_offset := active_y_offset g; io := io g; panel := panel g;
     line_buf := line_buf g; s_line_buf := s_line_buf g |}.

Definition with_config (g : display_ctx_t) (p : display_pins_t)
    (c : display_cfg_t) : display_ctx_t :=
  {| initialized := initialized g; pins := p; cfg := c;
     rotation := rotation g;
     active_width := active_width g; active_height := active_height g;
     active_x_offset := active_x_offset g;
     active_y_offset := active_y_offset g; io := io g; panel := panel g;
     line_buf := line_buf g; s_line_buf := s_line_buf g |}.

Definition with_viewport (g : display_ctx_t) (rot w h xo yo : Z)
    : display_ctx_t :=
  {| initialized := initialized g; pins := pins g; cfg := cfg g;
     rotation := rot; active_width := w; active_height := h;
     active_x_offset := xo; active_y_offset := yo; io := io g;
     panel := panel g; line_buf := line_buf g; s_line_buf := s_line_buf g |}.

Definition with_io (g : display_ctx_t) (v : option Z) : display_ctx_t :=
  {| initialized := initialized g; pins := pins g; cfg := cfg g;
     rotation := rotation g;
     active_width := active_width g; active_height := active_height g;
     active_x_offset := active_x_offset g;
     active_y_offset := active_y_offset g; io := v; panel := panel g;
     line_buf := line_buf g; s_line_buf := s_line_buf g |}.

Definition with_panel (g : display_ctx_t) (v : option Z) : display_ctx_t :=
  {| initialized := initialized g; pins := pins g; cfg := cfg g;
     rotation := rotation g;
     active_width := active_width g; active_height := active_height g;
     active_x_offset := active_x_offset g;
     active_y_offset := active_y_offset g; io := io g; panel := v;
     line_buf := line_buf g; s_line_buf := s_line_buf g |}.

Definition with_line_buf (g : display_ctx_t) (v : bool) : display_ctx_t :=
  {| initialized := initialized g; pins := pins g; cfg := cfg g;
     rotation := rotation g;
     active_width := active_width g; active_height := active_height g;
     active_x_offset := active_x_offset g;
     active_y_offset := active_y_offset g; io := io g; panel := panel g;
     line_buf := v; s_line_buf := s_line_buf g |}.

Definition with_pixels (g : display_ctx_t) (v : list Z) : display_ctx_t :=
  {| initialized := initialized g; pins := pins g; cfg := cfg g;
     rotation := rotation g;
     active_width := active_width g; active_height := active_height g;
     active_x_offset := active_x_offset g;
     active_y_offset := active_y_offset g; io := io g; panel := panel g;
     line_buf := line_buf g; s_line_buf := v |}.

(** [for (size_t i = ...; i < pixels; i++) g_disp.line_buf[i] = color],
    with [count] rounds to go: [None] when the pointer is NULL or [i] is
    outside of the buffer. *)
Fixpoint fill_line_buf_from (count i : nat) (color : Z) (g : display_ctx_t)
    : option display_ctx_t :=
  match count with
  | O => Some g
  | S count' =>
    if line_buf g then
      match Image.poke (s_line_buf g) i color with
      | None => None
      | Some b => fill_line_buf_from count' (S i) color (with_pixels g b)
      end
    else None
  end.

Definition fill_line_buf (color pixels : Z) (g : display_ctx_t)
    : option display_ctx_t :=
  fill_line_buf_from (Z.to_nat pixels) 0 color g.

(** The four values that calc_viewport_for_rotation stores through its
    pointers. *)
Definition calc_viewport_for_rotation (rotation : Z) (g : display_ctx_t)
    : Z * Z * Z * Z :=
  let rot := u8 (rotation mod 4) in
  if (rot =? DISPLAY_ROTATION_90) || (rot =? DISPLAY_ROTATION_270) then
    (height (cfg g), width (cfg g), y_offset (cfg g), x_offset (cfg g))
  else
    (width (cfg g), height (cfg g), x_offset (cfg g), y_offset (cfg g)).

Import Ascii.

(** The five columns of a character, the lowest bit the top row. *)
Definition glyph_for_char (c : ascii) : list Z :=
  let space := [0x00; 0x00; 0x00; 0x00; 0x00] in
  let colon := [0x00; 0x36; 0x36; 0x00; 0x00] in
  let dot := [0x00; 0x60; 0x60; 0x00; 0x00] in
  let pct := [0x62; 0x64; 0x08; 0x13; 0x23] in
  let dash := [0x08; 0x08; 0x08; 0x08; 0x08] in
  let n0 := [0x3E; 0x51; 0x49; 0x45; 0x3E] in
  let n1 := [0x00; 0x42; 0x7F; 0x40; 0x00] in
  let n2 := [0x62; 0x51; 0x49; 0x49; 0x46] in
  let n3 := [0x22; 0x49; 0x49; 0x49; 0x36] in
  let n4 := [0x18; 0x14; 0x12; 0x7F; 0x10] in
  let n5 := [0x2F; 0x49; 0x49; 0x49; 0x31] in
  let n6 := [0x3E; 0x49; 0x49; 0x49; 0x32] in
  let n7 := [0x01; 0x01; 0x79; 0x05; 0x03] in
  let n8 := [0x36; 0x49; 0x49; 0x49; 0x36] in
  let n9 := [0x26; 0x49; 0x49; 0x49; 0x3E] in
  let C_ := [0x3E; 0x41; 0x41; 0x41; 0x22] in
  let H_ := [0x7F; 0x08; 0x08; 0x08; 0x7F] in
  let M_ := [0x7F; 0x02; 0x0C; 0x02; 0x7F] in
  let P_ := [0x7F; 0x09; 0x09; 0x09; 0x06] in
  let R_ := [0x7F; 0x09; 0x19; 0x29; 0x46] in
  let T_ := [0x01; 0x01; 0x7F; 0x01; 0x01] in
  let E_ := [0x7F; 0x49; 0x49; 0x49; 0x41] in
  match c with
  | " "%char => space
  | ":"%char => colon
  | "."%char => dot
  | "%"%char => pct
  | "-"%char => dash
  | "0"%char => n0
  | "1"%char => n1
  | "2"%char => n2
  | "3"%char => n3
  | "4"%char => n4
  | "5"%char => n5
  | "6"%char => n6
  | "7"%char => n7
  | "8"%char => n8
  | "9"%char => n9
  | "C"%char => C_
  | "H"%char => H_
  | "M"%char => M_
  | "P"%char => P_
  | "R"%char => R_
  | "T"%char => T_
  | "E"%char => E_
  | _ => space
  end.

Section Driver.

Variable World : Type.
(** The result of a call and, for the two calls that make a handle,
    what they store in it ([None]: nothing). *)
Variable call : lcd_call -> World -> esp_err_t * option Z * World.

(** A call whose handle, if any, is of no interest. *)
Definition perform (c : lcd_call) (w : World) : esp_err_t * World :=
  let '(ret, _, w) := call c w in (ret, w).

Definition configure_backlight (bl_pin : Z) (w : World) : esp_err_t * World :=
  let '(err_rc, w) :=
    perform (ledc_timer_config DISPLAY_BL_LEDC_DUTY_RES 5000) w in
  if negb (err_rc =? ESP_OK) then (err_rc, w)
  else perform (ledc_channel_config bl_pin) w.

Definition display_set_rotation (rotation_in : Z) (g : display_ctx_t)
    (w : World) : display_ctx_t * World :=
  if negb (initialized g) then (g, w)
  else
    let rot := u8 (rotation_in mod 4) in
    let w :=
      if rot =? 0 then
        let '(_, w) := perform (esp_lcd_panel_swap_xy (panel g) false) w in
        snd (perform (esp_lcd_panel_mirror (panel g) false false) w)
      else if rot =? 1 then
        let '(_, w) := perform (esp_lcd_panel_swap_xy (panel g) true) w in
        snd (perform (esp_lcd_panel_mirror (panel g) true false) w)
      else if rot =? 2 then
        let '(_, w) := perform (esp_lcd_panel_swap_xy (panel g) false) w in
        snd (perform (esp_lcd_panel_mirror (panel g) true true) w)
      else if rot =? 3 then
        let '(_, w) := perform (esp_lcd_panel_swap_xy (panel g) true) w in
        snd (perform (esp_lcd_panel_mirror (panel g) false true) w)
      else w in
    let '(aw, ah, xo, yo) := calc_viewport_for_rotation rot g in
    let g := with_viewport g rot aw ah xo yo in
    let '(_, w) :=
      perform (esp_lcd_panel_set_gap (panel g) (active_x_offset g)
                 (active_y_offset g)) w in
    (g, w).

Definition display_get_width (g : display_ctx_t) : Z :=
  if negb (initialized g) then 0 else active_width g.

Definition display_get_height (g : display_ctx_t) : Z :=
  if negb (initialized g) then 0 else active_height g.

Definition display_get_panel_handle (g : display_ctx_t) : option Z :=
  if negb (initialized g) then None else panel g.

Definition display_backlight_set (percent : Z) (g : display_ctx_t)
    (w : World) : World :=
  if negb (initialized g) then w
  else
    let p := clamp_percent percent in
    let duty := u32 (u32 (DISPLAY_BL_MAX_DUTY * p) / 100) in
    let '(_, w) := perform (ledc_set_duty duty) w in
    snd (perform ledc_update_duty w).

(** [for (int row = ...; row < y1; row++)] with [count] rounds to go. *)
Fixpoint draw_rows (count : nat) (row x0 x1 : Z) (g : display_ctx_t)
    (w : World) : World :=
  match count with
  | O => w
  | S count' =>
    let '(_, w) :=
      perform (esp_lcd_panel_draw_bitmap (panel g) x0 row x1 (row + 1)
                 (s_line_buf g)) w in
    draw_rows count' (row + 1) x0 x1 g w
  end.

(** [None] where [x + w] or [y + h] leaves the range of [int], or the
    line buffer is left. *)
Definition display_draw_rect (x y w h rgb565 : Z) (g : display_ctx_t)
    (world : World) : option (display_ctx_t * World) :=
  if negb (initialized g) || (w <=? 0) || (h <=? 0) then Some (g, world)
  else
    let x0 := clampi x 0 (active_width g) in
    let y0 := clampi y 0 (active_height g) in
    if x + w >? INT32_MAX then None
    else
      let x1 := clampi (x + w) 0 (active_width g) in
      if y + h >? INT32_MAX then None
      else
        let y1 := clampi (y + h) 0 (active_height g) in
        if (x1 <=? x0) || (y1 <=? y0) then Some (g, world)
        else
          let draw_w := x1 - x0 in
          match fill_line_buf rgb565 (size_t draw_w) g with
          | None => None
          | Some g => Some (g, draw_rows (Z.to_nat (y1 - y0)) y0 x0 x1 g world)
          end.

Definition display_fill_color (rgb565 : Z) (g : display_ctx_t) (w : World)
    : option (display_ctx_t * World) :=
  display_draw_rect 0 0 (active_width g) (active_height g) rgb565 g w.

(** [for (int row = ...; row < 7; row++)] of display_draw_text_minimal
    with [count] rounds to go: [None] where [cursor_x + col] or
    [cursor_y + row] leaves the range of [int], or the rectangle has no
    meaning. *)
Fixpoint draw_glyph_rows (count : nat) (row col_bits cursor_x col cursor_y
    rgb565 : Z) (g : display_ctx_t) (w : World)
    : option (display_ctx_t * World) :=
  match count with
  | O => Some (g, w)
  | S count' =>
    if negb (Z.land col_bits (Z.shiftl 1 row) =? 0) then
      if (cursor_x + col >? INT32_MAX) || (cursor_y + row >? INT32_MAX)
      then None
      else
        match display_draw_rect (cursor_x + col) (cursor_y + row) 1 1 rgb565
                g w with
        | None => None
        | Some (g, w) =>
          draw_glyph_rows count' (row + 1) col_bits cursor_x col cursor_y
            rgb565 g w
        end
    else
      draw_glyph_rows count' (row + 1) col_bits cursor_x col cursor_y rgb565
        g w
  end.

(** [for (int col = ...; col < 5; col++)] with [count] rounds to go:
    [None] where [glyph[col]] is outside of the glyph. *)
Fixpoint draw_glyph_cols (count : nat) (col : Z) (glyph : list Z)
    (cursor_x cursor_y rgb565 : Z) (g : display_ctx_t) (w : World)
    : option (display_ctx_t * World) :=
  match count with
  | O => Some (g, w)
  | S count' =>
    match nth_error glyph (Z.to_nat col) with
    | None => None
    | Some col_bits =>
      match draw_glyph_rows 7 0 col_bits cursor_x col cursor_y rgb565 g w with
      | None => None
      | Some (g, w) =>
        draw_glyph_cols count' (col + 1) glyph cursor_x cursor_y rgb565 g w
      end
    end
  end.

(** [while ( *s != 0)]: the characters of [s] are followed by the
    terminator; [None] also where [cursor_x += 6] leaves the range of
    [int]. *)
Fixpoint draw_text_from (s : list ascii) (cursor_x cursor_y rgb565 : Z)
    (g : display_ctx_t) (w : World) : option (display_ctx_t * World) :=
  match s with
  | [] => Some (g, w)
  | c :: s' =>
    if Ascii.eqb c zero then Some (g, w)
    else
      match draw_glyph_cols 5 0 (glyph_for_char c) cursor_x cursor_y rgb565
              g w with
      | None => None
      | Some (g, w) =>
        if cursor_x + 6 >? INT32_MAX then None
        else draw_text_from s' (cursor_x + 6) cursor_y rgb565 g w
      end
  end.

Definition display_draw_text_minimal (x y : Z) (s : option (list ascii))
    (rgb565 : Z) (g : display_ctx_t) (w : World)
    : option (display_ctx_t * World) :=
  if negb (initialized g) then Some (g, w)
  else
    match s with
    | None => Some (g, w)
    | Some s => draw_text_from s x y rgb565 g w
    end.

(** The statements after the label [err] of display_init. *)
Definition display_init_err (ret : esp_err_t) (g : display_ctx_t) (w : World)
    : esp_err_t * display_ctx_t * World :=
  let g := with_initialized g false in
  let g := with_line_buf g false in
  let '(g, w) :=
    match panel g with
    | Some p =>
      let '(_, w) := perform (esp_lcd_panel_del p) w in (with_panel g None, w)
    | None => (g, w)
    end in
  let '(g, w) :=
    match io g with
    | Some i =>
      let '(_, w) := perform (esp_lcd_panel_io_del i) w in (with_io g None, w)
    | None => (g, w)
    end in
  let '(_, w) := perform spi_bus_free w in
  (ret, g, w).

Definition display_init (pins_in : option display_pins_t)
    (cfg_in : option display_cfg_t) (g : display_ctx_t) (w : World)
    : esp_err_t * display_ctx_t * World :=
  match pins_in, cfg_in with
  | None, _ => (ESP_ERR_INVALID_ARG, g, w)
  | Some _, None => (ESP_ERR_INVALID_ARG, g, w)
  | Some p, Some c =>
    if negb ((width c >? 0) && (height c >? 0)) then
      (ESP_ERR_INVALID_ARG, g, w)
    else if negb (max_i32 (width c) (height c)
                  <=? DISPLAY_LINE_BUF_PIXELS_MAX) then
      (ESP_ERR_INVALID_ARG, g, w)
    else if negb (spi_clock_hz c >? 0) then (ESP_ERR_INVALID_ARG, g, w)
    else if initialized g then (ESP_OK, g, w)
    else
      let g := with_config g p c in
      let '(ret, w) :=
        perform (spi_bus_initialize (sck p) (mosi p)
                   (size_t (size_t (width c * 40) * 2))) w in
      if negb (ret =? ESP_OK) then (ret, g, w)
      else
        let '(ret, h, w) :=
          call (esp_lcd_new_panel_io_spi (dc p) (cs p) (spi_clock_hz c)) w in
        let g := match h with Some _ => with_io g h | None => g end in
        if negb (ret =? ESP_OK) then display_init_err ret g w
        else
          let '(ret, h, w) :=
            call (esp_lcd_new_panel_st7789 (io g) (reset p)) w in
          let g := match h with Some _ => with_panel g h | None => g end in
          if negb (ret =? ESP_OK) then display_init_err ret g w
          else
            let '(ret, w) := perform (esp_lcd_panel_reset (panel g)) w in
            if negb (ret =? ESP_OK) then display_init_err ret g w
            else
            let '(ret, w) := perform (esp_lcd_panel_init (panel g)) w in
            if negb (ret =? ESP_OK) then display_init_err ret g w
            else
            let '(ret, w) :=
              perform (esp_lcd_panel_set_gap (panel g) (x_offset c)
                         (y_offset c)) w in
            if negb (ret =? ESP_OK) then display_init_err ret g w
            else
            let '(ret, w) :=
              perform (esp_lcd_panel_invert_color (panel g) true) w in
            if negb (ret =? ESP_OK) then display_init_err ret g w
            else
            let '(ret, w) :=
              perform (esp_lcd_panel_disp_on_off (panel g) true) w in
            if negb (ret =? ESP_OK) then display_init_err ret g w
            else
              let g := with_line_buf g true in
              let g := with_initialized g true in
              let '(ret, w) := configure_backlight (backlight p) w in
              if negb (ret =? ESP_OK) then display_init_err ret g w
              else
                let w := display_backlight_set 80 g w in
                let '(g, w) := display_set_rotation 0 g w in
                (ESP_OK, g, w)
  end.

End Driver.

(** What display_init establishes and the other functions keep: while
    the module is initialized the line buffer is set and has its 320
    pixels, the geometry is that of a panel that fits it, and the viewport
    is the one of the rotation. *)
Definition display_ok (g : display_ctx_t) : Prop :=
  initialized g = true ->
  line_buf g = true /\
  length (s_line_buf g) = Z.to_nat DISPLAY_LINE_BUF_PIXELS_MAX /\
  0 < width (cfg g) <= DISPLAY_LINE_BUF_PIXELS_MAX /\
  0 < height (cfg g) <= DISPLAY_LINE_BUF_PIXELS_MAX /\
  (active_width g, active_height g, active_x_offset g, active_y_offset g)
  = calc_viewport_for_rotation (rotation g) g.

(** The platform that keeps the list of the calls made, the latest
    last. *)
Definition traced_call {World : Type}
    (call : lcd_call -> World -> esp_err_t * option Z * World)
    (c : lcd_call) (t : World * list (lcd_call * esp_err_t * option Z))
    : esp_err_t * option Z
      * (World * list (lcd_call * esp_err_t * option Z)) :=
  let '(ret, h, w) := call c (fst t) in (ret, h, (w, snd t ++ [(c, ret, h)])).

(** The calls of a trace without their results. *)
Definition calls_of (l : list (lcd_call * esp_err_t * option Z))
    : list lcd_call :=
  map (fun e => fst (fst e)) l.

(** The rows [row], [row + 1], ... as windows of the panel. *)
Fixpoint row_windows (count : nat) (p : option Z) (row x0 x1 : Z)
    (data : list Z) : list lcd_call :=
  match count with
  | O => []
  | S count' =>
    esp_lcd_panel_draw_bitmap p x0 row x1 (row + 1) data
    :: row_windows count' p (row + 1) x0 x1 data
  end.

(** Every handle that a call of the trace has stored has been deleted
    again. *)
Definition released (l : list (lcd_call * esp_err_t * option Z)) : Prop :=
  forall c r i,
    In (c, r, Some i) l ->
    match c with
    | esp_lcd_new_panel_io_spi _ _ _ =>
      In (esp_lcd_panel_io_del i) (calls_of l)
    | esp_lcd_new_panel_st7789 _ _ => In (esp_lcd_panel_del i) (calls_of l)
    | _ => True
    end.

(** A window of one pixel of a colour, within the given columns and
    rows. *)
Definition pixel_in (p : option Z) (x_lo x_hi y_lo y_hi color : Z)
    (c : lcd_call) : Prop :=
  match c with
  | esp_lcd_panel_draw_bitmap q x0 y0 x1 y1 data =>
    q = p /\ x1 = x0 + 1 /\ y1 = y0 + 1 /\
    x_lo <= x0 < x_hi /\ y_lo <= y0 < y_hi /\ nth_error data 0 = Some color
  | _ => False
  end.

(** Nothing but the pixels of the line buffer differs. *)
Definition repainted (g g' : display_ctx_t) : Prop :=
  g' = with_pixels g (s_line_buf g') /\
  length (s_line_buf g') = length (s_line_buf g).

(** The ten calls whose result display_init examines, in their order,
    with the handles that the second and the third of them make, and the
    five that follow, whose result it does not look at. *)
Definition checked_calls (p : display_pins_t) (c : display_cfg_t)
    (io_h panel_h : option Z) : list lcd_call :=
  [spi_bus_initialize (sck p) (mosi p) (width c * 80);
   esp_lcd_new_panel_io_spi (dc p) (cs p) (spi_clock_hz c);
   esp_lcd_new_panel_st7789 io_h (reset p);
   esp_lcd_panel_reset panel_h;
   esp_lcd_panel_init panel_h;
   esp_lcd_panel_set_gap panel_h (x_offset c) (y_offset c);
   esp_lcd_panel_invert_color panel_h true;
   esp_lcd_panel_disp_on_off panel_h true;
   ledc_timer_config 13 5000;
   ledc_channel_config (backlight p)].

Definition unchecked_calls (c : display_cfg_t) (panel_h : option Z)
    : list lcd_call :=
  [ledc_set_duty 6552;
   ledc_update_duty;
   esp_lcd_panel_swap_xy panel_h false;
   esp_lcd_panel_mirror panel_h false false;
   esp_lcd_panel_set_gap panel_h (x_offset c) (y_offset c)].

(** The calls that give back what display_init has taken. *)
Definition is_release (c : lcd_call) : Prop :=
  match c with
  | esp_lcd_panel_del _ | esp_lcd_panel_io_del _ | spi_bus_free => True
  | _ => False
  end.

(** Every call of the trace returned ESP_OK. *)
Definition succeeded (l : list (lcd_call * esp_err_t * option Z)) : Prop :=
  Forall (fun e => snd (fst e) = ESP_OK) l.

(** The geometry and the clock that display_init accepts. *)
Definition cfg_valid (c : display_cfg_t) : bool :=
  (0 <? width c) && (0 <? height c)
  && (width c <=? DISPLAY_LINE_BUF_PIXELS_MAX)
  && (height c <=? DISPLAY_LINE_BUF_PIXELS_MAX)
  && (0 <? spi_clock_hz c).

(** The module before display_init: everything zero. *)
Definition g_disp0 : display_ctx_t :=
  {| initialized := false;
     pins := {| sck := 0; mosi := 0; cs := 0; dc := 0; reset := 0;
                backlight := 0 |};
     cfg := {| width := 0; height := 0; x_offset := 0; y_offset := 0;
               spi_clock_hz := 0 |};
     rotation := 0; active_width := 0; active_height := 0;
     active_x_offset := 0; active_y_offset := 0; io := None; panel := None;
     line_buf := false; s_line_buf := repeat 0 320 |}.

(** A panel to try the module on: the world is the number of calls that
    still succeed, every later call fails with ESP_FAIL; the SPI call makes
    the handle 7 and the ST7789 call the handle 9. The pins and the
    geometry are those of main.c. *)
Module LcdSim.

Definition handle_of (c : lcd_call) : option Z :=
  match c with
  | esp_lcd_new_panel_io_spi _ _ _ => Some 7
  | esp_lcd_new_panel_st7789 _ _ => Some 9
  | _ => None
  end.

Definition call (c : lcd_call) (w : nat) : esp_err_t * option Z * nat :=
  match w with
  | O => (ESP_FAIL, None, O)
  | S n => (ESP_OK, handle_of c, n)
  end.

Definition display_pins : display_pins_t :=
  {| sck := 2; mosi := 3; cs := 10; dc := 11; reset := 4; backlight := 5 |}.

Definition display_cfg : display_cfg_t :=
  {| width := 170; height := 320; x_offset := 35; y_offset := 0;
     spi_clock_hz := 26 * 1000 * 1000 |}.

(** The module after display_init on a panel that answers 100 calls. *)
Definition g_disp1 : display_ctx_t :=
  snd (fst (display_init nat call (Some display_pins) (Some display_cfg)
              g_disp0 100%nat)).

End LcdSim.

End Display.

(** * Properties *)

(** ** Bytes and bit fields *)

Lemma is_byte_range b : is_byte b = true <-> 0 <= b < 256.
Proof. unfold is_byte. rewrite andb_true_iff, Z.leb_le, Z.ltb_lt. tauto. Qed.

Lemma in_all_bytes b : 0 <= b < 256 -> In b all_bytes.
Proof.
  intros Hb. unfold all_bytes. apply in_map_iff.
  exists (Z.to_nat b). split; [lia|]. apply in_seq. lia.
Qed.

Lemma u8_range x : 0 <= u8 x < 256.
Proof. unfold u8. apply Z.mod_pos_bound. reflexivity. Qed.

Lemma lor_below a b n :
  0 <= n -> 0 <= a < 2 ^ n -> 0 <= b < 2 ^ n -> 0 <= Z.lor a b < 2 ^ n.
Proof.
  intros Hn Ha Hb. split; [apply Z.lor_nonneg; lia|].
  destruct (Z.eq_dec (Z.lor a b) 0) as [E|E]; [rewrite E; lia|].
  assert (0 < Z.lor a b) by (assert (0 <= Z.lor a b) by (apply Z.lor_nonneg; lia); lia).
  assert (0 < n).
  { destruct (Z.eq_dec n 0) as [->|]; [|lia]. change (2 ^ 0) with 1 in *.
    replace a with 0 in * by lia. replace b with 0 in * by lia. discriminate. }
  apply Z.log2_lt_pow2; [assumption|].
  rewrite Z.log2_lor by lia.
  apply Z.max_lub_lt.
  - destruct (Z.eq_dec a 0) as [->|]; [simpl; lia|]. apply Z.log2_lt_pow2; lia.
  - destruct (Z.eq_dec b 0) as [->|]; [simpl; lia|]. apply Z.log2_lt_pow2; lia.
Qed.

Lemma shiftl_byte_below b k :
  0 <= k -> 0 <= b < 256 -> 0 <= Z.shiftl b k < 2 ^ (8 + k).
Proof.
  intros Hk Hb. rewrite Z.shiftl_mul_pow2 by lia.
  rewrite Z.pow_add_r by lia. change (2 ^ 8) with 256.
  assert (0 < 2 ^ k) by (apply Z.pow_pos_nonneg; lia). nia.
Qed.

Lemma high_nibble_below b : 0 <= b < 256 -> 0 <= Z.shiftr b 4 < 16.
Proof.
  intros Hb. rewrite Z.shiftr_div_pow2 by lia. change (2 ^ 4) with 16.
  split; [apply Z.div_pos; lia | apply Z.div_lt_upper_bound; lia].
Qed.

Lemma low_nibble_below b : 0 <= Z.land b 0x0F < 16.
Proof.
  change 0x0F with (Z.ones 4). rewrite Z.land_ones by lia.
  apply Z.mod_pos_bound. reflexivity.
Qed.

Lemma u32_small x : 0 <= x < 2 ^ 32 -> u32 x = x.
Proof. intros H. unfold u32. apply Z.mod_small. exact H. Qed.

Lemma spec_humidity_raw_below b1 b2 b3 :
  0 <= b1 < 256 -> 0 <= b2 < 256 -> 0 <= b3 < 256 ->
  0 <= spec_humidity_raw b1 b2 b3 < 2 ^ 20.
Proof.
  intros H1 H2 H3. unfold spec_humidity_raw.
  pose proof (shiftl_byte_below b1 12 ltac:(lia) H1) as S1.
  pose proof (shiftl_byte_below b2 4 ltac:(lia) H2) as S2.
  pose proof (high_nibble_below b3 H3) as S3.
  change (2 ^ (8 + 12)) with (2 ^ 20) in S1.
  change (2 ^ (8 + 4)) with 4096 in S2.
  apply (lor_below _ _ 20); [lia| |change (2 ^ 20) with 1048576 in *; lia].
  apply (lor_below _ _ 20); change (2 ^ 20) with 1048576 in *; lia.
Qed.

Lemma spec_temperature_raw_below b3 b4 b5 :
  0 <= b4 < 256 -> 0 <= b5 < 256 ->
  0 <= spec_temperature_raw b3 b4 b5 < 2 ^ 20.
Proof.
  intros H4 H5. unfold spec_temperature_raw.
  pose proof (low_nibble_below b3) as S3.
  pose proof (shiftl_byte_below b4 8 ltac:(lia) H4) as S4.
  change (2 ^ (8 + 8)) with 65536 in S4.
  assert (0 <= Z.shiftl (Z.land b3 0x0F) 16 < 2 ^ 20) as S3'.
  { rewrite Z.shiftl_mul_pow2 by lia. change (2 ^ 16) with 65536.
    change (2 ^ 20) with 1048576. lia. }
  apply (lor_below _ _ 20); [lia| |change (2 ^ 20) with 1048576 in *; lia].
  apply (lor_below _ _ 20); change (2 ^ 20) with 1048576 in *; lia.
Qed.

(** ** The checksum loop against the bit-serial register *)

Lemma crc8_shift_range crc : 0 <= crc8_shift crc < 256.
Proof. unfold crc8_shift. destruct (negb _); apply u8_range. Qed.

Lemma crc8_bits_range n crc : 0 <= crc < 256 -> 0 <= crc8_bits n crc < 256.
Proof.
  revert crc. induction n as [|n IH]; intros crc H; simpl; [exact H|].
  apply IH, crc8_shift_range.
Qed.

Lemma feed_agrees_on_sound crcs bytes crc b :
  feed_agrees_on crcs bytes = true -> In crc crcs -> In b bytes ->
  feed_agrees crc b = true.
Proof.
  unfold feed_agrees_on. intros H Hc Hb.
  rewrite forallb_forall in H. specialize (H crc Hc).
  rewrite forallb_forall in H. exact (H b Hb).
Qed.

Lemma feed_agrees_checked : feed_agrees_on all_bytes all_bytes = true.
Proof. vm_compute. reflexivity. Qed.

Lemma crc8_feed_byte crc b :
  0 <= crc < 256 -> 0 <= b < 256 ->
  crc8_bits 8 (u8 (Z.lxor crc b)) = fold_left (crc_feed 0x31) (msb_first b) crc.
Proof.
  intros Hc Hb. apply Z.eqb_eq.
  exact (feed_agrees_on_sound all_bytes all_bytes crc b feed_agrees_checked
           (in_all_bytes crc Hc) (in_all_bytes b Hb)).
Qed.

Lemma crc8_bytes_spec data : forall i n crc,
  (i + n <= length data)%nat -> forallb is_byte data = true ->
  0 <= crc < 256 ->
  crc8_bytes data i n crc =
  fold_left (crc_feed 0x31) (flat_map msb_first (firstn n (skipn i data))) crc.
Proof.
  intros i n. revert i. induction n as [|n IH]; intros i crc Hlen Hall Hc.
  - reflexivity.
  - assert (Hi : (i < length data)%nat) by lia.
    assert (Hb : 0 <= at_ data i < 256).
    { apply is_byte_range. rewrite forallb_forall in Hall. apply Hall.
      unfold at_. apply nth_In. exact Hi. }
    cbn [crc8_bytes]. rewrite IH; [|lia|exact Hall|].
    + rewrite crc8_feed_byte by assumption.
      destruct (skipn i data) as [|x rest] eqn:E.
      * exfalso. assert (L : length (skipn i data) = 0%nat) by (rewrite E; reflexivity).
        rewrite length_skipn in L. lia.
      * assert (Hx : x = at_ data i).
        { unfold at_. rewrite <- (firstn_skipn i data) at 1.
          rewrite app_nth2; rewrite length_firstn; [|lia].
          replace (i - Nat.min i (length data))%nat with 0%nat by lia.
          rewrite E. reflexivity. }
        assert (Hrest : skipn (S i) data = rest).
        { replace (S i) with (1 + i)%nat by lia. rewrite <- skipn_skipn, E. reflexivity. }
        rewrite Hrest. cbn [firstn flat_map]. rewrite fold_left_app, Hx. reflexivity.
    + apply crc8_bits_range, u8_range.
Qed.

Lemma dht20_crc8_spec data n :
  (n <= length data)%nat -> forallb is_byte data = true ->
  dht20_crc8 data n = spec_crc8 (firstn n data).
Proof.
  intros Hn Hall. unfold dht20_crc8, spec_crc8.
  rewrite crc8_bytes_spec by (try assumption; lia). reflexivity.
Qed.

(** The check value of this CRC (CRC-8/NRSC-5) on the ASCII digits 1..9,
    and the checksum of the frame of the specification's example. *)
Example crc8_check_value :
  spec_crc8 [0x31; 0x32; 0x33; 0x34; 0x35; 0x36; 0x37; 0x38; 0x39] = 0xF7 /\
  dht20_crc8 [0x31; 0x32; 0x33; 0x34; 0x35; 0x36; 0x37; 0x38; 0x39] 9 = 0xF7 /\
  dht20_crc8 Sim.frame_ok 6 = 0x65.
Proof. repeat split; vm_compute; reflexivity. Qed.

Lemma busy_mask_test b :
  negb (Z.land b DHT20_STATUS_BUSY_MASK =? 0) = Z.testbit b 7.
Proof.
  change DHT20_STATUS_BUSY_MASK with (2 ^ 7).
  destruct (Z.testbit b 7) eqn:T.
  - destruct (Z.land b (2 ^ 7) =? 0) eqn:E; [|reflexivity].
    apply Z.eqb_eq in E.
    assert (F : Z.testbit (Z.land b (2 ^ 7)) 7 = true).
    { rewrite Z.land_spec, T, Z.pow2_bits_true by lia. reflexivity. }
    rewrite E in F. discriminate.
  - replace (Z.land b (2 ^ 7)) with 0; [reflexivity|].
    symmetry. apply Z.bits_inj'. intros n Hn.
    rewrite Z.land_spec, Z.bits_0.
    destruct (Z.eq_dec n 7) as [->|Hne].
    + rewrite T. reflexivity.
    + rewrite Z.pow2_bits_false by lia. apply andb_false_r.
Qed.

(** A frame is a list of exactly seven bytes. *)
Lemma is_frame_inv raw :
  is_frame raw = true ->
  exists b0 b1 b2 b3 b4 b5 b6,
    raw = [b0; b1; b2; b3; b4; b5; b6] /\
    0 <= b0 < 256 /\ 0 <= b1 < 256 /\ 0 <= b2 < 256 /\ 0 <= b3 < 256 /\
    0 <= b4 < 256 /\ 0 <= b5 < 256 /\ 0 <= b6 < 256.
Proof.
  unfold is_frame. rewrite andb_true_iff. intros [L A].
  apply Nat.eqb_eq in L.
  do 7 (destruct raw as [|? raw]; [discriminate L|]).
  destruct raw; [|discriminate L].
  cbn [forallb] in A. rewrite !andb_true_iff in A.
  rewrite !is_byte_range in A.
  do 7 eexists. split; [reflexivity|]. tauto.
Qed.

Lemma is_frame_crc raw :
  is_frame raw = true ->
  dht20_crc8 raw (DHT20_DATA_LEN - 1) = spec_crc8 (firstn 6 raw).
Proof.
  unfold is_frame. rewrite andb_true_iff. intros [L A].
  apply Nat.eqb_eq in L. apply dht20_crc8_spec; [|exact A].
  rewrite L. unfold DHT20_DATA_LEN. lia.
Qed.

Section DriverFacts.

Variable World : Type.
Variable i2c_master_read_from_device :
  Z -> Z -> list Z -> nat -> Z -> World -> esp_err_t * list Z * World.
Variable esp_timer_get_time : World -> Z * World.
Variable vTaskDelay : Z -> World -> World.
Variable pdMS_TO_TICKS : Z -> Z.

Local Notation "'parse_sample'" :=
  (dht20_parse_sample World esp_timer_get_time).
Local Notation "'read_measurement'" :=
  (dht20_read_measurement World i2c_master_read_from_device
     esp_timer_get_time pdMS_TO_TICKS).
Local Notation "'polling'" :=
  (poll_loop World i2c_master_read_from_device esp_timer_get_time
     vTaskDelay pdMS_TO_TICKS).
Local Notation "'read_measurement_wait'" :=
  (dht20_read_measurement_wait World i2c_master_read_from_device
     esp_timer_get_time vTaskDelay pdMS_TO_TICKS).

Lemma parse_busy raw sample w :
  Z.testbit (at_ raw 0) 7 = true ->
  parse_sample raw sample w = (ESP_ERR_INVALID_STATE, sample, w).
Proof.
  intros B. unfold dht20_parse_sample. rewrite busy_mask_test, B. reflexivity.
Qed.

(** C2: a frame whose status byte has its top bit set decodes to
    ESP_ERR_INVALID_STATE (busy), whatever its checksum byte is: the result
    is the same for the frame as received and for the frame with any
    other seventh byte, and the sample and the world are left as they
    were. *)
Theorem parse_busy_whatever_checksum :
  forall (raw : list Z) (sample : dht20_sample_t) (w : World),
    is_frame raw = true ->
    Z.testbit (at_ raw 0) 7 = true ->
    parse_sample raw sample w = (ESP_ERR_INVALID_STATE, sample, w) /\
    forall b6 : Z,
      parse_sample (firstn 6 raw ++ [b6]) sample w
      = (ESP_ERR_INVALID_STATE, sample, w).
Proof.
  intros raw sample w F B. split; [apply parse_busy; exact B|].
  intros b6. apply parse_busy.
  destruct (is_frame_inv raw F) as (b0 & b1 & b2 & b3 & b4 & b5 & b6' & -> & _).
  exact B.
Qed.

Lemma parse_not_busy raw sample w :
  Z.testbit (at_ raw 0) 7 = false ->
  parse_sample raw sample w =
  if negb (dht20_crc8 raw (DHT20_DATA_LEN - 1) =? at_ raw (DHT20_DATA_LEN - 1))
  then (ESP_ERR_INVALID_CRC, sample, w)
  else
    (ESP_OK,
     {| timestamp_us := u64 (fst (esp_timer_get_time w));
        humidity_raw :=
          Z.lor (Z.lor (u32 (Z.shiftl (at_ raw 1) 12))
                       (u32 (Z.shiftl (at_ raw 2) 4)))
                (Z.shiftr (at_ raw 3) 4);
        temperature_raw :=
          Z.lor (Z.lor (u32 (Z.shiftl (Z.land (at_ raw 3) 0x0F) 16))
                       (u32 (Z.shiftl (at_ raw 4) 8)))
                (at_ raw 5);
        humidity_rh :=
          spec_humidity_rh
            (Z.lor (Z.lor (u32 (Z.shiftl (at_ raw 1) 12))
                          (u32 (Z.shiftl (at_ raw 2) 4)))
                   (Z.shiftr (at_ raw 3) 4));
        temperature_c :=
          spec_temperature_c
            (Z.lor (Z.lor (u32 (Z.shiftl (Z.land (at_ raw 3) 0x0F) 16))
                          (u32 (Z.shiftl (at_ raw 4) 8)))
                   (at_ raw 5)) |},
     snd (esp_timer_get_time w)).
Proof.
  intros B. unfold dht20_parse_sample. rewrite busy_mask_test, B.
  cbn [negb]. destruct (negb _); [reflexivity|].
  destruct (esp_timer_get_time w) as [now w']. reflexivity.
Qed.

(** C3: on a frame whose busy bit is clear, decode compares the CRC-8 of
    bytes 0..5 (polynomial 0x31, initial value 0xFF, most significant bit
    first, no final XOR) with byte 6: it returns ESP_ERR_INVALID_CRC
    exactly when they differ, leaving the sample untouched, and ESP_OK
    when they are equal. *)
Theorem parse_checks_crc :
  forall (raw : list Z) (sample : dht20_sample_t) (w : World),
    is_frame raw = true ->
    Z.testbit (at_ raw 0) 7 = false ->
    dht20_crc8 raw 6 = spec_crc8 (firstn 6 raw) /\
    (fst (fst (parse_sample raw sample w)) = ESP_ERR_INVALID_CRC
     <-> spec_crc8 (firstn 6 raw) <> at_ raw 6) /\
    (spec_crc8 (firstn 6 raw) <> at_ raw 6 ->
     parse_sample raw sample w = (ESP_ERR_INVALID_CRC, sample, w)) /\
    (spec_crc8 (firstn 6 raw) = at_ raw 6 ->
     fst (fst (parse_sample raw sample w)) = ESP_OK).
Proof.
  intros raw sample w F B.
  pose proof (is_frame_crc raw F) as C.
  rewrite (parse_not_busy raw sample w B), C.
  change (DHT20_DATA_LEN - 1)%nat with 6%nat in *.
  split; [exact C|].
  destruct (spec_crc8 (firstn 6 raw) =? at_ raw 6) eqn:E; cbn [negb fst].
  - apply Z.eqb_eq in E. repeat split; try contradiction; try reflexivity.
    discriminate.
  - apply Z.eqb_neq in E. repeat split; try contradiction; try reflexivity.
    intros _. exact E.
Qed.

Lemma parse_ok_fields raw sample w s' w' :
  parse_sample raw sample w = (ESP_OK, s', w') ->
  humidity_raw s' =
    Z.lor (Z.lor (u32 (Z.shiftl (at_ raw 1) 12))
                 (u32 (Z.shiftl (at_ raw 2) 4)))
          (Z.shiftr (at_ raw 3) 4) /\
  temperature_raw s' =
    Z.lor (Z.lor (u32 (Z.shiftl (Z.land (at_ raw 3) 0x0F) 16))
                 (u32 (Z.shiftl (at_ raw 4) 8)))
          (at_ raw 5) /\
  humidity_rh s' = spec_humidity_rh (humidity_raw s') /\
  temperature_c s' = spec_temperature_c (temperature_raw s').
Proof.
  destruct (Z.testbit (at_ raw 0) 7) eqn:B.
  - rewrite parse_busy by exact B. discriminate.
  - rewrite parse_not_busy by exact B.
    destruct (negb _); [discriminate|].
    intros H. injection H as <- _. cbn. auto.
Qed.

Lemma parse_ok_counts raw sample w s' w' :
  is_frame raw = true ->
  parse_sample raw sample w = (ESP_OK, s', w') ->
  humidity_raw s' = spec_humidity_raw (at_ raw 1) (at_ raw 2) (at_ raw 3) /\
  temperature_raw s' =
    spec_temperature_raw (at_ raw 3) (at_ raw 4) (at_ raw 5) /\
  0 <= humidity_raw s' < 2 ^ 20 /\
  0 <= temperature_raw s' < 2 ^ 20.
Proof.
  intros F P.
  destruct (parse_ok_fields raw sample w s' w' P) as (Hh & Ht & _).
  destruct (is_frame_inv raw F)
    as (b0 & b1 & b2 & b3 & b4 & b5 & b6 & -> & _ & H1 & H2 & H3 & H4 & H5 & _).
  cbn [at_ nth] in *.
  assert (Eh : humidity_raw s' = spec_humidity_raw b1 b2 b3).
  { rewrite Hh. unfold spec_humidity_raw.
    pose proof (shiftl_byte_below b1 12 ltac:(lia) H1).
    pose proof (shiftl_byte_below b2 4 ltac:(lia) H2).
    rewrite !u32_small; [reflexivity| |].
    - change (2 ^ (8 + 4)) with 4096 in *. change (2 ^ 32) with 4294967296. lia.
    - change (2 ^ (8 + 12)) with 1048576 in *. change (2 ^ 32) with 4294967296. lia. }
  assert (Et : temperature_raw s' = spec_temperature_raw b3 b4 b5).
  { rewrite Ht. unfold spec_temperature_raw.
    pose proof (low_nibble_below b3).
    pose proof (shiftl_byte_below b4 8 ltac:(lia) H4).
    rewrite !u32_small; [reflexivity| |].
    - change (2 ^ (8 + 8)) with 65536 in *. change (2 ^ 32) with 4294967296. lia.
    - rewrite Z.shiftl_mul_pow2 by lia.
      change (2 ^ 16) with 65536. change (2 ^ 32) with 4294967296. lia. }
  rewrite Eh, Et. split; [reflexivity|]. split; [reflexivity|]. split.
  - apply spec_humidity_raw_below; assumption.
  - apply spec_temperature_raw_below; assumption.
Qed.

(** C4: on a frame that decodes successfully the raw humidity count is
    (b1<<12)|(b2<<4)|(b3>>4) and the raw temperature count is
    ((b3&0x0F)<<16)|(b4<<8)|b5, the 32-bit arithmetic of the source never
    wrapping, and both counts are below 2^20; the two formulas stay below
    2^20 for all byte values. *)
Theorem parse_raw_counts :
  forall (raw : list Z) (sample s' : dht20_sample_t) (w w' : World),
    is_frame raw = true ->
    parse_sample raw sample w = (ESP_OK, s', w') ->
    humidity_raw s' = spec_humidity_raw (at_ raw 1) (at_ raw 2) (at_ raw 3) /\
    temperature_raw s' =
      spec_temperature_raw (at_ raw 3) (at_ raw 4) (at_ raw 5) /\
    0 <= humidity_raw s' < 2 ^ 20 /\
    0 <= temperature_raw s' < 2 ^ 20 /\
    (forall b1 b2 b3 b4 b5,
       is_byte b1 = true -> is_byte b2 = true -> is_byte b3 = true ->
       is_byte b4 = true -> is_byte b5 = true ->
       0 <= spec_humidity_raw b1 b2 b3 < 2 ^ 20 /\
       0 <= spec_temperature_raw b3 b4 b5 < 2 ^ 20).
Proof.
  intros raw sample s' w w' F P.
  destruct (parse_ok_counts raw sample w s' w' F P) as (Eh & Et & Bh & Bt).
  repeat split; try assumption; try (apply Bh); try (apply Bt);
    rewrite is_byte_range in *;
    try (apply spec_humidity_raw_below; assumption);
    try (apply spec_temperature_raw_below; assumption).
Qed.

(** C5: a successful decode stores humidity_rh = raw * 100.0 / 2^20 and
    temperature_c = raw * 200.0 / 2^20 - 50.0, computed in binary32 on the
    raw counts it stores; a raw count of 0 gives 0.0 %RH and -50.0 C, and
    a raw count of 2^20 gives exactly 100.0 %RH and 150.0 C. *)
Theorem parse_physical_values :
  forall (raw : list Z) (sample s' : dht20_sample_t) (w w' : World),
    parse_sample raw sample w = (ESP_OK, s', w') ->
    humidity_rh s' = spec_humidity_rh (humidity_raw s') /\
    temperature_c s' = spec_temperature_c (temperature_raw s') /\
    spec_humidity_rh 0 = F32.zero /\
    spec_temperature_c 0 = F32.of_Z (-50) /\
    spec_humidity_rh (2 ^ 20) = F32.of_Z 100 /\
    spec_temperature_c (2 ^ 20) = F32.of_Z 150.
Proof.
  intros raw sample s' w w' P.
  destruct (parse_ok_fields raw sample w s' w' P) as (_ & _ & Hh & Ht).
  repeat split; try assumption; vm_compute; reflexivity.
Qed.

Lemma read_measurement_eq d s w :
  read_measurement (Some d) (Some s) w =
  let '(ret, raw, w1) :=
    i2c_master_read_from_device (i2c_port d) (i2c_addr d)
      (repeat 0 DHT20_DATA_LEN) DHT20_DATA_LEN
      (pdMS_TO_TICKS (i2c_timeout_ms d)) w in
  if negb (ret =? ESP_OK) then (ret, Some s, w1)
  else
    let '(err, s', w2) := parse_sample raw s w1 in
    (err, Some s', w2).
Proof. reflexivity. Qed.

Lemma parse_failure_keeps_sample raw s w err s' w' :
  parse_sample raw s w = (err, s', w') -> err <> ESP_OK -> s' = s.
Proof.
  destruct (Z.testbit (at_ raw 0) 7) eqn:B.
  - rewrite parse_busy by exact B. intros H _. congruence.
  - rewrite parse_not_busy by exact B. destruct (negb _).
    + intros H _. congruence.
    + intros H N. exfalso. apply N. congruence.
Qed.

Lemma parse_ok_checks raw s w s' w' :
  parse_sample raw s w = (ESP_OK, s', w') ->
  Z.testbit (at_ raw 0) 7 = false /\ dht20_crc8 raw 6 = at_ raw 6.
Proof.
  destruct (Z.testbit (at_ raw 0) 7) eqn:B.
  - rewrite parse_busy by exact B. discriminate.
  - rewrite parse_not_busy by exact B.
    change (DHT20_DATA_LEN - 1)%nat with 6%nat.
    destruct (dht20_crc8 raw 6 =? at_ raw 6) eqn:E; cbn [negb].
    + intros _. split; [reflexivity|]. apply Z.eqb_eq. exact E.
    + discriminate.
Qed.

(** C10: whenever dht20_read_measurement returns something else than
    ESP_OK (invalid argument, transport error, busy, checksum mismatch) the
    caller's sample is exactly what it was before the call; and a call that
    returns ESP_OK had a transfer that succeeded with a frame whose busy
    bit is clear and whose checksum matches. *)
Theorem read_measurement_failure_keeps_sample :
  forall (dev : option dht20_t) (sample : option dht20_sample_t) (w : World),
    (fst (fst (read_measurement dev sample w)) <> ESP_OK ->
     snd (fst (read_measurement dev sample w)) = sample) /\
    (fst (fst (read_measurement dev sample w)) = ESP_OK ->
     exists d raw w1,
       dev = Some d /\
       dht20_read_raw World i2c_master_read_from_device pdMS_TO_TICKS d
         (repeat 0 DHT20_DATA_LEN) DHT20_DATA_LEN w = (ESP_OK, raw, w1) /\
       Z.testbit (at_ raw 0) 7 = false /\
       dht20_crc8 raw 6 = at_ raw 6).
Proof.
  intros [d|] [s|] w;
    try (split; [intros _; reflexivity | intros H; cbv in H; discriminate H]).
  rewrite read_measurement_eq. unfold dht20_read_raw.
  destruct (i2c_master_read_from_device _ _ _ _ _ w) as [[ret raw] w1] eqn:I.
  destruct (ret =? ESP_OK) eqn:R; cbn [negb].
  - apply Z.eqb_eq in R. subst ret.
    destruct (parse_sample raw s w1) as [[err s'] w2] eqn:P. cbn [fst snd].
    split.
    + intros N. f_equal. eapply parse_failure_keeps_sample; eassumption.
    + intros ->. exists d, raw, w1. split; [reflexivity|]. split; [exact I|].
      eapply parse_ok_checks. exact P.
  - apply Z.eqb_neq in R. cbn [fst snd]. split; [reflexivity | contradiction].
Qed.

(** *** The polling loop *)

Local Notation "'polled_as'" :=
  (polled World i2c_master_read_from_device esp_timer_get_time vTaskDelay
     pdMS_TO_TICKS).

Lemma poll_loop_sound dev start_us timeout_us poll_ticks :
  forall fuel sample w r,
    polling fuel dev sample start_us timeout_us poll_ticks w = Some r ->
    exists n, (n <= fuel)%nat /\
      polled_as dev start_us timeout_us poll_ticks n sample w r.
Proof.
  induction fuel as [|fuel IH]; intros sample w r H; [discriminate H|].
  cbn [poll_loop] in H.
  destruct (read_measurement dev sample w) as [[err sample1] w1] eqn:R.
  destruct (err =? ESP_OK) eqn:E.
  - apply Z.eqb_eq in E. subst err. injection H as <-.
    exists 1%nat. split; [lia|]. apply polled_return; [exact R|discriminate].
  - destruct (err =? ESP_ERR_INVALID_STATE) eqn:E'; cbn [negb] in H.
    + apply Z.eqb_eq in E'. subst err.
      destruct (esp_timer_get_time w1) as [now w2] eqn:T.
      destruct (now - start_us >=? timeout_us) eqn:G.
      * injection H as <-. exists 1%nat. split; [lia|].
        eapply polled_deadline; [exact R|exact T|].
        rewrite Z.geb_leb in G. apply Z.leb_le. exact G.
      * destruct (IH _ _ _ H) as (n & Hn & P).
        exists (S n). split; [lia|].
        eapply polled_again; [exact R|exact T| |exact P].
        rewrite Z.geb_leb in G. apply Z.leb_gt. exact G.
    + injection H as <-. exists 1%nat. split; [lia|].
      apply polled_return; [exact R|]. apply Z.eqb_neq. exact E'.
Qed.

Lemma poll_loop_complete dev start_us timeout_us poll_ticks :
  forall n sample w r,
    polled_as dev start_us timeout_us poll_ticks n sample w r ->
    forall fuel, (n <= fuel)%nat ->
      polling fuel dev sample start_us timeout_us poll_ticks w = Some r.
Proof.
  induction 1 as [sample w err sample1 w1 R N
                 |sample w sample1 w1 now w2 R T G
                 |n sample w sample1 w1 now w2 r R T G P IH];
    intros [|fuel] Hf; try lia; cbn [poll_loop]; rewrite R.
  - destruct (err =? ESP_OK) eqn:E.
    + apply Z.eqb_eq in E. subst err. reflexivity.
    + apply Z.eqb_neq in N. rewrite N. reflexivity.
  - change (ESP_ERR_INVALID_STATE =? ESP_OK) with false.
    rewrite Z.eqb_refl. cbn [negb]. rewrite T.
    rewrite Z.geb_leb. apply Z.leb_le in G. rewrite G. reflexivity.
  - change (ESP_ERR_INVALID_STATE =? ESP_OK) with false.
    rewrite Z.eqb_refl. cbn [negb]. rewrite T.
    rewrite Z.geb_leb. apply Z.leb_gt in G. rewrite G.
    apply IH. lia.
Qed.

Lemma polled_timeout_inv dev start_us timeout_us poll_ticks :
  forall n sample w r,
    polled_as dev start_us timeout_us poll_ticks n sample w r ->
    fst (fst r) = ESP_ERR_TIMEOUT ->
    (exists s0 w0, read_measurement dev s0 w0 = r) \/
    (exists w1 now,
       esp_timer_get_time w1 = (now, snd r) /\
       timeout_us <= now - start_us).
Proof.
  induction 1 as [sample w err sample1 w1 R N
                 |sample w sample1 w1 now w2 R T G
                 |n sample w sample1 w1 now w2 r R T G P IH]; intros E.
  - left. exists sample, w. exact R.
  - right. exists w1, now. split; [exact T|exact G].
  - apply IH. exact E.
Qed.

Lemma read_measurement_cases d s w :
  let '(ret, raw, w1) :=
    dht20_read_raw World i2c_master_read_from_device pdMS_TO_TICKS d
      (repeat 0 DHT20_DATA_LEN) DHT20_DATA_LEN w in
  (ret <> ESP_OK ->
   read_measurement (Some d) (Some s) w = (ret, Some s, w1)) /\
  (ret = ESP_OK -> Z.testbit (at_ raw 0) 7 = true ->
   read_measurement (Some d) (Some s) w
   = (ESP_ERR_INVALID_STATE, Some s, w1)) /\
  (ret = ESP_OK -> Z.testbit (at_ raw 0) 7 = false ->
   dht20_crc8 raw 6 <> at_ raw 6 ->
   read_measurement (Some d) (Some s) w = (ESP_ERR_INVALID_CRC, Some s, w1)).
Proof.
  rewrite read_measurement_eq. unfold dht20_read_raw.
  destruct (i2c_master_read_from_device _ _ _ _ _ w) as [[ret raw] w1].
  repeat split.
  - intros N. apply Z.eqb_neq in N. rewrite N. reflexivity.
  - intros -> B. rewrite Z.eqb_refl. cbn [negb].
    rewrite parse_busy by exact B. reflexivity.
  - intros -> B C. rewrite Z.eqb_refl. cbn [negb].
    rewrite parse_not_busy by exact B.
    change (DHT20_DATA_LEN - 1)%nat with 6%nat.
    apply Z.eqb_neq in C. rewrite C. reflexivity.
Qed.

(** The loop and its relation: with enough fuel
    dht20_read_measurement_wait
    returns a result exactly when the loop relation [polled] produces it.
    In that relation an attempt that returns ESP_ERR_INVALID_STATE while
    the elapsed time is below the timeout is followed by a delay and
    another attempt, every other result of an attempt is returned at
    once, and ESP_ERR_TIMEOUT is returned either because the clock, read
    after a busy attempt, shows that timeout_ms * 1000 us or more have
    passed since the reading taken before the first attempt, or because
    the attempt itself returned that code.  An attempt returns the
    transport's code when the transfer failed, ESP_ERR_INVALID_STATE on a
    busy frame and ESP_ERR_INVALID_CRC on a checksum mismatch. *)
Theorem read_measurement_wait_polls :
  forall (dev : dht20_t) (sample : dht20_sample_t)
         (timeout_ms poll_interval_ms : Z) (w : World),
    let start_us := fst (esp_timer_get_time w) in
    let w0 := snd (esp_timer_get_time w) in
    let timeout_us := timeout_ms * 1000 in
    let poll_ticks :=
      pdMS_TO_TICKS (if poll_interval_ms =? 0 then 1 else poll_interval_ms) in
    (forall fuel r,
       read_measurement_wait fuel (Some dev) (Some sample) timeout_ms
         poll_interval_ms w = Some r
       <-> exists n, (n <= fuel)%nat /\
             polled_as (Some dev) start_us timeout_us poll_ticks n
               (Some sample) w0 r) /\
    (forall n s' w',
       polled_as (Some dev) start_us timeout_us poll_ticks n
         (Some sample) w0 (ESP_ERR_TIMEOUT, s', w') ->
       (exists s0 w1,
          read_measurement (Some dev) s0 w1 = (ESP_ERR_TIMEOUT, s', w')) \/
       (exists w1 now,
          esp_timer_get_time w1 = (now, w') /\
          timeout_us <= now - start_us)) /\
    (forall s w1,
       let '(ret, raw, w2) :=
         dht20_read_raw World i2c_master_read_from_device pdMS_TO_TICKS dev
           (repeat 0 DHT20_DATA_LEN) DHT20_DATA_LEN w1 in
       (ret <> ESP_OK ->
        read_measurement (Some dev) (Some s) w1 = (ret, Some s, w2)) /\
       (ret = ESP_OK -> Z.testbit (at_ raw 0) 7 = true ->
        read_measurement (Some dev) (Some s) w1
        = (ESP_ERR_INVALID_STATE, Some s, w2)) /\
       (ret = ESP_OK -> Z.testbit (at_ raw 0) 7 = false ->
        dht20_crc8 raw 6 <> at_ raw 6 ->
        read_measurement (Some dev) (Some s) w1
        = (ESP_ERR_INVALID_CRC, Some s, w2))).
Proof.
  intros dev sample timeout_ms poll_interval_ms w start_us w0 timeout_us
    poll_ticks.
  split; [|split].
  - intros fuel r. unfold dht20_read_measurement_wait.
    subst start_us w0 timeout_us poll_ticks.
    destruct (esp_timer_get_time w) as [start w0]. cbn [fst snd].
    split.
    + apply poll_loop_sound.
    + intros (n & Hn & P). eapply poll_loop_complete; eassumption.
  - intros n s' w' P.
    exact (polled_timeout_inv _ _ _ _ _ _ _ _ P eq_refl).
  - intros s w1. apply read_measurement_cases.
Qed.

End DriverFacts.

(** ** The polling loop terminates

    On a platform whose clock never runs backwards and on which a bus
    transfer takes at least a microsecond, the loop returns after at most
    [timeout_ms * 1000 + 1] attempts. *)

Section Progress.

Variable World : Type.
Variable i2c_master_read_from_device :
  Z -> Z -> list Z -> nat -> Z -> World -> esp_err_t * list Z * World.
Variable esp_timer_get_time : World -> Z * World.
Variable vTaskDelay : Z -> World -> World.
Variable pdMS_TO_TICKS : Z -> Z.

(** The time the world shows. *)
Variable clock : World -> Z.

Hypothesis timer_reads_clock :
  forall w, clock w <= fst (esp_timer_get_time w) <= clock (snd (esp_timer_get_time w)).
Hypothesis transfer_takes_time :
  forall port addr rx len ticks w,
    clock w + 1 <= clock (snd (i2c_master_read_from_device port addr rx len ticks w)).
Hypothesis delay_moves_on :
  forall ticks w, clock w <= clock (vTaskDelay ticks w).

Lemma read_measurement_takes_time d s w :
  fst (fst (dht20_read_measurement World i2c_master_read_from_device
              esp_timer_get_time pdMS_TO_TICKS (Some d) (Some s) w)) <> ESP_OK ->
  clock w + 1 <=
  clock (snd (dht20_read_measurement World i2c_master_read_from_device
                esp_timer_get_time pdMS_TO_TICKS (Some d) (Some s) w)).
Proof.
  rewrite read_measurement_eq.
  pose proof (transfer_takes_time (i2c_port d) (i2c_addr d)
                (repeat 0 DHT20_DATA_LEN) DHT20_DATA_LEN
                (pdMS_TO_TICKS (i2c_timeout_ms d)) w) as T.
  destruct (i2c_master_read_from_device _ _ _ _ _ w) as [[ret raw] w1].
  cbn [snd] in T.
  destruct (negb (ret =? ESP_OK)); [intros _; exact T|].
  destruct (dht20_parse_sample World esp_timer_get_time raw s w1)
    as [[err s'] w2] eqn:P.
  cbn [fst snd]. intros N.
  assert (w2 = w1); [|subst w2; exact T].
  destruct (Z.testbit (at_ raw 0) 7) eqn:B.
  - rewrite parse_busy in P by exact B. congruence.
  - rewrite parse_not_busy in P by exact B. destruct (negb _); congruence.
Qed.

Lemma poll_loop_terminates d start_us timeout_us poll_ticks :
  forall (n : nat) (s : dht20_sample_t) (w : World),
    timeout_us - (clock w - start_us) <= Z.of_nat n ->
    exists r,
      poll_loop World i2c_master_read_from_device esp_timer_get_time
        vTaskDelay pdMS_TO_TICKS (S n) (Some d) (Some s) start_us timeout_us
        poll_ticks w = Some r.
Proof.
  induction n as [|n IH]; intros s w Hb; cbn [poll_loop];
    pose proof (read_measurement_takes_time d s w) as T;
    destruct (dht20_read_measurement World i2c_master_read_from_device
                esp_timer_get_time pdMS_TO_TICKS (Some d) (Some s) w)
      as [[err s1] w1] eqn:R; cbn [fst snd] in T;
    (destruct (err =? ESP_OK) eqn:E; [eexists; reflexivity|]);
    (destruct (err =? ESP_ERR_INVALID_STATE) eqn:E'; cbn [negb];
       [|eexists; reflexivity]);
    apply Z.eqb_neq in E; specialize (T E);
    pose proof (timer_reads_clock w1) as C;
    destruct (esp_timer_get_time w1) as [now w2]; cbn [fst snd] in C;
    (destruct (now - start_us >=? timeout_us) eqn:G; [eexists; reflexivity|]);
    rewrite Z.geb_leb in G; apply Z.leb_gt in G.
  - lia.
  - assert (S1 : exists s1', s1 = Some s1').
    { rewrite read_measurement_eq in R.
      destruct (i2c_master_read_from_device _ _ _ _ _ w) as [[ret raw] w1'].
      destruct (negb (ret =? ESP_OK)).
      - injection R as _ <- _. eexists; reflexivity.
      - destruct (dht20_parse_sample World esp_timer_get_time raw s w1')
          as [[err' s'] w2'].
        injection R as _ <- _. eexists; reflexivity. }
    destruct S1 as [s1' ->].
    apply IH. pose proof (delay_moves_on poll_ticks w2). lia.
Qed.

(** With [timeout_ms * 1000 + 1] attempts allowed, the call returns. *)
Lemma read_measurement_wait_terminates dev sample timeout_ms poll_interval_ms w :
  exists r,
    dht20_read_measurement_wait World i2c_master_read_from_device
      esp_timer_get_time vTaskDelay pdMS_TO_TICKS
      (S (Z.to_nat (timeout_ms * 1000))) dev sample timeout_ms
      poll_interval_ms w = Some r.
Proof.
  destruct dev as [d|], sample as [s|]; try (eexists; reflexivity).
  unfold dht20_read_measurement_wait.
  pose proof (timer_reads_clock w) as C.
  destruct (esp_timer_get_time w) as [start_us w0]. cbn [fst snd] in C.
  apply poll_loop_terminates. lia.
Qed.

End Progress.

(** The scripted world is such a platform. *)
Lemma sim_wait_terminates dev sample timeout_ms poll_interval_ms w :
  exists r,
    Sim.read_measurement_wait (S (Z.to_nat (timeout_ms * 1000))) dev sample
      timeout_ms poll_interval_ms w = Some r.
Proof.
  apply (read_measurement_wait_terminates Sim.world Sim.i2c_read Sim.timer
           Sim.delay Sim.ms_to_ticks Sim.now_us).
  - intros w'. cbn. lia.
  - intros port addr rx len ticks w'. unfold Sim.i2c_read.
    destruct (Sim.bus w') as [|[ret data] rest]; cbn; unfold Sim.transfer_us; lia.
  - intros ticks w'. cbn. unfold Sim.tick_us. lia.
Qed.

(** ** Rounding in binary32

    What the claims need of [binary_round_aux]: the mantissa that comes
    out of a shift, the two candidates of rounding to nearest, and the
    exponent of the result. *)

(** *** Counting the digits of a mantissa *)
Lemma digits2_pos_bounds p :
  2 ^ (Zpos (digits2_pos p) - 1) <= Zpos p < 2 ^ Zpos (digits2_pos p).
Proof.
  induction p as [p IH|p IH|]; cbn [digits2_pos].
  - rewrite Pos2Z.inj_succ. replace (Z.succ (Zpos (digits2_pos p)) - 1) with (Z.succ (Zpos (digits2_pos p) - 1)) by lia.
    rewrite !Z.pow_succ_r by lia. lia.
  - rewrite Pos2Z.inj_succ. replace (Z.succ (Zpos (digits2_pos p)) - 1) with (Z.succ (Zpos (digits2_pos p) - 1)) by lia.
    rewrite !Z.pow_succ_r by lia. lia.
  - cbn. lia.
Qed.

Lemma digits2_pos_unique p d :
  2 ^ (d - 1) <= Zpos p < 2 ^ d -> Zpos (digits2_pos p) = d.
Proof.
  intros [Lo Hi]. pose proof (digits2_pos_bounds p) as [Lo' Hi'].
  set (d' := Zpos (digits2_pos p)) in *.
  assert (0 < d') by (subst d'; lia).
  assert (0 < d).
  { destruct (Z_lt_le_dec 0 d) as [|N]; [assumption|].
    destruct (Z.eq_dec d 0) as [->|]; [cbn in Hi; lia|].
    rewrite Z.pow_neg_r in Hi by lia. lia. }
  destruct (Z.lt_trichotomy d' d) as [L|[E|G]]; [|exact E|].
  - assert (2 ^ d' <= 2 ^ (d - 1)) by (apply Z.pow_le_mono_r; lia). lia.
  - assert (2 ^ d <= 2 ^ (d' - 1)) by (apply Z.pow_le_mono_r; lia). lia.
Qed.

(** *** Shifting a mantissa to the right *)
Lemma iter_pos_nat {A} (f : A -> A) p x :
  iter_pos f p x = Nat.iter (Pos.to_nat p) f x.
Proof.
  revert x. induction p as [p IH|p IH|]; intros x; cbn [iter_pos].
  - rewrite !IH, Pos2Nat.inj_xI.
    replace (S (2 * Pos.to_nat p)) with (Pos.to_nat p + (Pos.to_nat p + 1))%nat by lia.
    rewrite !Nat.iter_add. reflexivity.
  - rewrite !IH, Pos2Nat.inj_xO.
    replace (2 * Pos.to_nat p)%nat with (Pos.to_nat p + Pos.to_nat p)%nat by lia.
    rewrite Nat.iter_add. reflexivity.
  - reflexivity.
Qed.

Lemma shr_1_nonneg m r s :
  0 <= m ->
  shr_1 (Build_shr_record m r s) = Build_shr_record (m / 2) (Z.odd m) (r || s).
Proof.
  intros Hm. destruct m as [|p|p]; [reflexivity| |lia].
  destruct p as [p|p|]; cbn [shr_1].
  - f_equal. rewrite Pos2Z.inj_xI. apply Z.div_unique with 1; lia.
  - f_equal. rewrite Pos2Z.inj_xO. apply Z.div_unique with 0; lia.
  - reflexivity.
Qed.

Lemma shr_iter_m n : forall m r s,
  0 <= m ->
  shr_m (Nat.iter n shr_1 (Build_shr_record m r s)) = m / 2 ^ Z.of_nat n.
Proof.
  induction n as [|n IH]; intros m r s Hm.
  - cbn. symmetry. apply Z.div_1_r.
  - rewrite Nat.iter_succ_r, shr_1_nonneg by exact Hm.
    rewrite IH by (apply Z.div_pos; lia).
    rewrite Nat2Z.inj_succ, Z.pow_succ_r by lia.
    rewrite Z.div_div by lia. reflexivity.
Qed.

Lemma shr_iter_exact n : forall m,
  0 <= m -> m mod 2 ^ Z.of_nat n = 0 ->
  Nat.iter n shr_1 (Build_shr_record m false false)
  = Build_shr_record (m / 2 ^ Z.of_nat n) false false.
Proof.
  induction n as [|n IH]; intros m Hm Hd.
  - cbn. rewrite Z.div_1_r. reflexivity.
  - rewrite Nat.iter_succ_r, shr_1_nonneg by exact Hm.
    rewrite Nat2Z.inj_succ, Z.pow_succ_r in * by lia.
    assert (P : 0 < 2 ^ Z.of_nat n) by (apply Z.pow_pos_nonneg; lia).
    assert (E : m = 2 * (2 ^ Z.of_nat n * (m / (2 * 2 ^ Z.of_nat n)))).
    { pose proof (Z.div_mod m (2 * 2 ^ Z.of_nat n) ltac:(lia)). lia. }
    assert (O : Z.odd m = false).
    { rewrite E. rewrite Z.odd_mul. reflexivity. }
    rewrite O. cbn [orb].
    assert (H2 : m / 2 = 2 ^ Z.of_nat n * (m / (2 * 2 ^ Z.of_nat n))).
    { rewrite E at 1. rewrite Z.mul_comm, Z.div_mul by lia. reflexivity. }
    rewrite IH.
    + rewrite Z.div_div by lia. reflexivity.
    + apply Z.div_pos; lia.
    + rewrite H2. rewrite Z.mul_comm. apply Z.mod_mul. lia.
Qed.

Lemma loc_of_shr_record_of_loc m l :
  loc_of_shr_record (shr_record_of_loc m l) = l.
Proof. destruct l as [|[]]; reflexivity. Qed.

Lemma shr_m_record_of_loc m l : shr_m (shr_record_of_loc m l) = m.
Proof. destruct l as [|[]]; reflexivity. Qed.

(** [shr] on a non-negative mantissa and a non-negative count. *)
Lemma shr_spec m l e n :
  0 <= m -> 0 <= n ->
  exists mrs,
    shr (shr_record_of_loc m l) e n = (mrs, e + n) /\
    shr_m mrs = m / 2 ^ n /\
    (l = loc_Exact -> m mod 2 ^ n = 0 -> loc_of_shr_record mrs = loc_Exact).
Proof.
  intros Hm Hn. destruct n as [|p|p]; [| |lia].
  - exists (shr_record_of_loc m l). cbn [shr]. rewrite Z.add_0_r, Z.div_1_r.
    split; [reflexivity|]. split; [apply shr_m_record_of_loc|].
    intros -> _. reflexivity.
  - exists (iter_pos shr_1 p (shr_record_of_loc m l)). cbn [shr].
    split; [reflexivity|]. rewrite iter_pos_nat.
    replace (Zpos p) with (Z.of_nat (Pos.to_nat p)) by apply positive_nat_Z.
    split.
    + destruct (shr_record_of_loc m l) as [m' r s] eqn:E.
      assert (m' = m) by (rewrite <- (shr_m_record_of_loc m l), E; reflexivity).
      subst m'. apply shr_iter_m. exact Hm.
    + intros -> D. cbn [shr_record_of_loc]. rewrite shr_iter_exact by assumption.
      reflexivity.
Qed.

Lemma round_nearest_even_bounds m l :
  m <= round_nearest_even m l <= m + 1.
Proof. destruct l as [|[]]; cbn [round_nearest_even]; try destruct (Z.even m); lia. Qed.

Lemma fexp32 e : fexp 24 128 e = Z.max (e - 24) (-149).
Proof. reflexivity. Qed.

Lemma div_pow2_digits m n d :
  0 <= n -> 0 < d -> 2 ^ (d + n - 1) <= m < 2 ^ (d + n) ->
  2 ^ (d - 1) <= m / 2 ^ n < 2 ^ d.
Proof.
  intros Hn Hd [Lo Hi].
  assert (P : 0 < 2 ^ n) by (apply Z.pow_pos_nonneg; lia).
  replace (d + n - 1) with ((d - 1) + n) in Lo by lia.
  rewrite Z.pow_add_r in Lo, Hi by lia.
  split.
  - apply Z.div_le_lower_bound; lia.
  - apply Z.div_lt_upper_bound; lia.
Qed.

Lemma bra_normal sx (m : positive) e l n :
  0 <= n -> Zpos (digits2_pos m) = 24 + n -> -149 <= e + n -> e + n < 104 ->
  exists q,
    Zpos m / 2 ^ n <= q <= Zpos m / 2 ^ n + 1 /\
    (l = loc_Exact -> Zpos m mod 2 ^ n = 0 -> q = Zpos m / 2 ^ n) /\
    2 ^ 23 <= q <= 2 ^ 24 /\
    binary_round_aux 24 128 sx (Zpos m) e l =
    if q =? 2 ^ 24 then S754_finite sx (2 ^ 23)%positive (e + n + 1)
    else S754_finite sx (Z.to_pos q) (e + n).
Proof.
  intros Hn Hd Hlo Hhi.
  unfold binary_round_aux, shr_fexp. cbn [Zdigits2]. rewrite Hd, fexp32.
  replace (Z.max (24 + n + e - 24) (-149) - e) with n by lia.
  destruct (shr_spec (Zpos m) l e n ltac:(lia) Hn) as (mrs & E & Hm & Hex).
  rewrite E.
  set (q := round_nearest_even (shr_m mrs) (loc_of_shr_record mrs)).
  pose proof (round_nearest_even_bounds (shr_m mrs) (loc_of_shr_record mrs)) as B.
  fold q in B. rewrite Hm in B.
  pose proof (digits2_pos_bounds m) as D. rewrite Hd in D.
  pose proof (div_pow2_digits (Zpos m) n 24 Hn ltac:(lia) D) as Q.
  change (2 ^ (24 - 1)) with (2 ^ 23) in Q.
  exists q. split; [exact B|]. split.
  { intros Hl Hdiv. subst q. rewrite (Hex Hl Hdiv), Hm. reflexivity. }
  split; [lia|].
  destruct (q =? 2 ^ 24) eqn:Eq.
  - apply Z.eqb_eq in Eq. rewrite Eq. cbn [Zdigits2 digits2_pos Pos.succ Z.pow Z.pow_pos Pos.iter Z.mul Pos.mul].
    rewrite fexp32. replace (Z.max (25 + (e + n) - 24) (-149) - (e + n)) with 1 by lia.
    cbn. replace (e + n + 1 <=? 104) with true by (symmetry; apply Z.leb_le; lia).
    reflexivity.
  - apply Z.eqb_neq in Eq.
    assert (Hq : 2 ^ 23 <= q < 2 ^ 24) by lia.
    destruct q as [|qp|qp] eqn:Eqq; try (change (2 ^ 23) with 8388608 in Hq; lia).
    cbn [Zdigits2]. rewrite (digits2_pos_unique qp 24) by exact Hq.
    rewrite fexp32. replace (Z.max (24 + (e + n) - 24) (-149) - (e + n)) with 0 by lia.
    cbn [shr shr_record_of_loc shr_m Z.to_pos].
    replace (e + n <=? 128 - 24) with true by (symmetry; apply Z.leb_le; lia).
    reflexivity.
Qed.

Lemma pos_iter_xO p k : Zpos (Pos.iter xO p k) = Zpos p * 2 ^ Zpos k.
Proof.
  induction k as [|k IH] using Pos.peano_ind.
  - cbn [Pos.iter]. rewrite Pos2Z.inj_xO. change (2 ^ 1) with 2. lia.
  - rewrite Pos.iter_succ, Pos2Z.inj_xO, IH, Pos2Z.inj_succ, Z.pow_succ_r by lia. lia.
Qed.

Lemma shl_align_spec mx ex ex' :
  ex' <= ex ->
  exists mz, shl_align mx ex ex' = (mz, ex') /\ Zpos mz = Zpos mx * 2 ^ (ex - ex').
Proof.
  intros H. unfold shl_align. destruct (ex' - ex) as [|d|d] eqn:E; try lia.
  - exists mx. assert (ex' = ex) by lia. subst ex'. rewrite Z.sub_diag. split; [reflexivity|]. cbn. lia.
  - exists (Pos.iter xO mx d). split; [reflexivity|]. rewrite pos_iter_xO.
    replace (ex - ex') with (Zpos d) by lia. reflexivity.
Qed.

Lemma of_Z_small p :
  Zpos (digits2_pos p) <= 24 ->
  exists mz,
    Zpos mz = Zpos p * 2 ^ (24 - Zpos (digits2_pos p)) /\
    Zpos (digits2_pos mz) = 24 /\
    F32.of_Z (Zpos p) = S754_finite false mz (Zpos (digits2_pos p) - 24).
Proof.
  intros Hd. set (d := Zpos (digits2_pos p)) in *.
  unfold F32.of_Z, F32.prec, F32.emax, binary_normalize, binary_round. fold d.
  rewrite fexp32. replace (Z.max (d + 0 - 24) (-149)) with (d - 24) by lia.
  destruct (shl_align_spec p 0 (d - 24) ltac:(lia)) as (mz & -> & Hz).
  replace (0 - (d - 24)) with (24 - d) in Hz by lia.
  assert (Dz : Zpos (digits2_pos mz) = 24).
  { apply digits2_pos_unique. rewrite Hz.
    pose proof (digits2_pos_bounds p) as B. fold d in B.
    assert (0 < d) by (subst d; lia).
    replace (2 ^ (24 - 1)) with (2 ^ (d - 1) * 2 ^ (24 - d))
      by (rewrite <- Z.pow_add_r by lia; f_equal; lia).
    replace (2 ^ 24) with (2 ^ d * 2 ^ (24 - d))
      by (rewrite <- Z.pow_add_r by lia; f_equal; lia).
    assert (0 < 2 ^ (24 - d)) by (apply Z.pow_pos_nonneg; lia). nia. }
  exists mz. split; [exact Hz|]. split; [exact Dz|].
  destruct (bra_normal false mz (d - 24) loc_Exact 0 ltac:(lia) ltac:(lia) ltac:(lia) ltac:(lia))
    as (q & _ & Hex & Hq & ->).
  rewrite Hex by (try reflexivity; apply Z.mod_1_r).
  change (2 ^ 0) with 1. rewrite Z.div_1_r.
  pose proof (digits2_pos_bounds mz) as B. rewrite Dz in B.
  replace (Zpos mz =? 2 ^ 24) with false by (symmetry; apply Z.eqb_neq; lia).
  cbn [Z.to_pos]. f_equal. lia.
Qed.

Lemma mul_normal mx ex my ey :
  Zpos (digits2_pos mx) = 24 -> Zpos (digits2_pos my) = 24 ->
  -149 <= ex + ey + 23 -> ex + ey + 24 < 104 ->
  exists n q,
    (n = 23 \/ n = 24) /\
    2 ^ (23 + n) <= Zpos mx * Zpos my < 2 ^ (24 + n) /\
    Zpos mx * Zpos my / 2 ^ n <= q <= Zpos mx * Zpos my / 2 ^ n + 1 /\
    2 ^ 23 <= q <= 2 ^ 24 /\
    F32.mul (S754_finite false mx ex) (S754_finite false my ey) =
    if q =? 2 ^ 24 then S754_finite false (2 ^ 23)%positive (ex + ey + n + 1)
    else S754_finite false (Z.to_pos q) (ex + ey + n).
Proof.
  intros Dx Dy Hlo Hhi.
  pose proof (digits2_pos_bounds mx) as Bx. rewrite Dx in Bx.
  pose proof (digits2_pos_bounds my) as By. rewrite Dy in By.
  change (2 ^ (24 - 1)) with 8388608 in *. change (2 ^ 24) with 16777216 in *.
  unfold F32.mul, F32.prec, F32.emax. cbn [SFmul xorb]. rewrite <- Pos2Z.inj_mul.
  set (M := (mx * my)%positive).
  assert (BM : 2 ^ 46 <= Zpos M < 2 ^ 48).
  { subst M. rewrite Pos2Z.inj_mul. change (2 ^ 46) with (8388608 * 8388608).
    change (2 ^ 48) with (16777216 * 16777216). nia. }
  destruct (Z_lt_le_dec (Zpos M) (2 ^ 47)) as [L|G].
  - assert (DM : Zpos (digits2_pos M) = 24 + 23)
      by (apply digits2_pos_unique; change (47 - 1) with 46; lia).
    destruct (bra_normal false M (ex + ey) loc_Exact 23 ltac:(lia) DM ltac:(lia) ltac:(lia))
      as (q & Hq & _ & Hr & E).
    exists 23, q. split; [left; reflexivity|]. split; [change (23 + 23) with 46; change (24 + 23) with 47; lia|].
    split; [exact Hq|]. split; [change (2 ^ 24) with 16777216 in Hr; change (2 ^ 23) with 8388608 in *; lia|].
    rewrite E. reflexivity.
  - assert (DM : Zpos (digits2_pos M) = 24 + 24)
      by (apply digits2_pos_unique; change (24 + 24 - 1) with 47; change (24 + 24) with 48; lia).
    destruct (bra_normal false M (ex + ey) loc_Exact 24 ltac:(lia) DM ltac:(lia) ltac:(lia))
      as (q & Hq & _ & Hr & E).
    exists 24, q. split; [right; reflexivity|]. split; [change (23 + 24) with 47; change (24 + 24) with 48; lia|].
    split; [exact Hq|]. split; [change (2 ^ 24) with 16777216 in Hr; change (2 ^ 23) with 8388608 in *; lia|].
    rewrite E. reflexivity.
Qed.

Lemma div_1048576 mx ex :
  Zpos (digits2_pos mx) = 24 -> -128 <= ex -> ex < 124 ->
  F32.div (S754_finite false mx ex) F32.c1048576 = S754_finite false mx (ex - 20).
Proof.
  intros Dx Hlo Hhi. unfold F32.c1048576, F32.div, F32.prec, F32.emax.
  cbn [SFdiv xorb].
  unfold SFdiv_core_binary. cbn [Zdigits2]. rewrite Dx.
  change (Zpos (digits2_pos 8388608)) with 24.
  rewrite fexp32.
  replace (Z.min (Z.max (24 + ex - (24 + -3) - 24) (-149)) (ex - -3)) with (ex - 21) by lia.
  replace (ex - -3 - (ex - 21)) with 24 by lia.
  rewrite Z.shiftl_mul_pow2 by lia.
  assert (E : Z.div_eucl (Zpos mx * 2 ^ 24) 8388608 = (Zpos mx~0, 0)).
  { pose proof (Z_div_mod (Zpos mx * 2 ^ 24) 8388608 ltac:(lia)) as H.
    destruct (Z.div_eucl (Zpos mx * 2 ^ 24) 8388608) as [q r].
    change (2 ^ 24) with 16777216 in H. rewrite Pos2Z.inj_xO.
    f_equal; lia. }
  rewrite E. change (new_location 8388608 0) with loc_Exact.
  assert (D2 : Zpos (digits2_pos mx~0) = 24 + 1).
  { cbn [digits2_pos]. rewrite Pos2Z.inj_succ. lia. }
  destruct (bra_normal false mx~0 (ex - 21) loc_Exact 1 ltac:(lia) D2 ltac:(lia) ltac:(lia))
    as (q & _ & Hex & _ & ->).
  assert (Hq : q = Zpos mx).
  { rewrite Hex; [|reflexivity|].
    - rewrite Pos2Z.inj_xO. change (2 ^ 1) with 2. rewrite Z.mul_comm. apply Z.div_mul. lia.
    - rewrite Pos2Z.inj_xO. change (2 ^ 1) with 2. rewrite Z.mul_comm. apply Z.mod_mul. lia. }
  subst q.
  pose proof (digits2_pos_bounds mx) as B. rewrite Dx in B.
  replace (Zpos mx =? 2 ^ 24) with false by (symmetry; apply Z.eqb_neq; lia).
  cbn [Z.to_pos]. f_equal. lia.
Qed.

Lemma ltb_finite_pos m e m' e' :
  e < e' \/ (e = e' /\ Zpos m < Zpos m') ->
  F32.ltb (S754_finite false m e) (S754_finite false m' e') = true.
Proof.
  intros H. unfold F32.ltb, SFltb, SFcompare.
  destruct (Z.compare_spec e e') as [E|L|G]; [|reflexivity|lia].
  destruct H as [H|[_ H]]; [lia|].
  fold (Pos.compare m m').
  assert (C : Pos.compare m m' = Lt) by (apply Pos.compare_lt_iff; lia).
  rewrite C. reflexivity.
Qed.

Lemma ltb_c100 m e :
  e < -17 \/ (e = -17 /\ Zpos m < 13107200) ->
  F32.ltb (S754_finite false m e) F32.c100 = true.
Proof. apply ltb_finite_pos. Qed.

Lemma hum_below_100 raw :
  0 <= raw < 2 ^ 20 ->
  F32.leb F32.zero (spec_humidity_rh raw) = true /\ F32.ltb (spec_humidity_rh raw) F32.c100 = true.
Proof.
  intros [Lo Hi]. destruct raw as [|p|p]; [split; reflexivity| |lia].
  pose proof (digits2_pos_bounds p) as Bp.
  set (d := Zpos (digits2_pos p)) in *.
  assert (Hd : 0 < d <= 20).
  { split; [subst d; lia|].
    destruct (Z_lt_le_dec 20 d); [|assumption].
    assert (2 ^ 20 <= 2 ^ (d - 1)) by (apply Z.pow_le_mono_r; lia). lia. }
  destruct (of_Z_small p ltac:(fold d; lia)) as (mz & Hz & Dz & Ez). fold d in Hz, Ez.
  unfold spec_humidity_rh. rewrite Ez. unfold F32.c100.
  destruct (mul_normal mz (d - 24) 13107200 (-17) Dz eq_refl ltac:(lia) ltac:(lia))
    as (n & q & Hn & HM & Hq & Hr & ->).
  change (2 ^ 24) with 16777216 in *. change (2 ^ 23) with 8388608 in *.
  assert (Key : d = 20 -> n = 24 -> q <= 13107188).
  { intros Ed En. rewrite Ed in Hz. change (2 ^ (24 - 20)) with 16 in Hz.
    rewrite En in Hq. rewrite Hz in Hq.
    change (2 ^ 20) with 1048576 in Hi.
    assert (Zpos p * 16 * 13107200 / 2 ^ 24 <= 13107187).
    { change (2 ^ 24) with 16777216.
      apply Z.lt_succ_r. apply Z.div_lt_upper_bound; lia. }
    lia. }
  destruct (q =? 16777216) eqn:Eq.
  - apply Z.eqb_eq in Eq.
    rewrite div_1048576 by (try reflexivity; lia).
    split; [reflexivity|]. apply ltb_c100.
    destruct (Z.eq_dec d 20) as [Ed|]; destruct Hn as [-> | ->]; try lia.
    all: specialize (Key Ed eq_refl); lia.
  - apply Z.eqb_neq in Eq.
    assert (Dq : Zpos (digits2_pos (Z.to_pos q)) = 24).
    { apply digits2_pos_unique. rewrite Z2Pos.id by lia.
      change (2 ^ (24 - 1)) with 8388608. change (2 ^ 24) with 16777216. lia. }
    rewrite div_1048576 by (try exact Dq; lia).
    split; [reflexivity|]. apply ltb_c100. rewrite Z2Pos.id by lia.
    destruct (Z.eq_dec d 20) as [Ed|]; destruct Hn as [-> | ->]; try lia.
    all: specialize (Key Ed eq_refl); lia.
Qed.

(** *** No NaN and no overflow out of rounding *)

Lemma shr_general m l e n :
  0 <= m ->
  exists mrs,
    shr (shr_record_of_loc m l) e n = (mrs, e + Z.max n 0) /\
    shr_m mrs = m / 2 ^ Z.max n 0.
Proof.
  intros Hm. destruct (Z_lt_le_dec n 0) as [N|N].
  - exists (shr_record_of_loc m l). replace (Z.max n 0) with 0 by lia.
    rewrite Z.add_0_r, Z.div_1_r, shr_m_record_of_loc.
    destruct n; try lia. split; reflexivity.
  - replace (Z.max n 0) with n by lia.
    destruct (shr_spec m l e n Hm N) as (mrs & E & M & _).
    exists mrs. split; assumption.
Qed.

Lemma Zdigits2_le q j :
  0 <= j -> 0 <= q <= 2 ^ j -> Zdigits2 q <= j + 1.
Proof.
  intros Hj [Lo Hi]. destruct q as [|p|p]; cbn [Zdigits2]; try lia.
  pose proof (digits2_pos_bounds p) as [B _].
  destruct (Z_lt_le_dec (j + 1) (Zpos (digits2_pos p))) as [L|L]; [|lia].
  assert (2 ^ (j + 1) <= 2 ^ (Zpos (digits2_pos p) - 1)) by (apply Z.pow_le_mono_r; lia).
  rewrite Z.pow_add_r in H by lia. change (2 ^ 1) with 2 in H.
  assert (0 < 2 ^ j) by (apply Z.pow_pos_nonneg; lia). lia.
Qed.

Lemma bra_not_nan sx m e l :
  0 <= m -> F32.is_nan (binary_round_aux 24 128 sx m e l) = false.
Proof.
  intros Hm. unfold binary_round_aux, shr_fexp.
  destruct (shr_general m l e (fexp 24 128 (Zdigits2 m + e) - e) Hm) as (mrs & -> & M).
  set (q := round_nearest_even (shr_m mrs) (loc_of_shr_record mrs)).
  assert (Hq : 0 <= q).
  { pose proof (round_nearest_even_bounds (shr_m mrs) (loc_of_shr_record mrs)) as B.
    fold q in B. rewrite M in B.
    assert (0 <= m / 2 ^ Z.max (fexp 24 128 (Zdigits2 m + e) - e) 0)
      by (apply Z.div_pos; [lia | apply Z.pow_pos_nonneg; lia]).
    lia. }
  destruct (shr_general q loc_Exact (e + Z.max (fexp 24 128 (Zdigits2 m + e) - e) 0)
              (fexp 24 128 (Zdigits2 q + (e + Z.max (fexp 24 128 (Zdigits2 m + e) - e) 0))
               - (e + Z.max (fexp 24 128 (Zdigits2 m + e) - e) 0)) Hq) as (mrs2 & -> & M2).
  assert (0 <= shr_m mrs2).
  { rewrite M2. apply Z.div_pos; [lia | apply Z.pow_pos_nonneg; lia]. }
  destruct (shr_m mrs2); [reflexivity| |lia].
  destruct (_ <=? _); reflexivity.
Qed.

Lemma bra_isfinite sx (m : positive) e l :
  e <= 103 -> Zpos (digits2_pos m) + e <= 127 ->
  F32.isfinite (binary_round_aux 24 128 sx (Zpos m) e l) = true.
Proof.
  intros He Hd. unfold binary_round_aux, shr_fexp. cbn [Zdigits2].
  set (d := Zpos (digits2_pos m)) in *.
  set (k := Z.max (fexp 24 128 (d + e) - e) 0).
  destruct (shr_general (Zpos m) l e (fexp 24 128 (d + e) - e) ltac:(lia)) as (mrs & -> & M).
  fold k in M |- *.
  set (q := round_nearest_even (shr_m mrs) (loc_of_shr_record mrs)).
  pose proof (round_nearest_even_bounds (shr_m mrs) (loc_of_shr_record mrs)) as B.
  fold q in B. rewrite M in B.
  assert (Hk : 0 <= k) by (subst k; lia).
  assert (Pk : 0 < 2 ^ k) by (apply Z.pow_pos_nonneg; lia).
  assert (Hd0 : 0 < d) by (subst d; lia).
  pose proof (digits2_pos_bounds m) as [_ Bm]. fold d in Bm.
  assert (Hm' : 0 <= Zpos m / 2 ^ k < 2 ^ Z.max (d - k) 0).
  { split; [apply Z.div_pos; lia|].
    apply Z.div_lt_upper_bound; [lia|].
    destruct (Z_lt_le_dec d k) as [L|L].
    - replace (Z.max (d - k) 0) with 0 by lia. change (2 ^ 0) with 1.
      assert (2 ^ d <= 2 ^ k) by (apply Z.pow_le_mono_r; lia). lia.
    - replace (Z.max (d - k) 0) with (d - k) by lia.
      rewrite <- Z.pow_add_r by lia. replace (k + (d - k)) with d by lia. exact Bm. }
  assert (Hq : 0 <= q <= 2 ^ Z.max (d - k) 0) by lia.
  pose proof (Zdigits2_le q (Z.max (d - k) 0) ltac:(lia) Hq) as Dq.
  destruct (shr_general q loc_Exact (e + k) (fexp 24 128 (Zdigits2 q + (e + k)) - (e + k)) ltac:(lia))
    as (mrs2 & -> & M2).
  assert (Hm2 : 0 <= shr_m mrs2).
  { rewrite M2. apply Z.div_pos; [lia | apply Z.pow_pos_nonneg; lia]. }
  destruct (shr_m mrs2); [reflexivity| |lia].
  replace (_ <=? _) with true; [reflexivity|].
  symmetry. apply Z.leb_le. subst k. rewrite !fexp32 in *. lia.
Qed.

Lemma digits2_pos_iter_xO m p :
  Zpos (digits2_pos (Pos.iter xO m p)) = Zpos (digits2_pos m) + Zpos p.
Proof.
  apply digits2_pos_unique. rewrite pos_iter_xO.
  pose proof (digits2_pos_bounds m) as [Lo Hi].
  assert (0 < 2 ^ Zpos p) by (apply Z.pow_pos_nonneg; lia).
  replace (Zpos (digits2_pos m) + Zpos p - 1) with (Zpos (digits2_pos m) - 1 + Zpos p) by lia.
  rewrite !Z.pow_add_r by lia. nia.
Qed.

Lemma binary_round_isfinite sx m e :
  e <= 103 -> Zpos (digits2_pos m) + e <= 127 ->
  F32.isfinite (binary_round 24 128 sx m e) = true.
Proof.
  intros He Hd. unfold binary_round.
  set (e' := fexp 24 128 (Zpos (digits2_pos m) + e)).
  unfold shl_align. destruct (e' - e) as [|p|p] eqn:E.
  - apply bra_isfinite; assumption.
  - apply bra_isfinite; assumption.
  - apply bra_isfinite; [lia|]. rewrite digits2_pos_iter_xO. lia.
Qed.

Lemma binary_round_not_nan sx m e :
  F32.is_nan (binary_round 24 128 sx m e) = false.
Proof.
  unfold binary_round.
  destruct (shl_align m e _) as [mz ez]. apply bra_not_nan. lia.
Qed.

Lemma binary_normalize_not_nan m e sz :
  F32.is_nan (binary_normalize 24 128 m e sz) = false.
Proof.
  destruct m; cbn [binary_normalize]; [reflexivity| |]; apply binary_round_not_nan.
Qed.

Lemma binary_normalize_isfinite m e sz :
  e <= 103 -> Zdigits2 m + e <= 127 ->
  F32.isfinite (binary_normalize 24 128 m e sz) = true.
Proof.
  intros He Hd. destruct m; cbn [binary_normalize Zdigits2] in *;
    [reflexivity| |]; apply binary_round_isfinite; assumption.
Qed.

Lemma add_not_nan x y :
  F32.isfinite x = true -> F32.is_nan y = false -> F32.is_nan (F32.add x y) = false.
Proof.
  destruct x as [sx| | |sx mx ex]; try discriminate; intros _;
    destruct y as [sy|sy| |sy my ey]; try discriminate; intros _;
    unfold F32.add, F32.prec, F32.emax; cbn [SFadd]; try reflexivity.
  - destruct sx, sy; reflexivity.
  - apply binary_normalize_not_nan.
Qed.

Lemma mul_not_nan x y :
  F32.isfinite x = true -> F32.isfinite y = true -> F32.is_nan (F32.mul x y) = false.
Proof.
  destruct x as [sx| | |sx mx ex]; try discriminate; intros _;
    destruct y as [sy| | |sy my ey]; try discriminate; intros _;
    unfold F32.mul, F32.prec, F32.emax; cbn [SFmul]; try reflexivity.
  apply bra_not_nan. lia.
Qed.

Lemma Zdigits2_abs_le q j :
  0 <= j -> - 2 ^ j <= q <= 2 ^ j -> Zdigits2 q <= j + 1.
Proof.
  intros Hj [Lo Hi]. destruct q as [|p|p].
  - cbn. lia.
  - apply Zdigits2_le; lia.
  - change (Zdigits2 (Zneg p)) with (Zdigits2 (Zpos p)).
    apply Zdigits2_le; lia.
Qed.

(** *** Comparisons and the clamp *)

Lemma SFcompare_antisym x y :
  SFcompare y x =
  match SFcompare x y with Some c => Some (CompOpp c) | None => None end.
Proof.
  destruct x as [sx|sx| |sx mx ex], y as [sy|sy| |sy my ey];
    cbn [SFcompare]; try reflexivity;
    try (destruct sx; reflexivity); try (destruct sy; reflexivity);
    try (destruct sx, sy; reflexivity).
  pose proof (Pos.compare_cont_antisym mx my Eq) as A. cbn [CompOpp] in A.
  destruct sx, sy; try reflexivity;
    rewrite (Z.compare_antisym ex ey); destruct (ex ?= ey); cbn [CompOpp];
    try reflexivity; rewrite <- A; reflexivity.
Qed.

Lemma SFcompare_defined x y :
  F32.is_nan x = false -> F32.is_nan y = false ->
  exists c, SFcompare x y = Some c.
Proof.
  destruct x, y; try discriminate; intros _ _; cbn [SFcompare]; eexists;
    reflexivity.
Qed.

Lemma clampf_nan : dht20_clampf S754_nan F32.zero F32.c100 = S754_nan.
Proof. reflexivity. Qed.

Lemma in_0_100_isfinite x : in_0_100 x = true -> F32.isfinite x = true.
Proof.
  destruct x as [s|s| |s m e]; try reflexivity; try discriminate.
  destruct s; discriminate.
Qed.

Lemma clampf_in_range v :
  F32.is_nan v = false -> in_0_100 (dht20_clampf v F32.zero F32.c100) = true.
Proof.
  intros N.
  destruct (SFcompare_defined v F32.zero N eq_refl) as [c1 C1].
  destruct (SFcompare_defined F32.c100 v eq_refl N) as [c2 C2].
  pose proof (SFcompare_antisym v F32.zero) as A1. rewrite C1 in A1.
  pose proof (SFcompare_antisym F32.c100 v) as A2. rewrite C2 in A2.
  unfold dht20_clampf, F32.ltb, SFltb. rewrite C1, C2.
  destruct c1; try reflexivity; destruct c2; try reflexivity;
    unfold in_0_100, F32.leb, SFleb; rewrite A1, A2; reflexivity.
Qed.

Lemma clampf_range_iff v :
  in_0_100 (dht20_clampf v F32.zero F32.c100) = negb (F32.is_nan v).
Proof.
  destruct (F32.is_nan v) eqn:N.
  - destruct v; try discriminate. reflexivity.
  - apply clampf_in_range. exact N.
Qed.

Lemma clampf_id x :
  in_0_100 x = true -> dht20_clampf x F32.zero F32.c100 = x.
Proof.
  unfold in_0_100, F32.leb, SFleb. rewrite andb_true_iff. intros [L H].
  pose proof (SFcompare_antisym F32.zero x) as A1.
  pose proof (SFcompare_antisym x F32.c100) as A2.
  unfold dht20_clampf, F32.ltb, SFltb. rewrite A1, A2.
  destruct (SFcompare F32.zero x) as [[]|]; try discriminate;
    destruct (SFcompare x F32.c100) as [[]|]; try discriminate; reflexivity.
Qed.

Lemma clampf_cases v :
  (F32.ltb v F32.zero = true ->
   dht20_clampf v F32.zero F32.c100 = F32.zero) /\
  (F32.ltb F32.c100 v = true ->
   dht20_clampf v F32.zero F32.c100 = F32.c100) /\
  (F32.ltb v F32.zero = false -> F32.ltb F32.c100 v = false ->
   dht20_clampf v F32.zero F32.c100 = v).
Proof.
  unfold dht20_clampf. repeat split.
  - intros ->. reflexivity.
  - intros H. destruct (F32.ltb v F32.zero) eqn:L; [|rewrite H; reflexivity].
    exfalso. destruct v as [s|s| |s m e]; try discriminate;
      destruct s; discriminate.
  - intros -> ->. reflexivity.
Qed.

(** *** The shape of floats that pass the range checks *)

Lemma bounded_digits m e :
  bounded 24 128 m e = true -> Zpos (digits2_pos m) <= 24.
Proof.
  unfold bounded, canonical_mantissa. rewrite andb_true_iff, Z.eqb_eq, fexp32.
  lia.
Qed.

Lemma alpha_shape a :
  alpha_in_range a = true -> F32.valid a = true ->
  exists m e,
    a = S754_finite false m e /\ Zpos (digits2_pos m) <= 24 /\ e <= -23.
Proof.
  unfold alpha_in_range. rewrite andb_true_iff. intros [P L] V.
  destruct a as [s|s| |s m e]; try discriminate.
  - destruct s; discriminate.
  - destruct s; [discriminate|].
    exists m, e. split; [reflexivity|]. split; [exact (bounded_digits m e V)|].
    unfold F32.leb, SFleb, F32.one, SFcompare in L.
    destruct (Z.compare_spec e (-23)); try lia; discriminate.
Qed.

Lemma in_0_100_shape x :
  in_0_100 x = true -> F32.valid x = true ->
  (exists s, x = S754_zero s) \/
  (exists m e,
     x = S754_finite false m e /\ Zpos (digits2_pos m) <= 24 /\ e <= -17).
Proof.
  unfold in_0_100. rewrite andb_true_iff. intros [P L] V.
  destruct x as [s|s| |s m e]; try discriminate.
  - left. exists s. reflexivity.
  - destruct s; discriminate.
  - destruct s; [discriminate|]. right.
    exists m, e. split; [reflexivity|]. split; [exact (bounded_digits m e V)|].
    unfold F32.leb, SFleb, F32.c100, SFcompare in L.
    destruct (Z.compare_spec e (-17)); try lia; discriminate.
Qed.

Lemma mul_alpha_isfinite a x :
  alpha_in_range a = true -> F32.valid a = true ->
  in_0_100 x = true -> F32.valid x = true ->
  F32.isfinite (F32.mul a x) = true.
Proof.
  intros Ha Va Hx Vx.
  destruct (alpha_shape a Ha Va) as (ma & ea & -> & Da & Ea).
  destruct (in_0_100_shape x Hx Vx) as [[s ->]|(mx & ex & -> & Dx & Ex)].
  - reflexivity.
  - unfold F32.mul, F32.prec, F32.emax. cbn [SFmul].
    apply bra_isfinite; [lia|].
    pose proof (digits2_pos_bounds ma) as [_ Ba].
    pose proof (digits2_pos_bounds mx) as [_ Bx].
    assert (Zpos ma < 2 ^ 24).
    { eapply Z.lt_le_trans; [exact Ba|]. apply Z.pow_le_mono_r; lia. }
    assert (Zpos mx < 2 ^ 24).
    { eapply Z.lt_le_trans; [exact Bx|]. apply Z.pow_le_mono_r; lia. }
    assert (D : Zdigits2 (Zpos (ma * mx)) <= 48 + 1).
    { apply Zdigits2_le; [lia|]. rewrite Pos2Z.inj_mul.
      change (2 ^ 48) with (2 ^ 24 * 2 ^ 24). nia. }
    cbn [Zdigits2] in D. lia.
Qed.

Lemma one_minus_alpha_isfinite a :
  alpha_in_range a = true -> F32.valid a = true ->
  F32.isfinite (F32.sub F32.one a) = true.
Proof.
  intros Ha Va.
  destruct (alpha_shape a Ha Va) as (ma & ea & -> & Da & Ea).
  unfold F32.sub, F32.one, F32.prec, F32.emax. cbn [SFsub cond_Zopp].
  replace (Z.min (-23) ea) with ea by lia.
  destruct (shl_align_spec 8388608 (-23) ea Ea) as (m1 & -> & H1).
  destruct (shl_align_spec ma ea ea ltac:(lia)) as (m2 & -> & H2).
  cbn [fst]. rewrite Z.sub_diag in H2. change (2 ^ 0) with 1 in H2.
  apply binary_normalize_isfinite; [lia|].
  pose proof (digits2_pos_bounds ma) as [_ Ba].
  assert (Zpos ma < 2 ^ 24).
  { eapply Z.lt_le_trans; [exact Ba|]. apply Z.pow_le_mono_r; lia. }
  assert (P : 2 ^ 24 <= 2 ^ (1 - ea)) by (apply Z.pow_le_mono_r; lia).
  assert (E1 : Zpos m1 = 2 ^ (- ea)).
  { rewrite H1. change 8388608 with (2 ^ 23).
    rewrite <- Z.pow_add_r by lia. f_equal. lia. }
  assert (E2 : 2 ^ (1 - ea) = 2 * 2 ^ (- ea)).
  { replace (1 - ea) with (Z.succ (- ea)) by lia. apply Z.pow_succ_r. lia. }
  assert (D : Zdigits2 (Zpos m1 - Zpos m2) <= (1 - ea) + 1).
  { apply Zdigits2_abs_le; lia. }
  lia.
Qed.

Lemma spec_ema_not_nan a x s :
  alpha_in_range a = true -> F32.valid a = true ->
  in_0_100 x = true -> F32.valid x = true ->
  F32.isfinite s = true ->
  F32.is_nan (spec_ema a x s) = false.
Proof.
  intros Ha Va Hx Vx Hs. unfold spec_ema.
  apply add_not_nan.
  - apply mul_alpha_isfinite; assumption.
  - apply mul_not_nan; [apply one_minus_alpha_isfinite; assumption | exact Hs].
Qed.

(** ** Calibration offset *)

(** C7: dht20_sample_apply_offset adds the temperature offset without any
    clamping and stores the humidity plus its offset clamped to [0,100]:
    0 when the sum is below 0, 100 when it is above 100, the sum itself
    otherwise; the other fields are kept.  99 %RH with an offset of +5 gives
    exactly 100, 2 %RH with an offset of -5 gives exactly 0, and 140 C with
    an offset of +20 gives 160 C. *)
Theorem apply_offset_adds_and_clamps :
  forall (s : dht20_sample_t) (t_off h_off : F32.float),
    let v := F32.add (humidity_rh s) h_off in
    (exists s',
       dht20_sample_apply_offset (Some s) t_off h_off = (ESP_OK, Some s') /\
       temperature_c s' = F32.add (temperature_c s) t_off /\
       humidity_rh s' = dht20_clampf v F32.zero F32.c100 /\
       (F32.ltb v F32.zero = true -> humidity_rh s' = F32.zero) /\
       (F32.ltb F32.c100 v = true -> humidity_rh s' = F32.c100) /\
       (F32.ltb v F32.zero = false -> F32.ltb F32.c100 v = false ->
        humidity_rh s' = v) /\
       timestamp_us s' = timestamp_us s /\
       humidity_raw s' = humidity_raw s /\
       temperature_raw s' = temperature_raw s) /\
    dht20_sample_apply_offset
      (Some (Sim.sample_of (F32.of_Z 99) (F32.of_Z 140)))
      (F32.of_Z 20) (F32.of_Z 5)
    = (ESP_OK, Some (Sim.sample_of (F32.of_Z 100) (F32.of_Z 160))) /\
    dht20_sample_apply_offset
      (Some (Sim.sample_of (F32.of_Z 2) (F32.of_Z 20)))
      F32.zero (F32.of_Z (-5))
    = (ESP_OK, Some (Sim.sample_of F32.zero (F32.of_Z 20))).
Proof.
  intros s t_off h_off v. split; [|split; vm_compute; reflexivity].
  eexists. split; [reflexivity|]. cbn [temperature_c humidity_rh timestamp_us
    humidity_raw temperature_raw]. fold v.
  destruct (clampf_cases v) as (L & H & M).
  repeat split; assumption.
Qed.

(** ** Smoothing filter *)

Lemma filter_apply_first f i o :
  alpha_in_range (alpha f) = true -> initialized f = false ->
  dht20_filter_apply (Some f) (Some i) (Some o) =
  (ESP_OK,
   Some {| initialized := true; alpha := alpha f;
           f_humidity_rh := humidity_rh i;
           f_temperature_c := temperature_c i |},
   Some {| timestamp_us := timestamp_us i;
           humidity_raw := humidity_raw i;
           temperature_raw := temperature_raw i;
           humidity_rh := dht20_clampf (humidity_rh i) F32.zero F32.c100;
           temperature_c := temperature_c i |}).
Proof.
  intros A I. unfold dht20_filter_apply. rewrite A, I. reflexivity.
Qed.

Lemma filter_apply_next f i o :
  alpha_in_range (alpha f) = true -> initialized f = true ->
  dht20_filter_apply (Some f) (Some i) (Some o) =
  (ESP_OK,
   Some {| initialized := true; alpha := alpha f;
           f_humidity_rh :=
             spec_ema (alpha f) (humidity_rh i) (f_humidity_rh f);
           f_temperature_c :=
             spec_ema (alpha f) (temperature_c i) (f_temperature_c f) |},
   Some {| timestamp_us := timestamp_us i;
           humidity_raw := humidity_raw i;
           temperature_raw := temperature_raw i;
           humidity_rh :=
             dht20_clampf
               (spec_ema (alpha f) (humidity_rh i) (f_humidity_rh f))
               F32.zero F32.c100;
           temperature_c :=
             spec_ema (alpha f) (temperature_c i) (f_temperature_c f) |}).
Proof.
  intros A I. unfold dht20_filter_apply. rewrite A, I. reflexivity.
Qed.

Lemma filter_apply_rejects f i o :
  alpha_in_range (alpha f) = false ->
  dht20_filter_apply (Some f) (Some i) (Some o)
  = (ESP_ERR_INVALID_STATE, Some f, Some o).
Proof. intros A. unfold dht20_filter_apply. rewrite A. reflexivity. Qed.



(** C9: dht20_filter_reset on a filter clears the initialized flag and
    leaves alpha and both smoothed values as they are (and does nothing on
    NULL).  The values it leaves behind are inert: whatever they are, the
    next apply returns the same code and the same output, and when it
    succeeds it leaves the same filter state, seeded from its input. *)
Theorem filter_reset_clears_only_the_flag :
  forall (f : dht20_filter_t),
    dht20_filter_reset (Some f) =
      Some {| initialized := false; alpha := alpha f;
              f_humidity_rh := f_humidity_rh f;
              f_temperature_c := f_temperature_c f |} /\
    dht20_filter_reset None = None /\
    (forall (h t : F32.float) (i o : dht20_sample_t),
       let r1 :=
         dht20_filter_apply (dht20_filter_reset (Some f)) (Some i) (Some o) in
       let r2 :=
         dht20_filter_apply
           (dht20_filter_reset
              (Some {| initialized := initialized f; alpha := alpha f;
                       f_humidity_rh := h; f_temperature_c := t |}))
           (Some i) (Some o) in
       fst (fst r1) = fst (fst r2) /\
       snd r1 = snd r2 /\
       (fst (fst r1) = ESP_OK ->
        snd (fst r1) = snd (fst r2) /\
        snd (fst r1) =
          Some {| initialized := true; alpha := alpha f;
                  f_humidity_rh := humidity_rh i;
                  f_temperature_c := temperature_c i |})).
Proof.
  intros f. split; [reflexivity|]. split; [reflexivity|].
  intros h t i o. cbn [dht20_filter_reset].
  destruct (alpha_in_range (alpha f)) eqn:A.
  - rewrite !filter_apply_first by (try reflexivity; exact A).
    cbn [fst snd alpha]. repeat split; reflexivity.
  - rewrite !filter_apply_rejects by exact A.
    cbn [fst snd]. repeat split; try reflexivity; discriminate.
Qed.

(** ** The range of the humidity field *)

Lemma in_0_100_open_closed x : in_0_100_open x = true -> in_0_100 x = true.
Proof.
  unfold in_0_100_open, in_0_100, F32.ltb, F32.leb, SFltb, SFleb.
  rewrite !andb_true_iff. intros [L H]. split; [exact L|].
  destruct (SFcompare x F32.c100) as [[]|]; try discriminate; reflexivity.
Qed.

Lemma spec_humidity_rh_range raw :
  0 <= raw < 2 ^ 20 -> in_0_100_open (spec_humidity_rh raw) = true.
Proof.
  intros H. destruct (hum_below_100 raw H) as [L U].
  unfold in_0_100_open. rewrite L, U. reflexivity.
Qed.

Lemma filter_apply_ok f i o f' out :
  dht20_filter_apply (Some f) (Some i) (Some o) = (ESP_OK, Some f', Some out) ->
  alpha_in_range (alpha f) = true.
Proof.
  destruct (alpha_in_range (alpha f)) eqn:A; [reflexivity|].
  rewrite filter_apply_rejects by exact A. discriminate.
Qed.

Section PipelineFacts.

Variable World : Type.
Variable esp_timer_get_time : World -> Z * World.

(** C8 (as the code has it): a successful decode of a frame stores a
    humidity in [0,100).  dht20_sample_apply_offset and dht20_filter_apply
    store dht20_clampf(v, 0, 100), which lies in [0,100] for every v that
    is not a NaN, also when v is outside the range or infinite, and is a
    NaN when v is one.  So apply_offset keeps a humidity in [0,100] there
    for every offset that is not a NaN, and filter apply keeps an input
    humidity in [0,100] there on the first call, and on later calls when
    alpha and the input are valid binary32 values and the stored smoothed
    humidity is finite.  Temperature is stored unclamped by both. *)
Theorem humidity_stays_in_range :
  (forall (raw : list Z) (sample s' : dht20_sample_t) (w w' : World),
     is_frame raw = true ->
     dht20_parse_sample World esp_timer_get_time raw sample w
     = (ESP_OK, s', w') ->
     in_0_100_open (humidity_rh s') = true /\
     in_0_100 (humidity_rh s') = true) /\
  (forall v : F32.float,
     in_0_100 (dht20_clampf v F32.zero F32.c100) = negb (F32.is_nan v)) /\
  (forall (s s' : dht20_sample_t) (t_off h_off : F32.float),
     dht20_sample_apply_offset (Some s) t_off h_off = (ESP_OK, Some s') ->
     in_0_100 (humidity_rh s')
     = negb (F32.is_nan (F32.add (humidity_rh s) h_off)) /\
     (in_0_100 (humidity_rh s) = true -> F32.is_nan h_off = false ->
      in_0_100 (humidity_rh s') = true) /\
     temperature_c s' = F32.add (temperature_c s) t_off) /\
  (forall (f f' : dht20_filter_t) (i o out : dht20_sample_t),
     dht20_filter_apply (Some f) (Some i) (Some o)
     = (ESP_OK, Some f', Some out) ->
     in_0_100 (humidity_rh out) = negb (F32.is_nan (f_humidity_rh f')) /\
     temperature_c out = f_temperature_c f' /\
     (initialized f = false -> in_0_100 (humidity_rh i) = true ->
      in_0_100 (humidity_rh out) = true) /\
     (initialized f = true ->
      F32.valid (alpha f) = true ->
      in_0_100 (humidity_rh i) = true -> F32.valid (humidity_rh i) = true ->
      F32.isfinite (f_humidity_rh f) = true ->
      in_0_100 (humidity_rh out) = true)).
Proof.
  split; [|split; [|split]].
  - intros raw sample s' w w' F P.
    destruct (parse_ok_fields World esp_timer_get_time raw sample w s' w' P)
      as (_ & _ & Hh & _).
    destruct (parse_ok_counts World esp_timer_get_time raw sample w s' w' F P)
      as (_ & _ & Bh & _).
    assert (R : in_0_100_open (humidity_rh s') = true)
      by (rewrite Hh; apply spec_humidity_rh_range; exact Bh).
    split; [exact R | apply in_0_100_open_closed; exact R].
  - exact clampf_range_iff.
  - intros s s' t_off h_off E. cbn [dht20_sample_apply_offset] in E.
    injection E as <-. cbn [humidity_rh temperature_c].
    split; [apply clampf_range_iff|]. split; [|reflexivity].
    intros R N. apply clampf_in_range. apply add_not_nan; [|exact N].
    apply in_0_100_isfinite. exact R.
  - intros f f' i o out E.
    pose proof (filter_apply_ok f i o f' out E) as A.
    destruct (initialized f) eqn:I.
    + rewrite (filter_apply_next f i o A I) in E.
      injection E as <- <-. cbn [humidity_rh temperature_c f_humidity_rh
        f_temperature_c].
      split; [apply clampf_range_iff|]. split; [reflexivity|].
      split; [discriminate|].
      intros _ Va R Vi Fs. apply clampf_in_range.
      apply spec_ema_not_nan; assumption.
    + rewrite (filter_apply_first f i o A I) in E.
      injection E as <- <-. cbn [humidity_rh temperature_c f_humidity_rh
        f_temperature_c].
      split; [apply clampf_range_iff|]. split; [reflexivity|].
      split; [|discriminate].
      intros _ R. rewrite (clampf_id _ R). exact R.
Qed.

End PipelineFacts.

(** ** The claims at concrete inputs *)

Lemma parse_busy_whatever_checksum_witness :
  is_frame Sim.frame_busy_crc = true /\
  Z.testbit (at_ Sim.frame_busy_crc 0) 7 = true /\
  dht20_crc8 Sim.frame_busy_crc 6 = at_ Sim.frame_busy_crc 6 /\
  Sim.parse_sample Sim.frame_busy_crc Sim.sample0 (Sim.boot [])
  = (ESP_ERR_INVALID_STATE, Sim.sample0, Sim.boot []) /\
  forall b6 : Z,
    Sim.parse_sample (firstn 6 Sim.frame_busy_crc ++ [b6]) Sim.sample0
      (Sim.boot [])
    = (ESP_ERR_INVALID_STATE, Sim.sample0, Sim.boot []).
Proof.
  split; [reflexivity|]. split; [reflexivity|]. split; [reflexivity|].
  apply (parse_busy_whatever_checksum Sim.world Sim.timer Sim.frame_busy_crc
           Sim.sample0 (Sim.boot [])); reflexivity.
Defined.

Lemma parse_checks_crc_witness :
  is_frame Sim.frame_bad = true /\
  Z.testbit (at_ Sim.frame_bad 0) 7 = false /\
  spec_crc8 (firstn 6 Sim.frame_bad) <> at_ Sim.frame_bad 6 /\
  Sim.parse_sample Sim.frame_bad Sim.sample0 (Sim.boot [])
  = (ESP_ERR_INVALID_CRC, Sim.sample0, Sim.boot []).
Proof.
  split; [reflexivity|]. split; [reflexivity|].
  assert (N : spec_crc8 (firstn 6 Sim.frame_bad) <> at_ Sim.frame_bad 6)
    by (vm_compute; discriminate).
  split; [exact N|].
  apply (parse_checks_crc Sim.world Sim.timer Sim.frame_bad Sim.sample0
           (Sim.boot []) eq_refl eq_refl). exact N.
Defined.

Lemma parse_raw_counts_witness :
  is_frame Sim.frame_ok = true /\
  humidity_raw (snd (fst (Sim.parse_sample Sim.frame_ok Sim.sample0 (Sim.boot []))))
  = spec_humidity_raw 0x66 0x66 0x66 /\
  temperature_raw (snd (fst (Sim.parse_sample Sim.frame_ok Sim.sample0 (Sim.boot []))))
  = spec_temperature_raw 0x66 0x33 0x33.
Proof.
  split; [reflexivity|].
  destruct (parse_raw_counts Sim.world Sim.timer Sim.frame_ok Sim.sample0
              (snd (fst (Sim.parse_sample Sim.frame_ok Sim.sample0 (Sim.boot []))))
              (Sim.boot []) (Sim.boot []) eq_refl eq_refl)
    as (Hh & Ht & _).
  split; [exact Hh | exact Ht].
Defined.

Lemma parse_physical_values_witness :
  humidity_rh (snd (fst (Sim.parse_sample Sim.frame_ok Sim.sample0 (Sim.boot []))))
  = spec_humidity_rh 419430 /\
  temperature_c (snd (fst (Sim.parse_sample Sim.frame_ok Sim.sample0 (Sim.boot []))))
  = spec_temperature_c 406323.
Proof.
  destruct (parse_physical_values Sim.world Sim.timer Sim.frame_ok Sim.sample0
              (snd (fst (Sim.parse_sample Sim.frame_ok Sim.sample0 (Sim.boot []))))
              (Sim.boot []) (Sim.boot []) eq_refl)
    as (Hh & Ht & _).
  split; [exact Hh | exact Ht].
Defined.


Lemma read_measurement_wait_polls_witness :
  (exists n, (n <= 5)%nat /\
     polled Sim.world Sim.i2c_read Sim.timer Sim.delay Sim.ms_to_ticks
       (Some Sim.dev0) 1000000 80000 1 n (Some Sim.sample0)
       (Sim.boot [(ESP_OK, Sim.frame_busy); (ESP_OK, Sim.frame_busy);
                  (ESP_OK, Sim.frame_ok)])
       (ESP_OK,
        Some {| timestamp_us := 1022100;
                humidity_raw := 419430;
                temperature_raw := 406323;
                humidity_rh := spec_humidity_rh 419430;
                temperature_c := spec_temperature_c 406323 |},
        {| Sim.now_us := 1022100; Sim.bus := [] |})) /\
  ((exists s0 w1,
      Sim.read_measurement (Some Sim.dev0) s0 w1
      = (ESP_ERR_TIMEOUT, Some Sim.sample0,
         {| Sim.now_us := 1086300; Sim.bus := [] |})) \/
   (exists w1 now,
      Sim.timer w1 = (now, {| Sim.now_us := 1086300; Sim.bus := [] |}) /\
      80 * 1000 <= now - 1000000)).
Proof.
  split.
  - apply (proj1 (proj1 (read_measurement_wait_polls Sim.world Sim.i2c_read
                           Sim.timer Sim.delay Sim.ms_to_ticks Sim.dev0
                           Sim.sample0 80 10
                           (Sim.boot [(ESP_OK, Sim.frame_busy);
                                      (ESP_OK, Sim.frame_busy);
                                      (ESP_OK, Sim.frame_ok)]))
                        5%nat _)).
    vm_compute. reflexivity.
  - destruct (read_measurement_wait_polls Sim.world Sim.i2c_read Sim.timer
                Sim.delay Sim.ms_to_ticks Sim.dev0 Sim.sample0 80 10
                (Sim.boot (repeat (ESP_OK, Sim.frame_busy) 9)))
      as (Run & Deadline & _).
    destruct (proj1 (Run 20%nat
                       (ESP_ERR_TIMEOUT, Some Sim.sample0,
                        {| Sim.now_us := 1086300; Sim.bus := [] |})))
      as (n & _ & P); [vm_compute; reflexivity|].
    exact (Deadline n _ _ P).
Defined.

Lemma humidity_stays_in_range_witness :
  in_0_100_open
    (humidity_rh (snd (fst (Sim.parse_sample Sim.frame_ok Sim.sample0
                              (Sim.boot []))))) = true /\
  in_0_100 (F32.of_Z 99) = true /\
  in_0_100 (dht20_clampf (F32.add (F32.of_Z 99) (F32.of_Z 5))
              F32.zero F32.c100) = true.
Proof.
  destruct (humidity_stays_in_range Sim.world Sim.timer)
    as (Decode & _ & Offset & _).
  split.
  - exact (proj1 (Decode Sim.frame_ok Sim.sample0
                    (snd (fst (Sim.parse_sample Sim.frame_ok Sim.sample0
                                 (Sim.boot []))))
                    (Sim.boot []) (Sim.boot []) eq_refl eq_refl)).
  - assert (R : in_0_100 (F32.of_Z 99) = true) by (vm_compute; reflexivity).
    split; [exact R|].
    assert (N : F32.is_nan (F32.of_Z 5) = false) by (vm_compute; reflexivity).
    exact (proj1 (proj2 (Offset (Sim.sample_of (F32.of_Z 99) (F32.of_Z 20))
                           (Sim.sample_of
                              (dht20_clampf (F32.add (F32.of_Z 99) (F32.of_Z 5))
                                 F32.zero F32.c100)
                              (F32.add (F32.of_Z 20) F32.zero))
                           F32.zero (F32.of_Z 5) eq_refl)) R N).
Defined.

Lemma read_measurement_failure_keeps_sample_witness :
  fst (fst (Sim.read_measurement (Some Sim.dev0) (Some Sim.sample0)
              (Sim.boot [(ESP_OK, Sim.frame_bad)]))) = ESP_ERR_INVALID_CRC /\
  snd (fst (Sim.read_measurement (Some Sim.dev0) (Some Sim.sample0)
              (Sim.boot [(ESP_OK, Sim.frame_bad)]))) = Some Sim.sample0.
Proof.
  split; [reflexivity|].
  apply (proj1 (read_measurement_failure_keeps_sample Sim.world Sim.i2c_read
                  Sim.timer Sim.ms_to_ticks (Some Sim.dev0) (Some Sim.sample0)
                  (Sim.boot [(ESP_OK, Sim.frame_bad)]))).
  vm_compute. discriminate.
Defined.

(** ** Where the claims as worded part from the code *)

(** C1: a transfer that fails with ESP_ERR_INVALID_STATE is taken for a
    busy frame.  The first read of the call below fails in the transport
    with that code: no frame is decoded, and dht20_read_measurement hands
    the code on.  dht20_read_measurement_wait does not return it, as it
    returns ESP_FAIL in the same place after the one transfer: it sleeps
    and reads again, and returns ESP_OK with the sample of the second
    read; and where the failure lasts it reads nine times and reports
    ESP_ERR_TIMEOUT in place of the transport's code. *)
Theorem wait_retries_transport_invalid_state :
  Sim.i2c_read 0 0x38 (repeat 0 7) 7 10
    (Sim.boot [(ESP_ERR_INVALID_STATE, repeat 0 7); (ESP_OK, Sim.frame_ok)])
  = (ESP_ERR_INVALID_STATE, repeat 0 7,
     {| Sim.now_us := 1000700; Sim.bus := [(ESP_OK, Sim.frame_ok)] |}) /\
  Sim.read_measurement (Some Sim.dev0) (Some Sim.sample0)
    (Sim.boot [(ESP_ERR_INVALID_STATE, repeat 0 7); (ESP_OK, Sim.frame_ok)])
  = (ESP_ERR_INVALID_STATE, Some Sim.sample0,
     {| Sim.now_us := 1000700; Sim.bus := [(ESP_OK, Sim.frame_ok)] |}) /\
  Sim.read_measurement_wait 5 (Some Sim.dev0) (Some Sim.sample0) 80 10
    (Sim.boot [(ESP_ERR_INVALID_STATE, repeat 0 7); (ESP_OK, Sim.frame_ok)])
  = Some (ESP_OK,
          Some {| timestamp_us := 1011400;
                  humidity_raw := 419430;
                  temperature_raw := 406323;
                  humidity_rh := spec_humidity_rh 419430;
                  temperature_c := spec_temperature_c 406323 |},
          {| Sim.now_us := 1011400; Sim.bus := [] |}) /\
  Sim.read_measurement_wait 5 (Some Sim.dev0) (Some Sim.sample0) 80 10
    (Sim.boot [(ESP_FAIL, repeat 0 7); (ESP_OK, Sim.frame_ok)])
  = Some (ESP_FAIL, Some Sim.sample0,
          {| Sim.now_us := 1000700; Sim.bus := [(ESP_OK, Sim.frame_ok)] |}) /\
  Sim.read_measurement_wait 20 (Some Sim.dev0) (Some Sim.sample0) 80 10
    (Sim.boot (repeat (ESP_ERR_INVALID_STATE, repeat 0 7) 12))
  = Some (ESP_ERR_TIMEOUT, Some Sim.sample0,
          {| Sim.now_us := 1086300;
             Sim.bus := repeat (ESP_ERR_INVALID_STATE, repeat 0 7) 3 |}).
Proof.
  split; [vm_compute; reflexivity|]. split; [vm_compute; reflexivity|].
  split; [vm_compute; reflexivity|]. split; vm_compute; reflexivity.
Qed.

(** A NaN goes through the clamp: an offset that is a NaN turns a humidity
    of 50 into a NaN, and a filter seeded with a NaN answers an input of 50
    with a NaN. *)
Lemma nan_passes_the_clamp :
  in_0_100 (F32.of_Z 50) = true /\
  dht20_sample_apply_offset
    (Some (Sim.sample_of (F32.of_Z 50) (F32.of_Z 20))) F32.zero S754_nan
  = (ESP_OK, Some (Sim.sample_of S754_nan (F32.of_Z 20))) /\
  in_0_100 S754_nan = false /\
  dht20_filter_init (Some Sim.filter0) Sim.half
  = (ESP_OK, Some (Sim.filter_of false Sim.half F32.zero F32.zero)) /\
  dht20_filter_apply (Some (Sim.filter_of false Sim.half F32.zero F32.zero))
    (Some (Sim.sample_of S754_nan (F32.of_Z 20))) (Some Sim.sample0)
  = (ESP_OK, Some (Sim.filter_of true Sim.half S754_nan (F32.of_Z 20)),
     Some (Sim.sample_of S754_nan (F32.of_Z 20))) /\
  dht20_filter_apply (Some (Sim.filter_of true Sim.half S754_nan (F32.of_Z 20)))
    (Some (Sim.sample_of (F32.of_Z 50) (F32.of_Z 20))) (Some Sim.sample0)
  = (ESP_OK, Some (Sim.filter_of true Sim.half S754_nan (F32.of_Z 20)),
     Some (Sim.sample_of S754_nan (F32.of_Z 20))).
Proof.
  split; [vm_compute; reflexivity|]. split; [vm_compute; reflexivity|].
  split; [vm_compute; reflexivity|]. split; [vm_compute; reflexivity|].
  split; vm_compute; reflexivity.
Qed.

(** ** The checksum is linear, and what that gives *)

Lemma lxor_byte a b : 0 <= a < 256 -> 0 <= b < 256 -> 0 <= Z.lxor a b < 256.
Proof.
  intros Ha Hb. split; [apply Z.lxor_nonneg; lia|].
  destruct (Z.eq_dec (Z.lxor a b) 0) as [->|N]; [lia|].
  assert (0 <= Z.lxor a b) by (apply Z.lxor_nonneg; lia).
  change 256 with (2 ^ 8). apply Z.log2_lt_pow2; [lia|].
  eapply Z.le_lt_trans; [apply Z.log2_lxor; lia|].
  apply Z.max_lub_lt.
  - destruct (Z.eq_dec a 0) as [->|]; [cbn; lia|]. apply Z.log2_lt_pow2; lia.
  - destruct (Z.eq_dec b 0) as [->|]; [cbn; lia|]. apply Z.log2_lt_pow2; lia.
Qed.

Lemma u8_byte b : 0 <= b < 256 -> u8 b = b.
Proof. intros H. unfold u8. apply Z.mod_small. exact H. Qed.

Lemma all_pairs_sound {A B : Type} (f : A -> B -> bool) xs ys x y :
  all_pairs f xs ys = true -> In x xs -> In y ys -> f x y = true.
Proof.
  unfold all_pairs. intros H Hx Hy. rewrite forallb_forall in H.
  specialize (H x Hx). rewrite forallb_forall in H. exact (H y Hy).
Qed.

Lemma shift_linear_checked : all_pairs shift_linear_at all_bytes all_bytes = true.
Proof. vm_compute. reflexivity. Qed.

Lemma crc8_shift_linear a b :
  0 <= a < 256 -> 0 <= b < 256 ->
  crc8_shift (Z.lxor a b) = Z.lxor (crc8_shift a) (crc8_shift b).
Proof.
  intros Ha Hb. apply Z.eqb_eq.
  exact (all_pairs_sound shift_linear_at all_bytes all_bytes a b
           shift_linear_checked (in_all_bytes a Ha) (in_all_bytes b Hb)).
Qed.

Lemma crc8_bits_linear n : forall a b,
  0 <= a < 256 -> 0 <= b < 256 ->
  crc8_bits n (Z.lxor a b) = Z.lxor (crc8_bits n a) (crc8_bits n b).
Proof.
  induction n as [|n IH]; intros a b Ha Hb; cbn [crc8_bits]; [reflexivity|].
  rewrite crc8_shift_linear by assumption.
  apply IH; apply crc8_shift_range.
Qed.

Lemma at_xor_bytes a e i :
  (i < length a)%nat -> (i < length e)%nat ->
  at_ (xor_bytes a e) i = Z.lxor (at_ a i) (at_ e i).
Proof.
  revert e i. induction a as [|x a IH]; intros e i Ha He; [cbn in Ha; lia|].
  destruct e as [|y e]; [cbn in He; lia|].
  destruct i as [|i]; [reflexivity|].
  cbn in Ha, He. apply (IH e i); lia.
Qed.

Lemma at_byte data i :
  forallb is_byte data = true -> (i < length data)%nat -> 0 <= at_ data i < 256.
Proof.
  intros A L. apply is_byte_range. rewrite forallb_forall in A. apply A.
  apply nth_In. exact L.
Qed.

Lemma crc8_bytes_range data i n crc :
  0 <= crc < 256 -> 0 <= crc8_bytes data i n crc < 256.
Proof.
  revert i crc. induction n as [|n IH]; intros i crc H; cbn [crc8_bytes];
    [exact H|]. apply IH, crc8_bits_range, u8_range.
Qed.

Lemma crc8_bytes_linear a e : forall n i c1 c2,
  (i + n <= length a)%nat -> (i + n <= length e)%nat ->
  forallb is_byte a = true -> forallb is_byte e = true ->
  0 <= c1 < 256 -> 0 <= c2 < 256 ->
  crc8_bytes (xor_bytes a e) i n (Z.lxor c1 c2)
  = Z.lxor (crc8_bytes a i n c1) (crc8_bytes e i n c2).
Proof.
  induction n as [|n IH]; intros i c1 c2 La Le Ba Be H1 H2; cbn [crc8_bytes];
    [reflexivity|].
  pose proof (at_byte a i Ba ltac:(lia)) as Hai.
  pose proof (at_byte e i Be ltac:(lia)) as Hei.
  rewrite at_xor_bytes by lia.
  replace (Z.lxor (Z.lxor c1 c2) (Z.lxor (at_ a i) (at_ e i)))
    with (Z.lxor (Z.lxor c1 (at_ a i)) (Z.lxor c2 (at_ e i))).
  2: { rewrite !Z.lxor_assoc. f_equal. rewrite <- !Z.lxor_assoc. f_equal.
       apply Z.lxor_comm. }
  pose proof (lxor_byte c1 (at_ a i) H1 Hai) as X1.
  pose proof (lxor_byte c2 (at_ e i) H2 Hei) as X2.
  rewrite (u8_byte (Z.lxor (Z.lxor c1 (at_ a i)) (Z.lxor c2 (at_ e i))))
    by (apply lxor_byte; assumption).
  rewrite (u8_byte _ X1), (u8_byte _ X2).
  rewrite crc8_bits_linear by assumption.
  apply IH; try assumption; try lia; apply crc8_bits_range; assumption.
Qed.

Lemma length_xor_bytes a e :
  length a = length e -> length (xor_bytes a e) = length a.
Proof.
  intros H. unfold xor_bytes. rewrite length_map, length_combine. lia.
Qed.

Lemma xor_bytes_bytes a e :
  forallb is_byte a = true -> forallb is_byte e = true ->
  forallb is_byte (xor_bytes a e) = true.
Proof.
  revert e. induction a as [|x a IH]; intros e Ba Be; [reflexivity|].
  destruct e as [|y e]; [reflexivity|].
  cbn [forallb] in Ba, Be. apply andb_true_iff in Ba, Be.
  destruct Ba as [Bx Ba], Be as [By Be].
  change (xor_bytes (x :: a) (y :: e)) with (Z.lxor x y :: xor_bytes a e).
  cbn [forallb]. rewrite (IH e Ba Be), andb_true_r.
  apply is_byte_range, lxor_byte; apply is_byte_range; assumption.
Qed.

Lemma is_frame_split raw :
  is_frame raw = true <-> length raw = 7%nat /\ forallb is_byte raw = true.
Proof.
  unfold is_frame, DHT20_DATA_LEN. rewrite andb_true_iff, Nat.eqb_eq. tauto.
Qed.

Lemma is_frame_xor a e :
  is_frame a = true -> is_frame e = true -> is_frame (xor_bytes a e) = true.
Proof.
  rewrite !is_frame_split. intros [La Ba] [Le Be]. split.
  - rewrite length_xor_bytes; lia.
  - apply xor_bytes_bytes; assumption.
Qed.

Lemma crc8_bytes_corrupted a e n i c :
  (i + n <= length a)%nat -> (i + n <= length e)%nat ->
  forallb is_byte a = true -> forallb is_byte e = true ->
  0 <= c < 256 ->
  crc8_bytes (xor_bytes a e) i n c
  = Z.lxor (crc8_bytes a i n c) (crc8_bytes e i n 0).
Proof.
  intros La Le Ba Be Hc. rewrite <- (Z.lxor_0_r c) at 1.
  apply crc8_bytes_linear; try assumption. lia.
Qed.

Lemma dht20_crc8_corrupted a e n :
  (n <= length a)%nat -> (n <= length e)%nat ->
  forallb is_byte a = true -> forallb is_byte e = true ->
  dht20_crc8 (xor_bytes a e) n = Z.lxor (dht20_crc8 a n) (crc8_bytes e 0 n 0).
Proof.
  intros La Le Ba Be. unfold dht20_crc8.
  apply crc8_bytes_corrupted; try assumption; lia.
Qed.

Lemma lxor_cancel_l a b c : Z.lxor a b = Z.lxor a c -> b = c.
Proof.
  intros H. apply (f_equal (Z.lxor a)) in H.
  rewrite <- !Z.lxor_assoc, Z.lxor_nilpotent, !Z.lxor_0_l in H. exact H.
Qed.

(** Whether a corruption gets past the checksum depends on the error
    pattern alone. *)
Lemma crc_of_corrupted raw e :
  is_frame raw = true -> is_frame e = true ->
  dht20_crc8 raw 6 = at_ raw 6 ->
  (dht20_crc8 (xor_bytes raw e) 6 = at_ (xor_bytes raw e) 6 <-> syndrome e = 0).
Proof.
  rewrite !is_frame_split. intros [La Ba] [Le Be] C.
  rewrite dht20_crc8_corrupted by (try assumption; lia).
  rewrite at_xor_bytes by lia. rewrite C. unfold syndrome.
  split; intros H.
  - apply lxor_cancel_l in H. rewrite H. apply Z.lxor_nilpotent.
  - apply Z.lxor_eq in H. rewrite H. reflexivity.
Qed.

Lemma xor_at_xor_bytes a : forall e i m,
  length a = length e ->
  xor_at (xor_bytes a e) i m = xor_bytes a (xor_at e i m).
Proof.
  induction a as [|x a IH]; intros e i m L; destruct e as [|y e];
    try discriminate L; [reflexivity|].
  change (xor_bytes (x :: a) (y :: e)) with (Z.lxor x y :: xor_bytes a e).
  destruct i as [|i]; cbn [xor_at].
  - change (xor_bytes (x :: a) (Z.lxor y m :: e))
      with (Z.lxor x (Z.lxor y m) :: xor_bytes a e).
    rewrite Z.lxor_assoc. reflexivity.
  - change (xor_bytes (x :: a) (y :: xor_at e i m))
      with (Z.lxor x y :: xor_bytes a (xor_at e i m)).
    rewrite IH by (cbn in L; lia). reflexivity.
Qed.

Lemma xor_bytes_zero a : xor_bytes a (repeat 0 (length a)) = a.
Proof.
  induction a as [|x a IH]; [reflexivity|].
  cbn [length repeat].
  change (xor_bytes (x :: a) (0 :: repeat 0 (length a)))
    with (Z.lxor x 0 :: xor_bytes a (repeat 0 (length a))).
  rewrite IH, Z.lxor_0_r. reflexivity.
Qed.

Lemma length_xor_at raw i m : length (xor_at raw i m) = length raw.
Proof.
  revert i. induction raw as [|x raw IH]; intros [|i]; cbn [xor_at length];
    try reflexivity. rewrite IH. reflexivity.
Qed.

Lemma xor_at_bytes raw i m :
  0 <= m < 256 -> forallb is_byte raw = true ->
  forallb is_byte (xor_at raw i m) = true.
Proof.
  intros Hm. revert i. induction raw as [|x raw IH]; intros i B; [reflexivity|].
  cbn [forallb] in B. apply andb_true_iff in B. destruct B as [Bx B].
  destruct i as [|i]; cbn [xor_at forallb].
  - rewrite B, andb_true_r. apply is_byte_range, lxor_byte; [|exact Hm].
    apply is_byte_range. exact Bx.
  - rewrite Bx, (IH i B). reflexivity.
Qed.

Lemma flip_mask_byte k : 0 <= 2 ^ (7 - Z.of_nat (k mod 8)) < 256.
Proof.
  assert (H : (k mod 8 < 8)%nat) by (apply Nat.mod_upper_bound; lia).
  split; [apply Z.pow_nonneg; lia|].
  change 256 with (2 ^ 8). apply Z.pow_lt_mono_r; lia.
Qed.

Lemma is_frame_flip raw k : is_frame raw = true -> is_frame (flip_bit raw k) = true.
Proof.
  rewrite !is_frame_split. intros [L B]. unfold flip_bit. split.
  - rewrite length_xor_at. exact L.
  - apply xor_at_bytes; [apply flip_mask_byte | exact B].
Qed.

Lemma flip_bit_xor raw e k :
  length raw = length e ->
  flip_bit (xor_bytes raw e) k = xor_bytes raw (flip_bit e k).
Proof. intros L. unfold flip_bit. apply xor_at_xor_bytes. exact L. Qed.

Lemma burst_from_xor raw n : forall e k p,
  length raw = length e ->
  burst_from (xor_bytes raw e) k p n = xor_bytes raw (burst_from e k p n).
Proof.
  induction n as [|n IH]; intros e k p L; cbn [burst_from]; [reflexivity|].
  destruct (Z.testbit p (Z.of_nat n)).
  - rewrite flip_bit_xor by exact L. apply IH.
    unfold flip_bit. rewrite length_xor_at. exact L.
  - apply IH. exact L.
Qed.

Lemma is_frame_burst_from n : forall raw k p,
  is_frame raw = true -> is_frame (burst_from raw k p n) = true.
Proof.
  induction n as [|n IH]; intros raw k p F; cbn [burst_from]; [exact F|].
  apply IH. destruct (Z.testbit p (Z.of_nat n)); [apply is_frame_flip|]; exact F.
Qed.

Lemma as_error_pattern raw :
  is_frame raw = true -> raw = xor_bytes raw zero_frame.
Proof.
  rewrite is_frame_split. intros [L _]. unfold zero_frame, DHT20_DATA_LEN.
  rewrite <- L, xor_bytes_zero. reflexivity.
Qed.

Lemma one_flip_checked :
  forallb (fun i => negb (syndrome (flip_bit zero_frame i) =? 0)) (seq 0 56)
  = true.
Proof. vm_compute. reflexivity. Qed.

Lemma two_flips_checked :
  all_pairs
    (fun i j =>
       (i =? j)%nat || negb (syndrome (flip_bit (flip_bit zero_frame i) j) =? 0))
    (seq 0 56) (seq 0 56) = true.
Proof. vm_compute. reflexivity. Qed.

Lemma bursts_checked :
  all_pairs
    (fun k p => negb (syndrome (burst zero_frame k (128 + Z.of_nat p)) =? 0))
    (seq 0 56) (seq 0 128) = true.
Proof. vm_compute. reflexivity. Qed.

Lemma below_in_seq i n : (i < n)%nat -> In i (seq 0 n).
Proof. intros H. apply in_seq. lia. Qed.

Lemma one_flip_syndrome i :
  (i < 56)%nat -> syndrome (flip_bit zero_frame i) <> 0.
Proof.
  intros Hi.
  pose proof (proj1 (forallb_forall _ _) one_flip_checked i
                (below_in_seq i 56 Hi)) as H.
  cbv beta in H. apply negb_true_iff in H. apply Z.eqb_neq in H. exact H.
Qed.

Lemma two_flips_syndrome i j :
  (i < 56)%nat -> (j < 56)%nat -> i <> j ->
  syndrome (flip_bit (flip_bit zero_frame i) j) <> 0.
Proof.
  intros Hi Hj N.
  pose proof (all_pairs_sound _ _ _ i j two_flips_checked
                (below_in_seq i 56 Hi) (below_in_seq j 56 Hj)) as H.
  cbv beta in H. apply orb_true_iff in H. destruct H as [H|H].
  - apply Nat.eqb_eq in H. contradiction.
  - apply negb_true_iff in H. apply Z.eqb_neq in H. exact H.
Qed.

Lemma burst_syndrome k p :
  (k < 56)%nat -> 128 <= p < 256 -> syndrome (burst zero_frame k p) <> 0.
Proof.
  intros Hk Hp.
  assert (Hq : (Z.to_nat (p - 128) < 128)%nat) by lia.
  pose proof (all_pairs_sound _ _ _ k (Z.to_nat (p - 128)) bursts_checked
                (below_in_seq k 56 Hk) (below_in_seq _ 128 Hq)) as H.
  cbv beta in H.
  replace (128 + Z.of_nat (Z.to_nat (p - 128))) with p in H by lia.
  apply negb_true_iff in H. apply Z.eqb_neq in H. exact H.
Qed.

Lemma frame_length_zero raw :
  is_frame raw = true -> length raw = length zero_frame.
Proof. intros F. apply is_frame_split in F. destruct F as [L _]. rewrite L. reflexivity. Qed.

Lemma flip_bit_as_error raw i :
  is_frame raw = true -> flip_bit raw i = xor_bytes raw (flip_bit zero_frame i).
Proof.
  intros F. rewrite <- flip_bit_xor by (apply frame_length_zero; exact F).
  rewrite <- as_error_pattern by exact F. reflexivity.
Qed.

Lemma burst_as_error raw k p :
  is_frame raw = true -> burst raw k p = xor_bytes raw (burst zero_frame k p).
Proof.
  intros F. unfold burst.
  rewrite <- burst_from_xor by (apply frame_length_zero; exact F).
  rewrite <- as_error_pattern by exact F. reflexivity.
Qed.

Section CorruptionFacts.

Variable World : Type.
Variable esp_timer_get_time : World -> Z * World.

Local Notation "'parse_sample'" :=
  (dht20_parse_sample World esp_timer_get_time).

Lemma parse_rejects_bad_crc raw sample w :
  dht20_crc8 raw 6 <> at_ raw 6 ->
  exists err,
    parse_sample raw sample w = (err, sample, w) /\
    (err = ESP_ERR_INVALID_CRC \/ err = ESP_ERR_INVALID_STATE).
Proof.
  intros C. destruct (Z.testbit (at_ raw 0) 7) eqn:B.
  - exists ESP_ERR_INVALID_STATE. split; [|right; reflexivity].
    apply parse_busy. exact B.
  - exists ESP_ERR_INVALID_CRC. split; [|left; reflexivity].
    rewrite parse_not_busy by exact B.
    change (DHT20_DATA_LEN - 1)%nat with 6%nat.
    apply Z.eqb_neq in C. rewrite C. reflexivity.
Qed.

Lemma parse_rejects_corrupted raw e sample s' w w' :
  is_frame raw = true -> is_frame e = true -> syndrome e <> 0 ->
  parse_sample raw sample w = (ESP_OK, s', w') ->
  exists err,
    parse_sample (xor_bytes raw e) sample w = (err, sample, w) /\
    (err = ESP_ERR_INVALID_CRC \/ err = ESP_ERR_INVALID_STATE).
Proof.
  intros F E S P. apply parse_rejects_bad_crc.
  destruct (parse_ok_checks World esp_timer_get_time raw sample w s' w' P)
    as [_ C].
  intros C'. apply S. apply (crc_of_corrupted raw e F E C). exact C'.
Qed.

(** X1: a frame that decodes successfully is rejected after any one of its
    56 bits has been flipped, and after any two of them have been: decode
    returns ESP_ERR_INVALID_CRC (or ESP_ERR_INVALID_STATE when the flipped
    bit is the busy bit) and leaves the sample untouched. *)
Theorem parse_rejects_bit_flips :
  forall (raw : list Z) (sample s' : dht20_sample_t) (w w' : World)
         (i j : nat),
    is_frame raw = true ->
    parse_sample raw sample w = (ESP_OK, s', w') ->
    (i < 56)%nat -> (j < 56)%nat ->
    (exists err,
       parse_sample (flip_bit raw i) sample w = (err, sample, w) /\
       (err = ESP_ERR_INVALID_CRC \/ err = ESP_ERR_INVALID_STATE)) /\
    (i <> j ->
     exists err,
       parse_sample (flip_bit (flip_bit raw i) j) sample w = (err, sample, w) /\
       (err = ESP_ERR_INVALID_CRC \/ err = ESP_ERR_INVALID_STATE)).
Proof.
  intros raw sample s' w w' i j F P Hi Hj.
  assert (Z0 : is_frame zero_frame = true) by reflexivity.
  split.
  - rewrite (flip_bit_as_error raw i F).
    apply (parse_rejects_corrupted raw _ sample s' w w' F); try exact P.
    + apply is_frame_flip. exact Z0.
    + apply one_flip_syndrome. exact Hi.
  - intros N.
    rewrite (flip_bit_as_error raw i F).
    rewrite flip_bit_xor
      by (unfold flip_bit; rewrite length_xor_at; apply frame_length_zero; exact F).
    apply (parse_rejects_corrupted raw _ sample s' w w' F); try exact P.
    + apply is_frame_flip, is_frame_flip. exact Z0.
    + apply two_flips_syndrome; assumption.
Qed.

(** X2: a frame that decodes successfully is rejected after any error
    burst of at most eight consecutive bits (in the order of transmission,
    the first bit of the burst flipped), wherever the burst starts. *)
Theorem parse_rejects_bursts :
  forall (raw : list Z) (sample s' : dht20_sample_t) (w w' : World)
         (k : nat) (pattern : Z),
    is_frame raw = true ->
    parse_sample raw sample w = (ESP_OK, s', w') ->
    (k < 56)%nat -> 128 <= pattern < 256 ->
    exists err,
      parse_sample (burst raw k pattern) sample w = (err, sample, w) /\
      (err = ESP_ERR_INVALID_CRC \/ err = ESP_ERR_INVALID_STATE).
Proof.
  intros raw sample s' w w' k p F P Hk Hp.
  rewrite (burst_as_error raw k p F).
  apply (parse_rejects_corrupted raw _ sample s' w w' F); try exact P.
  - apply is_frame_burst_from. reflexivity.
  - apply (burst_syndrome k p Hk Hp).
Qed.

End CorruptionFacts.

Lemma parse_rejects_bit_flips_witness :
  is_frame Sim.frame_ok = true /\
  fst (fst (Sim.parse_sample Sim.frame_ok Sim.sample0 (Sim.boot []))) = ESP_OK /\
  flip_bit (flip_bit Sim.frame_ok 10) 53
  = [0x00; 0x46; 0x66; 0x66; 0x33; 0x33; 0x61] /\
  exists err,
    Sim.parse_sample (flip_bit (flip_bit Sim.frame_ok 10) 53) Sim.sample0
      (Sim.boot []) = (err, Sim.sample0, Sim.boot []) /\
    (err = ESP_ERR_INVALID_CRC \/ err = ESP_ERR_INVALID_STATE).
Proof.
  split; [reflexivity|]. split; [reflexivity|]. split; [reflexivity|].
  apply (proj2 (parse_rejects_bit_flips Sim.world Sim.timer Sim.frame_ok
                  Sim.sample0
                  (snd (fst (Sim.parse_sample Sim.frame_ok Sim.sample0
                               (Sim.boot []))))
                  (Sim.boot []) (Sim.boot []) 10%nat 53%nat eq_refl eq_refl
                  ltac:(lia) ltac:(lia))).
  discriminate.
Defined.

Lemma parse_rejects_bursts_witness :
  burst Sim.frame_ok 12 0xA5 = [0x00; 0x6C; 0x36; 0x66; 0x33; 0x33; 0x65] /\
  exists err,
    Sim.parse_sample (burst Sim.frame_ok 12 0xA5) Sim.sample0 (Sim.boot [])
    = (err, Sim.sample0, Sim.boot []) /\
    (err = ESP_ERR_INVALID_CRC \/ err = ESP_ERR_INVALID_STATE).
Proof.
  split; [reflexivity|].
  apply (parse_rejects_bursts Sim.world Sim.timer Sim.frame_ok Sim.sample0
           (snd (fst (Sim.parse_sample Sim.frame_ok Sim.sample0 (Sim.boot []))))
           (Sim.boot []) (Sim.boot []) 12%nat 0xA5 eq_refl eq_refl);
    lia.
Defined.

(** ** More on the polling loop *)

Section WaitFacts.

Variable World : Type.
Variable i2c_master_read_from_device :
  Z -> Z -> list Z -> nat -> Z -> World -> esp_err_t * list Z * World.
Variable esp_timer_get_time : World -> Z * World.
Variable vTaskDelay : Z -> World -> World.
Variable pdMS_TO_TICKS : Z -> Z.

Local Notation "'parse_sample'" :=
  (dht20_parse_sample World esp_timer_get_time).
Local Notation "'read_measurement'" :=
  (dht20_read_measurement World i2c_master_read_from_device
     esp_timer_get_time pdMS_TO_TICKS).
Local Notation "'polling'" :=
  (poll_loop World i2c_master_read_from_device esp_timer_get_time
     vTaskDelay pdMS_TO_TICKS).
Local Notation "'polled_as'" :=
  (polled World i2c_master_read_from_device esp_timer_get_time vTaskDelay
     pdMS_TO_TICKS).
Local Notation "'read_measurement_wait'" :=
  (dht20_read_measurement_wait World i2c_master_read_from_device
     esp_timer_get_time vTaskDelay pdMS_TO_TICKS).

Lemma read_measurement_keeps dev sample w err s' w' :
  read_measurement dev sample w = (err, s', w') -> err <> ESP_OK -> s' = sample.
Proof.
  destruct dev as [d|], sample as [s|]; cbn [dht20_read_measurement];
    try (intros H _; injection H as _ <- _; reflexivity).
  fold (dht20_read_measurement World i2c_master_read_from_device
          esp_timer_get_time pdMS_TO_TICKS (Some d) (Some s) w).
  rewrite read_measurement_eq.
  destruct (i2c_master_read_from_device _ _ _ _ _ w) as [[ret raw] w1].
  destruct (negb (ret =? ESP_OK)).
  - intros H _. injection H as _ <- _. reflexivity.
  - destruct (parse_sample raw s w1) as [[e s1] w2] eqn:P.
    intros H N. injection H as -> <- _. f_equal.
    eapply parse_failure_keeps_sample; eassumption.
Qed.

Lemma read_measurement_sample_some dev s w err s' w' :
  read_measurement dev (Some s) w = (err, s', w') -> exists s1, s' = Some s1.
Proof.
  destruct dev as [d|]; cbn [dht20_read_measurement]; intros R.
  2: { injection R as _ <- _. eexists; reflexivity. }
  fold (dht20_read_measurement World i2c_master_read_from_device
          esp_timer_get_time pdMS_TO_TICKS (Some d) (Some s) w) in R.
  rewrite read_measurement_eq in R.
  destruct (i2c_master_read_from_device _ _ _ _ _ w) as [[ret raw] w1].
  destruct (negb (ret =? ESP_OK)).
  - injection R as _ <- _. eexists; reflexivity.
  - destruct (parse_sample raw s w1) as [[e s1] w2].
    injection R as _ <- _. eexists; reflexivity.
Qed.

Lemma polled_keeps_sample dev start_us timeout_us poll_ticks :
  forall n sample w r,
    polled_as dev start_us timeout_us poll_ticks n sample w r ->
    fst (fst r) <> ESP_OK -> snd (fst r) = sample.
Proof.
  induction 1 as [sample w err sample1 w1 R N
                 |sample w sample1 w1 now w2 R T G
                 |n sample w sample1 w1 now w2 r R T G P IH]; cbn [fst snd].
  - intros E. eapply read_measurement_keeps; eassumption.
  - intros _. eapply read_measurement_keeps; [exact R|discriminate].
  - intros E. rewrite (IH E).
    eapply read_measurement_keeps; [exact R|discriminate].
Qed.

(** X3: whenever dht20_read_measurement_wait returns something else than
    ESP_OK, after however many attempts and also on ESP_ERR_TIMEOUT and on
    NULL arguments, the caller's sample is what it was before the call. *)
Theorem wait_failure_keeps_sample :
  forall (fuel : nat) (dev : option dht20_t) (sample s' : option dht20_sample_t)
         (timeout_ms poll_interval_ms : Z) (w w' : World) (err : esp_err_t),
    read_measurement_wait fuel dev sample timeout_ms poll_interval_ms w
    = Some (err, s', w') ->
    err <> ESP_OK ->
    s' = sample.
Proof.
  intros fuel dev sample s' timeout_ms poll_interval_ms w w' err H N.
  unfold dht20_read_measurement_wait in H.
  destruct dev as [d|], sample as [s|];
    try (injection H as _ <- _; reflexivity).
  destruct (esp_timer_get_time w) as [start_us w0].
  destruct (poll_loop_sound World i2c_master_read_from_device
              esp_timer_get_time vTaskDelay pdMS_TO_TICKS _ _ _ _ _ _ _ _ H)
    as (n & _ & P).
  exact (polled_keeps_sample _ _ _ _ _ _ _ _ P N).
Qed.

(** The buffer is seven bytes whatever the driver does with it. *)
Hypothesis buffer_stays_typed :
  forall port addr rx ticks w,
    is_frame rx = true ->
    is_frame (snd (fst (i2c_master_read_from_device port addr rx
                          DHT20_DATA_LEN ticks w))) = true.

Lemma read_measurement_ok_sample d s w s' w' :
  read_measurement (Some d) (Some s) w = (ESP_OK, s', w') ->
  exists s1,
    s' = Some s1 /\
    0 <= humidity_raw s1 < 2 ^ 20 /\
    0 <= temperature_raw s1 < 2 ^ 20 /\
    humidity_rh s1 = spec_humidity_rh (humidity_raw s1) /\
    temperature_c s1 = spec_temperature_c (temperature_raw s1) /\
    in_0_100_open (humidity_rh s1) = true.
Proof.
  rewrite read_measurement_eq.
  pose proof (buffer_stays_typed (i2c_port d) (i2c_addr d)
                (repeat 0 DHT20_DATA_LEN) (pdMS_TO_TICKS (i2c_timeout_ms d)) w
                eq_refl) as F.
  destruct (i2c_master_read_from_device _ _ _ _ _ w) as [[ret raw] w1].
  cbn [fst snd] in F.
  destruct (ret =? ESP_OK) eqn:R; cbn [negb].
  - destruct (parse_sample raw s w1) as [[e s1] w2] eqn:P.
    intros H. injection H as -> <- _.
    destruct (parse_ok_counts World esp_timer_get_time raw s w1 s1 w2 F P)
      as (_ & _ & Bh & Bt).
    destruct (parse_ok_fields World esp_timer_get_time raw s w1 s1 w2 P)
      as (_ & _ & Hh & Ht).
    exists s1. repeat split; try assumption; try apply Bh; try apply Bt.
    rewrite Hh. apply spec_humidity_rh_range. exact Bh.
  - intros H. injection H as -> _ _. apply Z.eqb_neq in R. contradiction.
Qed.

Lemma polled_ok_last_read dev start_us timeout_us poll_ticks :
  forall n sample w r,
    polled_as dev start_us timeout_us poll_ticks n sample w r ->
    fst (fst r) = ESP_OK ->
    exists s0 w0, read_measurement dev s0 w0 = r.
Proof.
  induction 1 as [sample w err sample1 w1 R N
                 |sample w sample1 w1 now w2 R T G
                 |n sample w sample1 w1 now w2 r R T G P IH]; cbn [fst snd].
  - intros _. exists sample, w. exact R.
  - discriminate.
  - exact IH.
Qed.

(** X4: a sample that dht20_read_measurement_wait returns with ESP_OK,
    after however many attempts, has 20-bit raw counts, the physical values
    the data sheet's formulas give for these counts, and a relative
    humidity from 0 up to, but excluding, 100 percent. *)
Theorem wait_ok_sample_in_range :
  forall (fuel : nat) (d : dht20_t) (s : dht20_sample_t)
         (timeout_ms poll_interval_ms : Z) (w w' : World)
         (s' : option dht20_sample_t),
    read_measurement_wait fuel (Some d) (Some s) timeout_ms poll_interval_ms w
    = Some (ESP_OK, s', w') ->
    exists s1,
      s' = Some s1 /\
      0 <= humidity_raw s1 < 2 ^ 20 /\
      0 <= temperature_raw s1 < 2 ^ 20 /\
      humidity_rh s1 = spec_humidity_rh (humidity_raw s1) /\
      temperature_c s1 = spec_temperature_c (temperature_raw s1) /\
      in_0_100_open (humidity_rh s1) = true.
Proof.
  intros fuel d s timeout_ms poll_interval_ms w w' s' H.
  unfold dht20_read_measurement_wait in H.
  destruct (esp_timer_get_time w) as [start_us w0].
  destruct (poll_loop_sound World i2c_master_read_from_device
              esp_timer_get_time vTaskDelay pdMS_TO_TICKS _ _ _ _ _ _ _ _ H)
    as (n & _ & P).
  destruct (polled_ok_last_read _ _ _ _ _ _ _ _ P eq_refl) as (s0 & w1 & R).
  destruct s0 as [s0|].
  - exact (read_measurement_ok_sample d s0 w1 s' w' R).
  - discriminate R.
Qed.

End WaitFacts.

(** ** How long the polling loop runs *)

Section WaitTiming.

Variable World : Type.
Variable i2c_master_read_from_device :
  Z -> Z -> list Z -> nat -> Z -> World -> esp_err_t * list Z * World.
Variable esp_timer_get_time : World -> Z * World.
Variable vTaskDelay : Z -> World -> World.
Variable pdMS_TO_TICKS : Z -> Z.

Local Notation "'parse_sample'" :=
  (dht20_parse_sample World esp_timer_get_time).
Local Notation "'read_measurement'" :=
  (dht20_read_measurement World i2c_master_read_from_device
     esp_timer_get_time pdMS_TO_TICKS).
Local Notation "'polling'" :=
  (poll_loop World i2c_master_read_from_device esp_timer_get_time
     vTaskDelay pdMS_TO_TICKS).
Local Notation "'polled_as'" :=
  (polled World i2c_master_read_from_device esp_timer_get_time vTaskDelay
     pdMS_TO_TICKS).
Local Notation "'read_measurement_wait'" :=
  (dht20_read_measurement_wait World i2c_master_read_from_device
     esp_timer_get_time vTaskDelay pdMS_TO_TICKS).

(** The time the world shows, in microseconds. *)
Variable clock : World -> Z.

Hypothesis timer_reads_clock :
  forall w, clock w <= fst (esp_timer_get_time w) <= clock (snd (esp_timer_get_time w)).

(** *** From below: the number of attempts *)

Section Attempts.

(** A transfer takes at least [transfer_min] microseconds and a delay of
    [ticks] ticks at least [delay_min ticks]. *)
Variable transfer_min : Z.
Variable delay_min : Z -> Z.

Hypothesis transfer_min_pos : 1 <= transfer_min.
Hypothesis delay_min_nonneg : forall ticks, 0 <= delay_min ticks.
Hypothesis transfer_takes_at_least :
  forall port addr rx len ticks w,
    clock w + transfer_min
    <= clock (snd (i2c_master_read_from_device port addr rx len ticks w)).
Hypothesis delay_takes_at_least :
  forall ticks w, clock w + delay_min ticks <= clock (vTaskDelay ticks w).

Lemma transfer_takes_a_microsecond port addr rx len ticks w :
  clock w + 1
  <= clock (snd (i2c_master_read_from_device port addr rx len ticks w)).
Proof.
  pose proof (transfer_takes_at_least port addr rx len ticks w). lia.
Qed.

Lemma delay_does_not_go_back ticks w : clock w <= clock (vTaskDelay ticks w).
Proof.
  pose proof (delay_takes_at_least ticks w).
  pose proof (delay_min_nonneg ticks). lia.
Qed.

Lemma busy_attempt_takes_at_least d sample w s1 w1 :
  read_measurement (Some d) sample w = (ESP_ERR_INVALID_STATE, s1, w1) ->
  clock w + transfer_min <= clock w1.
Proof.
  destruct sample as [s|]; [|discriminate].
  rewrite read_measurement_eq.
  pose proof (transfer_takes_at_least (i2c_port d) (i2c_addr d)
                (repeat 0 DHT20_DATA_LEN) DHT20_DATA_LEN
                (pdMS_TO_TICKS (i2c_timeout_ms d)) w) as T.
  destruct (i2c_master_read_from_device _ _ _ _ _ w) as [[ret raw] w0].
  cbn [snd] in T.
  destruct (negb (ret =? ESP_OK)).
  - intros H. injection H as _ _ <-. exact T.
  - destruct (Z.testbit (at_ raw 0) 7) eqn:B.
    + rewrite (parse_busy World esp_timer_get_time raw s w0 B).
      intros H. injection H as _ <-. exact T.
    + rewrite (parse_not_busy World esp_timer_get_time raw s w0 B).
      destruct (negb _); discriminate.
Qed.

Lemma polled_attempts d start_us timeout_us poll_ticks :
  forall n sample w r,
    polled_as (Some d) start_us timeout_us poll_ticks n sample w r ->
    (2 <= n)%nat ->
    (Z.of_nat n - 2) * (transfer_min + delay_min poll_ticks) + transfer_min
      + (clock w - start_us) < timeout_us.
Proof.
  induction 1 as [sample w err sample1 w1 R N
                 |sample w sample1 w1 now w2 R T G
                 |n sample w sample1 w1 now w2 r R T G P IH]; intros L;
    try lia.
  pose proof (busy_attempt_takes_at_least d sample w sample1 w1 R) as A.
  pose proof (timer_reads_clock w1) as C. rewrite T in C. cbn [fst snd] in C.
  pose proof (delay_takes_at_least poll_ticks w2) as D.
  pose proof (delay_min_nonneg poll_ticks) as D0.
  destruct (Nat.eq_dec n 1) as [->|N1].
  - cbn. lia.
  - specialize (IH ltac:(inversion P; lia)).
    replace (Z.of_nat (S n) - 2) with ((Z.of_nat n - 2) + 1) by lia.
    nia.
Qed.

(** X5: on a platform whose clock does not run backwards, where a bus
    transfer takes at least [transfer_min >= 1] microseconds and the sleep
    between two attempts at least [delay_min] microseconds,
    dht20_read_measurement_wait returns, and it does so after [n] reads
    of the sensor where, as soon as there is more than one read,
    [(n - 2) * (transfer_min + delay_min) + transfer_min] is less than the
    timeout in microseconds. *)
Theorem wait_returns_after_bounded_attempts :
  forall (d : dht20_t) (s : dht20_sample_t) (timeout_ms poll_interval_ms : Z)
         (w : World),
    let start_us := fst (esp_timer_get_time w) in
    let poll_ticks :=
      pdMS_TO_TICKS (if poll_interval_ms =? 0 then 1 else poll_interval_ms) in
    exists (n : nat) r,
      read_measurement_wait (S (Z.to_nat (timeout_ms * 1000))) (Some d)
        (Some s) timeout_ms poll_interval_ms w = Some r /\
      polled_as (Some d) start_us (timeout_ms * 1000) poll_ticks n (Some s)
        (snd (esp_timer_get_time w)) r /\
      ((2 <= n)%nat ->
       (Z.of_nat n - 2) * (transfer_min + delay_min poll_ticks) + transfer_min
       < timeout_ms * 1000).
Proof.
  intros d s timeout_ms poll_interval_ms w start_us poll_ticks.
  subst start_us poll_ticks. unfold dht20_read_measurement_wait.
  pose proof (timer_reads_clock w) as C.
  destruct (esp_timer_get_time w) as [start_us w0]. cbn [fst snd] in *.
  destruct (poll_loop_terminates World i2c_master_read_from_device
              esp_timer_get_time vTaskDelay pdMS_TO_TICKS clock
              timer_reads_clock transfer_takes_a_microsecond
              delay_does_not_go_back d start_us (timeout_ms * 1000)
              (pdMS_TO_TICKS (if poll_interval_ms =? 0 then 1 else poll_interval_ms))
              (Z.to_nat (timeout_ms * 1000)) s w0 ltac:(lia)) as [r H].
  destruct (poll_loop_sound World i2c_master_read_from_device
              esp_timer_get_time vTaskDelay pdMS_TO_TICKS _ _ _ _ _ _ _ _ H)
    as (n & _ & P).
  exists n, r. split; [exact H|]. split; [exact P|].
  intros L. pose proof (polled_attempts _ _ _ _ _ _ _ _ P L). lia.
Qed.

End Attempts.

(** *** A timeout that has run out before the call *)

Section Monotone.

Hypothesis transfer_does_not_go_back :
  forall port addr rx len ticks w,
    clock w <= clock (snd (i2c_master_read_from_device port addr rx len ticks w)).



End Monotone.

(** *** From above: the time of the return *)

Section Lateness.

(** A reading of the timer takes at most [timer_max] microseconds, a
    transfer at most [transfer_max] and a delay of [ticks] ticks at most
    [delay_max ticks]. *)
Variable timer_max transfer_max : Z.
Variable delay_max : Z -> Z.

Hypothesis timer_takes_at_most :
  forall w, clock (snd (esp_timer_get_time w)) <= clock w + timer_max.
Hypothesis transfer_takes_at_most :
  forall port addr rx len ticks w,
    clock (snd (i2c_master_read_from_device port addr rx len ticks w))
    <= clock w + transfer_max.
Hypothesis delay_takes_at_most :
  forall ticks w, clock (vTaskDelay ticks w) <= clock w + delay_max ticks.

(** For the call to return at all time has to pass: a transfer takes a
    microsecond at least and a delay does not set the clock back. *)
Hypothesis transfer_takes_some_time :
  forall port addr rx len ticks w,
    clock w + 1
    <= clock (snd (i2c_master_read_from_device port addr rx len ticks w)).
Hypothesis delay_keeps_time :
  forall ticks w, clock w <= clock (vTaskDelay ticks w).

Lemma timer_max_nonneg : forall w : World, 0 <= timer_max.
Proof.
  intros w. pose proof (timer_reads_clock w). pose proof (timer_takes_at_most w).
  lia.
Qed.

Lemma attempt_takes_at_most d s w err s1 w1 :
  read_measurement (Some d) (Some s) w = (err, s1, w1) ->
  clock w1 <= clock w + transfer_max + timer_max /\
  (err = ESP_ERR_INVALID_STATE -> clock w1 <= clock w + transfer_max).
Proof.
  pose proof (timer_max_nonneg w) as T0.
  rewrite read_measurement_eq.
  pose proof (transfer_takes_at_most (i2c_port d) (i2c_addr d)
                (repeat 0 DHT20_DATA_LEN) DHT20_DATA_LEN
                (pdMS_TO_TICKS (i2c_timeout_ms d)) w) as T.
  destruct (i2c_master_read_from_device _ _ _ _ _ w) as [[ret raw] w0].
  cbn [snd] in T.
  destruct (negb (ret =? ESP_OK)).
  - intros H. injection H as _ _ <-. lia.
  - destruct (Z.testbit (at_ raw 0) 7) eqn:B.
    + rewrite (parse_busy World esp_timer_get_time raw s w0 B).
      intros H. injection H as _ _ <-. lia.
    + rewrite (parse_not_busy World esp_timer_get_time raw s w0 B).
      destruct (negb _).
      * intros H. injection H as <- _ <-. split; [lia|discriminate].
      * intros H. injection H as <- _ <-.
        pose proof (timer_takes_at_most w0). split; [lia|discriminate].
Qed.

Lemma polled_returns_by d start_us timeout_us poll_ticks :
  forall n sample w r,
    polled_as (Some d) start_us timeout_us poll_ticks n sample w r ->
    (exists s, sample = Some s) ->
    clock (snd r)
    <= Z.max (clock w) (start_us + timeout_us + timer_max + delay_max poll_ticks)
       + transfer_max + timer_max.
Proof.
  induction 1 as [sample w err sample1 w1 R N
                 |sample w sample1 w1 now w2 R T G
                 |n sample w sample1 w1 now w2 r R T G P IH];
    intros [s ->]; cbn [snd].
  - destruct (attempt_takes_at_most d s w err sample1 w1 R) as [A _]. lia.
  - destruct (attempt_takes_at_most d s w _ sample1 w1 R) as [_ A].
    specialize (A eq_refl).
    pose proof (timer_takes_at_most w1) as C. rewrite T in C. cbn [snd] in C.
    lia.
  - pose proof (timer_reads_clock w1) as C. rewrite T in C. cbn [fst snd] in C.
    pose proof (timer_takes_at_most w1) as C'. rewrite T in C'. cbn [snd] in C'.
    pose proof (delay_takes_at_most poll_ticks w2) as D.
    specialize (IH (read_measurement_sample_some World
                      i2c_master_read_from_device esp_timer_get_time
                      pdMS_TO_TICKS _ _ _ _ _ _ R)).
    lia.
Qed.

(** X7: on a platform whose clock does not run backwards, where a bus
    transfer takes at least a microsecond and at most [transfer_max], a
    reading of the timer at most [timer_max] microseconds and the sleep
    between two attempts at most [delay_max], dht20_read_measurement_wait
    returns, and whatever it returns it does so no later than the timeout,
    one sleep, one transfer and three readings of the timer after it was
    called; the loop needs no more than [timeout_ms * 1000 + 1] rounds for
    it, and a result found with any other number of rounds is as early. *)
Theorem wait_returns_in_time :
  forall (d : dht20_t) (s : dht20_sample_t)
         (timeout_ms poll_interval_ms : Z) (w : World),
    let latest :=
      Z.max 0 (timeout_ms * 1000 + timer_max
               + delay_max (pdMS_TO_TICKS (if poll_interval_ms =? 0 then 1
                                           else poll_interval_ms)))
      + transfer_max + 2 * timer_max in
    (exists err s' w',
       read_measurement_wait (S (Z.to_nat (timeout_ms * 1000))) (Some d)
         (Some s) timeout_ms poll_interval_ms w
       = Some (err, s', w') /\
       clock w' - clock w <= latest) /\
    (forall (fuel : nat) (err : esp_err_t) (s' : option dht20_sample_t)
            (w' : World),
       read_measurement_wait fuel (Some d) (Some s) timeout_ms
         poll_interval_ms w
       = Some (err, s', w') ->
       clock w' - clock w <= latest).
Proof.
  intros d s timeout_ms poll_interval_ms w latest.
  assert (Late : forall fuel err s' w',
             read_measurement_wait fuel (Some d) (Some s) timeout_ms
               poll_interval_ms w
             = Some (err, s', w') ->
             clock w' - clock w <= latest).
  { intros fuel err s' w' H. subst latest.
    unfold dht20_read_measurement_wait in H.
    pose proof (timer_reads_clock w) as C.
    pose proof (timer_takes_at_most w) as C'.
    destruct (esp_timer_get_time w) as [start_us w0]. cbn [fst snd] in *.
    destruct (poll_loop_sound World i2c_master_read_from_device
                esp_timer_get_time vTaskDelay pdMS_TO_TICKS _ _ _ _ _ _ _ _ H)
      as (n & _ & P).
    pose proof (polled_returns_by _ _ _ _ _ _ _ _ P
                  (ex_intro _ s eq_refl)) as B.
    cbn [snd] in B. lia. }
  split; [|exact Late].
  destruct (read_measurement_wait_terminates World
              i2c_master_read_from_device esp_timer_get_time vTaskDelay
              pdMS_TO_TICKS clock timer_reads_clock transfer_takes_some_time
              delay_keeps_time (Some d) (Some s) timeout_ms poll_interval_ms w)
    as [[[err s'] w'] H].
  exists err, s', w'. split; [exact H|]. exact (Late _ _ _ _ H).
Qed.

End Lateness.

End WaitTiming.

Lemma typed_bus_keeps_frames port addr rx ticks w :
  is_frame rx = true ->
  is_frame (snd (fst (sim_i2c_read_typed port addr rx DHT20_DATA_LEN ticks w)))
  = true.
Proof.
  intros F. unfold sim_i2c_read_typed.
  destruct (Sim.i2c_read port addr rx DHT20_DATA_LEN ticks w) as [[ret data] w'].
  cbn [fst snd]. destruct (is_frame data) eqn:E; assumption.
Qed.

Lemma sim_timer_reads_clock w :
  Sim.now_us w <= fst (Sim.timer w) <= Sim.now_us (snd (Sim.timer w)).
Proof. cbn. lia. Qed.

Lemma sim_transfer_time port addr rx len ticks w :
  Sim.now_us (snd (Sim.i2c_read port addr rx len ticks w))
  = Sim.now_us w + Sim.transfer_us.
Proof.
  unfold Sim.i2c_read. destruct (Sim.bus w) as [|[ret data] rest]; reflexivity.
Qed.


Lemma wait_failure_keeps_sample_witness :
  Sim.read_measurement_wait 4 (Some Sim.dev0) (Some Sim.sample0) 10 10
    (Sim.boot [(ESP_OK, Sim.frame_busy); (ESP_OK, Sim.frame_busy);
               (ESP_OK, Sim.frame_ok)])
  = Some (ESP_ERR_TIMEOUT, Some Sim.sample0,
          {| Sim.now_us := 1011400; Sim.bus := [(ESP_OK, Sim.frame_ok)] |}) /\
  Some Sim.sample0 = Some Sim.sample0.
Proof.
  assert (R : Sim.read_measurement_wait 4 (Some Sim.dev0) (Some Sim.sample0) 10 10
    (Sim.boot [(ESP_OK, Sim.frame_busy); (ESP_OK, Sim.frame_busy);
               (ESP_OK, Sim.frame_ok)])
  = Some (ESP_ERR_TIMEOUT, Some Sim.sample0,
          {| Sim.now_us := 1011400; Sim.bus := [(ESP_OK, Sim.frame_ok)] |}))
    by (vm_compute; reflexivity).
  split; [exact R|].
  apply (wait_failure_keeps_sample Sim.world Sim.i2c_read Sim.timer Sim.delay
           Sim.ms_to_ticks _ _ _ _ _ _ _ _ _ R).
  discriminate.
Defined.

Lemma wait_ok_sample_in_range_witness :
  dht20_read_measurement_wait Sim.world sim_i2c_read_typed Sim.timer
    Sim.delay Sim.ms_to_ticks 4 (Some Sim.dev0) (Some Sim.sample0) 100 10
    (Sim.boot [(ESP_OK, Sim.frame_busy); (ESP_OK, Sim.frame_ok)])
  = Some (ESP_OK,
          Some {| timestamp_us := 1011400; humidity_raw := 419430;
                  temperature_raw := 406323;
                  humidity_rh := S754_finite false 10485750 (-18);
                  temperature_c := S754_finite false 14417900 (-19) |},
          {| Sim.now_us := 1011400; Sim.bus := [] |}) /\
  exists s1,
    Some {| timestamp_us := 1011400; humidity_raw := 419430;
            temperature_raw := 406323;
            humidity_rh := S754_finite false 10485750 (-18);
            temperature_c := S754_finite false 14417900 (-19) |} = Some s1 /\
    0 <= humidity_raw s1 < 2 ^ 20 /\
    0 <= temperature_raw s1 < 2 ^ 20 /\
    humidity_rh s1 = spec_humidity_rh (humidity_raw s1) /\
    temperature_c s1 = spec_temperature_c (temperature_raw s1) /\
    in_0_100_open (humidity_rh s1) = true.
Proof.
  assert (R : dht20_read_measurement_wait Sim.world sim_i2c_read_typed
                Sim.timer Sim.delay Sim.ms_to_ticks 4 (Some Sim.dev0)
                (Some Sim.sample0) 100 10
                (Sim.boot [(ESP_OK, Sim.frame_busy); (ESP_OK, Sim.frame_ok)])
              = Some (ESP_OK,
                      Some {| timestamp_us := 1011400; humidity_raw := 419430;
                              temperature_raw := 406323;
                              humidity_rh := S754_finite false 10485750 (-18);
                              temperature_c := S754_finite false 14417900 (-19) |},
                      {| Sim.now_us := 1011400; Sim.bus := [] |}))
    by (vm_compute; reflexivity).
  split; [exact R|].
  exact (wait_ok_sample_in_range Sim.world sim_i2c_read_typed Sim.timer
           Sim.delay Sim.ms_to_ticks typed_bus_keeps_frames 4 Sim.dev0
           Sim.sample0 100 10 _ _ _ R).
Defined.

Lemma sim_delay_time ticks w :
  Sim.now_us (Sim.delay ticks w) = Sim.now_us w + Z.max 0 ticks * Sim.tick_us.
Proof. reflexivity. Qed.

Lemma wait_returns_after_bounded_attempts_witness :
  exists (n : nat) r,
    Sim.read_measurement_wait (S (Z.to_nat (25 * 1000))) (Some Sim.dev0)
      (Some Sim.sample0) 25 10
      (Sim.boot [(ESP_OK, Sim.frame_busy); (ESP_OK, Sim.frame_busy);
                 (ESP_OK, Sim.frame_busy); (ESP_OK, Sim.frame_busy)])
    = Some r /\
    polled Sim.world Sim.i2c_read Sim.timer Sim.delay Sim.ms_to_ticks
      (Some Sim.dev0) 1000000 (25 * 1000) 1 n (Some Sim.sample0)
      (Sim.boot [(ESP_OK, Sim.frame_busy); (ESP_OK, Sim.frame_busy);
                 (ESP_OK, Sim.frame_busy); (ESP_OK, Sim.frame_busy)]) r /\
    ((2 <= n)%nat -> (Z.of_nat n - 2) * (700 + 10000) + 700 < 25 * 1000).
Proof.
  apply (wait_returns_after_bounded_attempts Sim.world Sim.i2c_read Sim.timer
           Sim.delay Sim.ms_to_ticks Sim.now_us sim_timer_reads_clock
           700 (fun ticks => Z.max 0 ticks * 10000)
           ltac:(lia) ltac:(intros; lia)
           (fun port addr rx len ticks w =>
              Z.eq_le_incl _ _ (eq_sym (sim_transfer_time port addr rx len ticks w)))
           (fun ticks w => Z.le_refl _)
           Sim.dev0 Sim.sample0 25 10
           (Sim.boot [(ESP_OK, Sim.frame_busy); (ESP_OK, Sim.frame_busy);
                      (ESP_OK, Sim.frame_busy); (ESP_OK, Sim.frame_busy)])).
Defined.


Lemma sim_transfer_some_time port addr rx len ticks w :
  Sim.now_us w + 1
  <= Sim.now_us (snd (Sim.i2c_read port addr rx len ticks w)).
Proof. rewrite sim_transfer_time. unfold Sim.transfer_us. lia. Qed.

Lemma sim_delay_keeps_time ticks w :
  Sim.now_us w <= Sim.now_us (Sim.delay ticks w).
Proof. rewrite sim_delay_time. unfold Sim.tick_us. lia. Qed.

Lemma wait_returns_in_time_witness :
  exists err s' w',
    Sim.read_measurement_wait (S (Z.to_nat (10 * 1000))) (Some Sim.dev0)
      (Some Sim.sample0) 10 10
      (Sim.boot [(ESP_OK, Sim.frame_busy); (ESP_OK, Sim.frame_busy);
                 (ESP_OK, Sim.frame_ok)])
    = Some (err, s', w') /\
    Sim.now_us w' - 1000000
    <= Z.max 0 (10 * 1000 + 0 + Z.max 0 1 * 10000) + 700 + 2 * 0.
Proof.
  exact (proj1
           (wait_returns_in_time Sim.world Sim.i2c_read Sim.timer Sim.delay
              Sim.ms_to_ticks Sim.now_us sim_timer_reads_clock
              0 700 (fun ticks => Z.max 0 ticks * 10000)
              (fun w => Z.eq_le_incl _ _ (eq_sym (Z.add_0_r _)))
              (fun port addr rx len ticks w =>
                 Z.eq_le_incl _ _ (sim_transfer_time port addr rx len ticks w))
              (fun ticks w => Z.le_refl _)
              sim_transfer_some_time sim_delay_keeps_time
              Sim.dev0 Sim.sample0 10 10
              (Sim.boot [(ESP_OK, Sim.frame_busy); (ESP_OK, Sim.frame_busy);
                         (ESP_OK, Sim.frame_ok)]))).
Defined.

(** ** More on the filter *)

Lemma alpha_in_range_isfinite a :
  alpha_in_range a = true -> F32.isfinite a = true.
Proof.
  unfold alpha_in_range. rewrite andb_true_iff. intros [P L].
  destruct a as [s|s| |s m e]; try reflexivity; try discriminate.
  destruct s; discriminate.
Qed.

(** X8: dht20_filter_init succeeds exactly for an alpha with
    0 < alpha <= 1 (the separate test for a finite alpha rejects nothing
    that the range test would accept); on success the structure holds this
    alpha, zeroed values and a cleared flag, whatever it held before; on
    failure it is returned as it was, with ESP_ERR_INVALID_ARG. *)
Theorem filter_init_accepts_the_range :
  forall (f : dht20_filter_t) (a : F32.float),
    dht20_filter_init (Some f) a =
    if alpha_in_range a
    then (ESP_OK,
          Some {| initialized := false; alpha := a;
                  f_humidity_rh := F32.zero; f_temperature_c := F32.zero |})
    else (ESP_ERR_INVALID_ARG, Some f).
Proof.
  intros f a. unfold dht20_filter_init.
  destruct (alpha_in_range a) eqn:A.
  - rewrite (alpha_in_range_isfinite a A). reflexivity.
  - destruct (F32.isfinite a); reflexivity.
Qed.

Lemma filter_apply_alpha f i o e f' o' :
  dht20_filter_apply (Some f) i o = (e, Some f', o') -> alpha f' = alpha f.
Proof.
  destruct i as [i|], o as [o|];
    try (cbn [dht20_filter_apply]; intros H; injection H as _ <- _;
         reflexivity).
  destruct (alpha_in_range (alpha f)) eqn:A.
  - destruct (initialized f) eqn:I.
    + rewrite (filter_apply_next f i o A I).
      intros H. injection H as _ <- _. reflexivity.
    + rewrite (filter_apply_first f i o A I).
      intros H. injection H as _ <- _. reflexivity.
  - rewrite (filter_apply_rejects f i o A).
    intros H. injection H as _ <- _. reflexivity.
Qed.

Lemma filter_reachable_alpha a f :
  filter_reachable a f -> alpha f = a /\ alpha_in_range a = true.
Proof.
  induction 1 as [f0 f H|f i o e f' o' R [IH1 IH2] H|f f' R [IH1 IH2] H].
  - unfold dht20_filter_init in H.
    destruct (F32.isfinite a); cbn [negb] in H; [|discriminate].
    destruct (alpha_in_range a); cbn [negb] in H; [|discriminate].
    injection H as <-. split; reflexivity.
  - rewrite (filter_apply_alpha f i o e f' o' H). split; assumption.
  - cbn [dht20_filter_reset] in H. injection H as <-. split; assumption.
Qed.

(** X9: once dht20_filter_init has succeeded with alpha, whatever sequence
    of dht20_filter_apply and dht20_filter_reset calls follows, the
    structure keeps this alpha and dht20_filter_apply with non-NULL
    arguments returns ESP_OK (never ESP_ERR_INVALID_STATE), handing the
    input's time stamp and raw counts to the output and a humidity that is
    the clamped value of the one the filter stores. *)
Theorem filter_stays_usable :
  forall (a : F32.float) (f : dht20_filter_t),
    filter_reachable a f ->
    alpha f = a /\
    alpha_in_range a = true /\
    forall i o, exists f' out,
      dht20_filter_apply (Some f) (Some i) (Some o) = (ESP_OK, Some f', Some out) /\
      alpha f' = a /\ initialized f' = true /\
      timestamp_us out = timestamp_us i /\
      humidity_raw out = humidity_raw i /\
      temperature_raw out = temperature_raw i /\
      temperature_c out = f_temperature_c f' /\
      humidity_rh out = dht20_clampf (f_humidity_rh f') F32.zero F32.c100.
Proof.
  intros a f R. destruct (filter_reachable_alpha a f R) as [E A].
  split; [exact E|]. split; [exact A|]. intros i o.
  rewrite <- E in A.
  destruct (initialized f) eqn:I.
  - rewrite (filter_apply_next f i o A I). eexists _, _.
    split; [reflexivity|]. cbn. repeat split; assumption.
  - rewrite (filter_apply_first f i o A I). eexists _, _.
    split; [reflexivity|]. cbn. repeat split; assumption.
Qed.

(** X10: a call of dht20_filter_apply that does not return ESP_OK returns
    ESP_ERR_INVALID_ARG (a NULL argument) or ESP_ERR_INVALID_STATE (alpha
    outside (0, 1]) and leaves the filter and the output structure as they
    were. *)
Theorem filter_apply_failure_keeps_all :
  forall (filter : option dht20_filter_t) (input output : option dht20_sample_t)
         (e : esp_err_t) (filter' : option dht20_filter_t)
         (output' : option dht20_sample_t),
    dht20_filter_apply filter input output = (e, filter', output') ->
    e <> ESP_OK ->
    filter' = filter /\ output' = output /\
    (e = ESP_ERR_INVALID_ARG \/ e = ESP_ERR_INVALID_STATE).
Proof.
  intros [f|] [i|] [o|] e filter' output';
    try (cbn [dht20_filter_apply]; intros H _; injection H as <- <- <-;
         auto).
  destruct (alpha_in_range (alpha f)) eqn:A.
  - destruct (initialized f) eqn:I.
    + rewrite (filter_apply_next f i o A I).
      intros H N. injection H as <- _ _. contradiction.
    + rewrite (filter_apply_first f i o A I).
      intros H N. injection H as <- _ _. contradiction.
  - rewrite (filter_apply_rejects f i o A).
    intros H _. injection H as <- <- <-. auto.
Qed.

Lemma filter_stays_usable_witness :
  alpha (Sim.filter_of false Sim.half F32.c50 F32.c50) = Sim.half /\
  alpha_in_range Sim.half = true /\
  forall i o, exists f' out,
    dht20_filter_apply
      (Some (Sim.filter_of false Sim.half F32.c50 F32.c50)) (Some i) (Some o)
    = (ESP_OK, Some f', Some out) /\
    alpha f' = Sim.half /\ initialized f' = true /\
    timestamp_us out = timestamp_us i /\
    humidity_raw out = humidity_raw i /\
    temperature_raw out = temperature_raw i /\
    temperature_c out = f_temperature_c f' /\
    humidity_rh out = dht20_clampf (f_humidity_rh f') F32.zero F32.c100.
Proof.
  apply (filter_stays_usable Sim.half
           (Sim.filter_of false Sim.half F32.c50 F32.c50)).
  apply (reach_reset Sim.half (Sim.filter_of true Sim.half F32.c50 F32.c50));
    [|reflexivity].
  apply (reach_apply Sim.half (Sim.filter_of false Sim.half F32.zero F32.zero)
           (Some (Sim.sample_of F32.c50 F32.c50)) (Some Sim.sample0) ESP_OK
           (Sim.filter_of true Sim.half F32.c50 F32.c50)
           (Some (Sim.sample_of F32.c50 F32.c50)));
    [|vm_compute; reflexivity].
  apply (reach_init Sim.half Sim.filter0). vm_compute. reflexivity.
Defined.

Lemma filter_apply_failure_keeps_all_witness :
  Some Sim.filter0 = Some Sim.filter0 /\ Some Sim.sample0 = Some Sim.sample0 /\
  (ESP_ERR_INVALID_STATE = ESP_ERR_INVALID_ARG \/
   ESP_ERR_INVALID_STATE = ESP_ERR_INVALID_STATE).
Proof.
  apply (filter_apply_failure_keeps_all (Some Sim.filter0)
           (Some (Sim.sample_of F32.c50 F32.c50)) (Some Sim.sample0)
           ESP_ERR_INVALID_STATE (Some Sim.filter0) (Some Sim.sample0)).
  - vm_compute. reflexivity.
  - discriminate.
Defined.

(** ** The commands and their traces *)

Lemma cal_mask_test b :
  (Z.land b DHT20_STATUS_CAL_MASK =? 0) = negb (Z.testbit b 3).
Proof.
  unfold DHT20_STATUS_CAL_MASK. change (Z.shiftl 1 3) with (2 ^ 3).
  destruct (Z.testbit b 3) eqn:B; cbn [negb].
  - apply Z.eqb_neq. intros H.
    assert (T : Z.testbit (Z.land b (2 ^ 3)) 3 = true).
    { rewrite Z.land_spec, B, Z.pow2_bits_true by lia. reflexivity. }
    rewrite H in T. discriminate T.
  - apply Z.eqb_eq. apply Z.bits_inj'. intros n Hn.
    rewrite Z.land_spec, Z.bits_0.
    destruct (Z.eq_dec n 3) as [->|N].
    + rewrite B. reflexivity.
    + rewrite Z.pow2_bits_false by lia. apply andb_false_r.
Qed.

Section TraceFacts.

Variable World : Type.
Variable i2c_master_write_to_device :
  Z -> Z -> list Z -> nat -> Z -> World -> esp_err_t * World.
Variable i2c_master_read_from_device :
  Z -> Z -> list Z -> nat -> Z -> World -> esp_err_t * list Z * World.
Variable esp_timer_get_time : World -> Z * World.
Variable vTaskDelay : Z -> World -> World.
Variable pdMS_TO_TICKS : Z -> Z.

Local Notation "'twrite'" := (traced_write World i2c_master_write_to_device).
Local Notation "'tread'" := (traced_read World i2c_master_read_from_device).
Local Notation "'ttimer'" := (traced_timer World esp_timer_get_time).
Local Notation "'tdelay'" := (traced_delay World vTaskDelay).

Lemma traced_init_run d0 port addr timeout_ms w :
  let '(ret, dev', t') :=
    dht20_init (traced World) twrite tread tdelay pdMS_TO_TICKS (Some d0)
      port addr timeout_ms (w, []) in
  dev' = Some {| i2c_port := port; i2c_addr := addr;
                 i2c_timeout_ms := timeout_ms |} /\
  init_run port addr (pdMS_TO_TICKS timeout_ms)
    (pdMS_TO_TICKS DHT20_POWER_ON_DELAY_MS)
    (pdMS_TO_TICKS DHT20_SOFT_RESET_DELAY_MS)
    (pdMS_TO_TICKS DHT20_STATUS_READY_DELAY_MS) ret (snd t').
Proof.
  unfold dht20_init, dht20_soft_reset, dht20_read_status, dht20_write,
    dht20_read_raw, traced_write, traced_read, traced_delay.
  cbn [fst snd i2c_port i2c_addr i2c_timeout_ms app].
  destruct (i2c_master_write_to_device port addr [DHT20_CMD_SOFT_RESET] 1
              (pdMS_TO_TICKS timeout_ms) _) as [r1 w1].
  destruct (r1 =? ESP_OK) eqn:E1; cbn [negb fst snd app];
    rewrite ?E1, ?Z.eqb_refl; cbn [negb fst snd app].
  2: { split; [reflexivity|]. apply init_reset_failed.
       apply Z.eqb_neq. exact E1. }
  apply Z.eqb_eq in E1. subst r1. rewrite ?Z.eqb_refl. cbn [negb fst snd app].
  destruct (i2c_master_write_to_device port addr [DHT20_CMD_STATUS] 1
              (pdMS_TO_TICKS timeout_ms) _) as [r2 w2].
  destruct (r2 =? ESP_OK) eqn:E2; cbn [negb fst snd app];
    rewrite ?E2, ?Z.eqb_refl; cbn [negb fst snd app].
  2: { split; [reflexivity|]. apply init_status_command_failed.
       apply Z.eqb_neq. exact E2. }
  apply Z.eqb_eq in E2. subst r2. rewrite ?Z.eqb_refl. cbn [negb fst snd app].
  destruct (i2c_master_read_from_device port addr [0] 1
              (pdMS_TO_TICKS timeout_ms) w2) as [[r3 data] w3].
  cbn [fst snd app].
  destruct (r3 =? ESP_OK) eqn:E3; cbn [negb fst snd app];
    rewrite ?E3, ?Z.eqb_refl; cbn [negb fst snd app].
  2: { split; [reflexivity|]. apply init_status_read_failed.
       apply Z.eqb_neq. exact E3. }
  apply Z.eqb_eq in E3. subst r3. rewrite ?Z.eqb_refl. cbn [negb fst snd app].
  rewrite cal_mask_test.
  destruct (Z.testbit (at_ data 0) 3) eqn:B; cbn [negb fst snd app].
  { split; [reflexivity|]. apply init_calibrated. exact B. }
  destruct (i2c_master_write_to_device port addr
              [DHT20_CMD_INIT; DHT20_ARG_INIT_1; DHT20_ARG_INIT_2] 3
              (pdMS_TO_TICKS timeout_ms) w3) as [r4 w4].
  destruct (r4 =? ESP_OK) eqn:E4; cbn [negb fst snd app];
    rewrite ?E4, ?Z.eqb_refl; cbn [negb fst snd app].
  2: { split; [reflexivity|]. apply init_calibration_failed; [exact B|].
       apply Z.eqb_neq. exact E4. }
  apply Z.eqb_eq in E4. subst r4. rewrite ?Z.eqb_refl. cbn [negb fst snd app].
  split; [reflexivity|]. apply init_calibration_sent. exact B.
Qed.

(** X11: dht20_init stores the port, the address and the timeout in the
    device structure whatever happens next, sleeps the power-on delay
    before it touches the bus, addresses every transfer to that port and
    address with that timeout, and stops at the first transfer that fails:
    every event of its trace but the last succeeded, and the call returns
    ESP_OK when the last one did too and the code of the last transfer
    otherwise. *)
Theorem init_stops_at_first_failure :
  forall (d0 : dht20_t) (port addr timeout_ms : Z) (w : World),
    let '(ret, dev', t') :=
      dht20_init (traced World) twrite tread tdelay pdMS_TO_TICKS (Some d0)
        port addr timeout_ms (w, []) in
    dev' = Some {| i2c_port := port; i2c_addr := addr;
                   i2c_timeout_ms := timeout_ms |} /\
    hd_error (snd t') = Some (Slept (pdMS_TO_TICKS DHT20_POWER_ON_DELAY_MS)) /\
    Forall (addressed port addr (pdMS_TO_TICKS timeout_ms)) (snd t') /\
    Forall event_ok (removelast (snd t')) /\
    (ret = ESP_OK -> Forall event_ok (snd t')) /\
    (ret <> ESP_OK -> event_code (last (snd t') (Slept 0)) = Some ret).
Proof.
  intros d0 port addr timeout_ms w.
  pose proof (traced_init_run d0 port addr timeout_ms w) as H.
  destruct (dht20_init (traced World) twrite tread tdelay pdMS_TO_TICKS
              (Some d0) port addr timeout_ms (w, [])) as [[ret dev'] t'].
  destruct H as [D R]. split; [exact D|].
  inversion R; subst; cbn [hd_error removelast last event_code];
    (split; [reflexivity|]);
    (split; [repeat constructor|]);
    (split; [repeat constructor|]);
    (split; [intros E; try contradiction; repeat constructor
            |intros N; try reflexivity; exfalso; apply N; reflexivity]).
Qed.

(** X12: dht20_init writes the calibration command 0xBE 0x08 0x00 exactly
    when the status byte it has read has bit 3 clear, and then after that
    read; the only other commands it writes are the soft reset 0xBA, which
    is its first transfer, and the status request 0x71. *)
Theorem init_calibrates_on_demand :
  forall (d0 : dht20_t) (port addr timeout_ms : Z) (w : World),
    let ticks := pdMS_TO_TICKS timeout_ms in
    let init_cmd := [DHT20_CMD_INIT; DHT20_ARG_INIT_1; DHT20_ARG_INIT_2] in
    let '(ret, dev', t') :=
      dht20_init (traced World) twrite tread tdelay pdMS_TO_TICKS (Some d0)
        port addr timeout_ms (w, []) in
    ((exists r, In (Wrote port addr init_cmd 3 ticks r) (snd t')) <->
     (exists data,
        In (Fetched port addr 1 ticks ESP_OK data) (snd t') /\
        Z.testbit (at_ data 0) 3 = false)) /\
    (exists r,
       nth_error (snd t') 1
       = Some (Wrote port addr [DHT20_CMD_SOFT_RESET] 1 ticks r)) /\
    (forall p a tx n t r,
       In (Wrote p a tx n t r) (snd t') ->
       tx = [DHT20_CMD_SOFT_RESET] \/ tx = [DHT20_CMD_STATUS] \/ tx = init_cmd).
Proof.
  intros d0 port addr timeout_ms w ticks init_cmd.
  pose proof (traced_init_run d0 port addr timeout_ms w) as H.
  destruct (dht20_init (traced World) twrite tread tdelay pdMS_TO_TICKS
              (Some d0) port addr timeout_ms (w, [])) as [[ret dev'] t'].
  destruct H as [_ R]. subst ticks init_cmd.
  inversion R; subst; cbn [nth_error];
    (split; [|split; [eexists; reflexivity|]]);
    try (intros p a tx n t r0 I; cbn [In] in I;
         repeat (destruct I as [I|I];
                 [try discriminate I; injection I as _ _ <- _ _ _; auto|]);
         contradiction).
  all: split.
  all: try (intros [r0 I]; exfalso; cbn [In] in I;
            repeat (destruct I as [I|I]; [discriminate I|]); exact I).
  all: try solve [intros [data0 [I B]]; exfalso; cbn [In] in I;
                  repeat (destruct I as [I|I];
                          [try discriminate I;
                           try (injection I; intros; subst; congruence)|]);
                  exact I].
  all: try (intros _; eexists; cbn [In]; eauto 10).
  all: try (intros _; eexists; split; [cbn [In]; eauto 10|assumption]).
Qed.

(** *** Trigger and read *)

Lemma traced_parse_keeps_trace raw s t :
  snd (snd (dht20_parse_sample (traced World) ttimer raw s t)) = snd t.
Proof.
  destruct (Z.testbit (at_ raw 0) 7) eqn:B.
  - rewrite (parse_busy (traced World) ttimer raw s t B). reflexivity.
  - rewrite (parse_not_busy (traced World) ttimer raw s t B).
    destruct (negb _); [reflexivity|]. cbn [snd].
    unfold traced_timer. destruct (esp_timer_get_time (fst t)). reflexivity.
Qed.




(** X14: dht20_read writes the trigger command, sleeps the conversion
    time when it is not zero and reads the sensor once: it never reads
    after a failed trigger, never reads twice, and an answer that is not
    ESP_OK, a busy one included, is returned with the sample as it was. *)
Theorem read_triggers_then_reads_once :
  forall (d : dht20_t) (s : dht20_sample_t) (conversion_wait_ms : Z)
         (w : World),
    let ticks := pdMS_TO_TICKS (i2c_timeout_ms d) in
    let trigger := Wrote (i2c_port d) (i2c_addr d)
                     [DHT20_CMD_TRIGGER; DHT20_ARG_TRIGGER_1;
                      DHT20_ARG_TRIGGER_2] 3 ticks in
    let '(err, s', t') :=
      dht20_read (traced World) twrite tread ttimer tdelay pdMS_TO_TICKS
        (Some d) (Some s) conversion_wait_ms (w, []) in
    (err <> ESP_OK -> s' = Some s) /\
    ((exists r, r <> ESP_OK /\ err = r /\ snd t' = [trigger r]) \/
     (exists ret data,
        snd t'
        = trigger ESP_OK
          :: (if conversion_wait_ms >? 0
              then [Slept (pdMS_TO_TICKS conversion_wait_ms)] else [])
          ++ [Fetched (i2c_port d) (i2c_addr d) DHT20_DATA_LEN ticks ret data]
        /\ (busy_answer ret data -> err = ESP_ERR_INVALID_STATE))).
Proof.
  intros d s conversion_wait_ms w ticks trigger. subst ticks trigger.
  unfold dht20_read, dht20_start_measurement, dht20_write.
  unfold traced_write at 1. cbn [fst snd app].
  destruct (i2c_master_write_to_device _ _ _ _ _ w) as [r w1].
  destruct (r =? ESP_OK) eqn:E; cbn [negb].
  - apply Z.eqb_eq in E. subst r.
    set (t2 := if conversion_wait_ms >? 0 then tdelay _ _ else _).
    assert (L2 : snd t2
                 = Wrote (i2c_port d) (i2c_addr d)
                     [DHT20_CMD_TRIGGER; DHT20_ARG_TRIGGER_1;
                      DHT20_ARG_TRIGGER_2] 3
                     (pdMS_TO_TICKS (i2c_timeout_ms d)) ESP_OK
                   :: (if conversion_wait_ms >? 0
                       then [Slept (pdMS_TO_TICKS conversion_wait_ms)]
                       else [])).
    { subst t2. destruct (conversion_wait_ms >? 0); reflexivity. }
    clearbody t2.
    pose proof (read_measurement_keeps (traced World) tread ttimer
                  pdMS_TO_TICKS (Some d) (Some s) t2) as K.
    rewrite read_measurement_eq in K |- *. unfold traced_read in K |- *.
    destruct (i2c_master_read_from_device _ _ _ _ _ (fst t2))
      as [[ret data] w3].
    destruct (ret =? ESP_OK) eqn:E'; cbn [negb] in K |- *.
    + apply Z.eqb_eq in E'. subst ret.
      pose proof (traced_parse_keeps_trace data s
                    (w3, snd t2 ++ [Fetched (i2c_port d) (i2c_addr d)
                                      DHT20_DATA_LEN
                                      (pdMS_TO_TICKS (i2c_timeout_ms d))
                                      ESP_OK data])) as T.
      destruct (Z.testbit (at_ data 0) 7) eqn:B.
      * rewrite (parse_busy (traced World) ttimer data s _ B) in K, T |- *.
        cbn [snd] in T. split; [intros _; reflexivity|]. right.
        exists ESP_OK, data. rewrite L2. split; [reflexivity|reflexivity].
      * destruct (dht20_parse_sample (traced World) ttimer data s _)
          as [[e s1] t3].
        cbn [snd] in T. split; [intros N; exact (K _ _ _ eq_refl N)|].
        right. exists ESP_OK, data. rewrite T, L2.
        split; [reflexivity|].
        intros [A|[_ A]]; [discriminate A|congruence].
    + split; [intros _; reflexivity|]. right. exists ret, data. cbn [snd].
      rewrite L2. split; [reflexivity|].
      intros [A|[A _]]; [exact A|]. apply Z.eqb_neq in E'. contradiction.
  - split; [intros _; reflexivity|]. left. exists r.
    split; [apply Z.eqb_neq; exact E|]. split; reflexivity.
Qed.

End TraceFacts.

Section CommandFacts.

Variable World : Type.
Variable i2c_master_write_to_device :
  Z -> Z -> list Z -> nat -> Z -> World -> esp_err_t * World.
Variable i2c_master_read_from_device :
  Z -> Z -> list Z -> nat -> Z -> World -> esp_err_t * list Z * World.
Variable esp_timer_get_time : World -> Z * World.
Variable vTaskDelay : Z -> World -> World.
Variable pdMS_TO_TICKS : Z -> Z.

(** X15: whenever dht20_read_oneshot returns something else than ESP_OK,
    be it for a NULL argument, a failed trigger, a transport or checksum
    error or the timeout, the caller's sample is what it was before the
    call; with a NULL [dev] nothing is sent, while a NULL [sample] is
    found only after the trigger command has gone out. *)
Theorem oneshot_failure_keeps_sample :
  forall (fuel : nat) (dev : option dht20_t) (sample s' : option dht20_sample_t)
         (timeout_ms poll_interval_ms : Z) (w w' : World) (err : esp_err_t),
    dht20_read_oneshot World i2c_master_write_to_device
      i2c_master_read_from_device esp_timer_get_time vTaskDelay pdMS_TO_TICKS
      fuel dev sample timeout_ms poll_interval_ms w = Some (err, s', w') ->
    err <> ESP_OK ->
    s' = sample /\
    (dev = None -> err = ESP_ERR_INVALID_ARG /\ w' = w) /\
    (forall d, dev = Some d -> sample = None ->
       let r := i2c_master_write_to_device (i2c_port d) (i2c_addr d)
                  [DHT20_CMD_TRIGGER; DHT20_ARG_TRIGGER_1; DHT20_ARG_TRIGGER_2]
                  3 (pdMS_TO_TICKS (i2c_timeout_ms d)) w in
       w' = snd r /\
       err = if fst r =? ESP_OK then ESP_ERR_INVALID_ARG else fst r).
Proof.
  intros fuel dev sample s' timeout_ms poll_interval_ms w w' err H N.
  unfold dht20_read_oneshot, dht20_start_measurement, dht20_write in H.
  destruct dev as [d|].
  - destruct (i2c_master_write_to_device _ _ _ _ _ w) as [r w1] eqn:W.
    destruct (r =? ESP_OK) eqn:E; cbn [negb] in H.
    + split; [|split; [discriminate|]].
      * unfold dht20_read_measurement_wait in H.
        destruct sample as [s|]; [|injection H as _ <- _; reflexivity].
        destruct (esp_timer_get_time w1) as [start_us w0].
        destruct (poll_loop_sound World i2c_master_read_from_device
                    esp_timer_get_time vTaskDelay pdMS_TO_TICKS _ _ _ _ _ _ _
                    _ H) as (n & _ & P).
        exact (polled_keeps_sample World i2c_master_read_from_device
                 esp_timer_get_time vTaskDelay pdMS_TO_TICKS _ _ _ _ _ _ _ _
                 P N).
      * intros d' D -> r'. injection D as <-. subst r'. rewrite W.
        cbn [fst snd]. rewrite E. cbn [dht20_read_measurement_wait] in H.
        injection H as <- <- <-. split; reflexivity.
    + injection H as <- <- <-. split; [reflexivity|].
      split; [discriminate|].
      intros d' D _ r'. injection D as <-. subst r'. rewrite W.
      cbn [fst snd]. rewrite E. split; reflexivity.
  - cbn [negb Z.eqb ESP_ERR_INVALID_ARG ESP_OK] in H.
    injection H as <- <- <-. split; [reflexivity|].
    split; [intros _; split; reflexivity|discriminate].
Qed.

End CommandFacts.


Lemma oneshot_failure_keeps_sample_witness :
  Some Sim.sample0 = Some Sim.sample0 /\
  (Some Sim.dev0 = None ->
   ESP_ERR_TIMEOUT = ESP_ERR_INVALID_ARG /\
   {| Sim.now_us := 1001400; Sim.bus := [] |}
   = Sim.boot [(ESP_OK, []); (ESP_OK, Sim.frame_busy)]) /\
  (forall d, Some Sim.dev0 = Some d -> Some Sim.sample0 = None ->
     let r := sim_i2c_write (i2c_port d) (i2c_addr d)
                [DHT20_CMD_TRIGGER; DHT20_ARG_TRIGGER_1; DHT20_ARG_TRIGGER_2]
                3 (Sim.ms_to_ticks (i2c_timeout_ms d))
                (Sim.boot [(ESP_OK, []); (ESP_OK, Sim.frame_busy)]) in
     {| Sim.now_us := 1001400; Sim.bus := [] |} = snd r /\
     ESP_ERR_TIMEOUT = if fst r =? ESP_OK then ESP_ERR_INVALID_ARG else fst r).
Proof.
  apply (oneshot_failure_keeps_sample Sim.world sim_i2c_write Sim.i2c_read
           Sim.timer Sim.delay Sim.ms_to_ticks 4 (Some Sim.dev0)
           (Some Sim.sample0) (Some Sim.sample0) 0 20
           (Sim.boot [(ESP_OK, []); (ESP_OK, Sim.frame_busy)])
           {| Sim.now_us := 1001400; Sim.bus := [] |} ESP_ERR_TIMEOUT).
  - vm_compute. reflexivity.
  - discriminate.
Defined.

(** * The rotary encoder *)

Lemma last_cons_default {A : Type} (l : list A) (a d : A) :
  last (a :: l) d = last l a.
Proof.
  revert a d. induction l as [|b l IH]; intros a d; [reflexivity|].
  change (last (a :: b :: l) d) with (last (b :: l) d).
  rewrite (IH b d), (IH b a). reflexivity.
Qed.

Ltac split_all := repeat match goal with |- _ /\ _ => split end.

Lemma land_1_cases x : Z.land x 1 = 0 \/ Z.land x 1 = 1.
Proof.
  assert (H : Z.land x 1 = x mod 2) by (apply (Z.land_ones x 1); lia).
  rewrite H. pose proof (Z.mod_pos_bound x 2 ltac:(lia)). lia.
Qed.

Lemma i8_small x : - 2 ^ 7 <= x < 2 ^ 7 -> i8 x = x.
Proof. intros H. unfold i8. rewrite Z.mod_small; lia. Qed.

Section KnobFacts.

Import Knob.

Variable World : Type.
Variable gpio_config : gpio_config_t -> World -> esp_err_t * World.
Variable gpio_get_level : Z -> World -> Z * World.
Variable xTaskGetTickCount : World -> Z * World.
Variable portTICK_PERIOD_MS : Z.

Local Notation "'read_ab'" := (knob_read_ab World gpio_get_level).
Local Notation "'read_sw'" := (knob_read_sw World gpio_get_level).
Local Notation "'now_ms'" :=
  (knob_now_ms World xTaskGetTickCount portTICK_PERIOD_MS).
Local Notation "'init'" :=
  (knob_init World gpio_config gpio_get_level xTaskGetTickCount
     portTICK_PERIOD_MS).
Local Notation "'poll'" :=
  (knob_poll World gpio_get_level xTaskGetTickCount portTICK_PERIOD_MS).

Ltac knob_simpl :=
  cbn [position step_acc last_ab last_sw_level last_sw_change_ms
       pressed_latched initialized pins cfg with_position with_step_acc
       with_last_ab with_switch with_delta with_event_position delta pressed
       released clicked event_position event_zero button_active_low
       button_debounce_ms enable_pullup].

Lemma read_ab_range k w : 0 <= fst (read_ab k w) < 4.
Proof.
  unfold knob_read_ab.
  destruct (gpio_get_level (clk (pins k)) w) as [l1 w1].
  destruct (gpio_get_level (dt (pins k)) w1) as [l2 w2]. cbn [fst].
  destruct (land_1_cases (u8 l1)) as [-> | ->],
           (land_1_cases (u8 l2)) as [-> | ->]; vm_compute; split; congruence.
Qed.

Lemma read_sw_range k w : 0 <= fst (read_sw k w) <= 1.
Proof.
  unfold knob_read_sw.
  destruct (gpio_get_level (sw (pins k)) w) as [l w1]. cbn [fst].
  destruct (land_1_cases l) as [-> | ->]; vm_compute; split; congruence.
Qed.

Lemma now_ms_range w : 0 <= fst (now_ms w) < 2 ^ 32.
Proof.
  unfold knob_now_ms. destruct (xTaskGetTickCount w) as [t w1]. cbn [fst].
  unfold u32. apply Z.mod_pos_bound. lia.
Qed.

Lemma knob_poll_eq k e0 w :
  poll (Some k) (Some e0) w =
  if negb (initialized k) then
    Some (ESP_ERR_INVALID_STATE, Some k, Some e0, w)
  else
    let '(ab, w1) := read_ab k w in
    match knob_turn k event_zero ab with
    | None => None
    | Some (k1, e1) =>
      let '(raw_sw, w2) := read_sw k1 w1 in
      let '(now, w3) := now_ms w2 in
      let '(k2, e2) := knob_switch k1 e1 raw_sw now in
      Some (ESP_OK, Some k2, Some (with_event_position e2 (position k2)), w3)
    end.
Proof.
  unfold knob_poll, knob_turn, knob_switch.
  destruct (initialized k); cbn [negb]; [|reflexivity].
  destruct (read_ab k w) as [ab w1].
  destruct (nth_error transition_table _) as [t|]; reflexivity.
Qed.

Lemma table_lookup last ab :
  0 <= last < 4 -> 0 <= ab < 4 ->
  nth_error transition_table (Z.to_nat (u8 (Z.lor (Z.shiftl last 2) ab)))
  = Some (quarter_step last ab).
Proof.
  intros L A.
  assert (HL : last = 0 \/ last = 1 \/ last = 2 \/ last = 3) by lia.
  assert (HA : ab = 0 \/ ab = 1 \/ ab = 2 \/ ab = 3) by lia.
  destruct HL as [->|[->|[->| ->]]], HA as [->|[->|[->| ->]]]; reflexivity.
Qed.

Lemma quarter_step_range last ab : -1 <= quarter_step last ab <= 1.
Proof.
  unfold quarter_step.
  destruct (ab =? forward last); [lia|].
  destruct (ab =? backward last); lia.
Qed.

Lemma gray_code_steps a :
  0 <= a < 4 ->
  0 <= forward a < 4 /\ 0 <= backward a < 4 /\
  quarter_step a (forward a) = 1 /\ quarter_step a (backward a) = -1 /\
  forward (forward (forward (forward a))) = a /\
  backward (backward (backward (backward a))) = a.
Proof.
  intros A. assert (H : a = 0 \/ a = 1 \/ a = 2 \/ a = 3) by lia.
  destruct H as [->|[->|[->| ->]]]; vm_compute; intuition congruence.
Qed.

Lemma quarter_step_back a b :
  0 <= a < 4 -> 0 <= b < 4 -> quarter_step a b + quarter_step b a = 0.
Proof.
  intros A B.
  assert (HA : a = 0 \/ a = 1 \/ a = 2 \/ a = 3) by lia.
  assert (HB : b = 0 \/ b = 1 \/ b = 2 \/ b = 3) by lia.
  destruct HA as [->|[->|[->| ->]]], HB as [->|[->|[->| ->]]]; reflexivity.
Qed.

Lemma knob_turn_cases k e ab :
  0 <= last_ab k < 4 -> -3 <= step_acc k <= 3 -> 0 <= ab < 4 ->
  let s := step_acc k + quarter_step (last_ab k) ab in
  knob_turn k e ab =
  if s >=? 4 then
    if position k <? INT32_MAX then
      Some (with_step_acc
              (with_position
                 (with_last_ab (with_step_acc k s) ab) (position k + 1)) 0,
            with_delta e 1)
    else None
  else if s <=? -4 then
    if INT32_MIN <? position k then
      Some (with_step_acc
              (with_position
                 (with_last_ab (with_step_acc k s) ab) (position k - 1)) 0,
            with_delta e (-1))
    else None
  else Some (with_last_ab (with_step_acc k s) ab, e).
Proof.
  intros L S A s. unfold knob_turn.
  rewrite (table_lookup (last_ab k) ab L A).
  pose proof (quarter_step_range (last_ab k) ab) as Q.
  rewrite i8_small by (change (2 ^ 7) with 128; lia).
  reflexivity.
Qed.

(** What a step of the encoder does to a structure in order. *)
Lemma knob_turn_inv k ab k' e' :
  knob_ok k -> 0 <= ab < 4 ->
  knob_turn k event_zero ab = Some (k', e') ->
  knob_ok k' /\
  4 * position k' + step_acc k'
  = 4 * position k + step_acc k + quarter_step (last_ab k) ab /\
  last_ab k' = ab /\
  (exists d, e' = with_delta event_zero d /\ -1 <= d <= 1 /\
             position k' = position k + d /\
             (d <> 0 -> step_acc k' = 0)) /\
  pins k' = pins k /\ cfg k' = cfg k /\
  last_sw_level k' = last_sw_level k /\
  last_sw_change_ms k' = last_sw_change_ms k /\
  pressed_latched k' = pressed_latched k.
Proof.
  intros (I & L & S & V & C & D & P) A.
  rewrite (knob_turn_cases k event_zero ab L S A). cbv zeta.
  pose proof (quarter_step_range (last_ab k) ab) as Q.
  set (q := quarter_step (last_ab k) ab) in *.
  destruct (Z.geb_spec (step_acc k + q) 4) as [G|G];
    [destruct (position k <? INT32_MAX); [|discriminate]
    |destruct (Z.leb_spec (step_acc k + q) (-4)) as [G'|G'];
     [destruct (INT32_MIN <? position k); [|discriminate]|]];
    intros H; injection H as <- <-; knob_simpl;
    (split; [unfold knob_ok, button_down; knob_simpl; split_all;
             try assumption; try lia|]);
    split_all; try reflexivity; try lia.
  - exists 1. split_all; try reflexivity; lia.
  - exists (-1). split_all; try reflexivity; lia.
  - exists 0. split_all; try reflexivity; lia.
Qed.

Lemma knob_turn_defined k ab :
  knob_ok k -> 0 <= ab < 4 -> INT32_MIN < position k < INT32_MAX ->
  exists k' e', knob_turn k event_zero ab = Some (k', e').
Proof.
  intros (I & L & S & V & C & D & P) A R.
  rewrite (knob_turn_cases k event_zero ab L S A). cbv zeta.
  destruct (_ >=? 4).
  - destruct (Z.ltb_spec (position k) INT32_MAX); [eauto|lia].
  - destruct (_ <=? -4); [|eauto].
    destruct (Z.ltb_spec INT32_MIN (position k)); [eauto|lia].
Qed.

(** What the switch does to a structure in order. *)
Lemma knob_switch_inv k e raw_sw now k' e' :
  knob_ok k -> 0 <= raw_sw <= 1 -> 0 <= now < 2 ^ 32 ->
  knob_switch k e raw_sw now = (k', e') ->
  knob_ok k' /\
  position k' = position k /\ step_acc k' = step_acc k /\
  last_ab k' = last_ab k /\ pins k' = pins k /\ cfg k' = cfg k /\
  delta e' = delta e /\ event_position e' = event_position e /\
  ((k' = k /\ e' = e /\
    (raw_sw = last_sw_level k \/
     u32 (now - last_sw_change_ms k) < button_debounce_ms (cfg k))) \/
   (raw_sw = 1 - last_sw_level k /\
    button_debounce_ms (cfg k) <= u32 (now - last_sw_change_ms k) /\
    last_sw_level k' = raw_sw /\ last_sw_change_ms k' = now /\
    button_down k' = negb (button_down k) /\
    pressed_latched k' = button_down k' /\
    pressed e' = (button_down k' || pressed e) /\
    released e' = (negb (button_down k') || released e) /\
    clicked e' = if button_down k' then clicked e else pressed_latched k)).
Proof.
  intros K R N. pose proof K as (I & L & S & V & C & D & P).
  unfold knob_switch.
  destruct (Z.eqb_spec raw_sw (last_sw_level k)) as [E|E]; cbn [negb].
  { intros H. injection H as <- <-.
    split_all; try assumption; try reflexivity. left. auto. }
  destruct (Z.geb_spec (u32 (now - last_sw_change_ms k))
              (button_debounce_ms (cfg k))) as [G|G].
  2: { intros H. injection H as <- <-.
       split_all; try assumption; try reflexivity. left.
       split; [reflexivity|]. split; [reflexivity|]. right. lia. }
  assert (X : raw_sw = 1 - last_sw_level k) by lia.
  unfold button_down in P.
  destruct (button_active_low (cfg k)) eqn:AL;
    destruct (Z.eqb_spec raw_sw 0) as [Z0|Z0]; cbn [negb];
    intros H; injection H as <- <-; knob_simpl;
    (split;
     [unfold knob_ok, button_down; knob_simpl; rewrite ?AL;
      split_all; try assumption; try lia;
      try (intros _; apply Z.eqb_eq; lia);
      try (intros _; apply negb_true_iff, Z.eqb_neq; lia);
      try discriminate
     |]);
    split_all; try reflexivity; right;
    unfold button_down; knob_simpl; rewrite ?AL;
    destruct (Z.eqb_spec (last_sw_level k) 0);
    destruct (Z.eqb_spec raw_sw 0); try lia; cbn [negb orb];
    split_all; try reflexivity; try lia;
    try (destruct (pressed e); reflexivity);
    try (destruct (released e); reflexivity).
Qed.

(** X16: knob_init refuses a negative pin with ESP_ERR_INVALID_ARG
    before it touches the structure or the GPIOs, and with a pin of 64 or
    more the mask [1ULL << pin] that it builds has no meaning.  With the
    three pins within 0 .. 63 the mask has the bits of the three pins and
    fits 64 bits, and: when gpio_config fails its code is returned and the
    structure is left cleared and not initialized, also when it was
    initialized before, so that knob_poll and knob_set_position refuse it
    with ESP_ERR_INVALID_STATE and knob_get_position gives 0; when it
    succeeds the structure is in order, at position 0 with no step
    pending, and its debounce time is the one asked for, or 30 ms when none
    or zero was asked for. *)
Theorem knob_init_outcome :
  forall (k0 : knob_t) (p : knob_pins_t) (cfg_in : option knob_cfg_t)
         (w : World),
    (clk p < 0 \/ dt p < 0 \/ sw p < 0 ->
     init (Some k0) (Some p) cfg_in w
     = Some (ESP_ERR_INVALID_ARG, Some k0, w)) /\
    (0 <= clk p /\ 0 <= dt p /\ 0 <= sw p ->
     64 <= clk p \/ 64 <= dt p \/ 64 <= sw p ->
     init (Some k0) (Some p) cfg_in w = None) /\
    (0 <= clk p < 64 /\ 0 <= dt p < 64 /\ 0 <= sw p < 64 ->
     exists mask err k w',
       pin_bit (clk p) = Some (2 ^ clk p) /\
       pin_bit (dt p) = Some (2 ^ dt p) /\
       pin_bit (sw p) = Some (2 ^ sw p) /\
       mask = Z.lor (Z.lor (2 ^ clk p) (2 ^ dt p)) (2 ^ sw p) /\
       0 <= mask < 2 ^ 64 /\
       (err, w')
       = gpio_config
           {| pin_bit_mask := mask; mode := GPIO_MODE_INPUT;
              pull_up_en :=
                if match cfg_in with
                   | Some c => enable_pullup c
                   | None => true
                   end
                then GPIO_PULLUP_ENABLE else GPIO_PULLUP_DISABLE;
              pull_down_en := GPIO_PULLDOWN_DISABLE;
              intr_type := GPIO_INTR_DISABLE |} w /\
       (err <> ESP_OK ->
        init (Some k0) (Some p) cfg_in w = Some (err, Some k, w')) /\
       (err = ESP_OK ->
        exists w2, init (Some k0) (Some p) cfg_in w = Some (err, Some k, w2)) /\
       pins k = p /\
       button_debounce_ms (cfg k)
       = match cfg_in with
         | Some c =>
           if button_debounce_ms c =? 0 then 30 else button_debounce_ms c
         | None => 30
         end /\
       position k = 0 /\ step_acc k = 0 /\ pressed_latched k = false /\
       knob_get_position (Some k) = 0 /\
       (err = ESP_OK -> knob_ok k) /\
       (err <> ESP_OK ->
        initialized k = false /\
        (forall e w2,
           poll (Some k) (Some e) w2
           = Some (ESP_ERR_INVALID_STATE, Some k, Some e, w2)) /\
        (forall v, knob_set_position (Some k) v
                   = (ESP_ERR_INVALID_STATE, Some k)))).
Proof.
  intros k0 p cfg_in w. unfold knob_init, pin_bit.
  destruct (Z.geb_spec (clk p) 0) as [C|C]; cbn [negb];
    [|split; [reflexivity|split; intros; lia]].
  destruct (Z.geb_spec (dt p) 0) as [D|D]; cbn [negb];
    [|split; [reflexivity|split; intros; lia]].
  destruct (Z.geb_spec (sw p) 0) as [S0|S0]; cbn [negb];
    [|split; [reflexivity|split; intros; lia]].
  split; [intros; lia|].
  destruct (Z.ltb_spec (clk p) 64) as [C6|C6];
    [|split; [reflexivity|intros; lia]].
  destruct (Z.ltb_spec (dt p) 64) as [D6|D6];
    [|split; [reflexivity|intros; lia]].
  destruct (Z.ltb_spec (sw p) 64) as [S6|S6];
    [|split; [reflexivity|intros; lia]].
  split; [intros; lia|]. intros _.
  rewrite !Z.shiftl_1_l.
  set (local_cfg := match cfg_in with
                    | Some c => if button_debounce_ms c =? 0 then _ else c
                    | None => _
                    end).
  assert (DB : button_debounce_ms local_cfg
               = match cfg_in with
                 | Some c =>
                   if button_debounce_ms c =? 0 then 30
                   else button_debounce_ms c
                 | None => 30
                 end).
  { subst local_cfg. destruct cfg_in as [c|]; [|reflexivity].
    destruct (button_debounce_ms c =? 0); reflexivity. }
  assert (PU : enable_pullup local_cfg
               = match cfg_in with
                 | Some c => enable_pullup c
                 | None => true
                 end).
  { subst local_cfg. destruct cfg_in as [c|]; [|reflexivity].
    destruct (button_debounce_ms c =? 0); reflexivity. }
  assert (NZ : button_debounce_ms local_cfg <> 0).
  { rewrite DB. destruct cfg_in as [c|]; [|discriminate].
    destruct (Z.eqb_spec (button_debounce_ms c) 0); [discriminate|assumption]. }
  clearbody local_cfg. rewrite PU.
  assert (MB : 0 <= Z.lor (Z.lor (2 ^ clk p) (2 ^ dt p)) (2 ^ sw p) < 2 ^ 64).
  { assert (B : forall n, 0 <= n < 64 -> 0 <= 2 ^ n < 2 ^ 64).
    { intros n Hn. split; [apply Z.pow_nonneg; lia|].
      apply Z.pow_lt_mono_r; lia. }
    apply lor_below; [lia|apply lor_below; [lia|apply B; lia|apply B; lia]
                     |apply B; lia]. }
  destruct (gpio_config _ w) as [err w1] eqn:G.
  destruct (Z.eqb_spec err ESP_OK) as [E|E]; cbn [negb].
  - set (k := {| pins := p; cfg := local_cfg; position := 0; step_acc := 0;
                 last_ab := 0; last_sw_level := 0; last_sw_change_ms := 0;
                 pressed_latched := false; initialized := false |}).
    pose proof (read_ab_range k w1) as RA.
    destruct (read_ab k w1) as [ab w2]. cbn [fst] in RA.
    pose proof (read_sw_range k w2) as RS.
    destruct (read_sw k w2) as [level w3]. cbn [fst] in RS.
    pose proof (now_ms_range w3) as RN.
    destruct (now_ms w3) as [now w4]. cbn [fst] in RN.
    eexists _, err, _, w1.
    split; [reflexivity|]. split; [reflexivity|]. split; [reflexivity|].
    split; [reflexivity|]. split; [exact MB|]. split; [symmetry; exact G|].
    split; [intros N; contradiction|].
    split; [intros _; rewrite E; eexists; reflexivity|].
    knob_simpl.
    split_all; try reflexivity; try assumption.
    + intros _. unfold knob_ok. knob_simpl.
      split_all; try reflexivity; try assumption; try lia; try discriminate.
    + intros N. contradiction.
  - eexists _, err, _, w1.
    split; [reflexivity|]. split; [reflexivity|]. split; [reflexivity|].
    split; [reflexivity|]. split; [exact MB|]. split; [symmetry; exact G|].
    split; [intros _; reflexivity|].
    split; [intros F; contradiction|].
    knob_simpl.
    split_all; try reflexivity; try assumption.
    + intros F. contradiction.
    + intros _. split_all; reflexivity.
Qed.

(** X17: on a structure in order whose position is not at an end of the
    range of [int32_t], knob_poll returns ESP_OK and leaves the structure in
    order: the table is read inside its bounds and the accumulator stays
    within -3 .. 3; the pins and the configuration are kept, the event is
    built from scratch whatever [event_out] held, its delta is -1, 0 or 1,
    the position moves by the delta and is reported in the event, a press
    and a release are never reported together, and a click only with a
    release. *)
Theorem knob_poll_keeps_order :
  forall (k : knob_t) (e0 : knob_event_t) (w : World),
    knob_ok k ->
    INT32_MIN < position k < INT32_MAX ->
    exists k' e' w',
      poll (Some k) (Some e0) w = Some (ESP_OK, Some k', Some e', w') /\
      poll (Some k) (Some event_zero) w
      = Some (ESP_OK, Some k', Some e', w') /\
      knob_ok k' /\
      pins k' = pins k /\ cfg k' = cfg k /\
      -1 <= delta e' <= 1 /\
      position k' = position k + delta e' /\
      event_position e' = position k' /\
      pressed e' && released e' = false /\
      (clicked e' = true -> released e' = true).
Proof.
  intros k e0 w K R. pose proof K as (I & _).
  rewrite !knob_poll_eq, I. cbn [negb].
  pose proof (read_ab_range k w) as RA.
  destruct (read_ab k w) as [ab w1]. cbn [fst] in RA.
  destruct (knob_turn_defined k ab K RA R) as (k1 & e1 & T). rewrite T.
  destruct (knob_turn_inv k ab k1 e1 K RA T)
    as (K1 & _ & _ & (d & -> & Dr & Dp & _) & P1 & C1 & _).
  pose proof (read_sw_range k1 w1) as RS.
  destruct (read_sw k1 w1) as [raw_sw w2]. cbn [fst] in RS.
  pose proof (now_ms_range w2) as RN.
  destruct (now_ms w2) as [now w3]. cbn [fst] in RN.
  destruct (knob_switch k1 (with_delta event_zero d) raw_sw now)
    as [k2 e2] eqn:SW.
  destruct (knob_switch_inv k1 _ raw_sw now k2 e2 K1 RS RN SW)
    as (K2 & P2 & _ & _ & Pi & Cf & De & _ & Cases).
  exists k2, (with_event_position e2 (position k2)), w3.
  split; [reflexivity|]. split; [reflexivity|]. knob_simpl.
  cbn [delta with_delta] in De.
  split_all; try assumption; try congruence; try lia; try reflexivity.
  - destruct Cases as [(_ & -> & _)|(_ & _ & _ & _ & _ & _ & -> & -> & _)].
    + reflexivity.
    + knob_simpl. destruct (button_down k2); reflexivity.
  - destruct Cases as [(_ & -> & _)|(_ & _ & _ & _ & _ & _ & _ & -> & ->)].
    + discriminate.
    + knob_simpl. destruct (button_down k2); [discriminate|reflexivity].
Qed.

Lemma read_sw_pins k1 k w : pins k1 = pins k -> read_sw k1 w = read_sw k w.
Proof. intros P. unfold knob_read_sw. rewrite P. reflexivity. Qed.

(** What one successful poll did. *)
Lemma knob_poll_inv k e0 w k' e' w' :
  knob_ok k ->
  poll (Some k) (Some e0) w = Some (ESP_OK, Some k', Some e', w') ->
  let ab := fst (read_ab k w) in
  let w1 := snd (read_ab k w) in
  let raw_sw := fst (read_sw k w1) in
  let now := fst (now_ms (snd (read_sw k w1))) in
  knob_ok k' /\
  4 * position k' + step_acc k'
  = 4 * position k + step_acc k + quarter_step (last_ab k) ab /\
  last_ab k' = ab /\
  -1 <= delta e' <= 1 /\
  position k' = position k + delta e' /\
  (delta e' <> 0 -> step_acc k' = 0) /\
  event_position e' = position k' /\
  pins k' = pins k /\ cfg k' = cfg k /\
  ((last_sw_level k' = last_sw_level k /\
    last_sw_change_ms k' = last_sw_change_ms k /\
    pressed_latched k' = pressed_latched k /\
    pressed e' = false /\ released e' = false /\ clicked e' = false /\
    (raw_sw = last_sw_level k \/
     u32 (now - last_sw_change_ms k) < button_debounce_ms (cfg k))) \/
   (raw_sw = 1 - last_sw_level k /\
    button_debounce_ms (cfg k) <= u32 (now - last_sw_change_ms k) /\
    last_sw_level k' = raw_sw /\ last_sw_change_ms k' = now /\
    button_down k' = negb (button_down k) /\
    pressed_latched k' = button_down k' /\
    pressed e' = button_down k' /\
    released e' = negb (button_down k') /\
    clicked e' = if button_down k' then false else pressed_latched k)).
Proof.
  intros K H. pose proof K as (I & _). cbv zeta.
  rewrite knob_poll_eq, I in H. cbn [negb] in H.
  pose proof (read_ab_range k w) as RA.
  destruct (read_ab k w) as [ab w1]. cbn [fst snd] in *.
  destruct (knob_turn k event_zero ab) as [[k1 e1]|] eqn:T; [|discriminate].
  destruct (knob_turn_inv k ab k1 e1 K RA T)
    as (K1 & Law & LA & (d & -> & Dr & Dp & Dz) & P1 & C1 & SL & SC & PL).
  rewrite (read_sw_pins k1 k w1 P1) in H.
  pose proof (read_sw_range k w1) as RS.
  destruct (read_sw k w1) as [raw_sw w2]. cbn [fst snd] in *.
  pose proof (now_ms_range w2) as RN.
  destruct (now_ms w2) as [now w3]. cbn [fst] in *.
  destruct (knob_switch k1 (with_delta event_zero d) raw_sw now)
    as [k2 e2] eqn:SW.
  injection H as <- <- <-.
  destruct (knob_switch_inv k1 _ raw_sw now k2 e2 K1 RS RN SW)
    as (K2 & P2 & S2 & L2 & Pi & Cf & De & _ & Cases).
  knob_simpl. cbn [delta with_delta] in De.
  split; [exact K2|]. split; [lia|]. split; [congruence|].
  split; [lia|]. split; [lia|].
  split; [intros NZ; rewrite S2; apply Dz; lia|]. split; [reflexivity|].
  split; [congruence|]. split; [congruence|].
  assert (BD : button_down k1 = button_down k)
    by (unfold button_down; rewrite C1, SL; reflexivity).
  rewrite <- SL, <- SC, <- PL, <- C1, <- BD.
  destruct Cases as [(-> & -> & C)|(A1 & A2 & A3 & A4 & A5 & A6 & A7 & A8 & A9)].
  - left. knob_simpl. split_all; try reflexivity. exact C.
  - right. rewrite A7, A8, A9. knob_simpl.
    rewrite orb_false_r, orb_false_r. split_all; assumption || reflexivity.
Qed.

Lemma knob_polls_step k w e0 k1 e1 w1 ab l k2 w2 :
  poll (Some k) (Some e0) w = Some (ESP_OK, Some k1, Some e1, w1) ->
  ab = fst (read_ab k w) ->
  knob_polls World gpio_get_level xTaskGetTickCount portTICK_PERIOD_MS
    k1 w1 l k2 w2 ->
  knob_polls World gpio_get_level xTaskGetTickCount portTICK_PERIOD_MS
    k w ((ab, e1) :: l) k2 w2.
Proof. intros P -> R. eapply knob_polls_more; eassumption. Qed.

(** X18: however often knob_poll is called on a structure in order, the
    structure stays in order and four times the position plus the
    accumulator has moved by as many quarter steps as the two lines have
    made between one reading and the next, an unchanged reading and a
    change of both lines at once counting for nothing; the position has
    moved by the sum of the deltas reported. *)
Theorem knob_polls_count_quarter_steps :
  forall (k : knob_t) (w : World) (l : list (Z * knob_event_t))
         (k' : knob_t) (w' : World),
    knob_polls World gpio_get_level xTaskGetTickCount portTICK_PERIOD_MS
      k w l k' w' ->
    knob_ok k ->
    knob_ok k' /\
    4 * position k' + step_acc k'
    = 4 * position k + step_acc k + quarter_steps (last_ab k) (map fst l) /\
    position k'
    = position k + fold_right Z.add 0 (map (fun p => delta (snd p)) l) /\
    last_ab k' = last (map fst l) (last_ab k).
Proof.
  induction 1 as [k w|k w e0 k1 e1 w1 l k2 w2 P R IH]; intros K.
  - cbn. split_all; try assumption; lia.
  - destruct (knob_poll_inv k e0 w k1 e1 w1 K P)
      as (K1 & Law & LA & _ & Dp & _).
    destruct (IH K1) as (K2 & Law2 & Dp2 & LA2).
    cbn [map fst snd quarter_steps fold_right].
    rewrite LA in Law2, LA2.
    split; [exact K2|]. split; [lia|]. split; [lia|].
    rewrite LA2. symmetry. apply last_cons_default.
Qed.

(** X19: four polls that find the lines one state further each time make
    one detent: from a structure in order with nothing pending, four
    readings in the counting direction give the deltas 0, 0, 0, 1 and the
    position one higher, four readings in the other direction 0, 0, 0, -1
    and the position one lower; a step there and back (a bounce of a
    contact) gives no delta and leaves nothing pending. *)
Theorem four_quarters_make_a_detent :
  forall (k : knob_t) (w : World) (a1 a2 a3 a4 : Z)
         (e1 e2 e3 e4 : knob_event_t) (k' : knob_t) (w' : World),
    knob_ok k ->
    step_acc k = 0 ->
    knob_polls World gpio_get_level xTaskGetTickCount portTICK_PERIOD_MS
      k w [(a1, e1); (a2, e2); (a3, e3); (a4, e4)] k' w' ->
    (a1 = forward (last_ab k) -> a2 = forward a1 -> a3 = forward a2 ->
     a4 = forward a3 ->
     map delta [e1; e2; e3; e4] = [0; 0; 0; 1] /\
     position k' = position k + 1 /\ step_acc k' = 0 /\
     last_ab k' = last_ab k) /\
    (a1 = backward (last_ab k) -> a2 = backward a1 -> a3 = backward a2 ->
     a4 = backward a3 ->
     map delta [e1; e2; e3; e4] = [0; 0; 0; -1] /\
     position k' = position k - 1 /\ step_acc k' = 0 /\
     last_ab k' = last_ab k) /\
    (a1 <> last_ab k -> a2 = last_ab k -> a3 = a1 -> a4 = last_ab k ->
     map delta [e1; e2; e3; e4] = [0; 0; 0; 0] /\
     position k' = position k /\ step_acc k' = 0).
Proof.
  intros k w a1 a2 a3 a4 e1 e2 e3 e4 k' w' K S0 R.
  inversion R as [|? ? e01 k1 ? w1 ? ? ? P1 R1]; subst; clear R.
  inversion R1 as [|? ? e02 k2 ? w2 ? ? ? P2 R2]; subst; clear R1.
  inversion R2 as [|? ? e03 k3 ? w3 ? ? ? P3 R3]; subst; clear R2.
  inversion R3 as [|? ? e04 k4 ? w4 ? ? ? P4 R4]; subst; clear R3.
  inversion R4; subst; clear R4.
  destruct (knob_poll_inv _ _ _ _ _ _ K P1)
    as (K1 & L1 & A1 & D1 & Q1 & Z1 & _).
  destruct (knob_poll_inv _ _ _ _ _ _ K1 P2)
    as (K2 & L2 & A2 & D2 & Q2 & Z2 & _).
  destruct (knob_poll_inv _ _ _ _ _ _ K2 P3)
    as (K3 & L3 & A3 & D3 & Q3 & Z3 & _).
  destruct (knob_poll_inv _ _ _ _ _ _ K3 P4)
    as (K4 & L4 & A4 & D4 & Q4 & Z4 & _).
  cbv zeta in *.
  pose proof K as (_ & B0 & _).
  pose proof K1 as (_ & B1 & C1 & _).
  pose proof K2 as (_ & B2 & C2 & _).
  pose proof K3 as (_ & B3 & C3 & _).
  pose proof K4 as (_ & B4 & C4 & _).
  set (r1 := fst (read_ab k w)) in *.
  set (r2 := fst (read_ab k1 w1)) in *.
  set (r3 := fst (read_ab k2 w2)) in *.
  set (r4 := fst (read_ab k3 w3)) in *.
  rewrite A1 in L2. rewrite A2 in L3. rewrite A3 in L4.
  cbn [map].
  pose proof (quarter_step_range (last_ab k) r1) as QS1.
  pose proof (quarter_step_range r1 r2) as QS2.
  pose proof (quarter_step_range r2 r3) as QS3.
  pose proof (quarter_step_range r3 r4) as QS4.
  split; [|split].
  - intros E1 E2 E3 E4.
    destruct (gray_code_steps (last_ab k) B0) as (_ & _ & F0 & _ & F4 & _).
    destruct (gray_code_steps r1 ltac:(lia)) as (_ & _ & F1 & _).
    destruct (gray_code_steps r2 ltac:(lia)) as (_ & _ & F2 & _).
    destruct (gray_code_steps r3 ltac:(lia)) as (_ & _ & F3 & _).
    rewrite <- E1 in F0. rewrite <- E2 in F1. rewrite <- E3 in F2.
    rewrite <- E4 in F3. rewrite <- E1, <- E2, <- E3, <- E4 in F4.
    rewrite F0 in L1. rewrite F1 in L2. rewrite F2 in L3. rewrite F3 in L4.
    assert (delta e1 = 0) by lia. assert (delta e2 = 0) by lia.
    assert (delta e3 = 0) by lia. assert (delta e4 = 1) by lia.
    split_all; try congruence; try lia.
  - intros E1 E2 E3 E4.
    destruct (gray_code_steps (last_ab k) B0) as (_ & _ & _ & F0 & _ & F4).
    destruct (gray_code_steps r1 ltac:(lia)) as (_ & _ & _ & F1 & _).
    destruct (gray_code_steps r2 ltac:(lia)) as (_ & _ & _ & F2 & _).
    destruct (gray_code_steps r3 ltac:(lia)) as (_ & _ & _ & F3 & _).
    rewrite <- E1 in F0. rewrite <- E2 in F1. rewrite <- E3 in F2.
    rewrite <- E4 in F3. rewrite <- E1, <- E2, <- E3, <- E4 in F4.
    rewrite F0 in L1. rewrite F1 in L2. rewrite F2 in L3. rewrite F3 in L4.
    assert (delta e1 = 0) by lia. assert (delta e2 = 0) by lia.
    assert (delta e3 = 0) by lia. assert (delta e4 = -1) by lia.
    split_all; try congruence; try lia.
  - intros N1 E2 E3 E4.
    pose proof (quarter_step_back (last_ab k) r1 B0 ltac:(lia)) as X.
    rewrite E2 in *. rewrite E3 in *. rewrite E4 in *.
    assert (delta e1 = 0) by lia. assert (delta e2 = 0) by lia.
    assert (delta e3 = 0) by lia. assert (delta e4 = 0) by lia.
    split_all; try congruence; try lia.
Qed.

(** X20: the switch is debounced on the time of the last change that
    was taken over: a poll that reports a press or a release has read a
    level other than the stored one at least the debounce time (in the
    arithmetic of [uint32_t]) after that change, and stores the new level
    and the time; a press sets the latch; a release clears it and is a
    click exactly when the latch was set, that is when the press had been
    seen by a poll; any other poll reports nothing and leaves level, time
    and latch alone. *)
Theorem knob_switch_is_debounced :
  forall (k : knob_t) (e0 : knob_event_t) (w : World) (k' : knob_t)
         (e' : knob_event_t) (w' : World),
    knob_ok k ->
    poll (Some k) (Some e0) w = Some (ESP_OK, Some k', Some e', w') ->
    let w1 := snd (read_ab k w) in
    let raw_sw := fst (read_sw k w1) in
    let now := fst (now_ms (snd (read_sw k w1))) in
    let accepted :=
      negb (raw_sw =? last_sw_level k)
      && (button_debounce_ms (cfg k) <=? u32 (now - last_sw_change_ms k)) in
    (accepted = true ->
     last_sw_level k' = raw_sw /\ last_sw_change_ms k' = now /\
     button_down k' = negb (button_down k) /\
     pressed_latched k' = button_down k' /\
     pressed e' = button_down k' /\ released e' = button_down k /\
     clicked e' = (button_down k && pressed_latched k)) /\
    (accepted = false ->
     last_sw_level k' = last_sw_level k /\
     last_sw_change_ms k' = last_sw_change_ms k /\
     pressed_latched k' = pressed_latched k /\
     pressed e' = false /\ released e' = false /\ clicked e' = false).
Proof.
  intros k e0 w k' e' w' K H.
  destruct (knob_poll_inv k e0 w k' e' w' K H)
    as (_ & _ & _ & _ & _ & _ & _ & _ & _ & Cases).
  cbv zeta in *.
  set (raw_sw := fst (read_sw k (snd (read_ab k w)))) in *.
  set (now := fst (now_ms (snd (read_sw k (snd (read_ab k w)))))) in *.
  pose proof K as (_ & _ & _ & V & _).
  destruct Cases as [(A1 & A2 & A3 & A4 & A5 & A6 & C)
                    |(A1 & A2 & A3 & A4 & A5 & A6 & A7 & A8 & A9)].
  - assert (X : negb (raw_sw =? last_sw_level k)
                && (button_debounce_ms (cfg k)
                    <=? u32 (now - last_sw_change_ms k)) = false).
    { destruct C as [C|C].
      - rewrite C, Z.eqb_refl. reflexivity.
      - apply andb_false_iff. right. apply Z.leb_gt. exact C. }
    rewrite X. split; [discriminate|]. intros _. split_all; assumption.
  - assert (X : negb (raw_sw =? last_sw_level k)
                && (button_debounce_ms (cfg k)
                    <=? u32 (now - last_sw_change_ms k)) = true).
    { apply andb_true_iff. split.
      - apply negb_true_iff, Z.eqb_neq. lia.
      - apply Z.leb_le. exact A2. }
    rewrite X. split; [|discriminate]. intros _.
    rewrite A7, A8, A9, A5.
    split_all; try assumption; try reflexivity.
    + rewrite A6. exact A5.
    + apply negb_involutive.
    + destruct (button_down k); reflexivity.
Qed.

End KnobFacts.

(** The scripted encoder through one detent, the switch going down at the
    last poll. *)
Lemma sim_detent_run :
  KnobSim.knob_polls KnobSim.knob0
    (KnobSim.world_at [1; 0; 1; 1; 1; 1; 0; 1; 1; 0; 0; 0] 100)
    [(2, KnobSim.turned 0 0); (3, KnobSim.turned 0 0);
     (1, KnobSim.turned 0 0);
     (0, {| Knob.delta := 1; Knob.pressed := true; Knob.released := false;
            Knob.clicked := false; Knob.event_position := 1 |})]
    (KnobSim.knob_at 1 0 0 0 1150 true) (KnobSim.world_at [] 120).
Proof.
  apply (knob_polls_step KnobSim.world KnobSim.gpio_get_level
           KnobSim.xTaskGetTickCount KnobSim.portTICK_PERIOD_MS
           _ _ Knob.event_zero (KnobSim.knob_at 0 1 2 1 1000 false) _
           (KnobSim.world_at [1; 1; 1; 0; 1; 1; 0; 0; 0] 105));
    [vm_compute; reflexivity|reflexivity|].
  apply (knob_polls_step KnobSim.world KnobSim.gpio_get_level
           KnobSim.xTaskGetTickCount KnobSim.portTICK_PERIOD_MS
           _ _ Knob.event_zero (KnobSim.knob_at 0 2 3 1 1000 false) _
           (KnobSim.world_at [0; 1; 1; 0; 0; 0] 110));
    [vm_compute; reflexivity|reflexivity|].
  apply (knob_polls_step KnobSim.world KnobSim.gpio_get_level
           KnobSim.xTaskGetTickCount KnobSim.portTICK_PERIOD_MS
           _ _ Knob.event_zero (KnobSim.knob_at 0 3 1 1 1000 false) _
           (KnobSim.world_at [0; 0; 0] 115));
    [vm_compute; reflexivity|reflexivity|].
  apply (knob_polls_step KnobSim.world KnobSim.gpio_get_level
           KnobSim.xTaskGetTickCount KnobSim.portTICK_PERIOD_MS
           _ _ Knob.event_zero (KnobSim.knob_at 1 0 0 0 1150 true) _
           (KnobSim.world_at [] 120));
    [vm_compute; reflexivity|reflexivity|].
  apply Knob.knob_polls_done.
Qed.

Lemma sim_knob0_ok : Knob.knob_ok KnobSim.knob0.
Proof.
  unfold Knob.knob_ok. cbn.
  repeat (split; try reflexivity; try discriminate; try lia).
Qed.

Lemma knob_poll_keeps_order_witness :
  exists k' e' w',
    KnobSim.knob_poll (Some KnobSim.knob0) (Some (KnobSim.turned 7 7))
      (KnobSim.world_at [1; 0; 1] 100)
    = Some (ESP_OK, Some k', Some e', w') /\
    KnobSim.knob_poll (Some KnobSim.knob0) (Some Knob.event_zero)
      (KnobSim.world_at [1; 0; 1] 100)
    = Some (ESP_OK, Some k', Some e', w') /\
    Knob.knob_ok k' /\
    Knob.pins k' = Knob.pins KnobSim.knob0 /\
    Knob.cfg k' = Knob.cfg KnobSim.knob0 /\
    -1 <= Knob.delta e' <= 1 /\
    Knob.position k' = Knob.position KnobSim.knob0 + Knob.delta e' /\
    Knob.event_position e' = Knob.position k' /\
    Knob.pressed e' && Knob.released e' = false /\
    (Knob.clicked e' = true -> Knob.released e' = true).
Proof.
  apply (knob_poll_keeps_order KnobSim.world KnobSim.gpio_get_level
           KnobSim.xTaskGetTickCount KnobSim.portTICK_PERIOD_MS
           KnobSim.knob0 (KnobSim.turned 7 7)
           (KnobSim.world_at [1; 0; 1] 100) sim_knob0_ok).
  vm_compute. split; reflexivity.
Defined.

Lemma knob_polls_count_quarter_steps_witness :
  Knob.knob_ok (KnobSim.knob_at 1 0 0 0 1150 true) /\
  4 * 1 + 0 = 4 * 0 + 0 + Knob.quarter_steps 0 [2; 3; 1; 0] /\
  1 = 0 + (0 + (0 + (0 + (1 + 0)))) /\
  0 = last [2; 3; 1; 0] 0.
Proof.
  exact (knob_polls_count_quarter_steps KnobSim.world KnobSim.gpio_get_level
           KnobSim.xTaskGetTickCount KnobSim.portTICK_PERIOD_MS _ _ _ _ _
           sim_detent_run sim_knob0_ok).
Defined.

Lemma four_quarters_make_a_detent_witness :
  map Knob.delta
    [KnobSim.turned 0 0; KnobSim.turned 0 0; KnobSim.turned 0 0;
     {| Knob.delta := 1; Knob.pressed := true; Knob.released := false;
        Knob.clicked := false; Knob.event_position := 1 |}]
  = [0; 0; 0; 1] /\
  Knob.position (KnobSim.knob_at 1 0 0 0 1150 true)
  = Knob.position KnobSim.knob0 + 1 /\
  Knob.step_acc (KnobSim.knob_at 1 0 0 0 1150 true) = 0 /\
  Knob.last_ab (KnobSim.knob_at 1 0 0 0 1150 true)
  = Knob.last_ab KnobSim.knob0.
Proof.
  apply (proj1 (four_quarters_make_a_detent KnobSim.world
                  KnobSim.gpio_get_level KnobSim.xTaskGetTickCount
                  KnobSim.portTICK_PERIOD_MS _ _ _ _ _ _ _ _ _ _ _ _
                  sim_knob0_ok eq_refl sim_detent_run));
    reflexivity.
Defined.

Lemma knob_switch_is_debounced_witness :
  Knob.last_sw_level (KnobSim.knob_at 1 0 0 0 1150 true) = 0 /\
  Knob.last_sw_change_ms (KnobSim.knob_at 1 0 0 0 1150 true) = 1150 /\
  Knob.button_down (KnobSim.knob_at 1 0 0 0 1150 true) = true /\
  Knob.pressed_latched (KnobSim.knob_at 1 0 0 0 1150 true) = true.
Proof.
  pose proof (proj1 (knob_switch_is_debounced KnobSim.world
                       KnobSim.gpio_get_level KnobSim.xTaskGetTickCount
                       KnobSim.portTICK_PERIOD_MS
                       (KnobSim.knob_at 0 3 1 1 1000 false) Knob.event_zero
                       (KnobSim.world_at [0; 0; 0] 115)
                       (KnobSim.knob_at 1 0 0 0 1150 true)
                       {| Knob.delta := 1; Knob.pressed := true;
                          Knob.released := false; Knob.clicked := false;
                          Knob.event_position := 1 |}
                       (KnobSim.world_at [] 120)
                       ltac:(unfold Knob.knob_ok; cbn;
                             repeat (split; try reflexivity;
                                     try discriminate; try lia))
                       ltac:(vm_compute; reflexivity))
                    eq_refl) as (A & B & C & D & _).
  split; [exact A|]. split; [exact B|]. split; [reflexivity|exact D].
Defined.

(** * The knob and the LED *)

Section AppFacts.

Import Knob.
Import App.

Variable World : Type.
Variable gpio_get_level : Z -> World -> Z * World.
Variable xTaskGetTickCount : World -> Z * World.
Variable portTICK_PERIOD_MS : Z.
Variable pdMS_TO_TICKS : Z -> Z.
Variable rmt_transmit :
  Z -> Z -> list Z -> nat -> rmt_transmit_config_t -> World
  -> esp_err_t * World.
Variable UART_PRINT_INFO : list Z -> World -> World.

Local Notation "'poll'" :=
  (knob_poll World gpio_get_level xTaskGetTickCount portTICK_PERIOD_MS).
Local Notation "'process'" :=
  (knob_process World gpio_get_level xTaskGetTickCount portTICK_PERIOD_MS
     pdMS_TO_TICKS rmt_transmit UART_PRINT_INFO).

Lemma knob_poll_defined k e0 w :
  knob_ok k -> INT32_MIN < position k < INT32_MAX ->
  exists k' e' w',
    poll (Some k) (Some e0) w = Some (ESP_OK, Some k', Some e', w').
Proof.
  intros K R. pose proof K as (I & _).
  rewrite knob_poll_eq, I. cbn [negb].
  pose proof (read_ab_range World gpio_get_level k w) as RA.
  destruct (knob_read_ab World gpio_get_level k w) as [ab w1].
  cbn [fst] in RA.
  destruct (knob_turn_defined k ab K RA R) as (k1 & e1 & ->).
  destruct (knob_read_sw World gpio_get_level k1 w1) as [raw_sw w2].
  destruct (knob_now_ms World xTaskGetTickCount portTICK_PERIOD_MS w2)
    as [now w3].
  destruct (knob_switch k1 e1 raw_sw now) as [k2 e2].
  eexists _, _, _. reflexivity.
Qed.

Lemma store_length a i v : length (store a i v) = length a.
Proof.
  revert i. induction a as [|x a IH]; intros [|i]; cbn; congruence.
Qed.

Lemma nth_store a i v j :
  (i < length a)%nat ->
  nth j (store a i v) 0 = if Nat.eqb j i then v else nth j a 0.
Proof.
  revert i j. induction a as [|x a IH]; intros [|i] [|j] L; cbn in *;
    try lia; try reflexivity.
  apply IH. lia.
Qed.

Lemma clamp_byte_range v : 0 <= clamp_byte v < 256.
Proof.
  unfold clamp_byte.
  destruct (Z.ltb_spec v 0); [lia|]. destruct (Z.gtb_spec v 255); lia.
Qed.

Lemma knob_ok_with_position k v : knob_ok k -> knob_ok (with_position k v).
Proof. intros K. exact K. Qed.

Lemma set_position_ok k v :
  knob_ok k ->
  snd (knob_set_position (Some k) v) = Some (with_position k v).
Proof.
  intros (I & _). unfold knob_set_position. rewrite I. reflexivity.
Qed.

Lemma knob_set_position_with k v w :
  snd (knob_set_position (snd (knob_set_position (Some k) v)) w)
  = if initialized k then Some (with_position k w) else Some k.
Proof.
  unfold knob_set_position. destruct (initialized k) eqn:I; cbn [negb snd].
  - cbn [initialized with_position]. rewrite I. reflexivity.
  - rewrite I. reflexivity.
Qed.

Lemma store_same a i : store a i (nth i a 0) = a.
Proof.
  revert i. induction a as [|x a IH]; intros [|i]; cbn; try reflexivity.
  rewrite IH. reflexivity.
Qed.

Lemma clamp_byte_id v : 0 <= v < 256 -> clamp_byte v = v.
Proof.
  intros H. unfold clamp_byte.
  destruct (Z.ltb_spec v 0); [lia|]. destruct (Z.gtb_spec v 255); lia.
Qed.

Lemma rgb_ok_store c v :
  rgb_ok c -> 0 <= v < 256 ->
  rgb_ok (with_rgb c (store (rgb c) (Z.to_nat (selected_channel c)) v)).
Proof.
  intros (L & B & S) V. unfold rgb_ok. cbn [rgb selected_channel with_rgb].
  rewrite store_length. split; [exact L|]. split; [|exact S].
  intros i. rewrite nth_store by lia.
  destruct (Nat.eqb i _); [exact V|apply B].
Qed.

Lemma rgb_ok_select c m :
  rgb_ok c -> 0 <= m < 3 -> rgb_ok (with_selected_channel c m).
Proof. intros (L & B & S) M. split; [exact L|]. split; [exact B|exact M]. Qed.

Lemma rgb_ok_tick c t : rgb_ok c -> rgb_ok (with_last_log_tick c t).
Proof. intros C. exact C. Qed.

Lemma selected_in_bounds c :
  rgb_ok c ->
  nth_error (rgb c) (Z.to_nat (selected_channel c))
  = Some (nth (Z.to_nat (selected_channel c)) (rgb c) 0).
Proof.
  intros (L & _ & S). apply nth_error_nth'. lia.
Qed.

(** X21: one round of knob_process on a knob and an LED state in order
    (three bytes, selected channel below 3) is defined and leaves both in
    order: the array is read and written inside its bounds, only the
    selected channel changes, by five per step of the knob, held within
    0 .. 255 and only while there is an RMT channel; a click moves the
    selection on by one modulo 3; and after a change or a click the
    position of the knob is the value of the selected channel. *)
Theorem knob_process_keeps_led_in_order :
  forall (k : knob_t) (c : rgb_ctrl_t) (w : World),
    knob_ok k ->
    INT32_MIN < position k < INT32_MAX ->
    rgb_ok c ->
    exists k1 e w1 k' c' w',
      poll (Some k) (Some event_zero) w
      = Some (ESP_OK, Some k1, Some e, w1) /\
      process (Some k) (Some c) w = Some (Some k', Some c', w') /\
      knob_ok k' /\ rgb_ok c' /\
      channel c' = channel c /\ encoder c' = encoder c /\
      let sel := Z.to_nat (selected_channel c) in
      let old := nth sel (rgb c) 0 in
      let v := match channel c with
               | Some _ => clamp_byte (old + delta e * 5)
               | None => old
               end in
      rgb c' = store (rgb c) sel v /\
      selected_channel c'
      = (if clicked e then (selected_channel c + 1) mod 3
         else selected_channel c) /\
      position k'
      = (if clicked e then nth (Z.to_nat (selected_channel c')) (rgb c') 0
         else if v =? old then position k1 else v).
Proof.
  intros k c w K R C.
  destruct (knob_poll_defined k event_zero w K R) as (k1 & e & w1 & P).
  destruct (knob_poll_inv World gpio_get_level xTaskGetTickCount
              portTICK_PERIOD_MS k event_zero w k1 e w1 K P)
    as (K1 & _ & _ & De & _).
  exists k1, e, w1. unfold knob_process. rewrite P.
  change (negb (ESP_OK =? ESP_OK)) with false. cbv iota beta.
  rewrite (selected_in_bounds c C).
  set (sel := Z.to_nat (selected_channel c)).
  set (old := nth sel (rgb c) 0).
  pose proof C as (CL & CB & CS).
  assert (OB : 0 <= old < 256) by apply CB.
  set (value := if old + delta e * KNOB_DELTA_POS_STEP <? 0 then 0
                else if old + delta e * KNOB_DELTA_POS_STEP >? 255 then 255
                else old + delta e * KNOB_DELTA_POS_STEP).
  assert (VE : value = clamp_byte (old + delta e * 5)) by reflexivity.
  pose proof (clamp_byte_range (old + delta e * 5)) as VR.
  assert (U8 : u8 value = value)
    by (unfold u8; apply Z.mod_small; change (2 ^ 8) with 256; lia).
  rewrite U8.
  assert (SEL : forall c0 : rgb_ctrl_t,
             rgb_ok c0 ->
             u8 ((selected_channel c0 + 1) mod 3)
             = (selected_channel c0 + 1) mod 3).
  { intros c0 _. unfold u8. apply Z.mod_small.
    pose proof (Z.mod_pos_bound (selected_channel c0 + 1) 3 ltac:(lia)).
    change (2 ^ 8) with 256. lia. }
  unfold KNOB_DELTA_POS_STEP in *. fold value.
  destruct (channel c) as [ch|] eqn:CH;
    [destruct (Z.eqb_spec (delta e) 0) as [D0|D0]; cbn [negb andb];
     [|destruct (Z.eqb_spec value old) as [VO|VO]; cbn [negb];
       [|rewrite (set_position_ok k1 value K1);
         destruct (rgb_ctrl_apply World rmt_transmit _ w1) as [r w2];
         destruct (xTaskGetTickCount w2) as [now_tick w3];
         destruct (_ >=? pdMS_TO_TICKS RGB_LOG_THROTTLE_MS)]]
    |rewrite andb_false_r];
    destruct (clicked e) eqn:CK;
    cbn [with_last_log_tick with_selected_channel with_rgb rgb
         selected_channel channel encoder last_log_tick];
    rewrite ?set_position_ok by exact K1;
    eexists _, _, _; (split; [reflexivity|]); (split; [reflexivity|]);
    cbn [with_last_log_tick with_selected_channel with_rgb rgb
         selected_channel channel encoder last_log_tick position
         with_position].
  all: try rewrite SEL by assumption.
  all: try rewrite CH.
  all: fold sel; fold old.
  all: rewrite ?D0, ?Z.mul_0_l, ?Z.add_0_r, ?(clamp_byte_id old OB).
  all: rewrite <- ?VE, ?VO, ?Z.eqb_refl.
  all: try (destruct (Z.eqb_spec value old) as [VX|VX]; [contradiction|]).
  all: repeat match goal with |- _ /\ _ => split end;
    try reflexivity; try exact K1;
    try (symmetry; apply store_same);
    repeat first
      [ exact C
      | apply rgb_ok_tick
      | apply rgb_ok_select; [|apply Z.mod_pos_bound; lia]
      | apply rgb_ok_store; [|lia] ].
Qed.

End AppFacts.

Lemma sim_led0_ok : App.rgb_ok App.led0.
Proof.
  split; [reflexivity|]. split; [|cbn; lia].
  intros [|[|[|[|i]]]]; cbn; lia.
Qed.

Lemma knob_process_keeps_led_in_order_witness :
  exists k1 e w1 k' c' w',
    KnobSim.knob_poll (Some (KnobSim.knob_at 0 3 1 1 1000 false))
      (Some Knob.event_zero) (KnobSim.world_at [0; 0; 0] 115)
    = Some (ESP_OK, Some k1, Some e, w1) /\
    App.knob_process KnobSim.world KnobSim.gpio_get_level
      KnobSim.xTaskGetTickCount KnobSim.portTICK_PERIOD_MS
      (fun ms => ms / 10) (fun _ _ _ _ _ w => (ESP_OK, w)) (fun _ w => w)
      (Some (KnobSim.knob_at 0 3 1 1 1000 false)) (Some App.led0)
      (KnobSim.world_at [0; 0; 0] 115)
    = Some (Some k', Some c', w') /\
    Knob.knob_ok k' /\ App.rgb_ok c' /\
    App.channel c' = App.channel App.led0 /\
    App.encoder c' = App.encoder App.led0 /\
    let sel := Z.to_nat (App.selected_channel App.led0) in
    let old := nth sel (App.rgb App.led0) 0 in
    let v := match App.channel App.led0 with
             | Some _ => App.clamp_byte (old + Knob.delta e * 5)
             | None => old
             end in
    App.rgb c' = App.store (App.rgb App.led0) sel v /\
    App.selected_channel c'
    = (if Knob.clicked e then (App.selected_channel App.led0 + 1) mod 3
       else App.selected_channel App.led0) /\
    Knob.position k'
    = (if Knob.clicked e
       then nth (Z.to_nat (App.selected_channel c')) (App.rgb c') 0
       else if v =? old then Knob.position k1 else v).
Proof.
  apply (knob_process_keeps_led_in_order KnobSim.world KnobSim.gpio_get_level
           KnobSim.xTaskGetTickCount KnobSim.portTICK_PERIOD_MS
           (fun ms => ms / 10) (fun _ _ _ _ _ w => (ESP_OK, w))
           (fun _ w => w)
           (KnobSim.knob_at 0 3 1 1 1000 false) App.led0
           (KnobSim.world_at [0; 0; 0] 115)).
  - unfold Knob.knob_ok. cbn.
    repeat (split; try reflexivity; try discriminate; try lia).
  - vm_compute. split; reflexivity.
  - exact sim_led0_ok.
Defined.

(** * Bitmaps *)

Section ImageFacts.

Import Image.

Lemma poke_spec {A : Type} (buf : list A) (i : nat) (v : A) :
  (i < length buf)%nat ->
  exists buf',
    poke buf i v = Some buf' /\ length buf' = length buf /\
    forall j, nth_error buf' j = if Nat.eqb j i then Some v else nth_error buf j.
Proof.
  revert i. induction buf as [|x buf IH]; intros [|i] L; cbn in L; try lia.
  - eexists. split; [reflexivity|]. split; [reflexivity|].
    intros [|j]; reflexivity.
  - destruct (IH i ltac:(lia)) as (buf' & E & Len & N).
    exists (x :: buf'). cbn [poke]. rewrite E.
    split; [reflexivity|]. split; [cbn; congruence|].
    intros [|j]; [reflexivity|]. cbn [nth_error Nat.eqb]. apply N.
Qed.

Lemma size_t_small x : 0 <= x < 2 ^ 32 -> size_t x = x.
Proof. intros H. unfold size_t. apply Z.mod_small. exact H. Qed.

Lemma bar_in_table (c : display_image_t) (x : nat) :
  0 < width c -> Z.of_nat x < width c ->
  let bar := Z.quot (Z.of_nat x * 8) (width c) in
  (if bar <? 0 then 0 else if bar >? 7 then 7 else bar)
  = Z.of_nat x * 8 / width c /\
  0 <= Z.of_nat x * 8 / width c <= 7.
Proof.
  intros W X bar. subst bar.
  rewrite Z.quot_div_nonneg by lia.
  assert (0 <= Z.of_nat x * 8 / width c) by (apply Z.div_pos; lia).
  assert (Z.of_nat x * 8 / width c < 8)
    by (apply Z.div_lt_upper_bound; lia).
  destruct (Z.ltb_spec (Z.of_nat x * 8 / width c) 0); [lia|].
  destruct (Z.gtb_spec (Z.of_nat x * 8 / width c) 7); lia.
Qed.

Section Loops.

Variable c : display_image_t.
Hypothesis width_pos : 0 < width c.
Hypothesis width_u16 : width c < 2 ^ 16.

Local Notation "'W'" := (Z.to_nat (width c)).

Lemma pattern_columns_spec :
  forall (n x0 r : nat) (buf : list (option Z)),
    (x0 + n <= W)%nat ->
    (r * W + x0 + n <= length buf)%nat ->
    Z.of_nat (r * W + x0 + n) <= 2 ^ 32 ->
    exists buf',
      pattern_columns n c (Z.of_nat x0) (Z.of_nat r) buf = Some buf' /\
      length buf' = length buf /\
      forall j,
        nth_error buf' j
        = if (r * W + x0 <=? j)%nat && (j <? r * W + x0 + n)%nat
          then Some (bar_color c (j - r * W))
          else nth_error buf j.
Proof.
  induction n as [|n IH]; intros x0 r buf X L Sz.
  - exists buf. split; [reflexivity|]. split; [reflexivity|].
    intros j. destruct (Nat.leb_spec (r * W + x0) j);
      destruct (Nat.ltb_spec j (r * W + x0 + 0)); cbn [andb]; try reflexivity.
    lia.
  - cbn [pattern_columns].
    destruct (bar_in_table c x0 width_pos ltac:(lia)) as [-> B].
    assert (I : Z.to_nat (size_t (size_t (Z.of_nat r) * size_t (width c)
                                  + size_t (Z.of_nat x0)))
                = (r * W + x0)%nat).
    { assert (Z.of_nat r * width c + Z.of_nat x0
              = Z.of_nat (r * W + x0)) by lia.
      assert (0 <= Z.of_nat r * width c) by lia.
      rewrite (size_t_small (Z.of_nat r)) by lia.
      rewrite (size_t_small (width c))
        by (split; [lia|]; apply Z.lt_trans with (2 ^ 16); [lia|reflexivity]).
      rewrite (size_t_small (Z.of_nat x0)) by lia.
      rewrite size_t_small by lia. lia. }
    rewrite I.
    destruct (poke_spec buf (r * W + x0)
                (Some (nth (Z.to_nat (Z.of_nat x0 * 8 / width c))
                         s_color_bars 0)) ltac:(lia))
      as (buf1 & -> & L1 & N1).
    replace (Z.of_nat x0 + 1) with (Z.of_nat (S x0)) by lia.
    destruct (IH (S x0) r buf1 ltac:(lia) ltac:(lia) ltac:(lia))
      as (buf2 & -> & L2 & N2).
    exists buf2. split; [reflexivity|]. split; [congruence|].
    intros j. rewrite N2, N1.
    destruct (Nat.leb_spec (r * W + S x0) j);
      destruct (Nat.ltb_spec j (r * W + S x0 + n));
      destruct (Nat.leb_spec (r * W + x0) j);
      destruct (Nat.ltb_spec j (r * W + x0 + S n));
      destruct (Nat.eqb_spec j (r * W + x0)); cbn [andb];
      try lia; try reflexivity.
    subst j. unfold bar_color. repeat f_equal. lia.
Qed.

Lemma pattern_rows_spec :
  forall (n r0 : nat) (buf : list (option Z)),
    ((r0 + n) * W <= length buf)%nat ->
    Z.of_nat ((r0 + n) * W) <= 2 ^ 32 ->
    exists buf',
      pattern_rows n c (Z.of_nat r0) buf = Some buf' /\
      length buf' = length buf /\
      forall j,
        nth_error buf' j
        = if (r0 * W <=? j)%nat && (j <? (r0 + n) * W)%nat
          then Some (bar_color c (j mod W))
          else nth_error buf j.
Proof.
  induction n as [|n IH]; intros r0 buf L Sz.
  - exists buf. split; [reflexivity|]. split; [reflexivity|].
    intros j. destruct (Nat.leb_spec (r0 * W) j);
      destruct (Nat.ltb_spec j ((r0 + 0) * W)); cbn [andb]; try reflexivity.
    lia.
  - cbn [pattern_rows].
    destruct (pattern_columns_spec W 0 r0 buf ltac:(lia) ltac:(nia) ltac:(nia))
      as (buf1 & E1 & L1 & N1).
    change 0 with (Z.of_nat 0). rewrite E1.
    replace (Z.of_nat r0 + 1) with (Z.of_nat (S r0)) by lia.
    destruct (IH (S r0) buf1 ltac:(nia) ltac:(nia)) as (buf2 & -> & L2 & N2).
    exists buf2. split; [reflexivity|]. split; [congruence|].
    intros j. rewrite N2, N1.
    destruct (Nat.leb_spec (S r0 * W) j);
      destruct (Nat.ltb_spec j ((S r0 + n) * W));
      destruct (Nat.leb_spec (r0 * W + 0) j);
      destruct (Nat.ltb_spec j (r0 * W + 0 + W));
      destruct (Nat.leb_spec (r0 * W) j);
      destruct (Nat.ltb_spec j ((r0 + S n) * W)); cbn [andb];
      try nia; try reflexivity.
    f_equal. f_equal.
    assert (WP : (0 < W)%nat) by lia.
    apply (Nat.mod_unique j W r0 (j - r0 * W)); lia.
Qed.

Lemma pattern_rows_block :
  forall (rows : Z) (buf : list (option Z)),
    0 <= rows ->
    rows * width c <= Z.of_nat (length buf) ->
    rows * width c <= 2 ^ 32 ->
    exists buf',
      pattern_rows (Z.to_nat rows) c 0 buf = Some buf' /\
      length buf' = length buf /\ block_holds c rows buf'.
Proof.
  intros rows buf R L Sz.
  destruct (pattern_rows_spec (Z.to_nat rows) 0 buf ltac:(nia) ltac:(nia))
    as (buf' & E & Len & N).
  exists buf'. split; [exact E|]. split; [exact Len|].
  intros r x Hr Hx. rewrite N.
  destruct (Nat.leb_spec (0 * W) (r * W + x)); [|lia].
  destruct (Nat.ltb_spec (r * W + x) ((0 + Z.to_nat rows) * W)); [|nia].
  cbn [andb]. f_equal. f_equal.
  symmetry. apply (Nat.mod_unique (r * W + x) W r x); lia.
Qed.

Section Blocks.

Variable World : Type.
Variable esp_lcd_panel_draw_bitmap :
  Z -> Z -> Z -> Z -> Z -> list (option Z) -> World -> esp_err_t * World.
Variable heap_caps_malloc : Z -> World -> bool * World.
Variable free : World -> World.

Variable p : Z.
Variable block_rows : Z.
Hypothesis height_u16 : height c < 2 ^ 16.
Hypothesis block_rows_pos : 0 < block_rows.
Hypothesis block_rows_int : block_rows <= INT32_MAX.
Hypothesis block_fits : width c * block_rows <= 2 ^ 32.

Lemma pattern_blocks_trace :
  forall (fuel : nat) (y : Z) (buf : list (option Z))
         (t : World * list panel_event),
    0 <= y -> y = 0 \/ block_rows <= y ->
    (Z.to_nat (height c - y) < fuel)%nat ->
    width c * block_rows <= Z.of_nat (length buf) ->
    exists err t' rest,
      pattern_blocks (World * list panel_event)
        (traced_draw_bitmap World esp_lcd_panel_draw_bitmap)
        (traced_free World free) fuel c p block_rows y buf t
      = Some (err, t') /\
      snd t' = snd t ++ rest /\
      pattern_trace c p block_rows y rest err.
Proof.
  induction fuel as [|fuel IH]; intros y buf t Y0 YB F L; [lia|].
  cbn [pattern_blocks].
  destruct (Z.ltb_spec y (height c)) as [Hy|Hy].
  2: { eexists _, _, _. split; [reflexivity|]. split; [reflexivity|].
       apply pattern_done. exact Hy. }
  assert (CR : (if height c - y <? block_rows then height c - y
                else block_rows) = Z.min (height c - y) block_rows).
  { destruct (Z.ltb_spec (height c - y) block_rows); lia. }
  rewrite CR. set (rows := Z.min (height c - y) block_rows).
  destruct (pattern_rows_block rows buf ltac:(lia) ltac:(nia) ltac:(nia))
    as (buf' & -> & Len & B).
  unfold traced_draw_bitmap at 1.
  destruct (esp_lcd_panel_draw_bitmap p 0 y (width c) (y + rows) buf' (fst t))
    as [err w1].
  destruct (Z.eqb_spec err ESP_OK) as [E|E]; cbn [negb].
  - subst err.
    destruct (Z.gtb_spec (y + block_rows) INT32_MAX) as [O|O].
    { exfalso. unfold INT32_MAX in *.
      assert (2 ^ 16 < 2 ^ 31 - 1 - 2 ^ 16) by (vm_compute; reflexivity).
      lia. }
    destruct (IH (y + block_rows) buf'
                (w1, snd t ++ [Drew p 0 y (width c) (y + rows) buf' ESP_OK])
                ltac:(lia) ltac:(lia) ltac:(lia) ltac:(lia))
      as (err & t' & rest & -> & S & T).
    eexists _, _, _. split; [reflexivity|].
    cbn [snd] in S. rewrite S, <- app_assoc. split; [reflexivity|].
    apply pattern_more; assumption.
  - eexists _, _, _. split; [reflexivity|].
    unfold traced_free. cbn [fst snd]. rewrite <- app_assoc.
    split; [reflexivity|].
    apply pattern_refused; assumption.
Qed.

End Blocks.

End Loops.

Section Calls.

Variable World : Type.
Variable esp_lcd_panel_draw_bitmap :
  Z -> Z -> Z -> Z -> Z -> list (option Z) -> World -> esp_err_t * World.
Variable heap_caps_malloc : Z -> World -> bool * World.
Variable free : World -> World.

(** X22: display_image_draw_rect_rgb565 and
    display_image_draw_full_rgb565 reach the panel only with a window that
    lies inside it and with a count of pixels that covers the window, the
    products being those of the integers (they do not wrap in [size_t]);
    every other call returns ESP_ERR_INVALID_ARG with nothing drawn. The
    rectangle call has a meaning as long as [x + w] and, when that fits the
    panel, [y + h] stay within [int]. *)
Theorem image_draws_inside_the_panel :
  forall (c : display_image_t) (x y w h pixels : Z)
         (img : option (list (option Z))) (world : World),
    0 <= width c < 2 ^ 16 -> 0 <= height c < 2 ^ 16 ->
    (x + w <= INT32_MAX -> y + h <= INT32_MAX ->
     exists err world',
       display_image_draw_rect_rgb565 World esp_lcd_panel_draw_bitmap
         (Some c) x y w h img pixels world = Some (err, world') /\
       ((err = ESP_ERR_INVALID_ARG /\ world' = world) \/
        (exists p data,
           panel c = Some p /\ img = Some data /\
           0 <= x /\ 0 <= y /\ 0 < w /\ 0 < h /\
           x + w <= width c /\ y + h <= height c /\ w * h <= pixels /\
           esp_lcd_panel_draw_bitmap p x y (x + w) (y + h) data world
           = (err, world')))) /\
    (let '(err, world') :=
       display_image_draw_full_rgb565 World esp_lcd_panel_draw_bitmap
         (Some c) img pixels world in
     (err = ESP_ERR_INVALID_ARG /\ world' = world) \/
     (exists p data,
        panel c = Some p /\ img = Some data /\
        0 < width c /\ 0 < height c /\ width c * height c <= pixels /\
        esp_lcd_panel_draw_bitmap p 0 0 (width c) (height c) data world
        = (err, world'))).
Proof.
  intros c x y w h pixels img world Wd Ht.
  assert (P16 : 2 ^ 16 * 2 ^ 16 = 2 ^ 32) by reflexivity.
  assert (P : 2 ^ 16 < 2 ^ 32) by reflexivity.
  split.
  - intros OX OY. unfold display_image_draw_rect_rgb565.
    destruct img as [data|]; [|eauto 6].
    destruct (panel c) as [p|] eqn:Pn; [|eauto 6].
    unfold display_image_ctx_valid. rewrite Pn.
    destruct (Z.gtb_spec (width c) 0) as [W0|W0]; cbn [andb negb orb];
      [|eauto 6].
    destruct (Z.gtb_spec (height c) 0) as [H0|H0]; cbn [andb negb orb];
      [|eauto 6].
    destruct (Z.leb_spec w 0) as [W1|W1]; cbn [orb]; [eauto 6|].
    destruct (Z.leb_spec h 0) as [H1|H1]; cbn [orb]; [eauto 6|].
    destruct (Z.ltb_spec x 0) as [X0|X0]; cbn [orb]; [eauto 6|].
    destruct (Z.ltb_spec y 0) as [Y0|Y0]; cbn [orb]; [eauto 6|].
    destruct (Z.gtb_spec (x + w) INT32_MAX); [lia|].
    destruct (Z.gtb_spec (x + w) (width c)); [eauto 6|].
    destruct (Z.gtb_spec (y + h) INT32_MAX); [lia|].
    destruct (Z.gtb_spec (y + h) (height c)); [eauto 6|].
    rewrite (size_t_small w), (size_t_small h), (size_t_small (w * h))
      by nia.
    destruct (Z.ltb_spec pixels (w * h)); [eauto 6|].
    destruct (esp_lcd_panel_draw_bitmap p x y (x + w) (y + h) data world)
      as [err world'] eqn:D.
    exists err, world'. split; [reflexivity|]. right.
    exists p, data. repeat (split; [assumption || reflexivity|]). exact D.
  - unfold display_image_draw_full_rgb565.
    destruct img as [data|]; [|auto].
    destruct (panel c) as [p|] eqn:Pn; [|auto].
    unfold display_image_ctx_valid. rewrite Pn.
    destruct (Z.gtb_spec (width c) 0) as [W0|W0]; cbn [andb negb]; [|auto].
    destruct (Z.gtb_spec (height c) 0) as [H0|H0]; cbn [andb negb]; [|auto].
    rewrite (size_t_small (width c)), (size_t_small (height c)),
      (size_t_small (width c * height c)) by nia.
    destruct (Z.ltb_spec pixels (width c * height c)); [auto|].
    destruct (esp_lcd_panel_draw_bitmap p 0 0 (width c) (height c) data world)
      as [err world'] eqn:D.
    right. exists p, data. repeat (split; [assumption || reflexivity|]).
    exact D.
Qed.

(** X23: display_image_draw_test_pattern_streaming, for a block that is
    smaller than [2^31] pixels, stays inside the buffer it allocates and
    sends the panel only pixels that it has written: the windows cover the
    rows from 0 on, block after block, the last one as high as what is left
    of the panel; each block holds the eight colour bars, column [x]
    having the colour [x * 8 / width] of the table, an index that is always
    within it; the first window that the panel refuses ends the call with
    the panel's code; the buffer is released once, at the end, on both
    ways out; and nothing is drawn when the allocation fails. *)
Theorem test_pattern_stays_in_its_buffer :
  forall (c : display_image_t) (p block_rows : Z) (w : World),
    panel c = Some p ->
    0 < width c < 2 ^ 16 -> 0 < height c < 2 ^ 16 ->
    0 < block_rows <= INT32_MAX ->
    width c * block_rows < 2 ^ 31 ->
    let run :=
      display_image_draw_test_pattern_streaming (World * list panel_event)
        (traced_draw_bitmap World esp_lcd_panel_draw_bitmap)
        (traced_malloc World heap_caps_malloc) (traced_free World free)
        (Some c) block_rows (w, []) in
    let '(block, w1) := heap_caps_malloc (width c * block_rows * 2) w in
    if block then
      exists err t',
        run = Some (err, t') /\ pattern_trace c p block_rows 0 (snd t') err
    else run = Some (ESP_ERR_NO_MEM, (w1, [])).
Proof.
  intros c p block_rows w Pn Wd Ht Br Fit run. subst run.
  unfold display_image_draw_test_pattern_streaming, display_image_ctx_valid.
  rewrite Pn.
  destruct (Z.gtb_spec (width c) 0); [|lia].
  destruct (Z.gtb_spec (height c) 0); [|lia].
  destruct (Z.leb_spec block_rows 0); [lia|]. cbn [andb negb orb].
  assert (P : 2 ^ 31 < 2 ^ 32) by reflexivity.
  assert (P2 : 2 ^ 31 * 2 = 2 ^ 32) by reflexivity.
  assert (P16 : 2 ^ 16 < 2 ^ 32) by reflexivity.
  unfold INT32_MAX in Br.
  rewrite (size_t_small block_rows), (size_t_small (width c)) by lia.
  rewrite (size_t_small (width c * block_rows)) by nia.
  rewrite (size_t_small (width c * block_rows * 2)) by nia.
  unfold traced_malloc. cbn [fst snd].
  destruct (heap_caps_malloc (width c * block_rows * 2) w) as [block w1].
  destruct block; cbn [negb]; [|reflexivity].
  destruct (pattern_blocks_trace c ltac:(lia) ltac:(lia) World
              esp_lcd_panel_draw_bitmap free p block_rows ltac:(lia)
              ltac:(lia) ltac:(unfold INT32_MAX; lia) ltac:(lia)
              (S (Z.to_nat (height c))) 0
              (repeat None (Z.to_nat (width c * block_rows * 2 / 2)))
              (w1, []) ltac:(lia) ltac:(lia) ltac:(lia)
              ltac:(rewrite repeat_length, Z.div_mul by lia; nia))
    as (err & t' & rest & E & S' & T).
  exists err, t'. split; [exact E|]. rewrite S'. exact T.
Qed.

End Calls.

(** Without the bound on the block the buffer is too small: 320 columns
    times 13421773 rows is 64 modulo [2^32], and the first row already
    leaves a buffer of 64 pixels. *)
Example test_pattern_leaves_a_wrapped_buffer :
  display_image_draw_test_pattern_streaming PanelSim.world
    PanelSim.draw_bitmap PanelSim.malloc PanelSim.free
    (Some PanelSim.image1) 13421773
    {| PanelSim.results := []; PanelSim.heap := true |}
  = None.
Proof. vm_compute. reflexivity. Qed.

Lemma image_draws_inside_the_panel_witness :
  (2 + 3 <= INT32_MAX -> 1 + 4 <= INT32_MAX ->
   exists err world',
     display_image_draw_rect_rgb565 PanelSim.world PanelSim.draw_bitmap
       (Some PanelSim.image0) 2 1 3 4 (Some (repeat (Some 0) 12)) 12
       {| PanelSim.results := []; PanelSim.heap := true |}
     = Some (err, world') /\
     ((err = ESP_ERR_INVALID_ARG /\
       world' = {| PanelSim.results := []; PanelSim.heap := true |}) \/
      (exists p data,
         panel PanelSim.image0 = Some p /\
         Some (repeat (Some 0) 12) = Some data /\
         0 <= 2 /\ 0 <= 1 /\ 0 < 3 /\ 0 < 4 /\
         2 + 3 <= width PanelSim.image0 /\
         1 + 4 <= height PanelSim.image0 /\ 3 * 4 <= 12 /\
         PanelSim.draw_bitmap p 2 1 (2 + 3) (1 + 4) data
           {| PanelSim.results := []; PanelSim.heap := true |}
         = (err, world')))) /\
  (let '(err, world') :=
     display_image_draw_full_rgb565 PanelSim.world PanelSim.draw_bitmap
       (Some PanelSim.image0) (Some (repeat (Some 0) 12)) 12
       {| PanelSim.results := []; PanelSim.heap := true |} in
   (err = ESP_ERR_INVALID_ARG /\
    world' = {| PanelSim.results := []; PanelSim.heap := true |}) \/
   (exists p data,
      panel PanelSim.image0 = Some p /\
      Some (repeat (Some 0) 12) = Some data /\
      0 < width PanelSim.image0 /\ 0 < height PanelSim.image0 /\
      width PanelSim.image0 * height PanelSim.image0 <= 12 /\
      PanelSim.draw_bitmap p 0 0 (width PanelSim.image0)
        (height PanelSim.image0) data
        {| PanelSim.results := []; PanelSim.heap := true |}
      = (err, world'))).
Proof.
  apply (image_draws_inside_the_panel PanelSim.world PanelSim.draw_bitmap
           PanelSim.image0 2 1 3 4 12 (Some (repeat (Some 0) 12))
           {| PanelSim.results := []; PanelSim.heap := true |});
    cbn; lia.
Defined.

Lemma test_pattern_stays_in_its_buffer_witness :
  exists err t',
    display_image_draw_test_pattern_streaming
      (PanelSim.world * list panel_event)
      (traced_draw_bitmap PanelSim.world PanelSim.draw_bitmap)
      (traced_malloc PanelSim.world PanelSim.malloc)
      (traced_free PanelSim.world PanelSim.free)
      (Some PanelSim.image0) 2
      ({| PanelSim.results := []; PanelSim.heap := true |}, [])
    = Some (err, t') /\
    pattern_trace PanelSim.image0 1 2 0 (snd t') err.
Proof.
  apply (test_pattern_stays_in_its_buffer PanelSim.world PanelSim.draw_bitmap
           PanelSim.malloc PanelSim.free PanelSim.image0 1 2
           {| PanelSim.results := []; PanelSim.heap := true |} eq_refl);
    cbn; unfold INT32_MAX; lia.
Defined.

End ImageFacts.

(** * The panel *)

Section DisplayFacts.

Import Display.

Variable World : Type.
Variable call : lcd_call -> World -> esp_err_t * option Z * World.

Local Notation "'tcall'" := (traced_call call).
Local Notation "'Trace'" := (list (lcd_call * esp_err_t * option Z)).

Lemma clampi_spec v lo hi :
  lo <= hi -> clampi v lo hi = Z.max lo (Z.min v hi).
Proof.
  intros H. unfold clampi.
  destruct (Z.ltb_spec v lo); [lia|]. destruct (Z.gtb_spec v hi); lia.
Qed.

Lemma fill_line_buf_from_spec color :
  forall (count i : nat) (g : display_ctx_t),
    line_buf g = true ->
    (i + count <= length (s_line_buf g))%nat ->
    exists b,
      fill_line_buf_from count i color g = Some (with_pixels g b) /\
      length b = length (s_line_buf g) /\
      forall j,
        nth_error b j
        = if (i <=? j)%nat && (j <? i + count)%nat then Some color
          else nth_error (s_line_buf g) j.
Proof.
  induction count as [|count IH]; intros i g LB L.
  - exists (s_line_buf g). split; [destruct g; reflexivity|].
    split; [reflexivity|]. intros j.
    destruct (Nat.leb_spec i j); destruct (Nat.ltb_spec j (i + 0));
      cbn [andb]; try reflexivity. lia.
  - cbn [fill_line_buf_from]. rewrite LB.
    destruct (poke_spec (s_line_buf g) i color ltac:(lia))
      as (b1 & -> & L1 & N1).
    destruct (IH (S i) (with_pixels g b1) LB
                ltac:(cbn [s_line_buf with_pixels]; lia))
      as (b2 & E & L2 & N2).
    exists b2. split; [exact E|].
    cbn [s_line_buf with_pixels] in L2, N2.
    split; [congruence|]. intros j. rewrite N2, N1.
    destruct (Nat.leb_spec (S i) j); destruct (Nat.ltb_spec j (S i + count));
      destruct (Nat.leb_spec i j); destruct (Nat.ltb_spec j (i + S count));
      destruct (Nat.eqb_spec j i); cbn [andb]; try lia; reflexivity.
Qed.

Lemma traced_perform c (t : World * Trace) :
  exists r h w1,
    call c (fst t) = (r, h, w1) /\
    perform (World * Trace) tcall c t = (r, (w1, snd t ++ [(c, r, h)])).
Proof.
  unfold perform, traced_call.
  destruct (call c (fst t)) as [[r h] w1]. eauto.
Qed.

Lemma traced_draw_rows :
  forall (count : nat) (row x0 x1 : Z) (g : display_ctx_t)
         (t : World * Trace),
    exists w' l,
      draw_rows (World * Trace) tcall count row x0 x1 g t
      = (w', snd t ++ l) /\
      calls_of l = row_windows count (panel g) row x0 x1 (s_line_buf g).
Proof.
  induction count as [|count IH]; intros row x0 x1 g t.
  - exists (fst t), []. rewrite app_nil_r. destruct t. split; reflexivity.
  - cbn [draw_rows].
    destruct (traced_perform
                (esp_lcd_panel_draw_bitmap (panel g) x0 row x1 (row + 1)
                   (s_line_buf g)) t) as (r & h & w1 & _ & ->).
    destruct (IH (row + 1) x0 x1 g
                (w1, snd t ++ [(esp_lcd_panel_draw_bitmap (panel g) x0 row x1
                                  (row + 1) (s_line_buf g), r, h)]))
      as (w' & l & E & C).
    rewrite E.
    eexists _, (_ :: l). cbn [snd]. rewrite <- app_assoc.
    split; [reflexivity|]. cbn [calls_of map fst row_windows].
    f_equal. exact C.
Qed.

Lemma viewport_bounds g :
  display_ok g -> initialized g = true ->
  line_buf g = true /\ length (s_line_buf g) = 320%nat /\
  0 < active_width g <= 320 /\ 0 < active_height g <= 320.
Proof.
  intros K I. destruct (K I) as (LB & Len & Wd & Ht & V).
  unfold DISPLAY_LINE_BUF_PIXELS_MAX in *.
  split; [exact LB|]. split; [exact Len|].
  unfold calc_viewport_for_rotation in V.
  destruct (_ || _); injection V as -> -> _ _; lia.
Qed.

Lemma draw_rect_from :
  forall (g : display_ctx_t) (t : World * Trace) (x y w h rgb565 : Z),
    display_ok g ->
    x + w <= INT32_MAX -> y + h <= INT32_MAX ->
    let x0 := Z.max 0 (Z.min x (active_width g)) in
    let x1 := Z.max 0 (Z.min (x + w) (active_width g)) in
    let y0 := Z.max 0 (Z.min y (active_height g)) in
    let y1 := Z.max 0 (Z.min (y + h) (active_height g)) in
    exists g' w' l,
      display_draw_rect (World * Trace) tcall x y w h rgb565 g t
      = Some (g', (w', snd t ++ l)) /\
      display_ok g' /\
      if initialized g && (0 <? w) && (0 <? h) && (x0 <? x1) && (y0 <? y1)
      then
        x1 <= active_width g <= 320 /\ y1 <= active_height g /\
        g' = with_pixels g (s_line_buf g') /\
        length (s_line_buf g') = 320%nat /\
        (forall j,
           nth_error (s_line_buf g') j
           = if (j <? Z.to_nat (x1 - x0))%nat then Some rgb565
             else nth_error (s_line_buf g) j) /\
        calls_of l
        = row_windows (Z.to_nat (y1 - y0)) (panel g) y0 x0 x1 (s_line_buf g')
      else g' = g /\ l = [] /\ w' = fst t.
Proof.
  intros g t x y w h rgb565 K OX OY x0 x1 y0 y1.
  assert (Same : exists g' w' l,
             Some (g, t) = Some (g', (w', snd t ++ l)) /\
             display_ok g' /\ g' = g /\ l = [] /\ w' = fst t).
  { exists g, (fst t), []. rewrite app_nil_r. destruct t.
    split; [reflexivity|]. split; [exact K|]. auto. }
  unfold display_draw_rect.
  destruct (initialized g) eqn:I; cbn [negb orb andb]; [|exact Same].
  destruct (viewport_bounds g K I) as (LB & Len & AW & AH).
  destruct (Z.leb_spec w 0) as [W0|W0]; cbn [orb].
  { destruct (Z.ltb_spec 0 w); [lia|]. exact Same. }
  destruct (Z.ltb_spec 0 w); [|lia]. cbn [andb].
  destruct (Z.leb_spec h 0) as [H0|H0]; cbn [orb].
  { destruct (Z.ltb_spec 0 h); [lia|]. exact Same. }
  destruct (Z.ltb_spec 0 h); [|lia]. cbn [andb].
  destruct (Z.gtb_spec (x + w) INT32_MAX); [lia|].
  destruct (Z.gtb_spec (y + h) INT32_MAX); [lia|].
  rewrite !clampi_spec by lia. fold x0 x1 y0 y1.
  destruct (Z.leb_spec x1 x0) as [X|X]; cbn [orb].
  { destruct (Z.ltb_spec x0 x1); [lia|]. exact Same. }
  destruct (Z.ltb_spec x0 x1); [|lia]. cbn [andb].
  destruct (Z.leb_spec y1 y0) as [Y|Y]; cbn [orb].
  { destruct (Z.ltb_spec y0 y1); [lia|]. exact Same. }
  destruct (Z.ltb_spec y0 y1); [|lia].
  assert (P : 320 < 2 ^ 32) by reflexivity.
  unfold fill_line_buf.
  rewrite (size_t_small (x1 - x0)) by lia.
  destruct (fill_line_buf_from_spec rgb565 (Z.to_nat (x1 - x0)) 0 g LB
              ltac:(lia)) as (b & -> & Lb & Nb).
  destruct (traced_draw_rows (Z.to_nat (y1 - y0)) y0 x0 x1 (with_pixels g b)
              t) as (w' & l & -> & C).
  exists (with_pixels g b), w', l.
  split; [reflexivity|]. split.
  { intros _. destruct (K I) as (_ & _ & Wd & Ht & V).
    cbn [with_pixels line_buf s_line_buf cfg rotation active_width
         active_height active_x_offset active_y_offset].
    split; [exact LB|].
    split; [unfold DISPLAY_LINE_BUF_PIXELS_MAX; rewrite Lb; exact Len|].
    split; [exact Wd|].
    split; [exact Ht|]. exact V. }
  cbn [with_pixels s_line_buf panel] in *.
  split; [lia|]. split; [lia|]. split; [reflexivity|].
  split; [congruence|]. split; [|exact C].
  intros j. rewrite Nb. cbn [Nat.leb andb Nat.add]. reflexivity.
Qed.

(** X24: display_draw_rect draws the part of the rectangle that lies in
    the viewport and nothing else: on a module in order, and as long as
    [x + w] and [y + h] stay within [int], the call has a meaning; when the
    module is initialized and the rectangle meets the viewport, the line
    buffer gets the colour in its first [x1 - x0] pixels, which are at
    most 320 so that the buffer is not left, and the panel gets one window
    per row from [y0] to [y1 - 1], each from [x0] to [x1], where [x0],
    [x1], [y0] and [y1] are the edges of the rectangle moved into the
    viewport; otherwise nothing is drawn and nothing changes. *)
Theorem draw_rect_clips_to_the_viewport :
  forall (g : display_ctx_t) (w0 : World) (x y w h rgb565 : Z),
    display_ok g ->
    x + w <= INT32_MAX -> y + h <= INT32_MAX ->
    let x0 := Z.max 0 (Z.min x (active_width g)) in
    let x1 := Z.max 0 (Z.min (x + w) (active_width g)) in
    let y0 := Z.max 0 (Z.min y (active_height g)) in
    let y1 := Z.max 0 (Z.min (y + h) (active_height g)) in
    exists g' w' l,
      display_draw_rect (World * Trace) tcall x y w h rgb565 g (w0, [])
      = Some (g', (w', l)) /\
      display_ok g' /\
      if initialized g && (0 <? w) && (0 <? h) && (x0 <? x1) && (y0 <? y1)
      then
        x1 <= active_width g <= 320 /\ y1 <= active_height g /\
        g' = with_pixels g (s_line_buf g') /\
        length (s_line_buf g') = 320%nat /\
        (forall j,
           nth_error (s_line_buf g') j
           = if (j <? Z.to_nat (x1 - x0))%nat then Some rgb565
             else nth_error (s_line_buf g) j) /\
        calls_of l
        = row_windows (Z.to_nat (y1 - y0)) (panel g) y0 x0 x1 (s_line_buf g')
      else g' = g /\ l = [] /\ w' = w0.
Proof.
  intros g w0 x y w h rgb565 K OX OY.
  exact (draw_rect_from g (w0, []) x y w h rgb565 K OX OY).
Qed.

Ltac disp_simpl :=
  cbn [with_initialized with_line_buf with_panel with_io with_config
       with_viewport with_pixels panel io initialized pins cfg rotation
       active_width active_height active_x_offset active_y_offset line_buf
       s_line_buf fst snd].

Ltac disp_simpl_in H :=
  cbn [with_initialized with_line_buf with_panel with_io with_config
       with_viewport with_pixels panel io initialized pins cfg rotation
       active_width active_height active_x_offset active_y_offset line_buf
       s_line_buf fst snd] in H.

Lemma display_init_err_spec ret g (t : World * Trace) :
  exists w' l,
    display_init_err (World * Trace) tcall ret g t
    = (ret,
       with_io (with_panel (with_line_buf (with_initialized g false) false)
                  None) None,
       (w', snd t ++ l)) /\
    calls_of l
    = match panel g with Some p => [esp_lcd_panel_del p] | None => [] end
      ++ match io g with Some i => [esp_lcd_panel_io_del i] | None => [] end
      ++ [spi_bus_free].
Proof.
  unfold display_init_err. destruct g as [ini pn cf ro aw ah ax ay i p lb px].
  disp_simpl.
  destruct p as [p|], i as [i|]; disp_simpl;
    repeat match goal with
           | |- context [perform _ tcall ?c ?t0] =>
             destruct (traced_perform c t0) as (? & ? & ? & _ & ->);
             disp_simpl
           end;
    rewrite <- ?app_assoc; eexists _, _; (split; [reflexivity|]);
    reflexivity.
Qed.

Ltac init_step :=
  match goal with
  | |- context [perform _ tcall ?c ?t0] =>
    destruct (traced_perform c t0) as (? & ? & ? & _ & ->); disp_simpl
  | |- context [traced_call call ?c ?t0] =>
    let r := fresh "r" in
    let h := fresh "h" in
    let w := fresh "w" in
    unfold traced_call at 1; disp_simpl;
    destruct (call c _) as [[r h] w]; disp_simpl
  end.

Ltac init_fails K :=
  match goal with
  | |- context [display_init_err _ tcall ?r ?g0 ?t0] =>
    destruct (display_init_err_spec r g0 t0) as (? & ? & -> & K);
    disp_simpl
  end.

Lemma cfg_valid_tests c :
  cfg_valid c = false ->
  negb ((width c >? 0) && (height c >? 0)) = true \/
  negb (max_i32 (width c) (height c) <=? DISPLAY_LINE_BUF_PIXELS_MAX) = true \/
  negb (spi_clock_hz c >? 0) = true.
Proof.
  unfold cfg_valid, max_i32.
  destruct (Z.ltb_spec 0 (width c)), (Z.ltb_spec 0 (height c)),
    (Z.leb_spec (width c) DISPLAY_LINE_BUF_PIXELS_MAX),
    (Z.leb_spec (height c) DISPLAY_LINE_BUF_PIXELS_MAX),
    (Z.ltb_spec 0 (spi_clock_hz c)),
    (Z.gtb_spec (width c) 0), (Z.gtb_spec (height c) 0),
    (Z.gtb_spec (spi_clock_hz c) 0),
    (Z.gtb_spec (width c) (height c)); cbn [andb negb]; try lia;
    try discriminate; intros _;
    try (left; reflexivity);
    try (destruct (Z.leb_spec (width c) DISPLAY_LINE_BUF_PIXELS_MAX);
         try lia; auto);
    try (destruct (Z.leb_spec (height c) DISPLAY_LINE_BUF_PIXELS_MAX);
         try lia; auto).
Qed.

Lemma cfg_valid_inv c :
  cfg_valid c = true ->
  0 < width c <= 320 /\ 0 < height c <= 320 /\ 0 < spi_clock_hz c /\
  negb ((width c >? 0) && (height c >? 0)) = false /\
  negb (max_i32 (width c) (height c) <=? DISPLAY_LINE_BUF_PIXELS_MAX) = false /\
  negb (spi_clock_hz c >? 0) = false.
Proof.
  unfold cfg_valid, max_i32, DISPLAY_LINE_BUF_PIXELS_MAX.
  rewrite !andb_true_iff, !Z.ltb_lt, !Z.leb_le.
  intros ((((A & B) & C) & D) & E).
  destruct (Z.gtb_spec (width c) 0), (Z.gtb_spec (height c) 0),
    (Z.gtb_spec (spi_clock_hz c) 0); try lia.
  destruct (Z.gtb_spec (width c) (height c));
    [destruct (Z.leb_spec (width c) 320)|destruct (Z.leb_spec (height c) 320)];
    try lia; cbn [andb negb]; repeat split; lia.
Qed.

Lemma released_app (l1 l2 : Trace) :
  (forall c r i,
     In (c, r, Some i) l1 ->
     match c with
     | esp_lcd_new_panel_io_spi _ _ _ =>
       In (esp_lcd_panel_io_del i) (calls_of l2)
     | esp_lcd_new_panel_st7789 _ _ => In (esp_lcd_panel_del i) (calls_of l2)
     | _ => True
     end) ->
  (forall c, In c (calls_of l2) ->
     match c with
     | esp_lcd_new_panel_io_spi _ _ _ | esp_lcd_new_panel_st7789 _ _ => False
     | _ => True
     end) ->
  released (l1 ++ l2).
Proof.
  intros H1 H2 c r i HIn. unfold calls_of. rewrite map_app.
  apply in_app_or in HIn. destruct HIn as [HIn|HIn].
  - specialize (H1 c r i HIn). destruct c; try exact I;
      apply in_or_app; right; exact H1.
  - assert (HC : In c (calls_of l2))
      by (apply (in_map (fun e => fst (fst e)) l2 (c, r, Some i)); exact HIn).
    specialize (H2 c HC). destruct c; try exact I; contradiction.
Qed.

Lemma calls_of_app (a b : Trace) :
  calls_of (a ++ b) = calls_of a ++ calls_of b.
Proof. apply map_app. Qed.

Lemma last_app_one {A : Type} (l : list A) (x d : A) : last (l ++ [x]) d = x.
Proof. apply last_last. Qed.

Ltac split_result :=
  match goal with
  | |- context [negb (?r =? ESP_OK)] =>
    let E := fresh "E" in
    destruct (Z.eqb_spec r ESP_OK) as [E|E]; cbn [negb]; [subst r|]
  end.
Ltac fail_trace g0 IO PN KC :=
  eexists _, _, _, _, (io g0), (panel g0), _; disp_simpl; rewrite ?IO, ?PN;
  (split; [reflexivity|]);
  (split;
   [unfold succeeded; repeat (apply Forall_app; split); repeat constructor|]);
  (split; [rewrite KC; repeat constructor|]);
  unfold checked_calls; rewrite !calls_of_app;
  cbn [calls_of map fst app]; reflexivity.

Ltac fail_done OKF IO PN :=
  match goal with
  | |- context [display_init_err _ tcall ?r ?g0 ?t0] =>
    let KC := fresh "KC" in
    destruct (display_init_err_spec r g0 t0) as (? & ? & -> & KC);
    disp_simpl; disp_simpl_in KC; rewrite ?IO, ?PN in KC;
    cbn [app] in KC;
    (split; [apply OKF; reflexivity|]);
    (split; [reflexivity|]); (split; [reflexivity|]);
    (split; [intros F; contradiction|]); intros _;
    (split; [reflexivity|]);
    (split; [fail_trace g0 IO PN KC|]);
    right;
    (split; [reflexivity|]); (split; [reflexivity|]);
    (split; [reflexivity|]);
    (split;
     [apply released_app;
      [let c0 := fresh "c" in
       let r0 := fresh "r" in
       let i0 := fresh "i" in
       let HIn := fresh "HIn" in
       intros c0 r0 i0 HIn; rewrite ?in_app_iff in HIn; cbn [In] in HIn;
       repeat match goal with
              | H : _ \/ _ |- _ => destruct H as [H|H]
              | H : False |- _ => contradiction
              end;
       try discriminate HIn;
       try (injection HIn; intros; subst; rewrite ?KC; cbn; auto)
      |let c0 := fresh "c" in
       let HC := fresh "HC" in
       intros c0 HC; rewrite KC in HC; cbn [app In] in HC;
       repeat match goal with
              | H : _ \/ _ |- _ => destruct H as [H|H]
              | H : False |- _ => contradiction
              end;
       subst c0; exact Logic.I]
     |rewrite !calls_of_app, KC; reflexivity])
  end.

Lemma clamp_percent_spec percent :
  0 <= percent -> clamp_percent percent = Z.min percent 100.
Proof. intros H. unfold clamp_percent. destruct (Z.gtb_spec percent 100); lia. Qed.

Lemma backlight_duty percent :
  0 <= percent ->
  u32 (u32 (DISPLAY_BL_MAX_DUTY * clamp_percent percent) / 100)
  = 8191 * Z.min percent 100 / 100.
Proof.
  intros H. rewrite clamp_percent_spec by exact H.
  change DISPLAY_BL_MAX_DUTY with 8191. unfold u32.
  assert (B : 0 <= 8191 * Z.min percent 100 <= 819100) by lia.
  rewrite (Z.mod_small (8191 * Z.min percent 100)) by lia.
  apply Z.mod_small. split; [apply Z.div_pos; lia|].
  apply Z.div_lt_upper_bound; lia.
Qed.

Lemma traced_backlight_set percent g (t : World * Trace) :
  initialized g = true ->
  exists w' l,
    display_backlight_set (World * Trace) tcall percent g t
    = (w', snd t ++ l) /\
    calls_of l
    = [ledc_set_duty (u32 (u32 (DISPLAY_BL_MAX_DUTY * clamp_percent percent)
                           / 100));
       ledc_update_duty].
Proof.
  intros I. unfold display_backlight_set. rewrite I. cbn [negb].
  repeat match goal with
         | |- context [perform _ tcall ?c ?t0] =>
           destruct (traced_perform c t0) as (? & ? & ? & _ & ->);
           disp_simpl
         end.
  rewrite <- app_assoc. eexists _, _. split; reflexivity.
Qed.

Lemma rot_cases r :
  let rot := u8 (r mod 4) in rot = 0 \/ rot = 1 \/ rot = 2 \/ rot = 3.
Proof.
  cbn zeta. unfold u8.
  assert (H : 0 <= r mod 4 < 4) by (apply Z.mod_pos_bound; lia).
  rewrite Z.mod_small by lia. lia.
Qed.

Lemma traced_set_rotation r g (t : World * Trace) :
  initialized g = true ->
  let rot := u8 (r mod 4) in
  let '(aw, ah, xo, yo) := calc_viewport_for_rotation rot g in
  exists w' l,
    display_set_rotation (World * Trace) tcall r g t
    = (with_viewport g rot aw ah xo yo, (w', snd t ++ l)) /\
    calls_of l
    = [esp_lcd_panel_swap_xy (panel g) (Z.odd rot);
       esp_lcd_panel_mirror (panel g) ((rot =? 1) || (rot =? 2))
         ((rot =? 2) || (rot =? 3));
       esp_lcd_panel_set_gap (panel g) xo yo].
Proof.
  intros I rot. unfold display_set_rotation. rewrite I. cbn [negb]. fold rot.
  destruct (calc_viewport_for_rotation rot g) as [[[aw ah] xo] yo].
  destruct (rot_cases r) as [R|[R|[R|R]]]; fold rot in R; rewrite R;
    cbn [Z.eqb Pos.eqb Z.odd orb];
    repeat match goal with
           | |- context [perform _ tcall ?c ?t0] =>
             destruct (traced_perform c t0) as (? & ? & ? & _ & ->);
             disp_simpl
           end;
    rewrite <- !app_assoc; eexists _, _; split; reflexivity.
Qed.

Lemma display_init_first p c g w0 :
  length (s_line_buf g) = 320%nat ->
  cfg_valid c = true -> initialized g = false ->
  io g = None -> panel g = None ->
  let '(ret, g', t') :=
    display_init (World * Trace) tcall (Some p) (Some c) g (w0, []) in
  display_ok g' /\ pins g' = p /\ cfg g' = c /\
  (ret = ESP_OK ->
   initialized g' = true /\ rotation g' = 0 /\
   display_get_width g' = width c /\ display_get_height g' = height c /\
   exists done rest,
     snd t' = done ++ rest /\ succeeded done /\
     calls_of done = checked_calls p c (io g') (panel g') /\
     calls_of rest = unchecked_calls c (panel g')) /\
  (ret <> ESP_OK ->
   initialized g' = false /\
   (exists done call_f handle_f cleanup io_h panel_h later,
      snd t' = (done ++ [(call_f, ret, handle_f)]) ++ cleanup /\
      succeeded done /\ Forall is_release (calls_of cleanup) /\
      checked_calls p c io_h panel_h
      = calls_of (done ++ [(call_f, ret, handle_f)]) ++ later) /\
   ((calls_of (snd t')
     = [spi_bus_initialize (sck p) (mosi p) (width c * 80)] /\
     g' = with_config g p c) \/
    (line_buf g' = false /\ io g' = None /\ panel g' = None /\
     released (snd t') /\
     last (calls_of (snd t')) ledc_update_duty = spi_bus_free))).
Proof.
  intros Len V I IO PN. unfold display_init.
  destruct (cfg_valid_inv c V) as (Wd & Ht & Ck & -> & -> & ->). rewrite I.
  assert (P : 320 * 80 < 2 ^ 32) by reflexivity.
  rewrite (size_t_small (width c * 40)), (size_t_small (width c * 40 * 2))
    by lia.
  replace (width c * 40 * 2) with (width c * 80) by lia.
  assert (OKF : forall g1 : display_ctx_t,
             initialized g1 = false -> display_ok g1)
    by (intros g1 F X; congruence).
  init_step. destruct (Z.eqb_spec x ESP_OK) as [E|E]; cbn [negb].
  2: { split; [apply OKF; exact I|]. split; [reflexivity|].
       split; [reflexivity|]. split; [intros F; contradiction|]. intros _.
       split; [exact I|]. split.
       { exists [], (spi_bus_initialize (sck p) (mosi p) (width c * 80)), x0,
           [], None, None.
         eexists. split; [reflexivity|]. split; [constructor|].
         split; [constructor|]. reflexivity. }
       left. split; reflexivity. }
  subst x.
  init_step. destruct h as [ioh|]; disp_simpl; split_result.
  all: try solve [fail_done OKF IO PN].
  all: init_step; destruct h as [pnh|]; disp_simpl; split_result.
  all: try solve [fail_done OKF IO PN].
  all: do 5 (init_step; split_result; [|solve [fail_done OKF IO PN]]).
  all: unfold configure_backlight; init_step; split_result.
  all: try solve [split_result; [congruence|]; fail_done OKF IO PN].
  all: init_step; split_result; [|solve [fail_done OKF IO PN]].
  all: match goal with
       | |- context [display_backlight_set _ tcall 80 ?g0 ?t0] =>
         destruct (traced_backlight_set 80 g0 t0 eq_refl)
           as (wB & lB & -> & KB)
       end.
  all: match goal with
       | |- context [display_set_rotation _ tcall 0 ?g0 ?t0] =>
         pose proof (traced_set_rotation 0 g0 t0 eq_refl) as KR
       end.
  all: cbv zeta in KR; unfold calc_viewport_for_rotation in KR;
    change (u8 (0 mod 4)) with 0 in KR;
    cbn [Z.eqb orb DISPLAY_ROTATION_90 DISPLAY_ROTATION_270] in KR;
    disp_simpl_in KR; disp_simpl; destruct KR as (wR & lR & -> & KR);
    disp_simpl.
  all: rewrite ?IO, ?PN; rewrite ?IO, ?PN in KR.
  all: split;
    [intros _; disp_simpl; split; [reflexivity|];
     split; [exact Len|]; split; [exact Wd|]; split; [exact Ht|];
     reflexivity|].
  all: split; [reflexivity|]; split; [reflexivity|].
  all: split; [|intros F; exfalso; apply F; reflexivity].
  all: intros _; split; [reflexivity|]; split; [reflexivity|].
  all: split; [reflexivity|]; split; [reflexivity|].
  all: rewrite <- (app_assoc _ lB lR); eexists _, (lB ++ lR).
  all: split; [reflexivity|].
  all: split;
    [unfold succeeded; repeat (apply Forall_app; split); repeat constructor|].
  all: split;
    [unfold checked_calls; rewrite !calls_of_app;
     cbn [calls_of map fst app]; reflexivity|].
  all: rewrite calls_of_app, KB, KR; reflexivity.
Qed.

(** X25: what display_init returns is decided by its first ten calls.
    With a geometry that does not fit the line buffer or a clock that is
    not positive it returns ESP_ERR_INVALID_ARG, and on a module that is
    initialized already ESP_OK; in both cases nothing is called and
    nothing changes.  Otherwise the pins and the geometry are stored and
    the calls are made in a fixed order: ten whose result is examined (the
    bus, the panel IO, the ST7789, reset, init, gap, inversion, display
    on, backlight timer and channel) and then five whose result is not
    looked at (the duty 6552 of 8191, that is 80 percent, its update, and
    the three calls of rotation 0).  When ESP_OK is returned the ten have
    all returned ESP_OK and the five have been made, whatever they
    returned; the module is initialized with rotation 0 and the size of
    the configuration.  When something else is returned it is the result
    of one of the ten: the calls before it have all returned ESP_OK, after
    it nothing but deletions and the freeing of the bus has been called,
    and the module is not initialized; either it was the first, of the bus, and nothing else
    was called, or the line buffer and both handles are NULL again, every
    handle that was made has been deleted, and the bus has been freed
    last.  The module is in order afterwards in every case. *)
Theorem display_init_outcome :
  forall (p : display_pins_t) (c : display_cfg_t) (g : display_ctx_t)
         (w0 : World),
    length (s_line_buf g) = 320%nat ->
    (initialized g = false -> io g = None /\ panel g = None) ->
    display_ok g ->
    let '(ret, g', t') :=
      display_init (World * Trace) tcall (Some p) (Some c) g (w0, []) in
    display_ok g' /\
    if negb (cfg_valid c) then
      ret = ESP_ERR_INVALID_ARG /\ g' = g /\ t' = (w0, [])
    else if initialized g then ret = ESP_OK /\ g' = g /\ t' = (w0, [])
    else
      pins g' = p /\ cfg g' = c /\
      (ret = ESP_OK ->
       initialized g' = true /\ rotation g' = 0 /\
       display_get_width g' = width c /\ display_get_height g' = height c /\
       exists done rest,
         snd t' = done ++ rest /\ succeeded done /\
         calls_of done = checked_calls p c (io g') (panel g') /\
         calls_of rest = unchecked_calls c (panel g')) /\
      (ret <> ESP_OK ->
       initialized g' = false /\
       (exists done call_f handle_f cleanup io_h panel_h later,
          snd t' = (done ++ [(call_f, ret, handle_f)]) ++ cleanup /\
          succeeded done /\ Forall is_release (calls_of cleanup) /\
          checked_calls p c io_h panel_h
          = calls_of (done ++ [(call_f, ret, handle_f)]) ++ later) /\
       ((calls_of (snd t')
         = [spi_bus_initialize (sck p) (mosi p) (width c * 80)] /\
         g' = with_config g p c) \/
        (line_buf g' = false /\ io g' = None /\ panel g' = None /\
         released (snd t') /\
         last (calls_of (snd t')) ledc_update_duty = spi_bus_free))).
Proof.
  intros p c g w0 Len HN K.
  destruct (cfg_valid c) eqn:V; cbn [negb].
  - destruct (initialized g) eqn:I.
    + unfold display_init.
      destruct (cfg_valid_inv c V) as (_ & _ & _ & -> & -> & ->). rewrite I.
      split; [exact K|]. split; [reflexivity|]. split; reflexivity.
    + destruct (HN eq_refl) as (IO & PN).
      pose proof (display_init_first p c g w0 Len V I IO PN) as F.
      destruct (display_init (World * Trace) tcall (Some p) (Some c) g
                  (w0, [])) as [[ret g'] t'].
      destruct F as (F1 & F2 & F3 & F4 & F5).
      split; [exact F1|]. split; [exact F2|]. split; [exact F3|].
      split; [exact F4|exact F5].
  - unfold display_init.
    destruct (cfg_valid_tests c V) as [T|[T|T]].
    + rewrite T. split; [exact K|]. split; [reflexivity|]. split; reflexivity.
    + destruct (negb ((width c >? 0) && (height c >? 0))); rewrite ?T;
        (split; [exact K|]); (split; [reflexivity|]); split; reflexivity.
    + destruct (negb ((width c >? 0) && (height c >? 0)));
        destruct (negb (max_i32 (width c) (height c)
                        <=? DISPLAY_LINE_BUF_PIXELS_MAX)); rewrite ?T;
        (split; [exact K|]); (split; [reflexivity|]); split; reflexivity.
Qed.

Lemma viewport_of_rot r g :
  calc_viewport_for_rotation (u8 (r mod 4)) g
  = if Z.odd (r mod 4)
    then (height (cfg g), width (cfg g), y_offset (cfg g), x_offset (cfg g))
    else (width (cfg g), height (cfg g), x_offset (cfg g), y_offset (cfg g)).
Proof.
  unfold calc_viewport_for_rotation, u8, DISPLAY_ROTATION_90,
    DISPLAY_ROTATION_270.
  assert (H : 0 <= r mod 4 < 4) by (apply Z.mod_pos_bound; lia).
  rewrite (Z.mod_small (r mod 4) (2 ^ 8)) by lia.
  rewrite Z.mod_mod by lia. rewrite (Z.mod_small (r mod 4) (2 ^ 8)) by lia.
  assert (C : r mod 4 = 0 \/ r mod 4 = 1 \/ r mod 4 = 2 \/ r mod 4 = 3) by lia.
  destruct C as [C|[C|[C|C]]]; rewrite C; reflexivity.
Qed.

(** X26: display_set_rotation turns the viewport and keeps the module in
    order. On an initialized module the rotation becomes [r mod 4]; for
    the odd rotations the viewport has the height of the panel as its
    width, the width as its height and the two offsets exchanged, for the
    even ones it is that of the configuration; nothing else of the module
    changes; and the panel is told three things in this order: whether to
    swap the axes (for the odd rotations), which axes to mirror (x for 1
    and 2, y for 2 and 3) and the offsets of the new viewport. On a module
    that is not initialized nothing is called and nothing changes. *)
Theorem set_rotation_turns_the_viewport :
  forall (r : Z) (g : display_ctx_t) (w0 : World),
    display_ok g ->
    let rot := r mod 4 in
    let '(g', t') :=
      display_set_rotation (World * Trace) tcall r g (w0, []) in
    display_ok g' /\
    if initialized g then
      rotation g' = rot /\
      (active_width g', active_height g',
       active_x_offset g', active_y_offset g')
      = (if Z.odd rot
         then (height (cfg g), width (cfg g), y_offset (cfg g),
               x_offset (cfg g))
         else (width (cfg g), height (cfg g), x_offset (cfg g),
               y_offset (cfg g))) /\
      g' = with_viewport g (rotation g') (active_width g') (active_height g')
             (active_x_offset g') (active_y_offset g') /\
      calls_of (snd t')
      = [esp_lcd_panel_swap_xy (panel g) (Z.odd rot);
         esp_lcd_panel_mirror (panel g) ((rot =? 1) || (rot =? 2))
           ((rot =? 2) || (rot =? 3));
         esp_lcd_panel_set_gap (panel g) (active_x_offset g')
           (active_y_offset g')]
    else g' = g /\ t' = (w0, []).
Proof.
  intros r g w0 K rot.
  destruct (initialized g) eqn:I.
  2: { unfold display_set_rotation. rewrite I. cbn [negb].
       split; [exact K|]. split; reflexivity. }
  pose proof (traced_set_rotation r g (w0, []) I) as T. cbv zeta in T.
  assert (R : u8 (r mod 4) = rot).
  { unfold u8. apply Z.mod_small.
    assert (H : 0 <= r mod 4 < 4) by (apply Z.mod_pos_bound; lia).
    unfold rot. lia. }
  pose proof (viewport_of_rot r g) as VR. rewrite R in VR, T. fold rot in VR.
  destruct (K I) as (LB & Len & Wd & Ht & _).
  destruct (calc_viewport_for_rotation rot g) as [[[aw ah] xo] yo].
  destruct T as (w' & l & -> & C). cbn [snd app].
  split.
  { intros _. disp_simpl. split; [exact LB|]. split; [exact Len|].
    split; [exact Wd|]. split; [exact Ht|].
    pose proof (viewport_of_rot rot (with_viewport g rot aw ah xo yo)) as V2.
    disp_simpl_in V2.
    assert (M : rot mod 4 = rot) by (unfold rot; apply Z.mod_mod; lia).
    assert (R' : u8 rot = rot) by exact R.
    rewrite M, R' in V2. rewrite V2. exact VR. }
  disp_simpl. split; [reflexivity|]. split; [exact VR|].
  split; [reflexivity|]. exact C.
Qed.

(** X27: the backlight never gets more than the full duty. For a
    percentage of the type's range display_backlight_set on an initialized
    module makes two calls, ledc_set_duty and then ledc_update_duty; the
    duty is 8191 * percent / 100 rounded down, with every percentage above
    100 counted as 100, so it lies between 0 and DISPLAY_BL_MAX_DUTY = 8191
    and is 8191 from 100 percent on. On a module that is not initialized
    nothing is called. *)
Theorem backlight_duty_is_bounded :
  forall (percent : Z) (g : display_ctx_t) (w0 : World),
    0 <= percent < 256 ->
    let duty := 8191 * Z.min percent 100 / 100 in
    0 <= duty <= DISPLAY_BL_MAX_DUTY /\
    (100 <= percent -> duty = DISPLAY_BL_MAX_DUTY) /\
    calls_of
      (snd (display_backlight_set (World * Trace) tcall percent g (w0, [])))
    = if initialized g then [ledc_set_duty duty; ledc_update_duty] else [].
Proof.
  intros percent g w0 H duty.
  change DISPLAY_BL_MAX_DUTY with 8191.
  assert (B : 0 <= 8191 * Z.min percent 100 <= 819100) by lia.
  split.
  { unfold duty. split; [apply Z.div_pos; lia|].
    apply Z.div_le_upper_bound; lia. }
  split.
  { intros P. unfold duty. rewrite Z.min_r by lia. reflexivity. }
  destruct (initialized g) eqn:I.
  - destruct (traced_backlight_set percent g (w0, []) I) as (w' & l & -> & C).
    cbn [snd app]. rewrite C, backlight_duty by lia. reflexivity.
  - unfold display_backlight_set. rewrite I. reflexivity.
Qed.

(** X28: display_fill_color paints the whole viewport and only the
    viewport. On an initialized module in order the call has a meaning
    (no sum leaves [int], the line buffer is not left); the line buffer
    gets the colour in its first [active_width] pixels, and the panel gets
    one window per row of the viewport, from row 0 to the last, each as
    wide as the viewport; the module stays in order. *)
Theorem fill_color_covers_the_viewport :
  forall (rgb565 : Z) (g : display_ctx_t) (w0 : World),
    display_ok g -> initialized g = true ->
    exists g' w' l,
      display_fill_color (World * Trace) tcall rgb565 g (w0, [])
      = Some (g', (w', l)) /\
      display_ok g' /\
      g' = with_pixels g (s_line_buf g') /\
      length (s_line_buf g') = 320%nat /\
      (forall j,
         nth_error (s_line_buf g') j
         = if (j <? Z.to_nat (active_width g))%nat then Some rgb565
           else nth_error (s_line_buf g) j) /\
      calls_of l
      = row_windows (Z.to_nat (active_height g)) (panel g) 0 0
          (active_width g) (s_line_buf g').
Proof.
  intros rgb565 g w0 K I.
  destruct (viewport_bounds g K I) as (LB & Len & AW & AH).
  unfold display_fill_color, display_draw_rect. rewrite I. cbn [negb orb].
  destruct (Z.leb_spec (active_width g) 0); [lia|].
  destruct (Z.leb_spec (active_height g) 0); [lia|]. cbn [orb].
  assert (P : 320 < INT32_MAX) by reflexivity.
  cbn [Z.add].
  destruct (Z.gtb_spec (active_width g) INT32_MAX); [lia|].
  destruct (Z.gtb_spec (active_height g) INT32_MAX); [lia|].
  rewrite !clampi_spec by lia.
  rewrite ?Z.min_id, ?(Z.min_l 0), ?Z.max_id, ?Z.max_r by lia.
  destruct (Z.leb_spec (active_width g) 0); [lia|].
  destruct (Z.leb_spec (active_height g) 0); [lia|]. cbn [orb].
  rewrite !Z.sub_0_r.
  assert (Q : 320 < 2 ^ 32) by reflexivity.
  unfold fill_line_buf. rewrite (size_t_small (active_width g)) by lia.
  destruct (fill_line_buf_from_spec rgb565 (Z.to_nat (active_width g)) 0 g LB
              ltac:(lia)) as (b & -> & Lb & Nb).
  destruct (traced_draw_rows (Z.to_nat (active_height g)) 0 0 (active_width g)
              (with_pixels g b) (w0, [])) as (w' & l & -> & C).
  exists (with_pixels g b), w', l. cbn [snd app].
  split; [reflexivity|]. split.
  { intros _. destruct (K I) as (_ & _ & Wd & Ht & V). disp_simpl.
    split; [exact LB|].
    split; [unfold DISPLAY_LINE_BUF_PIXELS_MAX; rewrite Lb; exact Len|].
    split; [exact Wd|]. split; [exact Ht|]. exact V. }
  cbn [with_pixels s_line_buf panel] in *.
  split; [reflexivity|]. split; [congruence|]. split; [|exact C].
  intros j. rewrite Nb. cbn [Nat.leb andb Nat.add]. reflexivity.
Qed.

Lemma repainted_refl g : repainted g g.
Proof. split; [destruct g; reflexivity|reflexivity]. Qed.

Lemma repainted_trans g1 g2 g3 :
  repainted g1 g2 -> repainted g2 g3 -> repainted g1 g3.
Proof.
  intros [E1 L1] [E2 L2]. split; [|congruence].
  rewrite E2 at 1. rewrite E1 at 1. reflexivity.
Qed.

Lemma repainted_view g g' :
  repainted g g' ->
  initialized g' = initialized g /\ panel g' = panel g /\
  active_width g' = active_width g /\ active_height g' = active_height g.
Proof. intros [E _]. rewrite E. repeat split. Qed.

Lemma repainted_ok g g' : display_ok g -> repainted g g' -> display_ok g'.
Proof.
  intros K [E L] I. rewrite E in I. cbn [with_pixels initialized] in I.
  destruct (K I) as (LB & Len & Wd & Ht & V).
  rewrite E. disp_simpl. rewrite L.
  split; [exact LB|]. split; [exact Len|]. split; [exact Wd|].
  split; [exact Ht|]. exact V.
Qed.

Lemma draw_pixel g (t : World * Trace) px py color x_lo x_hi y_lo y_hi :
  display_ok g ->
  px + 1 <= INT32_MAX -> py + 1 <= INT32_MAX ->
  x_lo <= px < x_hi -> y_lo <= py < y_hi ->
  exists g' w' l,
    display_draw_rect (World * Trace) tcall px py 1 1 color g t
    = Some (g', (w', snd t ++ l)) /\
    repainted g g' /\
    Forall (pixel_in (panel g) (Z.max x_lo 0) (Z.min x_hi (active_width g))
              (Z.max y_lo 0) (Z.min y_hi (active_height g)) color)
      (calls_of l).
Proof.
  intros K OX OY BX BY.
  destruct (draw_rect_from g t px py 1 1 color K OX OY)
    as (g' & w' & l & E & K' & R).
  exists g', w', l. split; [exact E|].
  destruct (initialized g && (0 <? 1) && (0 <? 1)
            && (Z.max 0 (Z.min px (active_width g))
                <? Z.max 0 (Z.min (px + 1) (active_width g)))
            && (Z.max 0 (Z.min py (active_height g))
                <? Z.max 0 (Z.min (py + 1) (active_height g)))) eqn:C.
  - rewrite !andb_true_iff, !Z.ltb_lt in C.
    destruct C as ((((I & _) & _) & CX) & CY).
    destruct R as (_ & _ & G & Len & N & CL).
    split; [split; [exact G|]|].
    { destruct (viewport_bounds g K I) as (_ & Len0 & _). congruence. }
    assert (X0 : Z.max 0 (Z.min px (active_width g)) = px) by lia.
    assert (X1 : Z.max 0 (Z.min (px + 1) (active_width g)) = px + 1) by lia.
    assert (Y0 : Z.max 0 (Z.min py (active_height g)) = py) by lia.
    assert (Y1 : Z.max 0 (Z.min (py + 1) (active_height g)) = py + 1) by lia.
    rewrite X0, X1, Y0, Y1 in CL. rewrite X0, X1 in N.
    replace (py + 1 - py) with 1 in CL by lia.
    replace (px + 1 - px) with 1 in N by lia.
    rewrite CL. cbn [Z.to_nat Pos.to_nat Pos.iter_op Nat.add row_windows].
    constructor; [|constructor].
    cbn [pixel_in]. split; [reflexivity|]. split; [reflexivity|].
    split; [reflexivity|]. split; [lia|]. split; [lia|]. apply (N 0%nat).
  - destruct R as (-> & -> & _). split; [apply repainted_refl|constructor].
Qed.

Lemma draw_glyph_rows_spec col_bits cursor_x col cursor_y color
    x_lo x_hi y_lo y_hi :
  cursor_x + col + 1 <= INT32_MAX -> cursor_y + 7 <= INT32_MAX ->
  x_lo <= cursor_x + col < x_hi -> y_lo <= cursor_y -> cursor_y + 7 <= y_hi ->
  forall (count : nat) (row : Z) (g : display_ctx_t) (t : World * Trace),
    display_ok g -> 0 <= row -> row + Z.of_nat count <= 7 ->
    exists g' w' l,
      draw_glyph_rows (World * Trace) tcall count row col_bits cursor_x col
        cursor_y color g t
      = Some (g', (w', snd t ++ l)) /\
      repainted g g' /\
      Forall (pixel_in (panel g) (Z.max x_lo 0)
                (Z.min x_hi (active_width g)) (Z.max y_lo 0)
                (Z.min y_hi (active_height g)) color)
        (calls_of l).
Proof.
  intros OX OY BX BY1 BY2.
  induction count as [|count IH]; intros row g t K R0 R7.
  - exists g, (fst t), []. rewrite app_nil_r. destruct t.
    split; [reflexivity|]. split; [apply repainted_refl|constructor].
  - cbn [draw_glyph_rows].
    destruct (negb (Z.land col_bits (Z.shiftl 1 row) =? 0)).
    + destruct (Z.gtb_spec (cursor_x + col) INT32_MAX); [lia|].
      destruct (Z.gtb_spec (cursor_y + row) INT32_MAX); [lia|]. cbn [orb].
      destruct (draw_pixel g t (cursor_x + col) (cursor_y + row) color
                  x_lo x_hi y_lo y_hi K ltac:(lia) ltac:(lia) BX ltac:(lia))
        as (g1 & w1 & l1 & -> & P1 & F1).
      destruct (IH (row + 1) g1 (w1, snd t ++ l1) (repainted_ok g g1 K P1)
                  ltac:(lia) ltac:(lia))
        as (g2 & w2 & l2 & -> & P2 & F2).
      destruct (repainted_view g g1 P1) as (_ & V1 & V2 & V3).
      rewrite V1, V2, V3 in F2.
      exists g2, w2, (l1 ++ l2). cbn [snd]. rewrite app_assoc.
      split; [reflexivity|]. split; [exact (repainted_trans _ _ _ P1 P2)|].
      rewrite calls_of_app. apply Forall_app. split; assumption.
    + apply IH; [exact K|lia|lia].
Qed.

Lemma draw_glyph_cols_spec glyph cursor_x cursor_y color
    x_lo x_hi y_lo y_hi :
  length glyph = 5%nat ->
  cursor_x + 5 <= INT32_MAX -> cursor_y + 7 <= INT32_MAX ->
  x_lo <= cursor_x -> cursor_x + 5 <= x_hi ->
  y_lo <= cursor_y -> cursor_y + 7 <= y_hi ->
  forall (count : nat) (col : Z) (g : display_ctx_t) (t : World * Trace),
    display_ok g -> 0 <= col -> col + Z.of_nat count <= 5 ->
    exists g' w' l,
      draw_glyph_cols (World * Trace) tcall count col glyph cursor_x cursor_y
        color g t
      = Some (g', (w', snd t ++ l)) /\
      repainted g g' /\
      Forall (pixel_in (panel g) (Z.max x_lo 0)
                (Z.min x_hi (active_width g)) (Z.max y_lo 0)
                (Z.min y_hi (active_height g)) color)
        (calls_of l).
Proof.
  intros GL OX OY BX1 BX2 BY1 BY2.
  induction count as [|count IH]; intros col g t K C0 C5.
  - exists g, (fst t), []. rewrite app_nil_r. destruct t.
    split; [reflexivity|]. split; [apply repainted_refl|constructor].
  - cbn [draw_glyph_cols].
    destruct (nth_error glyph (Z.to_nat col)) as [col_bits|] eqn:N.
    2: { apply nth_error_None in N. lia. }
    destruct (draw_glyph_rows_spec col_bits cursor_x col cursor_y color
                x_lo x_hi y_lo y_hi ltac:(lia) OY ltac:(lia) BY1 BY2
                7%nat 0 g t K ltac:(lia) ltac:(lia))
      as (g1 & w1 & l1 & -> & P1 & F1).
    destruct (IH (col + 1) g1 (w1, snd t ++ l1) (repainted_ok g g1 K P1)
                ltac:(lia) ltac:(lia))
      as (g2 & w2 & l2 & -> & P2 & F2).
    destruct (repainted_view g g1 P1) as (_ & V1 & V2 & V3).
    rewrite V1, V2, V3 in F2.
    exists g2, w2, (l1 ++ l2). cbn [snd]. rewrite app_assoc.
    split; [reflexivity|]. split; [exact (repainted_trans _ _ _ P1 P2)|].
    rewrite calls_of_app. apply Forall_app. split; assumption.
Qed.

Lemma glyph_has_five_columns c : length (glyph_for_char c) = 5%nat.
Proof. destruct c as [[] [] [] [] [] [] [] []]; reflexivity. Qed.

Lemma draw_text_from_spec cursor_y color x_lo x_hi y_lo y_hi :
  cursor_y + 7 <= INT32_MAX -> y_lo <= cursor_y -> cursor_y + 7 <= y_hi ->
  forall (s : list Ascii.ascii) (cursor_x : Z) (g : display_ctx_t)
         (t : World * Trace),
    display_ok g ->
    cursor_x + 6 * Z.of_nat (length s) <= INT32_MAX ->
    x_lo <= cursor_x -> cursor_x + 6 * Z.of_nat (length s) <= x_hi ->
    exists g' w' l,
      draw_text_from (World * Trace) tcall s cursor_x cursor_y color g t
      = Some (g', (w', snd t ++ l)) /\
      repainted g g' /\
      Forall (pixel_in (panel g) (Z.max x_lo 0)
                (Z.min x_hi (active_width g)) (Z.max y_lo 0)
                (Z.min y_hi (active_height g)) color)
        (calls_of l).
Proof.
  intros OY BY1 BY2.
  induction s as [|c s IH]; intros cursor_x g t K OX BX1 BX2.
  - exists g, (fst t), []. rewrite app_nil_r. destruct t.
    split; [reflexivity|]. split; [apply repainted_refl|constructor].
  - cbn [draw_text_from]. cbn [length] in OX, BX2.
    destruct (Ascii.eqb c Ascii.zero).
    { exists g, (fst t), []. rewrite app_nil_r. destruct t.
      split; [reflexivity|]. split; [apply repainted_refl|constructor]. }
    destruct (draw_glyph_cols_spec (glyph_for_char c) cursor_x cursor_y color
                x_lo x_hi y_lo y_hi (glyph_has_five_columns c) ltac:(lia) OY
                BX1 ltac:(lia) BY1 BY2 5%nat 0 g t K ltac:(lia) ltac:(lia))
      as (g1 & w1 & l1 & -> & P1 & F1).
    destruct (Z.gtb_spec (cursor_x + 6) INT32_MAX); [lia|].
    destruct (IH (cursor_x + 6) g1 (w1, snd t ++ l1)
                (repainted_ok g g1 K P1) ltac:(lia) ltac:(lia) ltac:(lia))
      as (g2 & w2 & l2 & -> & P2 & F2).
    destruct (repainted_view g g1 P1) as (_ & V1 & V2 & V3).
    rewrite V1, V2, V3 in F2.
    exists g2, w2, (l1 ++ l2). cbn [snd]. rewrite app_assoc.
    split; [reflexivity|]. split; [exact (repainted_trans _ _ _ P1 P2)|].
    rewrite calls_of_app. apply Forall_app. split; assumption.
Qed.

(** X29: display_draw_text_minimal stays in the box of its text. For a
    text of [n] characters at [(x, y)] on a module in order, as long as
    [x + 6 * n] and [y + 7] stay within [int], the call has a meaning (no
    sum leaves [int], no glyph and no buffer is left); all it asks of the
    panel are windows of a single pixel of the colour, each within the
    columns [x .. x + 6 * n - 1] and the rows [y .. y + 6] and within the
    viewport; nothing but the pixels of the line buffer changes, and on a
    module that is not initialized nothing is drawn at all. *)
Theorem text_stays_in_its_box :
  forall (s : list Ascii.ascii) (x y rgb565 : Z) (g : display_ctx_t)
         (w0 : World),
    display_ok g ->
    x + 6 * Z.of_nat (length s) <= INT32_MAX -> y + 7 <= INT32_MAX ->
    exists g' w' l,
      display_draw_text_minimal (World * Trace) tcall x y (Some s) rgb565 g
        (w0, [])
      = Some (g', (w', l)) /\
      display_ok g' /\ repainted g g' /\
      Forall (pixel_in (panel g) (Z.max x 0)
                (Z.min (x + 6 * Z.of_nat (length s)) (active_width g))
                (Z.max y 0) (Z.min (y + 7) (active_height g)) rgb565)
        (calls_of l) /\
      (initialized g = false -> l = []).
Proof.
  intros s x y rgb565 g w0 K OX OY. unfold display_draw_text_minimal.
  destruct (initialized g) eqn:I; cbn [negb].
  - destruct (draw_text_from_spec y rgb565 x (x + 6 * Z.of_nat (length s)) y
                (y + 7) OY ltac:(lia) ltac:(lia) s x g (w0, []) K OX
                ltac:(lia) ltac:(lia))
      as (g' & w' & l & E & P & F).
    exists g', w', l. cbn [snd app] in E.
    split; [exact E|]. split; [exact (repainted_ok g g' K P)|].
    split; [exact P|]. split; [exact F|]. discriminate.
  - exists g, w0, []. split; [reflexivity|]. split; [exact K|].
    split; [apply repainted_refl|]. split; [constructor|]. reflexivity.
Qed.

End DisplayFacts.

Section DisplayWitnesses.

Import Display.
Import Ascii.

Local Notation "'Trace'" := (list (lcd_call * esp_err_t * option Z)).
Local Notation "'sim'" := (traced_call LcdSim.call).

Lemma g_disp0_ok : display_ok g_disp0.
Proof. intros F. discriminate F. Qed.

Lemma g_disp1_ok : display_ok LcdSim.g_disp1.
Proof.
  intros _. split; [reflexivity|]. split; [reflexivity|].
  split; [split; [reflexivity|discriminate]|].
  split; [split; [reflexivity|discriminate]|]. reflexivity.
Qed.

Lemma draw_rect_clips_to_the_viewport_witness :
  display_ok LcdSim.g_disp1 /\
  160 + 50 <= INT32_MAX /\ 300 + 50 <= INT32_MAX /\
  exists g' w' l,
    display_draw_rect (nat * Trace) sim 160 300 50 50 63488
      LcdSim.g_disp1 (100%nat, [])
    = Some (g', (w', l)) /\
    display_ok g' /\
    calls_of l = row_windows 20 (Some 9) 300 160 170 (s_line_buf g').
Proof.
  assert (X : 160 + 50 <= INT32_MAX) by (vm_compute; discriminate).
  assert (Y : 300 + 50 <= INT32_MAX) by (vm_compute; discriminate).
  split; [exact g_disp1_ok|]. split; [exact X|]. split; [exact Y|].
  pose proof (draw_rect_clips_to_the_viewport nat LcdSim.call
                LcdSim.g_disp1 100%nat 160 300 50 50 63488 g_disp1_ok X Y)
    as T.
  cbv zeta in T. destruct T as (g' & w' & l & E & K & R).
  exists g', w', l. split; [exact E|]. split; [exact K|].
  lazymatch type of R with
  | if ?c then _ else _ =>
    replace c with true in R by (vm_compute; reflexivity)
  end.
  destruct R as (_ & _ & _ & _ & _ & R). exact R.
Defined.

Lemma display_init_outcome_witness :
  length (s_line_buf g_disp0) = 320%nat /\
  (initialized g_disp0 = false -> io g_disp0 = None /\ panel g_disp0 = None) /\
  display_ok g_disp0 /\
  (let '(ret, g', t') :=
     display_init (nat * Trace) sim (Some LcdSim.display_pins)
       (Some LcdSim.display_cfg) g_disp0 (10%nat, []) in
   ret = ESP_OK /\ display_ok g' /\ initialized g' = true /\
   In (ledc_set_duty 6552, ESP_FAIL, None) (snd t') /\
   exists done rest,
     snd t' = done ++ rest /\ succeeded done /\
     calls_of done
     = checked_calls LcdSim.display_pins LcdSim.display_cfg (io g') (panel g') /\
     calls_of rest = unchecked_calls LcdSim.display_cfg (panel g')) /\
  (let '(ret, g', t') :=
     display_init (nat * Trace) sim (Some LcdSim.display_pins)
       (Some LcdSim.display_cfg) g_disp0 (4%nat, []) in
   ret = ESP_FAIL /\ display_ok g' /\ initialized g' = false /\
   released (snd t') /\
   last (calls_of (snd t')) ledc_update_duty = spi_bus_free).
Proof.
  assert (L : length (s_line_buf g_disp0) = 320%nat) by reflexivity.
  assert (N : initialized g_disp0 = false ->
              io g_disp0 = None /\ panel g_disp0 = None)
    by (intros _; split; reflexivity).
  split; [exact L|]. split; [exact N|]. split; [exact g_disp0_ok|]. split.
  - pose proof (display_init_outcome nat LcdSim.call LcdSim.display_pins
                  LcdSim.display_cfg g_disp0 10%nat L N g_disp0_ok) as T.
    remember (display_init (nat * Trace) sim
                (Some LcdSim.display_pins) (Some LcdSim.display_cfg) g_disp0
                (10%nat, [])) as res eqn:E in *.
    destruct res as [[ret g'] t'].
    assert (R : ret = ESP_OK).
    { apply (f_equal (fun x => fst (fst x))) in E. cbn [fst] in E.
      rewrite E. vm_compute. reflexivity. }
    assert (D : In (ledc_set_duty 6552, ESP_FAIL, None) (snd t')).
    { apply (f_equal (fun x => snd (snd x))) in E. cbn [snd] in E.
      rewrite E. vm_compute. do 10 right. left. reflexivity. }
    destruct T as (K & T).
    change (negb (cfg_valid LcdSim.display_cfg)) with false in T.
    change (initialized g_disp0) with false in T. cbv iota in T.
    destruct T as (_ & _ & F & _).
    destruct (F R) as (F1 & _ & _ & _ & F2).
    split; [exact R|]. split; [exact K|]. split; [exact F1|].
    split; [exact D|exact F2].
  - pose proof (display_init_outcome nat LcdSim.call LcdSim.display_pins
                  LcdSim.display_cfg g_disp0 4%nat L N g_disp0_ok) as T.
    remember (display_init (nat * Trace) sim
                (Some LcdSim.display_pins) (Some LcdSim.display_cfg) g_disp0
                (4%nat, [])) as res eqn:E in *.
    destruct res as [[ret g'] t'].
    assert (R : ret = ESP_FAIL).
    { apply (f_equal (fun x => fst (fst x))) in E. cbn [fst] in E.
      rewrite E. vm_compute. reflexivity. }
    assert (C : calls_of (snd t')
                <> [spi_bus_initialize (sck LcdSim.display_pins)
                      (mosi LcdSim.display_pins)
                      (width LcdSim.display_cfg * 80)]).
    { apply (f_equal (fun x => calls_of (snd (snd x)))) in E. cbn [snd] in E.
      rewrite E. vm_compute. discriminate. }
    destruct T as (K & T).
    change (negb (cfg_valid LcdSim.display_cfg)) with false in T.
    change (initialized g_disp0) with false in T. cbv iota in T.
    destruct T as (_ & _ & _ & F).
    assert (NE : ret <> ESP_OK)
      by (rewrite R; unfold ESP_FAIL, ESP_OK; discriminate).
    destruct (F NE) as (F1 & _ & [[F2 _]|F2]); [contradiction|].
    split; [exact R|]. split; [exact K|]. split; [exact F1|].
    destruct F2 as (_ & _ & _ & F3 & F4). split; [exact F3|exact F4].
Defined.

Lemma set_rotation_turns_the_viewport_witness :
  display_ok LcdSim.g_disp1 /\
  let '(g', t') :=
    display_set_rotation (nat * Trace) sim 1 LcdSim.g_disp1
      (100%nat, []) in
  display_ok g' /\ rotation g' = 1 /\
  (active_width g', active_height g', active_x_offset g', active_y_offset g')
  = (320, 170, 0, 35) /\
  calls_of (snd t')
  = [esp_lcd_panel_swap_xy (Some 9) true;
     esp_lcd_panel_mirror (Some 9) true false;
     esp_lcd_panel_set_gap (Some 9) 0 35].
Proof.
  split; [exact g_disp1_ok|].
  pose proof (set_rotation_turns_the_viewport nat LcdSim.call 1
                LcdSim.g_disp1 100%nat g_disp1_ok) as T.
  cbv zeta in T.
  remember (display_set_rotation (nat * Trace) sim 1 LcdSim.g_disp1
              (100%nat, [])) as res eqn:E in *.
  clear E. destruct res as [g' t'].
  destruct T as (K & T). split; [exact K|].
  change (initialized LcdSim.g_disp1) with true in T. cbv iota in T.
  destruct T as (T1 & T2 & _ & T4).
  split; [exact T1|]. split; [exact T2|].
  rewrite T4. injection T2 as _ _ -> ->. reflexivity.
Defined.

Lemma backlight_duty_is_bounded_witness :
  0 <= 80 < 256 /\
  calls_of
    (snd (display_backlight_set (nat * Trace) sim 80 LcdSim.g_disp1
            (100%nat, [])))
  = [ledc_set_duty 6552; ledc_update_duty].
Proof.
  assert (H : 0 <= 80 < 256) by (split; [discriminate|reflexivity]).
  split; [exact H|].
  exact (proj2 (proj2 (backlight_duty_is_bounded nat LcdSim.call 80
                         LcdSim.g_disp1 100%nat H))).
Defined.

Lemma fill_color_covers_the_viewport_witness :
  display_ok LcdSim.g_disp1 /\ initialized LcdSim.g_disp1 = true /\
  exists g' w' l,
    display_fill_color (nat * Trace) sim 63488 LcdSim.g_disp1
      (400%nat, [])
    = Some (g', (w', l)) /\
    display_ok g' /\
    nth_error (s_line_buf g') 169 = Some 63488 /\
    nth_error (s_line_buf g') 170 = Some 0 /\
    calls_of l = row_windows 320 (Some 9) 0 0 170 (s_line_buf g').
Proof.
  split; [exact g_disp1_ok|]. split; [reflexivity|].
  destruct (fill_color_covers_the_viewport nat LcdSim.call 63488
              LcdSim.g_disp1 400%nat g_disp1_ok eq_refl)
    as (g' & w' & l & E & K & _ & _ & N & C).
  exists g', w', l. split; [exact E|]. split; [exact K|].
  split; [rewrite N; reflexivity|]. split; [rewrite N; reflexivity|].
  exact C.
Defined.

Lemma text_stays_in_its_box_witness :
  display_ok LcdSim.g_disp1 /\
  12 + 6 * Z.of_nat (length ["T"; "E"; "M"; "P"]%char) <= INT32_MAX /\
  12 + 7 <= INT32_MAX /\
  exists g' w' l,
    display_draw_text_minimal (nat * Trace) sim 12 12
      (Some ["T"; "E"; "M"; "P"]%char) 65535 LcdSim.g_disp1 (400%nat, [])
    = Some (g', (w', l)) /\
    display_ok g' /\
    Forall (pixel_in (Some 9) 12 36 12 19 65535) (calls_of l).
Proof.
  assert (X : 12 + 6 * Z.of_nat (length ["T"; "E"; "M"; "P"]%char)
              <= INT32_MAX) by (vm_compute; discriminate).
  assert (Y : 12 + 7 <= INT32_MAX) by (vm_compute; discriminate).
  split; [exact g_disp1_ok|]. split; [exact X|]. split; [exact Y|].
  destruct (text_stays_in_its_box nat LcdSim.call ["T"; "E"; "M"; "P"]%char
              12 12 65535 LcdSim.g_disp1 400%nat g_disp1_ok X Y)
    as (g' & w' & l & E & K & _ & F & _).
  exists g', w', l. split; [exact E|]. split; [exact K|]. exact F.
Defined.

End DisplayWitnesses.
